(* ===== verification/_CoqProject ===== *)
-Q . S2P
Prelude.v
Totality.v
RingBuffer.v
InterruptQueue.v
Buddy.v
BuddyTree.v
BuddyBits.v
BuddyAlloc.v
BuddyNew.v
BuddySpec.v
BuddyTotal.v
Slab.v
SlabList.v
SlabPage.v
SlabAlloc.v
SlabSpec.v
SlabBuddy.v
SlabTotal.v
MemoryMap.v
MemoryMapSpec.v
KernelMemory.v
KernelMemorySpec.v
PageTable.v
PageTableWalk.v
PageTableSpec.v
E820.v
Detect.v
Bootloader.v
MemoryInit.v
PagePrint.v
PagePrintSpec.v
BootTables.v
Startup.v
LongMode.v
Context.v
ContextSpec.v
IrqMutex.v
Pic.v
EventLoop.v
Schedule.v
Terminal.v
TerminalScreen.v
TerminalStatus.v
TerminalGrid.v
TerminalEdit.v
TerminalSpec.v
TerminalTotal.v
Output.v
Task.v
Interrupts.v
PanicScreen.v
Shell.v
ShellSpec.v
Console.v
Boot.v
Session.v
Tests.v
