(* ===== verification/Prelude.v ===== *)
(** * A verification development of the kernel rigoros

    rigoros is a small kernel for one x86-64 processor.  Its parts, and how
    they work together:

    - The boot sector ([src/bootloader]) loads the kernel from disk, and
      [startup.S] and [entry.S] ([src/kernel/src]) ask the BIOS for the memory
      map, build the first page tables, enter 64-bit mode, copy the kernel to its
      place and call [kmain] ([lib.rs]), which initialises the parts in order, shows
      a prompt and enters the main loop.  Interrupt handlers ([pit.rs],
      [keyboard.rs], [idt.rs]) only put messages into a queue
      ([interrupt_queue.rs], over [ring_buffer.rs]) and acknowledge the
      interrupt ([pic.rs]); the loop takes the messages out with interrupts
      disabled, counts ticks and feeds scan codes to the terminal.
    - The terminal ([terminal.rs]) keeps the printed rows in a ring buffer,
      shows a window of them in video memory, edits the input line, and hands
      a complete line to the shell ([shell.rs]), whose commands print to the
      terminal and, as a log, to the serial port ([serial.rs]).
    - Memory ([memory.rs]): the BIOS map is turned into a map of usable
      pages, page tables are built that map them contiguously, and the pages
      behind the tables go to a buddy allocator ([src/buddyblock]).  A slab
      allocator ([src/slab_alloc]) hands out objects of one type from the
      pages of such an allocator.
    - Locks that interrupt handlers may take are [IrqMutex]es
      ([irq_mutex.rs]).  A test task ([task.rs]) runs as a coroutine over the
      context switch of [context.S].
    - A panic ([terminal.rs], [fixed_writer.rs]) shows its message and halts.

    ** How the code is modelled

    A fallible computation is a [result]: a value or a [Panic] with its
    cause.  A machine word is an [N]; since the kernel's build is the dev
    profile, overflowing arithmetic panics, and the checked operations of
    this file do.  Mutable state is a record that the operations take and
    return, memory is a map from addresses; what a violated contract of an
    [unsafe] operation would do is [Panic UB].  The calls of a static behind
    a lock are the sequence of operations on its value; that the locks make
    them so is the subject of [IrqMutex].  Names are those of the source.

    Loops that are not a traversal of a list have a bound on their
    iterations, and reaching it is [Panic OutOfFuel].  The bounds are the
    width of a word for loops that halve or shift one ([chunk_loop] and
    [new_loop] 64, [index_loop] 65), the length of what is searched and one
    more ([first_byte], [first_offset], [merge_loop], [remove_loop], the
    loops of the line editor 513), 128 for [init_loop] of the slab allocator,
    whose objects take at least 36 bytes of a page, and 2 for the recursion of
    [new_line_at]; 512 entries of a table in [startup.S]; as many rounds of
    [detect] as the BIOS has entries.  The theorems show
    results, not only results on return, so they imply that the bounds suffice;
    [allocators_terminate] and [input_positions] show it for every state and
    argument of the allocators and of the line editor.

    Crates are type classes with their documented behaviour as laws, and an
    instance that shows the laws can hold: [NumInteger] (num-integer),
    [NumEnum] (num_enum), [NumIter] (num-iter), [SortUnstable] (the sorting of
    the standard library, which leaves the order of equals open), [X86Addr],
    [X86Paging], [RawEntry] and [GlobalDescriptorTable] (x86_64), [SpinMutex] (spin),
    [ArrayVec], [ArgVec] and [ArrayString] (arrayvec), [ChainedPics] (pic8259),
    [SerialPort] (uart_16550), [PcKeyboard] (pc_keyboard).  [Bios],
    [Disk] and [Processor] are what the boot code finds.  [PageAllocatorOk] and
    [BoundedQueue] are interfaces between components of the program.

    ** The files

    - This file: results, checked arithmetic, slices and loops, their lemmas,
      and the tactics [mred], [mstep], [minv], [mpeel].  [Totality]: runs that
      end within their bounds.
    - [RingBuffer] ([ring_buffer.rs]): all operations refine a bounded list; it
      carries the position of its first element in the array, on which it
      depends which indices overflow.
    - [InterruptQueue] ([interrupt_queue.rs]): first in, first out, for every
      interleaving of pushes and pops.
    - [Buddy] ([buddyblock/src/lib.rs]): data and operations.  [BuddyTree]: the
      buddy system as sets of free and used blocks.  [BuddyBits]: the bitmaps.
      [BuddyAlloc]: invariant, alloc and dealloc.  [BuddyNew]: layout and
      construction, with the contract of the slices that [new] makes from the
      address of the chunk.  [BuddySpec]: what clients rely on, over all
      histories of requests: disjointness, no panics, refusal only if full,
      restoration; and what a second [dealloc] of a range does.
      [BuddyTotal]: termination and types on any state.
    - [Slab] ([slab_alloc/src/lib.rs]): data and operations.  [SlabList],
      [SlabPage], [SlabAlloc]: the page list, pages and objects, the
      invariant.  [SlabSpec]: what clients rely on, and which misuse is
      detected.  [SlabBuddy]: the buddy allocator implements the interface of
      the slab allocator.  [SlabTotal]: termination on any state.
    - [MemoryMap], [MemoryMapSpec] ([memory.rs]): the map of usable pages and
      the two address translations, which are inverse bijections.  [E820]: the
      BIOS map read from its bytes.
    - [KernelMemory], [KernelMemorySpec] ([memory.rs], [shell.rs]): the
      kernel's allocation functions and the shell's self test of them.
    - [PageTable], [PageTableWalk], [PageTableSpec] ([memory.rs]): the
      construction of the page tables, where every access to a table is itself
      translated by the tables; the processor's view of the result, that no
      other frame is written, and that the allocator cannot disturb it.
      [MemoryInit]: all of [init_memory].
    - [PagePrint], [PagePrintSpec] ([memory.rs]): what [print_page] prints is
      what the processor maps.
    - [Bootloader] ([boot.S]): the boot sector, and why it fails on drives with
      linear addresses.  [Detect], [Startup], [LongMode] ([startup.S], [entry.S]): the boot code,
      instruction by instruction: the A20 gate and the memory map that it gets
      from the BIOS in real mode; its page tables; the changes of mode, the checks
      of the processor and the copy of the kernel.  [BootTables]: after
      [init_dyn_page] nothing is mapped but dynamic memory and the kernel's half.
    - [Context], [ContextSpec] ([context.rs], [context.S]): the context switch
      on a machine of registers and memory.  [Task] ([task.rs]): the test task;
      what runs after a switch is decided by the registers that it loads, and
      [switches_run] ties the switches to the instructions of [context.S].
    - [IrqMutex] ([irq_mutex.rs]): the operations as sequences of instructions,
      between any two of which an interrupt may come, and guards that are
      dropped in any order: mutual exclusion, and, if the first guard of a
      context is dropped last, critical sections without interrupts, whose uses
      of a mutex do not overlap; [out_of_order] is what happens otherwise.
    - [Pic] ([pic.rs]): lines, masks and acknowledgement.  [Interrupts]
      ([idt.rs], [gdt.rs], [pit.rs]): gates, handlers, selectors.
    - [EventLoop] ([lib.rs], [pit.rs], [keyboard.rs]): the main loop and the
      interrupts as a step relation; no message is slept over.  [Schedule]: what
      a run does depends on the messages taken, not on their interleaving.
    - [Terminal] ([terminal.rs]): data and operations.  [TerminalScreen],
      [TerminalStatus]: the transcript and its window, status lines and
      scrolling.  [TerminalGrid]: rows as one line of cells.  [TerminalEdit]: the
      line editor, for lines of several rows.  [TerminalSpec]: what the terminal
      promises, and the keys with which it does not keep it.  [TerminalTotal]: the loops of the
      editor end, and its positions stay in their ranges.
    - [Output] ([terminal.rs], [serial.rs]): formats, [print!] and [log!].
      [PanicScreen] ([terminal.rs], [fixed_writer.rs]): the panic handler.
    - [Shell], [ShellSpec] ([shell.rs]): the commands; which lines panic.
    - [Console] ([lib.rs], [keyboard.rs]): the main loop with terminal and shell
      refines an abstract console.  [Boot] ([lib.rs]): [kmain] up to the main
      loop, and the console from then on.  [Session]: the whole, from the boot
      sector on.
    - [Tests]: unit tests of the repository, run in the model.

    ** What the theorems show

    - Memory safety: ranges and objects in use never overlap, allocation
      answers whenever it can, freeing restores; what is allocated is backed
      by usable pages of its own, page tables apart; misuse that the code
      detects, and a double free that it does not.
    - Functional correctness of the memory map, the translations, the page
      tables, the ring buffer, the terminal, the shell and the context switch,
      most of them against a simpler specification: lists, sets of blocks, a
      transcript of rows, a line with a cursor.
    - The address space: from the instructions of the boot code to the end of
      [init_dyn_page], exactly which page is mapped to which frame.
    - The whole: [console_refines] makes the kernel at its prompt an abstract
      machine over views, [schedule_independent] frees it from the interleaving,
      [kernel_session] starts it from [kmain], and [kernel_survives] from
      power-on, on machines on which the boot code works: only the panicking
      commands of [shell_lines], and the keys that [tidy] excludes, can stop it.
      What the boot code relies on, and does not bring about, is a hypothesis:
      dynamic memory that starts at [DYNMEM_START_PHYS] with three pages, and
      zeroes there and in the upper half of the entry at [0x1000].
    - Errors: which requests, keys and commands panic.

    ** Not modelled

    - The image tool, a build tool in C.
    - The stack of the boot code below 0x7c00 (but for the packets of
      [lba_loop]), with the return addresses, saved
      registers and flags on it: pushes and pops are bindings of the model.  What
      is said of low memory is used below 0x7000 and from 0x8000 on.
    - The crates themselves, the BIOS, and the devices behind their ports.
    - Interrupts between their being enabled and the main loop are taken before
      the loop: they touch only the queue and the interrupt controllers, which
      the statements in between do not use.
    - Cached translations: [flush_all] only drops them, and the model always
      translates through the tables.
    - What a command printed before it panicked, since its output is a value
      that a panic drops; and the division of formatted numbers into pieces,
      which does not change what is shown.
    - [Task::new] and [Scheduler], which are empty; tests with random numbers.
    - For the abstract console, the keys that [tidy] excludes: [keyboard_defects]
      shows that rows are then lost or left over, or that the kernel panics, so
      that there is no line of rows to refine.  [input_positions] holds for
      them too. *)
From Stdlib Require Export ZifyN ZifyNat.
From stdpp Require Export base numbers list list_numbers option.

Ltac Zify.zify_post_hook ::= Z.to_euclidean_division_equations.

(** ** Machine words

    A [usize], [u64], [u32], [u16] or [u8] of the source is an [N].  The
    kernel's default build is the dev profile, in which an arithmetic
    overflow panics: the checked operations below return [Panic] there. *)
Abbreviation W64 := 18446744073709551616%N (only parsing).
Abbreviation W32 := 4294967296%N (only parsing).
Abbreviation W16 := 65536%N (only parsing).

(** ** Results: a value, or the panic that stops the kernel *)
Inductive panic :=
  | Overflow            (* arithmetic overflow, a shift by the width, a zero divisor *)
  | OutOfBounds         (* slice index out of range *)
  | Assertion           (* [assert!], [assert_eq!], [assert_ne!] *)
  | Expect              (* [expect]/[unwrap] of [None] or [Err] *)
  | Explicit            (* [panic!] *)
  | UB                  (* a violated contract of an [unsafe] operation *)
  | OutOfFuel.          (* bound on the iterations of a loop of the model *)

Inductive result (A : Type) :=
  | Ok (a : A)
  | Panic (p : panic).
Arguments Ok {_} _.
Arguments Panic {_} _.

#[export] Instance panic_eq_dec : EqDecision panic.
Proof. solve_decision. Defined.
#[export] Instance result_eq_dec {A} `{EqDecision A} : EqDecision (result A).
Proof. solve_decision. Defined.

#[export] Instance result_ret : MRet result := λ A x, Ok x.
#[export] Instance result_bind : MBind result := λ A B f m,
  match m with Ok x => f x | Panic p => Panic p end.
#[export] Instance result_fmap : FMap result := λ A B f m,
  match m with Ok x => Ok (f x) | Panic p => Panic p end.

Definition is_Ok {A} (m : result A) : Prop := ∃ x, m = Ok x.

(** [assert!(b)] *)
Definition assert (b : bool) : result unit :=
  if b then Ok () else Panic Assertion.

(** [o.expect(..)] *)
Definition expect {A} (o : option A) : result A :=
  match o with Some x => Ok x | None => Panic Expect end.

(** ** Checked arithmetic *)
Declare Scope checked_scope.
Delimit Scope checked_scope with checked.

Definition checked_add (w a b : N) : result N :=
  if (a + b <? w)%N then Ok (a + b)%N else Panic Overflow.
Definition checked_sub (a b : N) : result N :=
  if (b <=? a)%N then Ok (a - b)%N else Panic Overflow.
Definition checked_mul (w a b : N) : result N :=
  if (a * b <? w)%N then Ok (a * b)%N else Panic Overflow.
(** [a << b] on a [usize]: bits shifted out are dropped, and a shift by 64 or
    more panics. *)
Definition checked_shl (a b : N) : result N :=
  if (b <? 64)%N then Ok (N.shiftl a b mod W64)%N else Panic Overflow.
Definition checked_shr (a b : N) : result N :=
  if (b <? 64)%N then Ok (N.shiftr a b) else Panic Overflow.

(** Division panics on a zero divisor. *)
Definition checked_div (a b : N) : result N :=
  if (b =? 0)%N then Panic Overflow else Ok (a / b)%N.

Notation "a +! b" := (checked_add W64 a b) (at level 50, left associativity) : checked_scope.
Notation "a -! b" := (checked_sub a b) (at level 50, left associativity) : checked_scope.
Notation "a *! b" := (checked_mul W64 a b) (at level 40, left associativity) : checked_scope.
Notation "a /! b" := (checked_div a b) (at level 40, left associativity) : checked_scope.
Notation "a <<! b" := (checked_shl a b) (at level 30, no associativity) : checked_scope.
Notation "a >>! b" := (checked_shr a b) (at level 30, no associativity) : checked_scope.

(** ** The crate [num-integer]

    Only its [div_ceil] is used; the documented behaviour is the division
    rounded up. *)
Class NumInteger := {
  div_ceil : N → N → N;
  div_ceil_bounds a b : (0 < b)%N → (a ≤ div_ceil a b * b < a + b)%N;
}.

(** ** Slices and arrays, indexed by a [usize] *)
Definition vlen {A} (l : list A) : N := N.of_nat (length l).
Definition vget {A} (l : list A) (i : N) : result A :=
  match l !! N.to_nat i with Some x => Ok x | None => Panic OutOfBounds end.
Definition vset {A} (l : list A) (i : N) (x : A) : result (list A) :=
  if (i <? vlen l)%N then Ok (<[N.to_nat i := x]> l) else Panic OutOfBounds.

(** ** Loops

    [for_each l f s] runs the body [f] for each element of [l] in order,
    threading the state and stopping at the first panic: the model of a Rust
    [for] loop over an iterator without early exit. *)
Fixpoint for_each {A S} (l : list A) (f : A → S → result S) (s : S) : result S :=
  match l with
  | [] => Ok s
  | x :: l => s' ← f x s; for_each l f s'
  end.

(** The range [a..b] of words. *)
Definition range (a b : N) : list N :=
  N.of_nat <$> seq (N.to_nat a) (N.to_nat b - N.to_nat a).

(** ** Lemmas on results *)
Section result_lemmas.
Context {A B C : Type}.

Lemma bind_Ok (x : A) (f : A → result B) : (Ok x ≫= f) = f x.
Proof. done. Qed.
Lemma bind_Panic p (f : A → result B) : (Panic p ≫= f) = Panic p.
Proof. done. Qed.
Lemma bind_Ok_inv (m : result A) (f : A → result B) y :
  m ≫= f = Ok y → ∃ x, m = Ok x ∧ f x = Ok y.
Proof. destruct m; naive_solver. Qed.
Lemma fmap_Ok (x : A) (f : A → B) : f <$> Ok x = Ok (f x).
Proof. done. Qed.
Lemma fmap_Ok_inv (m : result A) (f : A → B) y :
  f <$> m = Ok y → ∃ x, m = Ok x ∧ y = f x.
Proof. destruct m; naive_solver. Qed.
End result_lemmas.

Lemma assert_true b : b = true → assert b = Ok ().
Proof. by intros ->. Qed.
Lemma assert_false b : b = false → assert b = Panic Assertion.
Proof. by intros ->. Qed.
Lemma assert_inv b x : assert b = Ok x → b = true.
Proof. by destruct b. Qed.

Lemma checked_add_Ok w a b : (a + b < w)%N → checked_add w a b = Ok (a + b)%N.
Proof. unfold checked_add. case (N.ltb_spec (a + b) w); [done|lia]. Qed.
Lemma checked_add_Panic w a b : (w ≤ a + b)%N → checked_add w a b = Panic Overflow.
Proof. unfold checked_add. case (N.ltb_spec (a + b) w); [lia|done]. Qed.
Lemma checked_sub_Ok a b : (b ≤ a)%N → checked_sub a b = Ok (a - b)%N.
Proof. unfold checked_sub. case (N.leb_spec b a); [done|lia]. Qed.
Lemma checked_sub_Panic a b : (a < b)%N → checked_sub a b = Panic Overflow.
Proof. unfold checked_sub. case (N.leb_spec b a); [lia|done]. Qed.
Lemma checked_mul_Ok w a b : (a * b < w)%N → checked_mul w a b = Ok (a * b)%N.
Proof. unfold checked_mul. case (N.ltb_spec (a * b) w); [done|lia]. Qed.
Lemma checked_div_Ok a b : (0 < b)%N → checked_div a b = Ok (a / b)%N.
Proof. intros Hb. unfold checked_div. by destruct (N.eqb_spec b 0); [lia|]. Qed.
Lemma checked_shl_Ok a b :
  (b < 64)%N → (a * 2 ^ b < W64)%N → checked_shl a b = Ok (a * 2 ^ b)%N.
Proof.
  intros Hb Ha. unfold checked_shl. destruct (N.ltb_spec b 64); [|lia].
  by rewrite N.shiftl_mul_pow2, N.mod_small.
Qed.
Lemma checked_shr_Ok a b : (b < 64)%N → checked_shr a b = Ok (a / 2 ^ b)%N.
Proof.
  intros Hb. unfold checked_shr. destruct (N.ltb_spec b 64); [|lia].
  by rewrite N.shiftr_div_pow2.
Qed.

(** ** Lemmas on slices *)
Section slice_lemmas.
Context {A : Type}.
Implicit Types (l : list A) (i j : N) (x : A).

Lemma vget_Some l i x : l !! N.to_nat i = Some x → vget l i = Ok x.
Proof. unfold vget. by intros ->. Qed.
Lemma vget_inv l i x : vget l i = Ok x → l !! N.to_nat i = Some x.
Proof. unfold vget. case_match; naive_solver. Qed.
Lemma vget_is_Ok l i : (i < vlen l)%N → ∃ x, vget l i = Ok x ∧ l !! N.to_nat i = Some x.
Proof.
  unfold vlen. intros Hi.
  destruct (lookup_lt_is_Some_2 l (N.to_nat i)) as [x Hx]; [lia|].
  exists x. auto using vget_Some.
Qed.
Lemma vget_Panic l i : (vlen l ≤ i)%N → vget l i = Panic OutOfBounds.
Proof.
  unfold vlen, vget. intros Hi. rewrite lookup_ge_None_2; [done|lia].
Qed.
Lemma vset_Ok l i x : (i < vlen l)%N → vset l i x = Ok (<[N.to_nat i := x]> l).
Proof. unfold vset. destruct (N.ltb_spec i (vlen l)); [done|lia]. Qed.
Lemma vset_Panic l i x : (vlen l ≤ i)%N → vset l i x = Panic OutOfBounds.
Proof. unfold vset. destruct (N.ltb_spec i (vlen l)); [lia|done]. Qed.
Lemma vlen_insert l (n : nat) x : vlen (<[n := x]> l) = vlen l.
Proof. unfold vlen. by rewrite length_insert. Qed.
Lemma vlen_app l1 l2 : vlen (l1 ++ l2) = (vlen l1 + vlen l2)%N.
Proof. unfold vlen. rewrite length_app. lia. Qed.
Lemma vlen_cons x l : vlen (x :: l) = (vlen l + 1)%N.
Proof. unfold vlen. simpl. lia. Qed.
Lemma to_nat_vlen l : N.to_nat (vlen l) = length l.
Proof. unfold vlen. lia. Qed.
End slice_lemmas.

(** Overwriting the part of a slice that starts at [p]. *)
Section splice.
Context {A : Type}.
Implicit Types (l r : list A) (p q n : nat).

Definition splice p r l : list A := take p l ++ r ++ drop (p + length r) l.

Lemma length_splice p r l : p + length r ≤ length l → length (splice p r l) = length l.
Proof.
  intros H. unfold splice. rewrite !length_app, length_take, length_drop. lia.
Qed.
Lemma lookup_splice p r l i :
  p + length r ≤ length l →
  splice p r l !! i =
    if decide (p ≤ i < p + length r) then r !! (i - p) else l !! i.
Proof.
  intros H. unfold splice. case_decide as Hd.
  - rewrite lookup_app_r, length_take by (rewrite length_take; lia).
    rewrite lookup_app_l by lia. f_equal. lia.
  - destruct (decide (i < p)).
    + rewrite lookup_app_l, lookup_take_lt; [done|lia|rewrite length_take; lia].
    + rewrite lookup_app_r, length_take by (rewrite length_take; lia).
      rewrite lookup_app_r, lookup_drop by lia. f_equal. lia.
Qed.
Lemma splice_same p r l :
  p + length r ≤ length l → take (length r) (drop p (splice p r l)) = r.
Proof.
  intros H. unfold splice. rewrite drop_app_length' by (rewrite length_take; lia).
  by rewrite take_app_length.
Qed.
Lemma splice_other p r l q n :
  p + length r ≤ length l → q + n ≤ p ∨ p + length r ≤ q →
  take n (drop q (splice p r l)) = take n (drop q l).
Proof.
  intros H Hd. apply list_eq. intros i. destruct (decide (i < n)).
  - rewrite !lookup_take_lt, !lookup_drop, lookup_splice by done.
    by rewrite decide_False by lia.
  - by rewrite !lookup_take_ge by lia.
Qed.
Lemma Forall_splice (P : A → Prop) p r l :
  Forall P l → Forall P r → Forall P (splice p r l).
Proof.
  intros Hl Hr. unfold splice. rewrite !Forall_app.
  auto using Forall_take, Forall_drop.
Qed.
Lemma splice_nil p l : splice p [] l = l.
Proof. unfold splice. simpl. by rewrite Nat.add_0_r, take_drop. Qed.

Lemma splice_cons p x r l :
  (p + length (x :: r) ≤ length l) → splice (S p) r (<[p := x]> l) = splice p (x :: r) l.
Proof.
  intros Hl. simpl in Hl. apply list_eq. intros i. rewrite !lookup_splice by (rewrite ?length_insert; simpl; lia).
  simpl length. repeat case_decide; try lia.
  - by replace (i - p) with (S (i - S p)) by lia.
  - replace i with p by lia. rewrite Nat.sub_diag. by rewrite list_lookup_insert_eq by lia.
  - by rewrite list_lookup_insert_ne by lia.
Qed.

Lemma splice_app p r1 r2 l :
  (p + length (r1 ++ r2) ≤ length l) →
  splice (p + length r1) r2 (splice p r1 l) = splice p (r1 ++ r2) l.
Proof.
  rewrite length_app. intros Hl. apply list_eq. intros i.
  rewrite !lookup_splice by (rewrite ?length_splice, ?length_app; lia). rewrite length_app.
  repeat case_decide; try lia; try done.
  - rewrite lookup_app_r by lia. f_equal. lia.
  - by rewrite lookup_app_l by lia.
Qed.

Lemma splice_prefix r l1 l2 : splice (length l1) r (l1 ++ l2) = l1 ++ r ++ drop (length r) l2.
Proof. unfold splice. by rewrite take_app_length, drop_app_add. Qed.
End splice.

(** A function with the behaviour of [div_ceil], to run the definitions on examples. *)
#[export, refine] Instance num_integer_example : NumInteger := {
  div_ceil a b := (a / b + (if a mod b =? 0 then 0 else 1))%N;
}.
Proof.
  intros a b Hb. pose proof (N.div_mod' a b). pose proof (N.mod_lt a b).
  destruct (N.eqb_spec (a mod b) 0); nia.
Defined.

Lemma div_ceil_mult `{NumInteger} a b k : (0 < b)%N → a = (k * b)%N → div_ceil a b = k.
Proof. intros Hb ->. pose proof (div_ceil_bounds (k * b) b Hb). nia. Qed.

(** ** Lemmas on loops *)
Section for_each_lemmas.
Context {A S : Type} (f : A → S → result S).

(** A loop invariant indexed by the elements already processed. *)
Lemma for_each_inv (I : list A → S → Prop) l s :
  I [] s →
  (∀ l1 x l2 s, l = l1 ++ x :: l2 → I l1 s →
    ∃ s', f x s = Ok s' ∧ I (l1 ++ [x]) s') →
  ∃ s', for_each l f s = Ok s' ∧ I l s'.
Proof.
  intros H0 Hstep.
  assert (∀ l2 l1 s, l = l1 ++ l2 → I l1 s →
    ∃ s', for_each l2 f s = Ok s' ∧ I l s') as H; [|by apply (H l [] s)].
  clear s H0. induction l2 as [|x l2 IH]; intros l1 s -> HI; simpl.
  - rewrite app_nil_r. eauto.
  - destruct (Hstep l1 x l2 s eq_refl HI) as (s' & -> & HI'). simpl.
    apply (IH (l1 ++ [x])); [by rewrite <-app_assoc|done].
Qed.

Lemma for_each_app l1 l2 s :
  for_each (l1 ++ l2) f s = (s' ← for_each l1 f s; for_each l2 f s').
Proof.
  revert s. induction l1 as [|x l1 IH]; intros s; simpl; [done|].
  destruct (f x s); simpl; auto.
Qed.
End for_each_lemmas.

Lemma range_nil a b : (b ≤ a)%N → range a b = [].
Proof. intros H. unfold range. by replace (N.to_nat b - N.to_nat a) with 0 by lia. Qed.
Lemma range_cons a b : (a < b)%N → range a b = a :: range (a + 1) b.
Proof.
  intros H. unfold range.
  replace (N.to_nat b - N.to_nat a) with (S (N.to_nat b - N.to_nat (a + 1))) by lia.
  simpl. rewrite N2Nat.id. do 3 f_equal. lia.
Qed.
Lemma range_snoc a b : (a ≤ b)%N → range a (b + 1) = range a b ++ [b].
Proof.
  intros H. unfold range.
  replace (N.to_nat (b + 1) - N.to_nat a) with (S (N.to_nat b - N.to_nat a)) by lia.
  rewrite seq_S, fmap_app. simpl. do 3 f_equal. lia.
Qed.
Lemma elem_of_range a b x : x ∈ range a b ↔ (a ≤ x < b)%N.
Proof.
  unfold range. rewrite list_elem_of_fmap. setoid_rewrite elem_of_seq. split.
  - intros (n & -> & ?). lia.
  - intros ?. exists (N.to_nat x). lia.
Qed.
Lemma length_range a b : length (range a b) = N.to_nat b - N.to_nat a.
Proof. unfold range. by rewrite length_fmap, length_seq. Qed.
Lemma lookup_range a b n :
  n < N.to_nat b - N.to_nat a → range a b !! n = Some (a + N.of_nat n)%N.
Proof.
  intros H. unfold range. rewrite list_lookup_fmap.
  rewrite lookup_seq_lt by lia. simpl. f_equal. lia.
Qed.

(** ** Automation

    [mstep] performs one monadic step of a goal whose next operation is
    known to succeed; [minv H] opens a successful run. *)
Create HintDb rigor discriminated.
#[export] Hint Resolve vget_Some : rigor.

Ltac mred := cbn [mbind result_bind fmap result_fmap mret result_ret].
Tactic Notation "mstep" :=
  first
    [ rewrite !bind_Ok
    | rewrite checked_add_Ok by lia
    | rewrite checked_sub_Ok by lia
    | rewrite checked_mul_Ok by lia
    | rewrite checked_div_Ok by lia
    | rewrite checked_shl_Ok by lia
    | rewrite checked_shr_Ok by lia
    | rewrite vset_Ok by (rewrite ?vlen_insert; lia)
    | rewrite assert_true by lia
    | erewrite vget_Some by eassumption ];
  mred.
Ltac msteps := repeat mstep.

Ltac minv_step H :=
  match type of H with
  | _ ≫= _ = Ok _ =>
      let x := fresh "x" in let Hx := fresh "Hx" in
      apply bind_Ok_inv in H as (x & Hx & H)
  | _ <$> _ = Ok _ =>
      let x := fresh "x" in let Hx := fresh "Hx" in
      apply fmap_Ok_inv in H as (x & Hx & H)
  | assert _ = Ok _ => apply assert_inv in H
  | Ok _ = Ok _ => injection H as H
  end.
Ltac minv H := repeat minv_step H.
(** The binds only: the final equation stays as it is. *)
Ltac mpeel H := repeat (let x := fresh "x" in let Hx := fresh "Hx" in apply bind_Ok_inv in H as (x & Hx & H)).

(** Case analysis on the boolean test of the first [if] of the goal. *)
Ltac bcase_on b :=
  match b with
  | (?x <? ?y)%N => destruct (N.ltb_spec x y)
  | (?x <=? ?y)%N => destruct (N.leb_spec x y)
  | (?x =? ?y)%N => destruct (N.eqb_spec x y)
  | negb ?c => bcase_on c; cbn [negb]
  | false || ?c => cbn [orb]; bcase_on c
  | true && ?c => cbn [andb]; bcase_on c
  | ?c || _ => bcase_on c; cbn [orb]
  | ?c && _ => bcase_on c; cbn [andb]
  | _ => destruct b eqn:?
  end.
Ltac bcase :=
  match goal with |- context [if ?b then _ else _] => bcase_on b end.
