(* ===== verification/Totality.v ===== *)
(** * Termination of the loops of the model

    A loop whose bound is not a list runs at most a given number of times, and
    reaching that number is [Panic OutOfFuel].  [ends] says that a computation
    does not get there, whatever state it starts in; [returns] says so and
    what holds of its value if it has one. *)
From S2P Require Import Prelude.
Local Open Scope N_scope.

(** The computation ends: with a value, or with a panic of the code. *)
Definition ends {A} (m : result A) : Prop := m ≠ Panic OutOfFuel.

Section ends.
Context {A B : Type}.

Lemma ends_Ok (x : A) : ends (Ok x).
Proof. done. Qed.
Lemma ends_bind (m : result A) (f : A → result B) : ends m → (∀ x, m = Ok x → ends (f x)) → ends (m ≫= f).
Proof. unfold ends. intros Hm Hf. destruct m as [x|p]; mred; [by apply Hf|]. intros [= ->]. done. Qed.
Lemma ends_if (b : bool) (x y : result A) :
  (b = true → ends x) → (b = false → ends y) → ends (if b then x else y).
Proof. destruct b; auto. Qed.
Lemma ends_assert b : ends (assert b).
Proof. by destruct b. Qed.
Lemma ends_add w a b : ends (checked_add w a b).
Proof. unfold checked_add. by destruct (_ <? _). Qed.
Lemma ends_sub a b : ends (checked_sub a b).
Proof. unfold checked_sub. by destruct (_ <=? _). Qed.
Lemma ends_mul w a b : ends (checked_mul w a b).
Proof. unfold checked_mul. by destruct (_ <? _). Qed.
Lemma ends_shl a b : ends (checked_shl a b).
Proof. unfold checked_shl. by destruct (_ <? _). Qed.
Lemma ends_shr a b : ends (checked_shr a b).
Proof. unfold checked_shr. by destruct (_ <? _). Qed.
Lemma ends_div a b : ends (checked_div a b).
Proof. unfold checked_div. by destruct (_ =? _). Qed.
Lemma ends_vget (l : list A) i : ends (vget l i).
Proof. unfold vget. by destruct (l !! _). Qed.
Lemma ends_vset (l : list A) i x : ends (vset l i x).
Proof. unfold vset. by destruct (_ <? _). Qed.
End ends.

Lemma ends_for_each {A B} (l : list B) (f : B → A → result A) s : (∀ x s, ends (f x s)) → ends (for_each l f s).
Proof.
  intros Hf. revert s. induction l as [|x l IH]; intros s; cbn [for_each]; [done|]. apply ends_bind; [apply Hf|by intros].
Qed.

Create HintDb fuel discriminated.
#[export] Hint Resolve ends_Ok ends_assert ends_add ends_sub ends_mul ends_shl ends_shr ends_div ends_vget ends_vset : fuel.
#[export] Hint Extern 1 (ends (Panic _)) => unfold ends; discriminate : fuel.

(** Goes through a computation; leaves the calls it has no lemma for. *)
Ltac ends :=
  repeat first
    [ solve [auto with fuel nocore]
    | match goal with
      | |- ends (_ ≫= _) => apply ends_bind; [|intros ? ?]
      | |- ends (if _ then _ else _) => apply ends_if; intros ?
      | |- ends (let '(_, _) := ?x in _) => destruct x
      end ].

(** ** Ends, with a property of the value *)
Definition returns {A} (m : result A) (P : A → Prop) : Prop :=
  match m with Ok x => P x | Panic p => p ≠ OutOfFuel end.

Section returns.
Context {A B : Type}.

Lemma returns_ends (m : result A) : ends m → returns m (λ _, True).
Proof. unfold ends. destruct m as [x|p]; [done|]. simpl. intros Hm ->. done. Qed.
Lemma returns_bind (m : result A) (f : A → result B) P Q :
  returns m Q → (∀ x, Q x → returns (f x) P) → returns (m ≫= f) P.
Proof. destruct m as [x|p]; mred; [|done]. intros HQ Hf. by apply Hf. Qed.
Lemma returns_mono (m : result A) (P Q : A → Prop) : returns m P → (∀ x, P x → Q x) → returns m Q.
Proof. destruct m; simpl; auto. Qed.
Lemma returns_fuel (m : result A) P : returns m P → ends m.
Proof. unfold ends. destruct m; [done|]. simpl. intros Hp [= ->]. done. Qed.
End returns.

Lemma returns_add w a b : returns (checked_add w a b) (λ x, x = a + b).
Proof. unfold checked_add. by destruct (_ <? _). Qed.
Lemma returns_sub a b : returns (checked_sub a b) (λ x, x + b = a).
Proof. unfold checked_sub. destruct (N.leb_spec b a); simpl; [lia|done]. Qed.

Lemma returns_assoc {A B C} (m : result A) (f : A → result B) (g : B → result C) P :
  returns (m ≫= λ x, f x ≫= g) P → returns ((m ≫= f) ≫= g) P.
Proof. by destruct m. Qed.

Lemma returns_for_each {A B} (l : list B) (f : B → A → result A) s P :
  P s → (∀ x s, P s → returns (f x s) P) → returns (for_each l f s) P.
Proof.
  intros Hs Hf. revert s Hs. induction l as [|x l IH]; intros s Hs; cbn [for_each]; [done|].
  eapply returns_bind; [by apply Hf|]. apply IH.
Qed.
