(* ===== verification/RingBuffer.v ===== *)
(** * The ring buffer of [kernel/src/ring_buffer.rs]

    [RingBuffer<T, CAP>] keeps up to [CAP] elements in a fixed array between
    the cursors [first] and [last]; [empty] tells an empty buffer from a full
    one when the cursors meet.  The model keeps the array, the cursors and the
    flag, and every operation is translated statement by statement, with the
    index arithmetic checked.  [contents] is the abstraction function: the
    elements in order.  The theorems say what each operation does to the
    contents, that the cursors stay within the array, and that sequences of
    operations, their panics included, are those of a bounded list with a
    position. *)
From S2P Require Import Prelude.
Local Open Scope checked_scope.

Module RingBuffer.

(** ** The structure and its operations *)
Record RingBuffer (T : Type) := mkRB {
  buffer : list T;
  first : N;
  last : N;
  empty : bool;
}.
Arguments mkRB {T} _ _ _ _.
Arguments buffer {T} _.
Arguments first {T} _.
Arguments last {T} _.
Arguments empty {T} _.

Section operations.
Context {T : Type}.
Implicit Types (rb : RingBuffer T) (data : T) (index pos : N).

Definition new_with (CAP : N) (initial : T) : RingBuffer T :=
  mkRB (replicate (N.to_nat CAP) initial) 0 0 true.

(** For a [T] with a default value. *)
Definition new `{!Inhabited T} (CAP : N) : RingBuffer T := new_with CAP inhabitant.

Definition len rb : result N :=
  if empty rb then Ok 0%N
  else if (first rb <? last rb)%N then last rb -! first rb
  else (s ← last rb +! vlen (buffer rb); s -! first rb).

Definition capacity rb : N := vlen (buffer rb).

Definition wrap_index rb index : result (option N) :=
  p ← first rb +! index;
  n ← len rb;
  if (n <=? index)%N then Ok None
  else if (p <? vlen (buffer rb))%N then Ok (Some p)
  else (q ← p -! vlen (buffer rb); Ok (Some q)).

Definition get rb index : result (option T) :=
  w ← wrap_index rb index;
  match w with
  | None => Ok None
  | Some x => v ← vget (buffer rb) x; Ok (Some v)
  end.

(** A write through the reference of [get_mut]: [None] when there is no
    such element. *)
Definition get_mut rb index data : result (option (RingBuffer T)) :=
  w ← wrap_index rb index;
  match w with
  | None => Ok None
  | Some x =>
      b ← vset (buffer rb) x data;
      Ok (Some (mkRB b (first rb) (last rb) (empty rb)))
  end.

Definition index rb (i : N) : result T := o ← get rb i; expect o.

(** The assignment [self[i] = data]. *)
Definition index_mut rb (i : N) data : result (RingBuffer T) :=
  o ← get_mut rb i data; expect o.

Definition try_peek rb : result (option T) :=
  if negb (empty rb) then (v ← vget (buffer rb) (first rb); Ok (Some v))
  else Ok None.

Definition peek rb : result T := o ← try_peek rb; expect o.

Definition try_push rb data : result (option unit * RingBuffer T) :=
  if empty rb || negb (first rb =? last rb)%N then
    b ← vset (buffer rb) (last rb) data;
    l ← last rb +! 1%N;
    let l := if (vlen b <=? l)%N then 0%N else l in
    Ok (Some (), mkRB b (first rb) l false)
  else Ok (None, rb).

Definition push rb data : result (RingBuffer T) :=
  '(o, rb') ← try_push rb data; expect o;; Ok rb'.

Definition push_force rb data : result (bool * RingBuffer T) :=
  b ← vset (buffer rb) (last rb) data;
  '(forced, f) ←
    (if negb (empty rb) && (first rb =? last rb)%N then
       f ← first rb +! 1%N;
       Ok (true, if (vlen b <=? f)%N then 0%N else f)
     else Ok (false, first rb));
  l ← last rb +! 1%N;
  let l := if (vlen b <=? l)%N then 0%N else l in
  Ok (forced, mkRB b f l false).

Definition insert_force rb pos data : result (bool * RingBuffer T) :=
  n ← len rb;
  if (n <? pos)%N then Panic Explicit
  else if empty rb || (pos =? n)%N then push_force rb data
  else if negb (first rb =? last rb)%N then
    rb ← push rb data;
    rb ← for_each (reverse (range pos n)) (λ i rb,
           v ← index rb i; j ← i +! 1%N; index_mut rb j v) rb;
    rb ← index_mut rb pos data;
    Ok (false, rb)
  else
    rb ← for_each (range 0 pos) (λ i rb,
           j ← i +! 1%N; v ← index rb j; index_mut rb i v) rb;
    rb ← index_mut rb pos data;
    Ok (true, rb).

Definition try_pop rb : result (option T * RingBuffer T) :=
  if negb (empty rb) then
    value ← vget (buffer rb) (first rb);
    f ← first rb +! 1%N;
    let f := if (vlen (buffer rb) <=? f)%N then 0%N else f in
    let e := if (f =? last rb)%N then true else empty rb in
    Ok (Some value, mkRB (buffer rb) f (last rb) e)
  else Ok (None, rb).

Definition pop rb : result (T * RingBuffer T) :=
  '(o, rb') ← try_pop rb; v ← expect o; Ok (v, rb').
End operations.

(** ** Invariant and abstraction *)
Section invariant.
Context {T : Type}.
Implicit Types (rb : RingBuffer T).

(** The cursors are positions of the array and meet when it is empty.  The
    array is small enough for two positions to be added, as every Rust
    array is ([isize::MAX] bytes at most). *)
Record wf rb : Prop := {
  wf_first : (first rb < capacity rb)%N;
  wf_last : (last rb < capacity rb)%N;
  wf_empty : empty rb = true → first rb = last rb;
  wf_cap : (2 * capacity rb ≤ W64)%N;
}.

Definition size rb : N :=
  if empty rb then 0%N
  else if (first rb <? last rb)%N then (last rb - first rb)%N
  else (last rb + capacity rb - first rb)%N.

(** Position in the array of the [i]-th element. *)
Definition phys rb (i : N) : N :=
  if (first rb + i <? capacity rb)%N then (first rb + i)%N
  else (first rb + i - capacity rb)%N.

Definition contents rb : list T :=
  take (N.to_nat (size rb))
    (drop (N.to_nat (first rb)) (buffer rb) ++ take (N.to_nat (first rb)) (buffer rb)).
End invariant.

(** ** Basic facts *)
Section lemmas.
Context {T : Type}.
Implicit Types (rb : RingBuffer T) (l : list T) (x : T) (i pos : N).

Ltac rb_simpl := unfold size, phys, capacity, vlen in *; simpl in *.

Lemma size_le_capacity rb : wf rb → (size rb ≤ capacity rb)%N.
Proof. intros []. unfold size. destruct (empty rb); [lia|]. bcase; lia. Qed.

Lemma len_size rb : wf rb → len rb = Ok (size rb).
Proof.
  intros []. unfold len, size, capacity in *.
  destruct (empty rb); [done|]. bcase; by msteps.
Qed.

Lemma length_contents rb : wf rb → length (contents rb) = N.to_nat (size rb).
Proof.
  intros Hwf. pose proof (size_le_capacity rb Hwf). destruct Hwf.
  unfold contents, capacity, vlen in *.
  rewrite length_take, length_app, length_drop, length_take. lia.
Qed.

Lemma vlen_contents rb : wf rb → vlen (contents rb) = size rb.
Proof. intros Hwf. unfold vlen. rewrite length_contents by done. lia. Qed.

Lemma phys_lt rb i : wf rb → (i < capacity rb)%N → (phys rb i < capacity rb)%N.
Proof. intros [] Hi. unfold phys. bcase; lia. Qed.

Lemma phys_inj rb i j :
  wf rb → (i < capacity rb)%N → (j < capacity rb)%N → phys rb i = phys rb j → i = j.
Proof. intros [] Hi Hj. unfold phys. repeat bcase; lia. Qed.

Lemma lookup_contents rb i :
  wf rb → (i < size rb)%N →
  contents rb !! N.to_nat i = buffer rb !! N.to_nat (phys rb i).
Proof.
  intros Hwf Hi. pose proof (size_le_capacity rb Hwf). destruct Hwf.
  unfold contents, phys, capacity, vlen in *. rewrite lookup_take_lt by lia.
  bcase.
  - rewrite lookup_app_l by (rewrite length_drop; lia).
    rewrite lookup_drop. f_equal. lia.
  - rewrite lookup_app_r by (rewrite length_drop; lia).
    rewrite length_drop, lookup_take_lt by lia. f_equal. lia.
Qed.

(** A list with the right length and elements is the contents. *)
Lemma contents_eq rb l :
  wf rb → vlen l = size rb →
  (∀ i, (i < size rb)%N → buffer rb !! N.to_nat (phys rb i) = l !! N.to_nat i) →
  contents rb = l.
Proof.
  intros Hwf Hlen Heq. unfold vlen in Hlen. apply list_eq_same_length with (length l).
  - done.
  - rewrite length_contents by done. lia.
  - intros i x y Hi Hx Hy.
    specialize (Heq (N.of_nat i) ltac:(lia)).
    rewrite <-lookup_contents in Heq by (done || lia).
    rewrite Nat2N.id in Heq. congruence.
Qed.

Lemma contents_nil rb : wf rb → empty rb = true → contents rb = [].
Proof. intros _ He. unfold contents, size. by rewrite He. Qed.

Lemma size_pos rb : wf rb → empty rb = false → (0 < size rb)%N.
Proof. intros [] He. unfold size. rewrite He. bcase; lia. Qed.

Lemma size_full rb :
  wf rb → size rb = capacity rb ↔ empty rb = false ∧ first rb = last rb.
Proof.
  intros []. unfold size. destruct (empty rb) eqn:He.
  - split; [lia|by intros []].
  - bcase; split; intros; split_and?; (done || lia).
Qed.

(** *** Element access *)
Lemma wrap_index_lt rb i :
  wf rb → (i < size rb)%N → wrap_index rb i = Ok (Some (phys rb i)).
Proof.
  intros Hwf Hi. pose proof (size_le_capacity rb Hwf).
  unfold wrap_index. rewrite len_size by done. destruct Hwf.
  unfold phys, capacity in *. msteps. repeat bcase; try lia; by msteps.
Qed.

Lemma wrap_index_ge rb i :
  wf rb → (size rb ≤ i)%N → (first rb + i < W64)%N → wrap_index rb i = Ok None.
Proof.
  intros Hwf Hi Hlt. unfold wrap_index. rewrite len_size by done. msteps.
  bcase; [done|lia].
Qed.

Lemma get_lt rb i x :
  wf rb → contents rb !! N.to_nat i = Some x → get rb i = Ok (Some x).
Proof.
  intros Hwf Hx. pose proof (lookup_lt_Some _ _ _ Hx) as Hi.
  rewrite length_contents in Hi by done. unfold get.
  rewrite wrap_index_lt by (done || lia). msteps.
  rewrite lookup_contents in Hx by (done || lia). by msteps.
Qed.

Lemma index_lt rb i x :
  wf rb → contents rb !! N.to_nat i = Some x → index rb i = Ok x.
Proof. intros Hwf Hx. unfold index. by erewrite get_lt. Qed.

Lemma index_mut_lt rb i x :
  wf rb → (i < size rb)%N →
  ∃ rb', index_mut rb i x = Ok rb' ∧ wf rb' ∧ size rb' = size rb ∧
    capacity rb' = capacity rb ∧ first rb' = first rb ∧ last rb' = last rb ∧
    contents rb' = <[N.to_nat i := x]> (contents rb).
Proof.
  intros Hwf Hi. pose proof (size_le_capacity rb Hwf) as Hle.
  pose proof (phys_lt rb i Hwf ltac:(lia)) as Hp.
  unfold index_mut, get_mut. rewrite wrap_index_lt by done. mred.
  unfold capacity in Hp. msteps. eexists; split; [done|].
  set (rb' := mkRB _ _ _ _).
  assert (capacity rb' = capacity rb) as Hc by apply vlen_insert.
  assert (size rb' = size rb) as Hs by (unfold size; by rewrite Hc).
  assert (wf rb') as Hwf'.
  { destruct Hwf. split; unfold capacity in *; simpl; rewrite ?vlen_insert; auto. }
  repeat split; try done; try apply Hwf'.
  apply contents_eq; [done| |].
  { rewrite vlen_insert, vlen_contents; congruence. }
  intros j Hj. replace (phys rb' j) with (phys rb j) by (unfold phys; by rewrite Hc).
  simpl. rewrite Hs in Hj. destruct (decide (i = j)) as [->|Hne].
  - unfold vlen in Hp. rewrite !list_lookup_insert_eq; [done| |lia].
    rewrite length_contents by done. lia.
  - rewrite !list_lookup_insert_ne; [by rewrite lookup_contents|lia|].
    intros Heq. apply Hne, (phys_inj rb); [done|lia|lia|lia].
Qed.

(** *** Moving the cursors *)
Definition next_pos (cap i : N) : N := if (cap <=? i + 1)%N then 0%N else (i + 1)%N.

Definition pushed rb x : RingBuffer T :=
  mkRB (<[N.to_nat (last rb) := x]> (buffer rb)) (first rb)
    (next_pos (capacity rb) (last rb)) false.
Definition push_over rb x : RingBuffer T :=
  mkRB (<[N.to_nat (last rb) := x]> (buffer rb)) (next_pos (capacity rb) (first rb))
    (next_pos (capacity rb) (last rb)) false.
Definition popped rb : RingBuffer T :=
  let f := next_pos (capacity rb) (first rb) in
  mkRB (buffer rb) f (last rb) (f =? last rb)%N.

Lemma capacity_pushed rb x : capacity (pushed rb x) = capacity rb.
Proof. apply vlen_insert. Qed.
Lemma capacity_push_over rb x : capacity (push_over rb x) = capacity rb.
Proof. apply vlen_insert. Qed.

Lemma next_pos_lt cap i : (0 < cap → next_pos cap i < cap)%N.
Proof. unfold next_pos. bcase; lia. Qed.

Lemma wf_pushed rb x : wf rb → wf (pushed rb x).
Proof.
  intros []. split; rewrite ?capacity_pushed; simpl; try done.
  apply next_pos_lt. lia.
Qed.
Lemma wf_push_over rb x : wf rb → wf (push_over rb x).
Proof.
  intros []. split; rewrite ?capacity_push_over; simpl; try done; apply next_pos_lt; lia.
Qed.
Lemma wf_popped rb : wf rb → wf (popped rb).
Proof.
  intros []. split; unfold capacity in *; simpl; try done.
  - apply next_pos_lt. lia.
  - by intros ?%N.eqb_eq.
Qed.

Lemma size_pushed rb x :
  wf rb → (size rb < capacity rb)%N → size (pushed rb x) = (size rb + 1)%N.
Proof.
  intros [] Hlt. unfold size in *. rewrite capacity_pushed. simpl. unfold next_pos.
  destruct (empty rb); [rewrite wf_empty0 by done|]; repeat bcase; lia.
Qed.
Lemma size_push_over rb x :
  wf rb → size rb = capacity rb → size (push_over rb x) = capacity rb.
Proof.
  intros Hwf Hfull. apply (size_full rb Hwf) in Hfull as [_ Hfl].
  rewrite <-(capacity_push_over rb x).
  apply (size_full _ (wf_push_over rb x Hwf)). simpl. by rewrite Hfl.
Qed.
Lemma size_popped rb :
  wf rb → empty rb = false → size (popped rb) = (size rb - 1)%N.
Proof.
  intros [] He. unfold size, popped, next_pos, capacity in *. simpl.
  rewrite He. destruct (N.leb_spec (vlen (buffer rb)) (first rb + 1)); repeat bcase; lia.
Qed.

Lemma phys_size rb :
  wf rb → (size rb < capacity rb)%N → phys rb (size rb) = last rb.
Proof.
  intros [] Hlt. unfold phys, size in *.
  destruct (empty rb); [rewrite wf_empty0 by done|]; repeat bcase; lia.
Qed.

Lemma lookup_set_other rb x i :
  wf rb → (i < capacity rb)%N → phys rb i ≠ last rb →
  (<[N.to_nat (last rb) := x]> (buffer rb)) !! N.to_nat (phys rb i) =
  buffer rb !! N.to_nat (phys rb i).
Proof. intros Hwf Hi Hne. apply list_lookup_insert_ne. lia. Qed.

Lemma lookup_set_last rb x :
  wf rb → (<[N.to_nat (last rb) := x]> (buffer rb)) !! N.to_nat (last rb) = Some x.
Proof. intros []. apply list_lookup_insert_eq. unfold capacity, vlen in *. lia. Qed.

Lemma contents_pushed rb x :
  wf rb → (size rb < capacity rb)%N → contents (pushed rb x) = contents rb ++ [x].
Proof.
  intros Hwf Hlt. pose proof (size_pushed rb x Hwf Hlt) as Hs.
  apply contents_eq; [by apply wf_pushed| |].
  { unfold vlen. rewrite length_app, length_contents by done. simpl. lia. }
  intros i Hi. rewrite Hs in Hi.
  replace (phys (pushed rb x) i) with (phys rb i)
    by (unfold phys; by rewrite capacity_pushed).
  simpl. destruct (decide (i = size rb)) as [->|Hne].
  - rewrite phys_size, lookup_set_last by done.
    rewrite lookup_app_r; rewrite length_contents by done; [|done].
    by rewrite Nat.sub_diag.
  - rewrite lookup_set_other; [|done|lia|].
    + rewrite lookup_app_l, lookup_contents; [done|done|lia|].
      rewrite length_contents by done. lia.
    + rewrite <-phys_size by done. intros ?%phys_inj; lia || done.
Qed.

Lemma contents_cons rb x l : contents rb = x :: l → wf rb → empty rb = false.
Proof.
  intros Hc Hwf. destruct (empty rb) eqn:He; [|done].
  by rewrite contents_nil in Hc.
Qed.

Lemma contents_popped rb :
  wf rb → empty rb = false →
  ∃ v, buffer rb !! N.to_nat (first rb) = Some v ∧ contents rb = v :: contents (popped rb).
Proof.
  intros Hwf He. pose proof (size_pos rb Hwf He) as Hpos.
  pose proof (size_popped rb Hwf He) as Hs. pose proof (size_le_capacity rb Hwf).
  destruct (lookup_lt_is_Some_2 (buffer rb) (N.to_nat (first rb))) as [v Hv].
  { destruct Hwf. unfold capacity, vlen in *. lia. }
  exists v. split; [done|]. apply contents_eq; [done| |].
  { unfold vlen. simpl. rewrite length_contents by by apply wf_popped. lia. }
  intros i Hi. destruct (decide (i = 0%N)) as [->|Hi0].
  - unfold phys. rewrite N.add_0_r. destruct Hwf. bcase; [done|lia].
  - replace (N.to_nat i) with (S (N.to_nat (i - 1))) by lia. simpl.
    rewrite lookup_contents by (by apply wf_popped || lia). simpl. do 2 f_equal.
    destruct Hwf. unfold phys, popped, next_pos, capacity in *. simpl.
    repeat bcase; lia.
Qed.

Lemma contents_push_over rb x :
  wf rb → size rb = capacity rb →
  contents (push_over rb x) = tail (contents rb) ++ [x].
Proof.
  intros Hwf Hfull. pose proof (proj1 (size_full rb Hwf) Hfull) as [He Hfl].
  pose proof (size_push_over rb x Hwf Hfull) as Hs.
  assert (0 < capacity rb)%N by (destruct Hwf; lia).
  destruct (contents_popped rb Hwf He) as (v & _ & Hc).
  assert (length (tail (contents rb)) = N.to_nat (capacity rb - 1)) as Htl.
  { rewrite Hc. simpl. rewrite length_contents, size_popped by auto using wf_popped. lia. }
  apply contents_eq; [by apply wf_push_over| |].
  { unfold vlen. rewrite length_app, Htl. simpl. lia. }
  intros i Hi. rewrite Hs in Hi.
  assert (phys (push_over rb x) i = phys rb (if i + 1 <? capacity rb then i + 1 else 0)%N) as ->.
  { destruct Hwf. unfold phys. rewrite capacity_push_over. simpl. unfold next_pos.
    repeat bcase; lia. }
  assert (phys rb 0 = last rb) as Hp0.
  { unfold phys. rewrite N.add_0_r. destruct Hwf. bcase; lia. }
  simpl. bcase.
  - rewrite lookup_set_other, <-lookup_contents; [|done|lia|done|lia|].
    + rewrite lookup_app_l, Hc by lia. by replace (N.to_nat (i + 1)) with (S (N.to_nat i)) by lia.
    + rewrite <-Hp0. intros ?%phys_inj; lia || done.
  - rewrite Hp0, lookup_set_last, lookup_app_r by (done || lia).
    by replace (N.to_nat i - _) with 0 by lia.
Qed.
End lemmas.

(** ** What the operations do *)
Section operation_lemmas.
Context {T : Type}.
Implicit Types (rb : RingBuffer T) (l : list T) (x : T) (i pos : N).

Lemma try_push_run rb x :
  wf rb →
  try_push rb x =
    Ok (if (size rb <? capacity rb)%N then (Some (), pushed rb x) else (None, rb)).
Proof.
  intros Hwf. pose proof (size_full rb Hwf) as Hf.
  pose proof (size_le_capacity rb Hwf). destruct Hwf.
  unfold try_push, pushed, next_pos, capacity in *.
  destruct (N.ltb_spec (size rb) (vlen (buffer rb))).
  - replace (empty rb || negb (first rb =? last rb)%N) with true.
    + msteps. by rewrite vlen_insert.
    + destruct (empty rb); [done|]. destruct (N.eqb_spec (first rb) (last rb)); [|done].
      exfalso. pose proof (proj2 Hf ltac:(done)). lia.
  - destruct Hf as [[-> ->] _]; [lia|]. by rewrite N.eqb_refl.
Qed.

Lemma push_force_run rb x :
  wf rb →
  push_force rb x =
    Ok (if (size rb <? capacity rb)%N then (false, pushed rb x) else (true, push_over rb x)).
Proof.
  intros Hwf. pose proof (size_full rb Hwf) as Hf.
  pose proof (size_le_capacity rb Hwf). destruct Hwf.
  unfold push_force, pushed, push_over, next_pos, capacity in *.
  destruct (N.ltb_spec (size rb) (vlen (buffer rb))).
  - replace (negb (empty rb) && (first rb =? last rb)%N) with false.
    + msteps. by rewrite vlen_insert.
    + destruct (empty rb); [done|]. destruct (N.eqb_spec (first rb) (last rb)); [|done].
      exfalso. pose proof (proj2 Hf ltac:(done)). lia.
  - destruct Hf as [[-> ->] _]; [lia|]. rewrite N.eqb_refl. simpl. msteps.
    by rewrite vlen_insert.
Qed.

Lemma try_pop_run rb :
  wf rb →
  try_pop rb =
    Ok (match contents rb with [] => (None, rb) | v :: _ => (Some v, popped rb) end).
Proof.
  intros Hwf. unfold try_pop. destruct (empty rb) eqn:He; simpl.
  - by rewrite contents_nil.
  - destruct (contents_popped rb Hwf He) as (v & Hv & ->).
    destruct Hwf. unfold popped, next_pos, capacity in *. msteps.
    do 3 f_equal. by destruct (_ =? _)%N.
Qed.

Lemma try_peek_run rb : wf rb → try_peek rb = Ok (head (contents rb)).
Proof.
  intros Hwf. unfold try_peek. destruct (empty rb) eqn:He; simpl.
  - by rewrite contents_nil.
  - destruct (contents_popped rb Hwf He) as (v & Hv & ->). by msteps.
Qed.

(** One iteration of a shifting loop: [self[j] = self[i]]. *)
Lemma copy_run rb i j :
  wf rb → (i < size rb)%N → (j < size rb)%N →
  ∃ rb' v, contents rb !! N.to_nat i = Some v ∧ index rb i = Ok v ∧
    index_mut rb j v = Ok rb' ∧ wf rb' ∧ size rb' = size rb ∧ capacity rb' = capacity rb ∧
    contents rb' = <[N.to_nat j := v]> (contents rb).
Proof.
  intros Hwf Hi Hj.
  destruct (lookup_lt_is_Some_2 (contents rb) (N.to_nat i)) as [v Hv].
  { rewrite length_contents by done. lia. }
  destruct (index_mut_lt rb j v Hwf Hj) as (rb' & ? & ? & ? & ? & _ & _ & ?).
  exists rb', v. eauto 10 using index_lt.
Qed.

Definition shifted rb n cap (P : list T → Prop) : Prop :=
  wf rb ∧ size rb = n ∧ capacity rb = cap ∧ P (contents rb).

(** [for i in (pos..n).rev() { self[i + 1] = self[i] }] *)
Lemma shift_right_run rb pos n :
  wf rb → (pos ≤ n)%N → size rb = (n + 1)%N →
  ∃ rb', for_each (reverse (range pos n)) (λ i rb,
           v ← index rb i; j ← i +! 1%N; index_mut rb j v) rb = Ok rb' ∧
    shifted rb' (n + 1) (capacity rb) (λ c, ∀ j, j ≤ N.to_nat n →
      c !! j = contents rb !! (if decide (j ≤ N.to_nat pos) then j else j - 1)).
Proof.
  intros Hwf Hpos Hsz. pose proof (size_le_capacity rb Hwf) as Hle.
  assert (2 * capacity rb ≤ W64)%N by apply Hwf.
  destruct (for_each_inv (λ i rb, v ← index rb i; j ← i +! 1%N; index_mut rb j v)
    (λ past rb', shifted rb' (n + 1) (capacity rb) (λ c, ∀ j, j ≤ N.to_nat n →
      c !! j = contents rb !! (if decide (j ≤ N.to_nat n - length past) then j else j - 1)))
    (reverse (range pos n)) rb) as (rb' & Hrun & Hinv).
  - split_and!; try done. intros j Hj. simpl. by rewrite decide_True by lia.
  - intros l1 i l2 s Heq (Hs & Hss & Hsc & Hc).
    assert (i = (n - N.of_nat (length l1) - 1)%N ∧ length l1 < N.to_nat n - N.to_nat pos)
      as [Hi Hl1].
    { assert (range pos n = reverse l2 ++ i :: reverse l1) as Hr.
      { rewrite <-(reverse_involutive (range pos n)), Heq.
        by rewrite reverse_app, reverse_cons, <-app_assoc. }
      pose proof (length_range pos n) as Hlen.
      rewrite Hr, length_app in Hlen. simpl in Hlen. rewrite !length_reverse in Hlen.
      pose proof (lookup_range pos n (length l2) ltac:(lia)) as Hlk.
      rewrite Hr, lookup_app_r in Hlk by (rewrite length_reverse; lia).
      rewrite length_reverse, Nat.sub_diag in Hlk. simpl in Hlk. injection Hlk as ->. lia. }
    destruct (copy_run s i (i + 1)%N Hs ltac:(lia) ltac:(lia))
      as (s' & v & Hv & -> & Hset & ? & ? & ? & Hc').
    exists s'. msteps. split; [done|]. split_and!; try congruence.
    intros j Hj. rewrite Hc', length_app. simpl.
    rewrite Hc in Hv by lia. rewrite decide_True in Hv by lia.
    destruct (decide (j = N.to_nat (i + 1))) as [->|Hne].
    + rewrite list_lookup_insert_eq by (rewrite length_contents by done; lia).
      rewrite decide_False by lia. rewrite <-Hv. f_equal. lia.
    + rewrite list_lookup_insert_ne, Hc by lia.
      by repeat case_decide; try lia.
  - exists rb'. split; [done|]. destruct Hinv as (? & ? & ? & Hc). split_and!; try done.
    intros j Hj. rewrite Hc by done. rewrite length_reverse, length_range.
    by repeat case_decide; try lia.
Qed.

(** [for i in 0..pos { self[i] = self[i + 1] }] *)
Lemma shift_left_run rb pos :
  wf rb → (pos < size rb)%N →
  ∃ rb', for_each (range 0 pos) (λ i rb,
           j ← i +! 1%N; v ← index rb j; index_mut rb i v) rb = Ok rb' ∧
    shifted rb' (size rb) (capacity rb) (λ c, ∀ j, j < N.to_nat (size rb) →
      c !! j = contents rb !! (if decide (j < N.to_nat pos) then j + 1 else j)).
Proof.
  intros Hwf Hpos. pose proof (size_le_capacity rb Hwf) as Hle.
  assert (2 * capacity rb ≤ W64)%N by apply Hwf.
  destruct (for_each_inv (λ i rb, j ← i +! 1%N; v ← index rb j; index_mut rb i v)
    (λ past rb', shifted rb' (size rb) (capacity rb) (λ c, ∀ j, j < N.to_nat (size rb) →
      c !! j = contents rb !! (if decide (j < length past) then j + 1 else j)))
    (range 0 pos) rb) as (rb' & Hrun & Hinv).
  - by split_and!.
  - intros l1 i l2 s Heq (Hs & Hss & Hsc & Hc).
    pose proof (length_range 0 pos) as Hlen.
    rewrite Heq, length_app in Hlen. simpl in Hlen.
    pose proof (lookup_range 0 pos (length l1) ltac:(lia)) as Hi.
    rewrite Heq, lookup_app_r, Nat.sub_diag in Hi by lia. injection Hi as ->.
    destruct (copy_run s (0 + N.of_nat (length l1) + 1) (0 + N.of_nat (length l1)) Hs
      ltac:(lia) ltac:(lia)) as (s' & v & Hv & Hix & Hset & ? & ? & ? & Hc').
    exists s'. msteps. rewrite Hix. msteps. split; [done|]. split_and!; try congruence.
    intros j Hj. rewrite Hc', length_app. simpl.
    rewrite Hc in Hv by lia. rewrite decide_False in Hv by lia.
    destruct (decide (j = length l1)) as [->|Hne].
    + rewrite N.add_0_l, Nat2N.id in *.
      rewrite list_lookup_insert_eq by (rewrite length_contents by done; lia).
      rewrite decide_True, <-Hv by lia. f_equal. lia.
    + rewrite list_lookup_insert_ne, Hc by lia. by repeat case_decide; try lia.
  - exists rb'. split; [done|]. destruct Hinv as (? & ? & ? & Hc). split_and!; try done.
    intros j Hj. rewrite Hc by done. rewrite length_range, Nat.sub_0_r. done.
Qed.

(** *** [insert_force] *)
Lemma insert_force_at_end rb pos x :
  wf rb → (size rb ≤ pos)%N →
  insert_force rb pos x =
    if (size rb <? pos)%N then Panic Explicit else push_force rb x.
Proof.
  intros Hwf Hpos. unfold insert_force. rewrite len_size by done. mred.
  bcase; [done|]. replace (pos =? size rb)%N with true by (symmetry; apply N.eqb_eq; lia).
  by rewrite orb_true_r.
Qed.

Lemma insert_force_middle rb pos x :
  wf rb → (pos < size rb)%N → (size rb < capacity rb)%N →
  ∃ rb', insert_force rb pos x = Ok (false, rb') ∧ wf rb' ∧ capacity rb' = capacity rb ∧
    contents rb' = take (N.to_nat pos) (contents rb) ++ x :: drop (N.to_nat pos) (contents rb).
Proof.
  intros Hwf Hpos Hlt. unfold insert_force. rewrite len_size by done. mred.
  assert (empty rb = false) as ->.
  { destruct (empty rb) eqn:He; [|done]. unfold size in Hpos. rewrite He in Hpos. lia. }
  bcase; [lia|]. bcase; [lia|].
  assert ((first rb =? last rb)%N = false) as Hfl.
  { destruct (N.eqb_spec (first rb) (last rb)); [|done].
    pose proof (proj2 (size_full rb Hwf)). destruct (empty rb) eqn:He; [|naive_solver lia].
    unfold size in Hpos. rewrite He in Hpos. lia. }
  rewrite Hfl. simpl. unfold push. rewrite try_push_run by done.
  bcase; [|lia]. simpl.
  destruct (shift_right_run (pushed rb x) pos (size rb)) as (rb2 & -> & Hw2 & Hs2 & Hc2 & Hl2);
    [by apply wf_pushed|lia|by apply size_pushed|].
  mred. destruct (index_mut_lt rb2 pos x Hw2) as (rb3 & -> & Hw3 & Hs3 & Hc3 & _ & _ & Hl3);
    [lia|].
  exists rb3. split; [done|]. split; [done|]. rewrite capacity_pushed in Hc2.
  split; [congruence|]. pose proof (length_contents rb Hwf) as Hlen.
  rewrite Hl3. apply list_eq. intros j.
  destruct (decide (N.to_nat (size rb) < j)) as [Hj|Hj].
  { rewrite !lookup_ge_None_2; [done| |].
    - rewrite length_app, length_take. simpl. rewrite length_drop. lia.
    - rewrite length_insert, length_contents by done. lia. }
  destruct (decide (j = N.to_nat pos)) as [->|Hne].
  { rewrite list_lookup_insert_eq by (rewrite length_contents by done; lia).
    by rewrite list_lookup_middle by (rewrite length_take; lia). }
  rewrite list_lookup_insert_ne, Hl2, contents_pushed by (done || lia). case_decide.
  - rewrite !lookup_app_l, lookup_take_lt by (rewrite ?length_take; lia). done.
  - rewrite lookup_app_l, (lookup_app_r (take _ _)) by (rewrite ?length_take; lia).
    rewrite length_take, Nat.min_l by lia.
    rewrite lookup_cons_ne_0, lookup_drop by lia. f_equal. lia.
Qed.

Lemma insert_force_full rb pos x :
  wf rb → (pos < size rb)%N → size rb = capacity rb →
  ∃ rb', insert_force rb pos x = Ok (true, rb') ∧ wf rb' ∧ capacity rb' = capacity rb ∧
    contents rb' =
      take (N.to_nat pos) (tail (contents rb)) ++ x :: drop (S (N.to_nat pos)) (contents rb).
Proof.
  intros Hwf Hpos Hfull. pose proof (proj1 (size_full rb Hwf) Hfull) as [He Hfl].
  unfold insert_force. rewrite len_size, He, Hfl, N.eqb_refl by done. mred.
  bcase; [lia|]. bcase; [lia|]. simpl.
  destruct (shift_left_run rb pos Hwf Hpos) as (rb2 & -> & Hw2 & Hs2 & Hc2 & Hl2).
  mred. destruct (index_mut_lt rb2 pos x Hw2) as (rb3 & -> & Hw3 & Hs3 & Hc3 & _ & _ & Hl3);
    [lia|].
  exists rb3. split; [done|]. split; [done|]. split; [congruence|].
  pose proof (length_contents rb Hwf) as Hlen.
  assert (length (take (N.to_nat pos) (tail (contents rb))) = N.to_nat pos) as Htk.
  { rewrite length_take. destruct (contents rb); simpl in *; lia. }
  rewrite Hl3. apply list_eq. intros j.
  destruct (decide (N.to_nat (size rb) ≤ j)) as [Hj|Hj].
  { rewrite !lookup_ge_None_2; [done| |].
    - rewrite length_app, Htk. simpl. rewrite length_drop. lia.
    - rewrite length_insert, length_contents by done. lia. }
  destruct (decide (j = N.to_nat pos)) as [->|Hne].
  { rewrite list_lookup_insert_eq by (rewrite length_contents by done; lia).
    by rewrite list_lookup_middle. }
  rewrite list_lookup_insert_ne, Hl2 by lia. case_decide.
  - rewrite lookup_app_l, lookup_take_lt by lia.
    rewrite Nat.add_comm. by destruct (contents rb).
  - rewrite lookup_app_r, Htk by lia.
    rewrite lookup_cons_ne_0, lookup_drop by lia. f_equal. lia.
Qed.
End operation_lemmas.

(** ** The contract: a bounded double-ended list

    Each operation as a command, its meaning on the structure ([exec]) and on
    the abstract list of a given capacity ([spec]). *)
Section contract.
Context {T : Type}.
Implicit Types (rb : RingBuffer T) (l : list T) (x : T).

Inductive op :=
  | Len
  | Capacity
  | Get (i : N)
  | At (i : N)
  | GetMut (i : N) (x : T)
  | Assign (i : N) (x : T)
  | TryPeek
  | Peek
  | TryPush (x : T)
  | Push (x : T)
  | PushForce (x : T)
  | InsertForce (pos : N) (x : T)
  | TryPop
  | Pop.

Inductive answer :=
  | Word (n : N) | Elem (o : option T) | Done (o : option unit) | Forced (b : bool).

Definition exec (o : op) rb : result (answer * RingBuffer T) :=
  match o with
  | Len => n ← len rb; Ok (Word n, rb)
  | Capacity => Ok (Word (capacity rb), rb)
  | Get i => v ← get rb i; Ok (Elem v, rb)
  | At i => v ← index rb i; Ok (Elem (Some v), rb)
  | GetMut i x => r ← get_mut rb i x; Ok (match r with Some rb' => (Done (Some ()), rb') | None => (Done None, rb) end)
  | Assign i x => rb' ← index_mut rb i x; Ok (Done (Some ()), rb')
  | TryPeek => v ← try_peek rb; Ok (Elem v, rb)
  | Peek => v ← peek rb; Ok (Elem (Some v), rb)
  | TryPush x => '(r, rb') ← try_push rb x; Ok (Done r, rb')
  | Push x => rb' ← push rb x; Ok (Done (Some ()), rb')
  | PushForce x => '(b, rb') ← push_force rb x; Ok (Forced b, rb')
  | InsertForce pos x => '(b, rb') ← insert_force rb pos x; Ok (Forced b, rb')
  | TryPop => '(v, rb') ← try_pop rb; Ok (Elem v, rb')
  | Pop => '(v, rb') ← pop rb; Ok (Elem (Some v), rb')
  end.

Definition spec_push_force (cap : N) l x : bool * list T :=
  if (vlen l <? cap)%N then (false, l ++ [x]) else (true, tail l ++ [x]).

Definition spec_insert_force (cap : N) l (pos : N) x : result (bool * list T) :=
  if (vlen l <? pos)%N then Panic Explicit
  else if (pos =? vlen l)%N then Ok (spec_push_force cap l x)
  else if (vlen l <? cap)%N
  then Ok (false, take (N.to_nat pos) l ++ x :: drop (N.to_nat pos) l)
  else Ok (true, take (N.to_nat pos) (tail l) ++ x :: drop (S (N.to_nat pos)) l).

Definition spec (cap : N) (o : op) l : result (answer * list T) :=
  match o with
  | Len => Ok (Word (vlen l), l)
  | Capacity => Ok (Word cap, l)
  | Get i => Ok (Elem (l !! N.to_nat i), l)
  | At i => v ← expect (l !! N.to_nat i); Ok (Elem (Some v), l)
  | GetMut i x =>
      if (i <? vlen l)%N then Ok (Done (Some ()), <[N.to_nat i := x]> l) else Ok (Done None, l)
  | Assign i x =>
      if (i <? vlen l)%N then Ok (Done (Some ()), <[N.to_nat i := x]> l) else Panic Expect
  | TryPeek => Ok (Elem (head l), l)
  | Peek => v ← expect (head l); Ok (Elem (Some v), l)
  | TryPush x =>
      if (vlen l <? cap)%N then Ok (Done (Some ()), l ++ [x]) else Ok (Done None, l)
  | Push x => if (vlen l <? cap)%N then Ok (Done (Some ()), l ++ [x]) else Panic Expect
  | PushForce x => let '(b, l') := spec_push_force cap l x in Ok (Forced b, l')
  | InsertForce pos x =>
      '(b, l') ← spec_insert_force cap l pos x; Ok (Forced b, l')
  | TryPop => match l with [] => Ok (Elem None, l) | v :: l' => Ok (Elem (Some v), l') end
  | Pop => match l with [] => Panic Expect | v :: l' => Ok (Elem (Some v), l') end
  end.

(** The index an operation reads or writes by. *)
Definition op_index (o : op) : option N :=
  match o with Get i | At i | GetMut i _ | Assign i _ => Some i | _ => None end.

(** With the first element at position [p] the position of that index is a
    word; a larger one makes the addition of [wrap_index] overflow. *)
Definition op_in_range (p : N) (o : op) : Prop :=
  match op_index o with Some i => (p + i < W64)%N | None => True end.

(** The position of the first element after an operation: the next one when
    the first element was taken out or pushed over. *)
Definition spec_first (cap : N) (o : op) (p : N) l : N :=
  match o with
  | TryPop | Pop => if (vlen l =? 0)%N then p else next_pos cap p
  | PushForce _ => if (vlen l <? cap)%N then p else next_pos cap p
  | InsertForce pos _ => if (pos =? vlen l)%N && negb (vlen l <? cap)%N then next_pos cap p else p
  | _ => p
  end.

(** The list together with the position of its first element: what the code
    does for every index, also one that overflows. *)
Definition full_spec (cap : N) (o : op) (st : N * list T) : result (answer * (N * list T)) :=
  let '(p, l) := st in
  if match op_index o with Some i => (W64 <=? p + i)%N | None => false end then Panic Overflow
  else ('(a, l') ← spec cap o l; Ok (a, (spec_first cap o p l, l'))).

(** [rb] holds the list [l]. *)
Definition repr (cap : N) rb l : Prop :=
  wf rb ∧ capacity rb = cap ∧ contents rb = l.

Definition agrees (cap : N) (m : result (answer * RingBuffer T))
    (m' : result (answer * list T)) : Prop :=
  match m' with
  | Ok (a, l') => ∃ rb', m = Ok (a, rb') ∧ repr cap rb' l'
  | Panic p => m = Panic p
  end.

Fixpoint run {St} (f : op → St → result (answer * St)) (os : list op) (s : St)
    : result (list answer * St) :=
  match os with
  | [] => Ok ([], s)
  | o :: os => '(a, s) ← f o s; '(r, s) ← run f os s; Ok (a :: r, s)
  end.
End contract.
Arguments op : clear implicits.
Arguments answer : clear implicits.

Section refinement.
Context {T : Type}.
Implicit Types (rb : RingBuffer T) (l : list T).

Lemma get_ge rb i :
  wf rb → (size rb ≤ i)%N → (first rb + i < W64)%N → get rb i = Ok None.
Proof. intros. unfold get. by rewrite wrap_index_ge. Qed.

Lemma exec_agrees cap o rb l :
  repr cap rb l → op_in_range (first rb) o → agrees cap (exec o rb) (spec cap o l).
Proof.
  intros (Hwf & <- & <-) Ho. unfold op_in_range in Ho. unfold agrees, repr.
  pose proof (length_contents rb Hwf) as Hl. pose proof (vlen_contents rb Hwf) as Hv.
  pose proof (size_le_capacity rb Hwf). pose proof (wf_first rb Hwf).
  destruct o as [| |i|i|i x|i x| | |x|x|x|pos x| |]; simpl in *.
  - rewrite len_size, <-Hv by done. mred. eauto.
  - eauto.
  - destruct (contents rb !! N.to_nat i) as [v|] eqn:Hi.
    + erewrite get_lt by done. mred. eauto.
    + apply lookup_ge_None_1 in Hi. rewrite get_ge by (done || lia). mred. eauto.
  - destruct (contents rb !! N.to_nat i) as [v|] eqn:Hi; simpl.
    + erewrite index_lt by done. mred. eauto.
    + apply lookup_ge_None_1 in Hi. unfold index. by rewrite get_ge by (done || lia).
  - rewrite Hv. bcase.
    + destruct (index_mut_lt rb i x Hwf) as (rb' & Hm & ? & ? & ? & _ & _ & ?); [done|].
      apply bind_Ok_inv in Hm as ([|] & -> & [= ->]). mred. eauto.
    + unfold get_mut. rewrite wrap_index_ge by (done || lia). mred. eauto.
  - rewrite Hv. bcase.
    + destruct (index_mut_lt rb i x Hwf) as (rb' & -> & ? & ? & ? & _ & _ & ?); [done|].
      mred. eauto.
    + unfold index_mut, get_mut. by rewrite wrap_index_ge by (done || lia).
  - rewrite try_peek_run by done. mred. eauto.
  - unfold peek. rewrite try_peek_run by done. mred. destruct (head (contents rb)); simpl; [|done]. mred. eauto.
  - rewrite try_push_run, Hv by done. bcase; mred; [|by eauto].
    eauto 10 using wf_pushed, capacity_pushed, contents_pushed.
  - unfold push. rewrite try_push_run, Hv by done. bcase; mred; [|done].
    eauto 10 using wf_pushed, capacity_pushed, contents_pushed.
  - rewrite push_force_run by done. unfold spec_push_force. rewrite Hv. bcase; mred.
    + eauto 10 using wf_pushed, capacity_pushed, contents_pushed.
    + assert (size rb = capacity rb) by lia.
      eauto 10 using wf_push_over, capacity_push_over, contents_push_over.
  - unfold spec_insert_force, spec_push_force. rewrite Hv.
    destruct (N.lt_ge_cases pos (size rb)).
    + bcase; [lia|]. bcase; [lia|]. bcase; mred.
      * destruct (insert_force_middle rb pos x) as (rb' & -> & ? & ? & ?); [done..|].
        mred. eauto.
      * destruct (insert_force_full rb pos x) as (rb' & -> & ? & ? & ?); [done|done|lia|].
        mred. eauto.
    + rewrite insert_force_at_end by done. bcase; [done|]. bcase; [|lia].
      rewrite push_force_run by done. bcase; mred.
      * eauto 10 using wf_pushed, capacity_pushed, contents_pushed.
      * assert (size rb = capacity rb) by lia.
        eauto 10 using wf_push_over, capacity_push_over, contents_push_over.
  - rewrite try_pop_run by done. destruct (contents rb) as [|v l'] eqn:Hc; mred.
    + eauto 10.
    + pose proof (contents_cons _ _ _ Hc Hwf) as He.
      destruct (contents_popped rb Hwf He) as (v' & _ & Hc').
      rewrite Hc in Hc'. injection Hc' as -> ->.
      eauto 10 using wf_popped.
  - unfold pop. rewrite try_pop_run by done. destruct (contents rb) as [|v l'] eqn:Hc; mred; [done|].
    pose proof (contents_cons _ _ _ Hc Hwf) as He.
    destruct (contents_popped rb Hwf He) as (v' & _ & Hc').
    rewrite Hc in Hc'. injection Hc' as -> ->. eauto 10 using wf_popped.
Qed.

(** *** Where the first element is *)
Lemma index_mut_first rb i x rb' : index_mut rb i x = Ok rb' → first rb' = first rb.
Proof.
  unfold index_mut, get_mut. intros Hr. minv Hr. minv Hx. destruct x1 as [p|]; [|by simplify_eq].
  minv Hx. by simplify_eq/=.
Qed.

Lemma for_each_first (f : N → RingBuffer T → result (RingBuffer T)) js rb rb' :
  (∀ i rb rb', f i rb = Ok rb' → first rb' = first rb) →
  for_each js f rb = Ok rb' → first rb' = first rb.
Proof.
  intros Hf. revert rb. induction js as [|i js IH]; intros rb Hr; simpl in Hr; [by simplify_eq|].
  minv Hr. by rewrite (IH _ Hr), (Hf _ _ _ Hx).
Qed.

Lemma push_first rb x rb' : push rb x = Ok rb' → first rb' = first rb.
Proof.
  unfold push, try_push. intros Hr. minv Hr. destruct (_ || _); minv Hx; subst x0; minv Hr; by simplify_eq/=.
Qed.

Lemma insert_force_first rb pos x b rb' :
  wf rb → (pos < size rb)%N → insert_force rb pos x = Ok (b, rb') → first rb' = first rb.
Proof.
  intros Hwf Hpos. unfold insert_force. rewrite len_size by done. mred. bcase; [lia|].
  assert (empty rb = false) as ->.
  { destruct (empty rb) eqn:He; [|done]. unfold size in Hpos. rewrite He in Hpos. lia. }
  bcase; [lia|]. destruct (negb (first rb =? last rb)%N); intros Hr; minv Hr; simplify_eq/=.
  - rewrite (index_mut_first _ _ _ _ Hx1), <-(push_first _ _ _ Hx). eapply for_each_first; [|exact Hx0].
    intros i r r' Hf. cbv beta in Hf. minv Hf. by eapply index_mut_first.
  - rewrite (index_mut_first _ _ _ _ Hx0). eapply for_each_first; [|exact Hx].
    intros i r r' Hf. cbv beta in Hf. minv Hf. by eapply index_mut_first.
Qed.

Lemma exec_first cap o rb l a rb' :
  repr cap rb l → exec o rb = Ok (a, rb') → first rb' = spec_first cap o (first rb) l.
Proof.
  intros (Hwf & <- & <-) Hr. pose proof (vlen_contents rb Hwf) as Hv.
  destruct o as [| |i|i|i x|i x| | |x|x|x|pos x| |]; simpl in Hr |- *; rewrite ?Hv.
  - minv Hr. by simplify_eq/=.
  - by simplify_eq/=.
  - minv Hr. by simplify_eq/=.
  - minv Hr. by simplify_eq/=.
  - minv Hr. destruct x0 as [rb0|]; [|by simplify_eq/=]. simplify_eq/=. apply (index_mut_first _ i x).
    unfold index_mut. by rewrite Hx.
  - minv Hr. simplify_eq/=. by eapply index_mut_first.
  - minv Hr. by simplify_eq/=.
  - minv Hr. by simplify_eq/=.
  - rewrite try_push_run in Hr by done. destruct (size rb <? capacity rb)%N; mred; by simplify_eq/=.
  - minv Hr. simplify_eq/=. by eapply push_first.
  - rewrite push_force_run in Hr by done. destruct (size rb <? capacity rb)%N; mred; by simplify_eq/=.
  - destruct (N.lt_ge_cases pos (size rb)) as [Hlt|Hge].
    + rewrite (proj2 (N.eqb_neq _ _)) by lia. minv Hr. destruct x0. simplify_eq/=. by eapply insert_force_first.
    + rewrite insert_force_at_end in Hr by done. destruct (N.ltb_spec (size rb) pos); [done|]. rewrite push_force_run in Hr by done.
      rewrite (proj2 (N.eqb_eq _ _)) by lia. destruct (size rb <? capacity rb)%N; mred; by simplify_eq/=.
  - rewrite try_pop_run in Hr by done. rewrite <-Hv. destruct (contents rb); mred; by simplify_eq/=.
  - unfold pop in Hr. rewrite try_pop_run in Hr by done. rewrite <-Hv. destruct (contents rb); mred; [done|].
    by simplify_eq/=.
Qed.

(** An index too large for [wrap_index]. *)
Lemma get_overflow rb (i : N) : (W64 ≤ first rb + i)%N → wrap_index rb i = Panic Overflow.
Proof. intros H. unfold wrap_index. by rewrite checked_add_Panic. Qed.

Lemma exec_overflow o rb i : op_index o = Some i → (W64 ≤ first rb + i)%N → exec o rb = Panic Overflow.
Proof.
  intros Ho Hi. pose proof (get_overflow rb i Hi) as Hw.
  destruct o; simplify_eq/=; unfold index, index_mut, get, get_mut; by rewrite Hw.
Qed.

(** [rb] holds [l], with its first element at [p]. *)
Definition placed (cap : N) rb (st : N * list T) : Prop := repr cap rb st.2 ∧ first rb = st.1.

Lemma exec_full cap o rb st :
  placed cap rb st →
  match full_spec cap o st with
  | Ok (a, st') => ∃ rb', exec o rb = Ok (a, rb') ∧ placed cap rb' st'
  | Panic p => exec o rb = Panic p
  end.
Proof.
  destruct st as [p l]. intros [Hr Hp]. simpl in Hr, Hp. subst p. unfold full_spec.
  assert (op_in_range (first rb) o ∨ ∃ i, op_index o = Some i ∧ (W64 ≤ first rb + i)%N) as [Hin|(i & Ho & Hi)].
  { unfold op_in_range. destruct (op_index o) as [i|]; [|by left].
    destruct (N.lt_ge_cases (first rb + i) W64); [by left|right; eauto]. }
  - assert (match op_index o with Some i => (W64 <=? first rb + i)%N | None => false end = false) as ->.
    { unfold op_in_range in Hin. destruct (op_index o); [by apply N.leb_gt|done]. }
    pose proof (exec_agrees cap o rb l Hr Hin) as Ha. unfold agrees in Ha.
    destruct (spec cap o l) as [[a l']|p]; mred; [|done]. destruct Ha as (rb' & He & Hr'). exists rb'.
    split; [done|]. split; [done|]. by eapply exec_first.
  - rewrite Ho, (proj2 (N.leb_le _ _) Hi). by eapply exec_overflow.
Qed.
(** What the operations do to the list a buffer holds, for its clients. *)
Section held.
Context (cap : N) (rb : RingBuffer T) (l : list T) (Hr : repr cap rb l).

Lemma repr_le : (vlen l ≤ cap)%N.
Proof using Hr.
  destruct Hr as (Hwf & <- & <-). rewrite vlen_contents by done. by apply size_le_capacity.
Qed.
Lemma repr_len : len rb = Ok (vlen l).
Proof using Hr. destruct Hr as (Hwf & _ & <-). by rewrite len_size, vlen_contents. Qed.
Lemma repr_in_range i : (i + cap ≤ W64)%N → (first rb + i < W64)%N.
Proof using Hr. destruct Hr as ([Hf _ _ _] & Hc & _). lia. Qed.
Lemma repr_get i : (i + cap ≤ W64)%N → get rb i = Ok (l !! N.to_nat i).
Proof using Hr.
  intros Hi. destruct (exec_agrees cap (Get i) rb l Hr (repr_in_range i Hi)) as (rb' & Hg & _). simpl in Hg.
  destruct (get rb i); [|done]. by simplify_eq/=.
Qed.
Lemma repr_index i x : (i + cap ≤ W64)%N → l !! N.to_nat i = Some x → index rb i = Ok x.
Proof using Hr. intros Hi Hx. unfold index. rewrite repr_get by done. mred. by rewrite Hx. Qed.
Lemma repr_index_None i : (i + cap ≤ W64)%N → l !! N.to_nat i = None → index rb i = Panic Expect.
Proof using Hr. intros Hi Hx. unfold index. rewrite repr_get by done. mred. by rewrite Hx. Qed.
Lemma repr_index_mut i x :
  (i < vlen l)%N → (i + cap ≤ W64)%N →
  ∃ rb', index_mut rb i x = Ok rb' ∧ repr cap rb' (<[N.to_nat i := x]> l).
Proof using Hr.
  intros Hi Hw. pose proof (exec_agrees cap (Assign i x) rb l Hr (repr_in_range i Hw)) as Ha. simpl in Ha.
  rewrite (proj2 (N.ltb_lt _ _)) in Ha by done. destruct Ha as (rb' & Ha & Hr').
  destruct (index_mut rb i x); [|done]. simplify_eq/=. eauto.
Qed.
Lemma repr_push_force x :
  ∃ rb', push_force rb x = Ok ((spec_push_force cap l x).1, rb') ∧
    repr cap rb' (spec_push_force cap l x).2.
Proof using Hr.
  pose proof (exec_agrees cap (PushForce x) rb l Hr I) as Ha. simpl in Ha.
  destruct (spec_push_force cap l x) as [b l']. simpl in *. destruct Ha as (rb' & Ha & Hr').
  destruct (push_force rb x) as [[]|]; [|done]. simplify_eq/=. eauto.
Qed.
Lemma repr_insert_force pos x b l' :
  spec_insert_force cap l pos x = Ok (b, l') →
  ∃ rb', insert_force rb pos x = Ok (b, rb') ∧ repr cap rb' l'.
Proof using Hr.
  intros Hs. pose proof (exec_agrees cap (InsertForce pos x) rb l Hr I) as Ha. simpl in Ha.
  rewrite Hs in Ha. destruct Ha as (rb' & Ha & Hr').
  destruct (insert_force rb pos x) as [[]|]; [|done]. simplify_eq/=. eauto.
Qed.
End held.

Lemma new_with_repr CAP (x : T) :
  (0 < CAP)%N → (2 * CAP ≤ W64)%N → repr CAP (new_with CAP x) [].
Proof.
  intros H0 Hc.
  assert (capacity (new_with CAP x) = CAP) as Hcap.
  { unfold capacity, vlen. simpl. rewrite length_replicate. lia. }
  split_and!; [split; rewrite ?Hcap; simpl; try done; lia|done|done].
Qed.

Lemma run_full cap os rb st :
  placed cap rb st →
  match run (full_spec cap) os st with
  | Ok (r, st') => ∃ rb', run exec os rb = Ok (r, rb') ∧ placed cap rb' st'
  | Panic p => run exec os rb = Panic p
  end.
Proof.
  revert rb st. induction os as [|o os IH]; intros rb st Hr; cbn [run]; [eauto|].
  pose proof (exec_full cap o rb st Hr) as Ha.
  destruct (full_spec cap o st) as [[a st1]|p]; mred; [|by rewrite Ha].
  destruct Ha as (rb' & -> & Hr'). mred. specialize (IH rb' st1 Hr').
  destruct (run (full_spec cap) os st1) as [[r st2]|p]; mred; [|by rewrite IH].
  destruct IH as (rb2 & -> & Hr2). mred. eauto.
Qed.
End refinement.

(** ** Theorems *)
Section theorems.
Context {T : Type}.

(** C31: every sequence of operations on a fresh [RingBuffer] answers exactly
    as the same sequence on a list bounded by the capacity does, panics
    included, and the buffer holds that list at the end.  The position of the
    first element is part of the abstract state, because an index panics with
    overflow, instead of finding no element, when that position and it are
    not a word together. *)
Theorem ring_buffer_refines (CAP : N) (initial : T) (os : list (op T)) :
  (0 < CAP)%N → (2 * CAP ≤ W64)%N →
  match run (full_spec CAP) os (0%N, []) with
  | Ok (r, (p, l)) => ∃ rb, run exec os (new_with CAP initial) = Ok (r, rb) ∧ repr CAP rb l ∧ first rb = p
  | Panic p => run exec os (new_with CAP initial) = Panic p
  end.
Proof.
  intros H0 Hc. pose proof (run_full CAP os (new_with CAP initial) (0%N, [])) as Hr.
  destruct (run (full_spec CAP) os (0%N, [])) as [[r [p l]]|p]; apply Hr; (split; [by apply new_with_repr|done]).
Qed.

(** Inserting below the end of a full buffer discards the oldest element
    and puts the new one behind the element that was at [pos]: the elements
    after the first up to [pos] move down by one, the later ones stay. *)
Lemma insert_force_full_discards (rb : RingBuffer T) (pos : N) (x a b : T)
    (l1 l2 : list T) :
  wf rb → size rb = capacity rb →
  contents rb = a :: l1 ++ b :: l2 → N.to_nat pos = S (length l1) →
  ∃ rb', insert_force rb pos x = Ok (true, rb') ∧ wf rb' ∧
    contents rb' = l1 ++ b :: x :: l2.
Proof.
  intros Hwf Hfull Hc Hpos.
  pose proof (length_contents rb Hwf) as Hl. rewrite Hc in Hl.
  simpl in Hl. rewrite length_app in Hl. simpl in Hl.
  destruct (insert_force_full rb pos x) as (rb' & Hrun & Hwf' & _ & Hc'); [done|lia|done|].
  exists rb'. split_and!; [done|done|]. rewrite Hc', Hc, Hpos. simpl.
  replace (l1 ++ b :: l2) with ((l1 ++ [b]) ++ l2) by by rewrite <-app_assoc.
  rewrite take_app_length', drop_app_length' by (rewrite length_app; simpl; lia).
  by rewrite <-app_assoc.
Qed.

End theorems.

(** *** Concrete runs *)
Definition demo_ops : list (op N) :=
  [TryPush 1; TryPush 2; PushForce 3; InsertForce 1 9; TryPop; Get 0; Peek; Push 4; Pop; Get (2 ^ 64 - 3); Len]%N.

(** Reading far behind the end answers [None] as long as the first element,
    here at position 2, and the index are a word together. *)
Lemma ring_buffer_refines_witness :
  ∃ rb, run exec demo_ops (new_with 3 0%N) =
      Ok ([Done (Some ()); Done (Some ()); Forced false; Forced true; Elem (Some 2%N);
           Elem (Some 9%N); Elem (Some 9%N); Done (Some ()); Elem (Some 9%N); Elem None; Word 2], rb) ∧
    repr 3 rb [3; 4]%N ∧ first rb = 2%N.
Proof. apply (ring_buffer_refines 3 0%N demo_ops); lia. Defined.

End RingBuffer.
