(* ===== verification/InterruptQueue.v ===== *)
(** * The interrupt message queue of [kernel/src/interrupt_queue.rs]

    Interrupt handlers push messages, the main loop pops them.  The queue is
    written against the interface [BoundedQueue], what a client may rely on
    from the ring buffer; the theorems about the queue are proved from the
    interface's laws, which the ring buffer's lemmas discharge. *)
From S2P Require Import Prelude RingBuffer.
Local Open Scope checked_scope.

(** ** Interface: a queue of bounded capacity *)
Class QueueOps (Q T : Type) := {
  q_len : Q → result N;
  q_try_push : Q → T → result (option unit * Q);
  q_try_pop : Q → result (option T * Q);
}.

Class BoundedQueue (Q T : Type) `{QueueOps Q T} (cap : N) (holds : Q → list T → Prop) := {
  q_bound q l : holds q l → (vlen l ≤ cap)%N;
  q_len_holds q l : holds q l → q_len q = Ok (vlen l);
  q_push_room q l x : holds q l → (vlen l < cap)%N →
    ∃ q', q_try_push q x = Ok (Some (), q') ∧ holds q' (l ++ [x]);
  q_pop_nil q : holds q [] → ∃ q', q_try_pop q = Ok (None, q') ∧ holds q' [];
  q_pop_cons q x l : holds q (x :: l) →
    ∃ q', q_try_pop q = Ok (Some x, q') ∧ holds q' l;
}.

(** The ring buffer implements it. *)
#[export] Instance ring_buffer_ops {T} : QueueOps (RingBuffer.RingBuffer T) T := {
  q_len := RingBuffer.len;
  q_try_push := RingBuffer.try_push;
  q_try_pop := RingBuffer.try_pop;
}.

#[export] Instance ring_buffer_queue {T} (cap : N) :
  BoundedQueue (RingBuffer.RingBuffer T) T cap (RingBuffer.repr cap).
Proof.
  split.
  - intros q l (Hwf & <- & <-). rewrite RingBuffer.vlen_contents by done.
    by apply RingBuffer.size_le_capacity.
  - intros q l (Hwf & <- & <-). simpl.
    by rewrite RingBuffer.len_size, RingBuffer.vlen_contents.
  - intros q l x Hq Hlt. pose proof (RingBuffer.exec_agrees cap (RingBuffer.TryPush x) q l Hq I) as Ha.
    unfold RingBuffer.agrees in Ha. simpl in *. apply N.ltb_lt in Hlt. rewrite Hlt in Ha.
    destruct Ha as (q' & Hrun & Hq'). minv Hrun. destruct x0 as [o q2]. simplify_eq. eauto.
  - intros q Hq. pose proof (RingBuffer.exec_agrees cap RingBuffer.TryPop q [] Hq I) as Ha.
    destruct Ha as (q' & Hrun & Hq'). simpl in *. minv Hrun. destruct x as [o q2].
    simplify_eq. eauto.
  - intros q x l Hq. pose proof (RingBuffer.exec_agrees cap RingBuffer.TryPop q _ Hq I) as Ha.
    destruct Ha as (q' & Hrun & Hq'). simpl in *. minv Hrun. destruct x0 as [o q2].
    simplify_eq. eauto.
Qed.

Module InterruptQueue.

Inductive InterruptMessage :=
  | Timer
  | Keyboard (data : N).

#[export] Instance InterruptMessage_eq_dec : EqDecision InterruptMessage.
Proof. solve_decision. Defined.

Definition BUFFER_SIZE : N := 4096.

(** The initial value of the static [QUEUE]. *)
Definition QUEUE : RingBuffer.RingBuffer InterruptMessage :=
  RingBuffer.new_with BUFFER_SIZE Timer.

Section queue.
Context {Q : Type} `{QueueOps Q InterruptMessage}.

(** The bodies of the two functions, with the lock held. *)
Definition intmsg_push (queue : Q) (msg : InterruptMessage) : result Q :=
  n ← q_len queue;
  if (n <? BUFFER_SIZE)%N then '(_, queue) ← q_try_push queue msg; Ok queue
  else Ok queue.

Definition intmsg_pop (queue : Q) : result (option InterruptMessage * Q) :=
  q_try_pop queue.
End queue.

(** ** Interleaved runs

    Handlers and main loop use the queue in any order: a run is a list of
    uses.  [accepted] are the messages that entered the queue, [popped] the
    messages the main loop received. *)
Inductive use := Push (m : InterruptMessage) | Pop.

Record history := { accepted : list InterruptMessage; dropped : list InterruptMessage;
                    popped : list InterruptMessage }.

Section history.
Context {Q : Type} `{QueueOps Q InterruptMessage}.

Definition use_step (u : use) (s : Q * history) : result (Q * history) :=
  let '(q, h) := s in
  match u with
  | Push m =>
      n ← q_len q;
      q' ← intmsg_push q m;
      n' ← q_len q';
      Ok (q', if (n <? n')%N
              then {| accepted := accepted h ++ [m]; dropped := dropped h; popped := popped h |}
              else {| accepted := accepted h; dropped := dropped h ++ [m]; popped := popped h |})
  | Pop =>
      '(o, q') ← intmsg_pop q;
      Ok (q', {| accepted := accepted h; dropped := dropped h;
                 popped := popped h ++ match o with Some m => [m] | None => [] end |})
  end.
End history.

Section queue_lemmas.
Context {Q : Type} `{BoundedQueue Q InterruptMessage BUFFER_SIZE holds}.

Lemma intmsg_push_holds q l m :
  holds q l →
  ∃ q', intmsg_push q m = Ok q' ∧
    holds q' (if (vlen l <? BUFFER_SIZE)%N then l ++ [m] else l).
Proof.
  intros Hq. unfold intmsg_push. rewrite (q_len_holds q l) by done. mred. bcase; [|by eauto].
  destruct (q_push_room q l m) as (q' & -> & Hq'); [done..|]. mred. eauto.
Qed.

Lemma intmsg_pop_holds q l :
  holds q l → ∃ q', intmsg_pop q = Ok (head l, q') ∧ holds q' (tail l).
Proof.
  intros Hq. unfold intmsg_pop. destruct l as [|x l].
  - destruct (q_pop_nil q) as (q' & -> & ?); eauto.
  - destruct (q_pop_cons q x l) as (q' & -> & ?); eauto.
Qed.

(** What is accepted is what was popped and what is still queued, in order. *)
Definition history_ok (s : Q * history) : Prop :=
  ∃ l, holds s.1 l ∧ accepted s.2 = popped s.2 ++ l.

Lemma use_step_ok u s :
  history_ok s → ∃ s', use_step u s = Ok s' ∧ history_ok s' ∧
    (dropped s'.2 = dropped s.2 ∨ ∃ l, holds s.1 l ∧ vlen l = BUFFER_SIZE).
Proof.
  intros (l & Hq & Hacc). destruct s as [q h]; simpl in *. destruct u as [m|]; simpl.
  - rewrite (q_len_holds q l) by done. mred.
    destruct (intmsg_push_holds q l m Hq) as (q' & -> & Hq'). mred.
    rewrite (q_len_holds q' _ Hq'). mred. eexists. split; [done|].
    pose proof (q_bound q l Hq) as Hb. unfold history_ok. simpl.
    destruct (N.ltb_spec (vlen l) BUFFER_SIZE).
    + assert (vlen (l ++ [m]) = vlen l + 1)%N as ->
        by (unfold vlen; rewrite length_app; simpl; lia).
      bcase; [|lia]. simpl. split; [|by left]. exists (l ++ [m]).
      by rewrite Hacc, app_assoc.
    + bcase; [lia|]. simpl. split; [by eauto|right]. exists l. split; [done|lia].
  - destruct (intmsg_pop_holds q l Hq) as (q' & -> & Hq'). mred. eexists. split; [done|].
    split; [|by left]. unfold history_ok. simpl. exists (tail l). split; [done|].
    rewrite Hacc. by destruct l; simpl; rewrite <-app_assoc.
Qed.

Lemma uses_ok us s :
  history_ok s → ∃ s', for_each us use_step s = Ok s' ∧ history_ok s'.
Proof.
  intros Hs. apply (for_each_inv use_step (λ _ s, history_ok s)); [done|].
  intros _ u _ s1 _ Hs1. destruct (use_step_ok u s1 Hs1) as (s' & ? & ? & _). eauto.
Qed.
End queue_lemmas.

Definition no_history : history := {| accepted := []; dropped := []; popped := [] |}.

Lemma QUEUE_repr : RingBuffer.repr BUFFER_SIZE QUEUE [].
Proof. apply RingBuffer.new_with_repr; unfold BUFFER_SIZE; lia. Qed.

(** Whatever the order in which interrupt handlers push and the main loop
    pops, no operation panics and the messages received are the accepted
    messages in the order of their arrival, up to those still queued. *)
Lemma interrupt_queue_fifo (us : list use) :
  ∃ q h l, for_each us use_step (QUEUE, no_history) = Ok (q, h) ∧
    RingBuffer.repr BUFFER_SIZE q l ∧ accepted h = popped h ++ l.
Proof.
  destruct (uses_ok us (QUEUE, no_history)) as ([q h] & ? & l & ? & ?); [|by eauto 10].
  exists []. split; [apply QUEUE_repr|done].
Qed.

End InterruptQueue.
