(* ===== verification/Buddy.v ===== *)
(** * The buddy allocator of [buddyblock/src/lib.rs]: data and operations

    A chunk of memory starts with metadata, one bitmap per block size, and
    continues with the data blocks.  Level [k] of the bitmaps has one bit per
    block of [UNIT_SIZE << k] bytes; a set bit is a free block.  The array of
    [BlockBitmap]s and the bytes of all bitmaps are kept as in the source:
    one byte slice ([total_bits]) shared by the levels, of which each
    [BlockBitmap] points to its part. *)
From S2P Require Import Prelude.
Local Open Scope checked_scope.

Module Buddy.

Definition UNIT_SIZE : N := 4096.

(** [size_of::<BlockBitmap>()]: a pointer and a [usize]. *)
Definition BLOCK_BITMAP_SIZE : N := 16.

Record BuddyBlockInfo := mkInfo {
  raw_addr : N;
  total_len : N;
  metadata_len : N;
  data_offset : N;
  units : N;
  levels : N;
}.

(** The pointer [bits] is the index in [total_bits] of the first byte. *)
Record BlockBitmap := mkBitmap { bits_ptr : N; bitmap_count : N }.

Record BuddyBlock := mkBuddy {
  info : BuddyBlockInfo;
  used : N;
  bitmaps : list BlockBitmap;
  total_bits : list N;
}.

(** The borrow of one bitmap: its bytes and its counter. *)
Record BlockBitmapRef := mkRef { bits : list N; count : N }.

(** ** Layout *)
Definition info_empty : BuddyBlockInfo := mkInfo 0 0 0 0 0 0.
Definition data_addr (i : BuddyBlockInfo) : result N := raw_addr i +! data_offset i.
Definition data_len (i : BuddyBlockInfo) : result N := total_len i -! data_offset i.

(** Bytes of a bitmap of [block_count] bits. *)
Definition bits_len (block_count : N) : result N :=
  n ← block_count -! 1; (n / 8) +! 1.

(** The loop of [from_chunk]: at most 64 halvings bring a word to one. *)
Fixpoint chunk_loop (fuel : nat) (levels bits block_count : N) : result (N * N) :=
  match fuel with
  | O => Panic OutOfFuel
  | S fuel =>
      levels ← checked_add W32 levels 1;
      n ← bits_len block_count;
      bits ← bits +! n;
      if (block_count =? 1)%N then Ok (levels, bits)
      else chunk_loop fuel levels bits (block_count / 2)
  end.

Definition from_chunk (addr len : N) : result BuddyBlockInfo :=
  assert (UNIT_SIZE <? len)%N;;
  n ← len -! 1;
  units ← (n / UNIT_SIZE) +! 1;
  '(levels, bits) ← chunk_loop 64 0 0 units;
  m ← levels *! BLOCK_BITMAP_SIZE;
  metadata_len ← m +! bits;
  assert (metadata_len <? len)%N;;
  Ok (mkInfo addr len metadata_len 0 units levels).

Section with_num_integer.
Context `{NumInteger}.

Definition info_new (raw_addr total_len : N) : result BuddyBlockInfo :=
  tmp ← from_chunk raw_addr total_len;
  data_offset ← div_ceil (metadata_len tmp) UNIT_SIZE *! UNIT_SIZE;
  a ← raw_addr +! data_offset;
  l ← total_len -! data_offset;
  i ← from_chunk a l;
  assert (metadata_len i <? data_offset)%N;;
  Ok (mkInfo raw_addr total_len (metadata_len i) data_offset (units i) (levels i)).

(** [self.bitmaps.len() as u32] *)
Definition bitmap_len (s : BuddyBlock) : N := (vlen (bitmaps s) mod W32)%N.

(** ** Construction *)
Definition buddy_empty : BuddyBlock := mkBuddy info_empty 0 [] [].

Definition left (s : BuddyBlock) : result N := n ← data_len (info s); n -! used s.

(** The loop of [BuddyBlock::new] over the levels; [bitmaps] is the slice of
  uninitialised [BlockBitmap]s. *)
Fixpoint new_loop (fuel : nat) (bitmaps : list (option BlockBitmap)) (total_bits : list N)
  (block_count bits_idx idx : N) : result (list (option BlockBitmap) * list N * N * N) :=
  match fuel with
  | O => Panic OutOfFuel
  | S fuel =>
      bits_len ← bits_len block_count;
      e ← bits_idx +! bits_len;
      (if (e <=? vlen total_bits)%N then Ok () else Panic OutOfBounds);;
      '(total_bits, count) ←
        (if negb (block_count mod 2 =? 0)%N then
           sh ← (block_count mod 8) -! 1;
           last ← bits_len -! 1;
           total_bits ← vset total_bits (bits_idx + last)%N (N.shiftl 1 sh mod 256)%N;
           Ok (total_bits, 1%N)
         else Ok (total_bits, 0%N));
      bitmaps ← vset bitmaps idx (Some (mkBitmap bits_idx count));
      idx ← idx +! 1;
      let block_count := (block_count / 2)%N in
      if (block_count =? 0)%N then Ok (bitmaps, total_bits, e, idx)
      else new_loop fuel bitmaps total_bits block_count e idx
  end.

(** Reading the slice as initialised: undefined if an element is not. *)
Definition assume_init {A} (l : list (option A)) : result (list A) :=
  match (mapM (λ x, x) l : option (list A)) with Some l => Ok l | None => Panic UB end.

(** What addresses decide of the contract of [from_raw_parts_mut]: the pointer
  is not null and aligned, and the slice of [len] elements is at most
  [isize::MAX] bytes and does not wrap around. *)
Definition from_raw_parts_mut (data size align len : N) : result () :=
  if negb (data =? 0)%N && (data mod align =? 0)%N && (len * size <? 2 ^ 63)%N && (data + len * size <=? W64)%N
  then Ok () else Panic UB.

Definition buddy_new (raw_addr total_len : N) : result BuddyBlock :=
  info ← info_new raw_addr total_len;
  let bitmaps_len := levels info in
  bitmaps_bytes ← bitmaps_len *! BLOCK_BITMAP_SIZE;
  from_raw_parts_mut raw_addr BLOCK_BITMAP_SIZE 8 bitmaps_len;;
  a ← raw_addr +! bitmaps_bytes;
  n ← metadata_len info -! bitmaps_bytes;
  from_raw_parts_mut a 1 1 n;;
  let bitmaps := replicate (N.to_nat bitmaps_len) None in
  let total_bits := replicate (N.to_nat n) 0%N in
  '(bitmaps, total_bits, bits_idx, idx) ←
    new_loop 64 bitmaps total_bits (units info) 0 0;
  assert (bits_idx =? vlen total_bits)%N;;
  assert (idx =? vlen bitmaps)%N;;
  bitmaps ← assume_init bitmaps;
  Ok (mkBuddy info 0 bitmaps total_bits).

(** ** Bitmaps *)
Definition ref_get (r : BlockBitmapRef) (block_idx : N) : result bool :=
  b ← vget (bits r) (block_idx / 8);
  Ok (negb (N.land b (N.shiftl 1 (block_idx mod 8)) =? 0)%N).

Definition set_1 (r : BlockBitmapRef) (block_idx : N) : result BlockBitmapRef :=
  prev ← ref_get r block_idx;
  b ← vget (bits r) (block_idx / 8);
  l ← vset (bits r) (block_idx / 8) (N.lor b (N.shiftl 1 (block_idx mod 8)));
  c ← (if negb prev then count r +! 1 else Ok (count r));
  Ok (mkRef l c).

(** [!m] of a byte is [255 - m]. *)
Definition set_0 (r : BlockBitmapRef) (block_idx : N) : result BlockBitmapRef :=
  prev ← ref_get r block_idx;
  b ← vget (bits r) (block_idx / 8);
  l ← vset (bits r) (block_idx / 8) (N.land b (255 - N.shiftl 1 (block_idx mod 8)));
  c ← (if prev : bool then count r -! 1 else Ok (count r));
  Ok (mkRef l c).

Definition ref_empty (r : BlockBitmapRef) : bool := (count r =? 0)%N.

(** [while self.bits[bits_idx] == 0 { bits_idx += 1 }] *)
Fixpoint first_byte (fuel : nat) (l : list N) (bits_idx : N) : result (N * N) :=
  match fuel with
  | O => Panic OutOfFuel
  | S fuel =>
      b ← vget l bits_idx;
      if (b =? 0)%N then (i ← bits_idx +! 1; first_byte fuel l i) else Ok (bits_idx, b)
  end.

(** [while (self.bits[bits_idx] & (1 << offset)) == 0 { offset += 1 }]; the
  byte shift panics from 8 on. *)
Fixpoint first_offset (fuel : nat) (b offset : N) : result N :=
  match fuel with
  | O => Panic OutOfFuel
  | S fuel =>
      m ← (if (offset <? 8)%N then Ok (N.shiftl 1 offset) else Panic Overflow);
      if (N.land b m =? 0)%N then first_offset fuel b (offset + 1) else Ok offset
  end.

Definition first_1 (r : BlockBitmapRef) : result N :=
  assert (negb (ref_empty r));;
  '(bits_idx, b) ← first_byte (S (length (bits r))) (bits r) 0;
  offset ← first_offset 9 b 0;
  n ← bits_idx *! 8;
  n +! offset.

(** [BlockBitmapRef::from]: borrow the bytes and the counter of a level. *)
Definition get_bits (s : BuddyBlock) (bitmap_idx : N) : result BlockBitmapRef :=
  block_count ← units (info s) >>! bitmap_idx;
  bitmap ← vget (bitmaps s) bitmap_idx;
  n ← bits_len block_count;
  let l := take (N.to_nat n) (drop (N.to_nat (bits_ptr bitmap)) (total_bits s)) in
  (if (vlen l =? n)%N then Ok () else Panic UB);;
  Ok (mkRef l (bitmap_count bitmap)).

(** The end of the borrow: the bytes and the counter are back in place. *)
Definition put_bits (s : BuddyBlock) (bitmap_idx : N) (r : BlockBitmapRef) : BuddyBlock :=
  match bitmaps s !! N.to_nat bitmap_idx with
  | Some bitmap =>
      let p := N.to_nat (bits_ptr bitmap) in
      mkBuddy (info s) (used s)
        (<[N.to_nat bitmap_idx := mkBitmap (bits_ptr bitmap) (count r)]> (bitmaps s))
        (splice p (bits r) (total_bits s))
  | None => s
  end.

(** ** Allocation *)

(** [while (UNIT_SIZE << idx) < size { idx += 1 }]: the shift panics at 64. *)
Fixpoint index_loop (fuel : nat) (size idx : N) : result N :=
  match fuel with
  | O => Panic OutOfFuel
  | S fuel =>
      b ← UNIT_SIZE <<! idx;
      if (b <? size)%N then (idx ← checked_add W32 idx 1; index_loop fuel size idx)
      else Ok idx
  end.
Definition bitmap_index_for_size (size : N) : result N := index_loop 65 size 0.

(** The splitting loop [for below in (bitmap_idx_fit..bitmap_idx).rev()]; the
  state is the allocator and [below_block_idx]. *)
Definition split_step (below : N) (st : BuddyBlock * N) : result (BuddyBlock * N) :=
  let '(s, below_block_idx) := st in
  below_block_idx ← below_block_idx *! 2;
  below_bitmap ← get_bits s below;
  j ← below_block_idx +! 1;
  below_bitmap ← set_1 below_bitmap j;
  Ok (put_bits s below below_bitmap, below_block_idx).

(** The loop [for bitmap_idx in bitmap_idx_fit..bitmap_len]. *)
Fixpoint alloc_loop (bitmap_idxs : list N) (bitmap_idx_fit aligned_len : N) (s : BuddyBlock)
  : result (option N * BuddyBlock) :=
  match bitmap_idxs with
  | [] => Ok (None, s)
  | bitmap_idx :: bitmap_idxs =>
      bitmap ← get_bits s bitmap_idx;
      if ref_empty bitmap then alloc_loop bitmap_idxs bitmap_idx_fit aligned_len s
      else
        block_idx ← first_1 bitmap;
        bitmap ← set_0 bitmap block_idx;
        let s := put_bits s bitmap_idx bitmap in
        '(s, _) ← for_each (reverse (range bitmap_idx_fit bitmap_idx)) split_step (s, block_idx);
        u ← used s +! aligned_len;
        let s := mkBuddy (info s) u (bitmaps s) (total_bits s) in
        a ← data_addr (info s);
        sz ← UNIT_SIZE <<! bitmap_idx;
        o ← block_idx *! sz;
        r ← a +! o;
        Ok (Some r, s)
  end.

Definition alloc (s : BuddyBlock) (len : N) : result (option N * BuddyBlock) :=
  assert (negb (len =? 0)%N);;
  aligned_len ← div_ceil len UNIT_SIZE *! UNIT_SIZE;
  bitmap_idx_fit ← bitmap_index_for_size aligned_len;
  if (bitmap_len s <=? bitmap_idx_fit)%N then Ok (None, s)
  else alloc_loop (range bitmap_idx_fit (bitmap_len s)) bitmap_idx_fit aligned_len s.

(** ** Deallocation *)

(** The merging loop; a block is merged at most once per level. *)
Fixpoint merge_loop (fuel : nat) (s : BuddyBlock) (block_idx current : N) : result BuddyBlock :=
  match fuel with
  | O => Panic OutOfFuel
  | S fuel =>
      current_bitmap ← get_bits s current;
      b ← ref_get current_bitmap block_idx;
      assert (negb b);;
      current_bitmap ← set_1 current_bitmap block_idx;
      let buddy_idx := N.lxor block_idx 1 in
      b ← ref_get current_bitmap buddy_idx;
      if (b : bool) then
        next ← checked_add W32 current 1;
        if (bitmap_len s <=? next)%N then Ok (put_bits s current current_bitmap)
        else
          current_bitmap ← set_0 current_bitmap buddy_idx;
          current_bitmap ← set_0 current_bitmap block_idx;
          merge_loop fuel (put_bits s current current_bitmap) (block_idx / 2) next
      else Ok (put_bits s current current_bitmap)
  end.

Definition dealloc (s : BuddyBlock) (addr len : N) : result BuddyBlock :=
  if (len =? 0)%N then Ok s
  else
    data_addr ← data_addr (info s);
    data_len ← data_len (info s);
    let aligned_addr := (addr / UNIT_SIZE * UNIT_SIZE)%N in
    e ← addr +! len;
    aligned_end ← div_ceil e UNIT_SIZE *! UNIT_SIZE;
    aligned_len ← aligned_end -! aligned_addr;
    c ← (if (data_addr <=? aligned_addr)%N
         then e ← data_addr +! data_len; Ok (aligned_addr <? e)%N else Ok false);
    assert c;;
    c ← (if (data_addr <? aligned_end)%N
         then e ← data_addr +! data_len; Ok (aligned_end <=? e)%N else Ok false);
    assert c;;
    bitmap_idx_fit ← bitmap_index_for_size aligned_len;
    assert (bitmap_idx_fit <? bitmap_len s)%N;;
    n ← aligned_addr -! data_addr;
    sz ← UNIT_SIZE <<! bitmap_idx_fit;
    block_idx ← n /! sz;
    s ← merge_loop (S (length (bitmaps s))) s block_idx bitmap_idx_fit;
    u ← used s -! aligned_len;
    Ok (mkBuddy (info s) u (bitmaps s) (total_bits s)).

End with_num_integer.
End Buddy.
