(* ===== verification/BuddyTree.v ===== *)
(** * The buddy system as a tree of blocks

    The abstract state of the allocator of [buddyblock/src/lib.rs]: which
    blocks are free and which are handed out.  Block [(k, i)] is the [i]-th
    block of [2 ^ k] units.  [tree] is the invariant: free and handed-out
    blocks partition the units, and no two buddies are both free.  The four
    moves below are what the loops of [alloc] and [dealloc] do, one iteration
    each.  [tree_unique] says that the free blocks are determined by the
    blocks handed out, [tree_complete] that a free run of units is one free
    block. *)
From stdpp Require Import gmap.
From S2P Require Import Prelude.
Local Open Scope N_scope.

Module BuddyTree.

(** ** Blocks *)
Abbreviation block := (N * N)%type.

(** The block of level [k] that contains unit [u]. *)
Definition block_of (k u : N) : N := u / 2 ^ k.

Lemma block_of_0 u : block_of 0 u = u.
Proof. unfold block_of. by rewrite N.div_1_r. Qed.

Lemma block_of_succ k u : block_of (k + 1) u = block_of k u / 2.
Proof. unfold block_of. by rewrite N.pow_add_r, N.pow_1_r, N.Div0.div_div. Qed.

Lemma block_of_le k j u : k ≤ j → block_of j u = block_of k u / 2 ^ (j - k).
Proof.
  intros Hkj. unfold block_of. rewrite N.Div0.div_div, <-N.pow_add_r. do 2 f_equal. lia.
Qed.

Lemma block_of_first k i : block_of k (i * 2 ^ k) = i.
Proof. unfold block_of. apply N.div_mul. apply N.pow_nonzero. lia. Qed.

Lemma block_of_mono k u v : u ≤ v → block_of k u ≤ block_of k v.
Proof. apply N.Div0.div_le_mono. Qed.

Lemma block_of_range k i u : block_of k u = i ↔ i * 2 ^ k ≤ u < (i + 1) * 2 ^ k.
Proof.
  unfold block_of. assert (0 < 2 ^ k) by (apply N.neq_0_lt_0, N.pow_nonzero; lia).
  pose proof (N.div_mod' u (2 ^ k)). pose proof (N.mod_lt u (2 ^ k)). split; [intros <-|]; nia.
Qed.

(** A unit of a block that fits in the chunk is a unit of the chunk. *)
Lemma block_of_bound n k u : block_of k u < block_of k n → u < n.
Proof. intros H. destruct (N.lt_ge_cases u n) as [|Hle]; [done|]. pose proof (block_of_mono k _ _ Hle). lia. Qed.

(** Two blocks that share a unit are nested. *)
Lemma block_of_nested k j u v :
  k ≤ j → block_of k u = block_of k v → block_of j u = block_of j v.
Proof. intros Hkj Heq. by rewrite !(block_of_le k j), Heq. Qed.

Lemma lxor_1 i : N.lxor i 1 = if N.even i then i + 1 else i - 1.
Proof.
  destruct (N.even i) eqn:He.
  - apply N.even_spec in He as [m ->]. rewrite N.add_nocarry_lxor; [done|].
    destruct m; reflexivity.
  - rewrite <-N.negb_odd in He. apply negb_false_iff, N.odd_spec in He as [m ->].
    rewrite N.add_sub. destruct m; reflexivity.
Qed.

(** The buddy of a block: the other half of its parent. *)
Lemma buddy_cases i :
  (i = 2 * (i / 2) ∧ N.lxor i 1 = 2 * (i / 2) + 1) ∨
  (i = 2 * (i / 2) + 1 ∧ N.lxor i 1 = 2 * (i / 2)).
Proof.
  rewrite lxor_1. destruct (N.even i) eqn:He.
  - apply N.even_spec in He as [m ->]. left. lia.
  - rewrite <-N.negb_odd in He. apply negb_false_iff, N.odd_spec in He as [m ->]. right. lia.
Qed.

(** ** The invariant *)
Definition upd (F : N → N → bool) (k i : N) (b : bool) : N → N → bool := λ k' i',
  if decide (k' = k ∧ i' = i) then b else F k' i'.

Section tree.
(** The number of units of the chunk. *)
Context (units : N).
Implicit Types (F : N → N → bool) (A : gmap block N) (k i j u v : N).

Definition in_use F A k i : Prop := F k i = true ∨ is_Some (A !! (k, i)).

Record tree F A : Prop := {
  tree_range k i : in_use F A k i → i < block_of k units;
  tree_excl k i : F k i = true → A !! (k, i) = None;
  tree_cover u : u < units → ∃ k, in_use F A k (block_of k u);
  tree_disj u k j :
    in_use F A k (block_of k u) → in_use F A j (block_of j u) → k = j;
  tree_merged k i : F k (2 * i) = true → F k (2 * i + 1) = true → False;
}.

Lemma upd_eq F k i b : upd F k i b k i = b.
Proof. unfold upd. by rewrite decide_True. Qed.
Lemma upd_ne F k i b k' i' : (k', i') ≠ (k, i) → upd F k i b k' i' = F k' i'.
Proof. intros. unfold upd. rewrite decide_False; [done|]. by intros [-> ->]. Qed.
Lemma upd_true F k i b k' i' :
  upd F k i b k' i' = true →
  (k' = k ∧ i' = i ∧ b = true) ∨ ((k', i') ≠ (k, i) ∧ F k' i' = true).
Proof.
  unfold upd. case_decide as Hd; [destruct Hd as [-> ->]; auto|].
  right. split; [|done]. intros [= -> ->]. auto.
Qed.

(** ** The moves *)

(** The blocks in use are the same: only the owner of one block changes. *)
Lemma tree_same_blocks F A F' A' :
  tree F A → (∀ k i, in_use F' A' k i ↔ in_use F A k i) →
  (∀ k i, F' k i = true → A' !! (k, i) = None) →
  (∀ k i, F' k (2 * i) = true → F' k (2 * i + 1) = true → False) →
  tree F' A'.
Proof.
  intros [Hr He Hc Hd Hm] Heq He' Hm'. split; [|done| | |done].
  - intros k i H. by apply Hr, Heq.
  - intros u Hu. destruct (Hc u Hu) as [k ?]. exists k. by apply Heq.
  - intros u k j ?%Heq ?%Heq. eauto.
Qed.

(** [alloc] takes a free block. *)
Lemma tree_take F A k i n :
  tree F A → F k i = true → tree (upd F k i false) (<[(k, i) := n]> A).
Proof.
  intros HT Hf. apply (tree_same_blocks F A); [done| | |].
  - intros k' i'. unfold in_use. destruct (decide ((k', i') = (k, i))) as [[= -> ->]|Hne].
    + rewrite lookup_insert_eq. split; [by left|by right].
    + by rewrite upd_ne, lookup_insert_ne.
  - intros k' i' [(? & ? & ?)|[Hne ?]]%upd_true; [done|].
    rewrite lookup_insert_ne by done. by apply HT.
  - intros k' i' [(? & ? & ?)|[_ ?]]%upd_true [(? & ? & ?)|[_ ?]]%upd_true; try done. by eapply HT.
Qed.

(** [dealloc] stops: the block's buddy is not free. *)
Lemma tree_put F A k i :
  tree F A → is_Some (A !! (k, i)) → F k (N.lxor i 1) = false →
  tree (upd F k i true) (delete (k, i) A).
Proof.
  intros HT Ha Hb. apply (tree_same_blocks F A); [done| | |].
  - intros k' i'. unfold in_use. destruct (decide ((k', i') = (k, i))) as [[= -> ->]|Hne].
    + rewrite upd_eq. split; [by right|by left].
    + by rewrite upd_ne, lookup_delete_ne.
  - intros k' i' [(-> & -> & _)|[Hne ?]]%upd_true; [apply lookup_delete_eq|].
    rewrite lookup_delete_ne by done. by apply HT.
  - intros k' j. pose proof (buddy_cases i) as Hi.
    intros [(-> & Hj & _)|[_ H1]]%upd_true [(Hk & Hj' & _)|[_ H2]]%upd_true.
    + lia.
    + replace (2 * j + 1) with (N.lxor i 1) in H2 by lia. congruence.
    + subst k'. replace (2 * j) with (N.lxor i 1) in H1 by lia. congruence.
    + by eapply HT.
Qed.

(** Replacing a block by its two halves, or conversely. *)
Definition halves k i k' i' : Prop := k' = k ∧ (i' = 2 * i ∨ i' = 2 * i + 1).

Lemma halves_cover k i u : halves k i k (block_of k u) ↔ block_of (k + 1) u = i.
Proof. unfold halves. rewrite block_of_succ. lia. Qed.

Section refine.
Context F A F' A' k i (HT : tree F A).
Context (Hin : in_use F A (k + 1) i).
Context (Heq : ∀ k' i', in_use F' A' k' i' ↔
  halves k i k' i' ∨ (in_use F A k' i' ∧ (k', i') ≠ (k + 1, i))).

Lemma split_range k' i' : in_use F' A' k' i' → i' < block_of k' units.
Proof using All.
  intros [[-> Hi]|[H _]]%Heq; [|by eapply tree_range].
  pose proof (tree_range _ _ HT _ _ Hin) as Hr. rewrite block_of_succ in Hr. lia.
Qed.

Lemma split_cover u : u < units → ∃ k', in_use F' A' k' (block_of k' u).
Proof using All.
  intros Hu. destruct (tree_cover _ _ HT u Hu) as [k' Hk'].
  destruct (decide ((k', block_of k' u) = (k + 1, i))) as [[= -> Hi]|Hne].
  - exists k. apply Heq. left. by apply halves_cover.
  - exists k'. apply Heq. auto.
Qed.

Lemma split_disj u k1 k2 :
  in_use F' A' k1 (block_of k1 u) → in_use F' A' k2 (block_of k2 u) → k1 = k2.
Proof using All.
  assert (∀ k', halves k i k (block_of k u) → in_use F A k' (block_of k' u) →
    (k', block_of k' u) ≠ (k + 1, i) → False) as Hx.
  { intros k' Hh%halves_cover Hu Hne. apply Hne. subst i.
    by rewrite (tree_disj _ _ HT u k' (k + 1) Hu Hin). }
  intros [Hh1|[H1 Hn1]]%Heq [Hh2|[H2 Hn2]]%Heq.
  - destruct Hh1 as [-> _], Hh2 as [-> _]. done.
  - destruct Hh1 as [-> ?]. exfalso. by eapply Hx.
  - destruct Hh2 as [-> ?]. exfalso. by eapply Hx.
  - by eapply tree_disj.
Qed.
End refine.

Section coarsen.
Context F A F' A' k i (HT : tree F A).
Context (Hl : in_use F A k (2 * i)) (Hr : in_use F A k (2 * i + 1)).
Context (Heq : ∀ k' i', in_use F' A' k' i' ↔
  (k', i') = (k + 1, i) ∨ (in_use F A k' i' ∧ ¬ halves k i k' i')).

Lemma half_in_use u : block_of (k + 1) u = i → in_use F A k (block_of k u).
Proof using Hl Hr. intros [_ [-> | ->]]%halves_cover; done. Qed.

Lemma merge_range k' i' : in_use F' A' k' i' → i' < block_of k' units.
Proof using All.
  intros [[= -> ->]|[H _]]%Heq; [|by eapply tree_range].
  pose proof (tree_range _ _ HT _ _ Hr) as H. rewrite block_of_succ. lia.
Qed.

Lemma merge_cover u : u < units → ∃ k', in_use F' A' k' (block_of k' u).
Proof using All.
  intros Hu. destruct (tree_cover _ _ HT u Hu) as [k' Hk'].
  destruct (decide (k' = k ∧ block_of (k + 1) u = i)) as [[-> Hi]|Hne].
  - exists (k + 1). apply Heq. left. by rewrite Hi.
  - exists k'. apply Heq. right. split; [done|]. intros [-> Hh].
    apply Hne. split; [done|]. by apply halves_cover.
Qed.

Lemma merge_disj u k1 k2 :
  in_use F' A' k1 (block_of k1 u) → in_use F' A' k2 (block_of k2 u) → k1 = k2.
Proof using All.
  assert (∀ k', block_of (k + 1) u = i → in_use F A k' (block_of k' u) →
    ¬ halves k i k' (block_of k' u) → False) as Hx.
  { intros k' Hi Hu Hn. apply Hn.
    pose proof (tree_disj _ _ HT u k' k Hu (half_in_use u Hi)) as ->.
    by apply halves_cover. }
  intros [[= -> Hi]|[H1 Hn1]]%Heq [[= -> Hi']|[H2 Hn2]]%Heq.
  - done.
  - exfalso. by eapply Hx.
  - exfalso. by eapply Hx.
  - by eapply tree_disj.
Qed.
End coarsen.

(** [alloc] splits a block in hand and frees its second half. *)
Lemma tree_split F A k i n :
  tree F A → is_Some (A !! (k + 1, i)) →
  tree (upd F k (2 * i + 1) true) (<[(k, 2 * i) := n]> (delete (k + 1, i) A)).
Proof.
  intros HT Ha. assert (in_use F A (k + 1) i) as Hin by by right.
  set (F' := upd _ _ _ _). set (A' := <[_ := _]> _).
  assert (∀ i', halves k i k i' → ¬ in_use F A k i') as Hfresh.
  { intros i' Hh Hu. pose proof (tree_disj _ _ HT (i' * 2 ^ k) k (k + 1)) as Hd.
    rewrite block_of_succ, block_of_first in Hd.
    replace (i' / 2) with i in Hd by (destruct Hh; lia). specialize (Hd Hu Hin). lia. }
  assert (∀ k' i', in_use F' A' k' i' ↔
    halves k i k' i' ∨ (in_use F A k' i' ∧ (k', i') ≠ (k + 1, i))) as Heq.
  { intros k' i'. unfold in_use, F', A', halves.
    destruct (decide ((k', i') = (k, 2 * i + 1))) as [[= -> ->]|Hne1].
    { rewrite upd_eq. naive_solver. }
    rewrite upd_ne by done. destruct (decide ((k', i') = (k, 2 * i))) as [[= -> ->]|Hne2].
    { rewrite lookup_insert_eq. naive_solver. }
    rewrite lookup_insert_ne by done.
    destruct (decide ((k', i') = (k + 1, i))) as [[= -> ->]|Hne3].
    - rewrite lookup_delete_eq. split; [|naive_solver lia].
      intros [Hf|[? ?]]; [|done]. destruct Ha as [? Ha].
      rewrite (tree_excl _ _ HT _ _ Hf) in Ha. done.
    - rewrite lookup_delete_ne by done. naive_solver. }
  split.
  - by eapply split_range.
  - intros k' i' [(-> & -> & _)|[Hne Hf]]%upd_true.
    + unfold A'. rewrite lookup_insert_ne by (intros [= ?]; lia).
      rewrite lookup_delete_ne by (intros [= ?]; lia).
      apply eq_None_not_Some. intros ?. apply (Hfresh (2 * i + 1)); [by split; auto|by right].
    + unfold A'. rewrite lookup_insert_ne.
      * destruct (decide ((k', i') = (k + 1, i))) as [->|?]; [apply lookup_delete_eq|].
        rewrite lookup_delete_ne by done. by apply HT.
      * intros [= <- <-]. apply (Hfresh (2 * i)); [by split; auto|by left].
  - by eapply split_cover.
  - by eapply split_disj.
  - intros k' j [(-> & Hj & _)|[_ H1]]%upd_true [(Hk & Hj' & _)|[_ H2]]%upd_true.
    + lia.
    + lia.
    + subst k'. replace (2 * j) with (2 * i) in H1 by lia.
      apply (Hfresh (2 * i)); [by split; auto|by left].
    + by eapply HT.
Qed.

(** [dealloc] merges a block in hand with its free buddy. *)
Lemma tree_merge F A k i n :
  tree F A → is_Some (A !! (k, i)) → F k (N.lxor i 1) = true →
  tree (upd F k (N.lxor i 1) false) (<[(k + 1, i / 2) := n]> (delete (k, i) A)).
Proof.
  intros HT Ha Hb. set (p := i / 2). set (F' := upd _ _ _ _). set (A' := <[_ := _]> _).
  assert (in_use F A k (2 * p) ∧ in_use F A k (2 * p + 1)) as [Hl Hr].
  { unfold in_use, p. destruct (buddy_cases i) as [[H1 H2]|[H1 H2]];
      rewrite H2 in Hb; rewrite H1 in Ha; auto. }
  assert (∀ k' i', halves k p k' i' ↔ (k', i') = (k, i) ∨ (k', i') = (k, N.lxor i 1)) as Hh.
  { intros k' i'. unfold halves, p. pose proof (buddy_cases i). split.
    - intros [-> ?]. destruct (N.eq_dec i' i) as [->|]; [by left|right]. f_equal. lia.
    - intros [[= -> ->]|[= -> ->]]; split; try done; lia. }
  assert (N.lxor i 1 ≠ i) as Hnb by (pose proof (buddy_cases i); lia).
  assert (¬ in_use F A (k + 1) p) as Hfresh.
  { intros Hu. pose proof (tree_disj _ _ HT (2 * p * 2 ^ k) k (k + 1)) as Hd.
    rewrite block_of_succ, block_of_first in Hd.
    replace (2 * p / 2) with p in Hd by lia. specialize (Hd Hl Hu). lia. }
  assert (∀ k' i', in_use F' A' k' i' ↔
    (k', i') = (k + 1, p) ∨ (in_use F A k' i' ∧ ¬ halves k p k' i')) as Heq.
  { intros k' i'. rewrite Hh. unfold in_use, F', A'.
    destruct (decide ((k', i') = (k + 1, p))) as [[= -> ->]|Hne1].
    { rewrite lookup_insert_eq. naive_solver. }
    rewrite lookup_insert_ne by done.
    destruct (decide ((k', i') = (k, N.lxor i 1))) as [[= -> ->]|Hne2].
    - rewrite upd_eq, lookup_delete_ne by congruence.
      rewrite (tree_excl _ _ HT _ _ Hb). split; [intros [?|[? ?]]; done|naive_solver].
    - rewrite upd_ne by done.
      destruct (decide ((k', i') = (k, i))) as [[= -> ->]|Hne3].
      + rewrite lookup_delete_eq. split; [|naive_solver].
        intros [Hf|[? ?]]; [|done]. destruct Ha as [? Ha].
        rewrite (tree_excl _ _ HT _ _ Hf) in Ha. done.
      + rewrite lookup_delete_ne by done. naive_solver. }
  split.
  - by eapply merge_range.
  - intros k' i' [(? & ? & ?)|[Hne Hf]]%upd_true; [done|]. unfold A'.
    rewrite lookup_insert_ne.
    + destruct (decide ((k', i') = (k, i))) as [->|?]; [apply lookup_delete_eq|].
      rewrite lookup_delete_ne by done. by apply HT.
    + intros [= <- <-]. apply Hfresh. by left.
  - by eapply merge_cover.
  - by eapply merge_disj.
  - intros k' j [(? & ? & ?)|[_ H1]]%upd_true [(? & ? & ?)|[_ H2]]%upd_true; try done. by eapply HT.
Qed.

(** ** Consequences *)

(** No unit of the block belongs to a block handed out. *)
Definition unallocated A k i : Prop :=
  ∀ u j, block_of k u = i → A !! (j, block_of j u) = None.

(** A run of units that is not handed out and fills a block lies in one
    free block. *)
Lemma tree_complete F A k i :
  tree F A → i < block_of k units → unallocated A k i →
  ∃ j, k ≤ j ∧ F j (block_of j (i * 2 ^ k)) = true.
Proof.
  intros HT. revert i. induction k as [|k IH] using N.peano_ind; intros i Hi Hun.
  - rewrite N.pow_0_r, N.mul_1_r. rewrite block_of_0 in Hi.
    destruct (tree_cover _ _ HT i Hi) as [j [Hj|[? Hj]]]; [exists j; split; [lia|done]|].
    rewrite Hun in Hj; [done|apply block_of_0].
  - rewrite <-N.add_1_r in *. rewrite block_of_succ in Hi.
    assert (∀ c, c / 2 = i → c < block_of k units →
      ∃ j, k ≤ j ∧ F j (block_of j (c * 2 ^ k)) = true ∧ (j = k ∨ k + 1 ≤ j)) as Hc.
    { intros c Hc Hlt. destruct (IH c Hlt) as (j & Hj & Hf).
      - intros u j Hu. apply Hun. by rewrite block_of_succ, Hu.
      - exists j. split_and!; [done|done|lia]. }
    assert (∀ c j, c / 2 = i → k + 1 ≤ j →
      block_of j (i * 2 ^ (k + 1)) = block_of j (c * 2 ^ k)) as Hb.
    { intros c j Hc' Hj. apply (block_of_nested (k + 1)); [done|].
      rewrite block_of_first, block_of_succ, block_of_first. done. }
    destruct (Hc (2 * i)) as (j & Hj & Hf & [->|Hge]); [lia|lia| |].
    + destruct (Hc (2 * i + 1)) as (j' & Hj' & Hf' & [->|Hge]); [lia|lia| |].
      * rewrite block_of_first in Hf, Hf'. destruct (tree_merged _ _ HT k i Hf Hf').
      * exists j'. split; [done|]. rewrite (Hb (2 * i + 1)) by lia. done.
    + exists j. split; [done|]. rewrite (Hb (2 * i)) by lia. done.
Qed.

Lemma free_unallocated F A k i : tree F A → F k i = true → unallocated A k i.
Proof.
  intros HT Hf u j Hu. apply eq_None_not_Some. intros Ha.
  assert (k = j) as <-.
  { apply (tree_disj _ _ HT u); [left; by rewrite Hu|by right]. }
  rewrite Hu, (tree_excl _ _ HT) in Ha by done. by destruct Ha.
Qed.

(** The free blocks are determined by the blocks handed out. *)
Lemma tree_unique_le F F' A A' k i :
  tree F A → tree F' A' → dom A = dom A' → F k i = true → F' k i = true.
Proof.
  intros HT HT' Hdom Hf.
  assert (∀ k i, unallocated A k i ↔ unallocated A' k i) as Hun.
  { intros k' i'. unfold unallocated. setoid_rewrite <-not_elem_of_dom. by rewrite Hdom. }
  pose proof (tree_range _ _ HT _ _ (or_introl Hf)) as Hr.
  destruct (tree_complete F' A' k i HT' Hr) as (j & Hj & Hf').
  { apply Hun. by eapply free_unallocated. }
  pose proof (tree_range _ _ HT' _ _ (or_introl Hf')) as Hr'.
  destruct (tree_complete F A j _ HT Hr') as (j' & Hj' & Hf2).
  { apply Hun. by eapply free_unallocated. }
  assert (block_of j' (block_of j (i * 2 ^ k) * 2 ^ j) = block_of j' (i * 2 ^ k)) as Hb.
  { apply (block_of_nested j); [done|]. apply block_of_first. }
  rewrite Hb in Hf2.
  assert (k = j') as ->.
  { apply (tree_disj _ _ HT (i * 2 ^ k)); left; [by rewrite block_of_first|done]. }
  replace j with j' in Hf' by lia. by rewrite block_of_first in Hf'.
Qed.

Lemma tree_unique F F' A A' :
  tree F A → tree F' A' → dom A = dom A' → ∀ k i, F k i = F' k i.
Proof.
  intros HT HT' Hdom k i. apply eq_true_iff_eq.
  split; eapply tree_unique_le; eauto.
Qed.

(** Pointwise equal bitmaps describe the same tree. *)
Lemma tree_ext F F' A : (∀ k i, F k i = F' k i) → tree F A → tree F' A.
Proof.
  intros Heq HT. apply (tree_same_blocks F A); [done| | |].
  - intros k i. unfold in_use. by rewrite Heq.
  - intros k i. rewrite <-Heq. apply HT.
  - intros k i. rewrite <-!Heq. apply HT.
Qed.

(** Blocks handed out do not overlap. *)
Lemma tree_allocated_disjoint F A k i j i' u :
  tree F A → is_Some (A !! (k, i)) → is_Some (A !! (j, i')) →
  block_of k u = i → block_of j u = i' → (k, i) = (j, i').
Proof.
  intros HT H1 H2 <- <-. by rewrite (tree_disj _ _ HT u k j) by by right.
Qed.

(** The levels in use. *)
Lemma in_use_level F A k i : tree F A → in_use F A k i → k ≤ N.log2 units.
Proof.
  intros HT Hu%(tree_range _ _ HT). unfold block_of in Hu.
  destruct (N.le_gt_cases k (N.log2 units)) as [|Hk]; [done|].
  destruct (N.eq_0_gt_0_cases units) as [->|Hpos].
  - rewrite N.Div0.div_0_l in Hu. lia.
  - apply N.log2_lt_pow2 in Hk; [|lia]. rewrite N.div_small in Hu; lia.
Qed.
End tree.

End BuddyTree.
