(* ===== verification/BuddyBits.v ===== *)
(** * The bitmaps of the buddy allocator

    What [BlockBitmapRef]'s operations do to the bits of one level and to its
    counter, and how the levels share the byte slice without touching each
    other: [free s k i] is the bit of block [i] of level [k], and every
    operation changes the bits it names and no other. *)
From S2P Require Import Prelude Buddy BuddyTree.
Import Buddy BuddyTree.
Local Open Scope N_scope.

Module BuddyBits.

(** ** Bytes *)

(** Facts about a byte and a bit position, checked on all of them. *)
Definition all_bytes (P : N → N → bool) : bool :=
  forallb (λ b, forallb (P b) (range 0 8)) (range 0 256).

Lemma all_bytes_true P b m : all_bytes P = true → b < 256 → m < 8 → P b m = true.
Proof.
  intros H Hb Hm. unfold all_bytes in H. rewrite forallb_forall in H.
  specialize (H b ltac:(apply list_elem_of_In, elem_of_range; lia)).
  rewrite forallb_forall in H.
  apply (H m ltac:(apply list_elem_of_In, elem_of_range; lia)).
Qed.

Definition pop (b : N) : N :=
  foldr (λ m a, N.b2n (N.testbit b m) + a) 0 (range 0 8).

(** The mask operations of [get], [set_1] and [set_0] on a byte. *)
Definition byte_ops_ok (b m : N) : bool :=
  Bool.eqb (negb (N.land b (N.shiftl 1 m) =? 0)) (N.testbit b m)
  && (N.lor b (N.shiftl 1 m) <? 256)
  && (N.land b (255 - N.shiftl 1 m) <? 256)
  && (pop (N.lor b (N.shiftl 1 m)) =? pop b + N.b2n (negb (N.testbit b m)))
  && (pop (N.land b (255 - N.shiftl 1 m)) + N.b2n (N.testbit b m) =? pop b)
  && forallb (λ j,
       Bool.eqb (N.testbit (N.lor b (N.shiftl 1 m)) j) ((j =? m) || N.testbit b j)
       && Bool.eqb (N.testbit (N.land b (255 - N.shiftl 1 m)) j)
            (negb (j =? m) && N.testbit b j)) (range 0 8).

Lemma byte_ops b m : b < 256 → m < 8 → byte_ops_ok b m = true.
Proof. apply all_bytes_true. vm_compute. reflexivity. Qed.

Lemma byte_get b m :
  b < 256 → m < 8 → negb (N.land b (N.shiftl 1 m) =? 0) = N.testbit b m.
Proof.
  intros Hb Hm. pose proof (byte_ops b m Hb Hm) as H. unfold byte_ops_ok in H.
  rewrite !andb_true_iff in H. destruct_and!. by apply Bool.eqb_prop.
Qed.

Lemma byte_set_1 b m :
  b < 256 → m < 8 → N.lor b (N.shiftl 1 m) < 256 ∧
    pop (N.lor b (N.shiftl 1 m)) = pop b + N.b2n (negb (N.testbit b m)) ∧
    ∀ j, j < 8 → N.testbit (N.lor b (N.shiftl 1 m)) j = (j =? m) || N.testbit b j.
Proof.
  intros Hb Hm. pose proof (byte_ops b m Hb Hm) as H. unfold byte_ops_ok in H.
  rewrite !andb_true_iff, forallb_forall in H. destruct_and!. split_and!.
  - by apply N.ltb_lt.
  - by apply N.eqb_eq.
  - intros j Hj. match goal with H : ∀ x, _ |- _ => specialize (H j); rename H into Hx end.
    rewrite <-list_elem_of_In, elem_of_range, andb_true_iff in Hx.
    apply Bool.eqb_prop, Hx. lia.
Qed.

Lemma byte_set_0 b m :
  b < 256 → m < 8 → N.land b (255 - N.shiftl 1 m) < 256 ∧
    pop (N.land b (255 - N.shiftl 1 m)) + N.b2n (N.testbit b m) = pop b ∧
    ∀ j, j < 8 → N.testbit (N.land b (255 - N.shiftl 1 m)) j = negb (j =? m) && N.testbit b j.
Proof.
  intros Hb Hm. pose proof (byte_ops b m Hb Hm) as H. unfold byte_ops_ok in H.
  rewrite !andb_true_iff, forallb_forall in H. destruct_and!. split_and!.
  - by apply N.ltb_lt.
  - by apply N.eqb_eq.
  - intros j Hj. match goal with H : ∀ x, _ |- _ => specialize (H j); rename H into Hx end.
    rewrite <-list_elem_of_In, elem_of_range, andb_true_iff in Hx.
    apply Bool.eqb_prop, Hx. lia.
Qed.

(** Bytes with the same bits are equal. *)
Lemma byte_high b m : b < 256 → 8 ≤ m → N.testbit b m = false.
Proof.
  intros Hb Hm. apply N.bits_above_log2.
  destruct (N.eq_0_gt_0_cases b) as [->|Hpos]; [simpl; lia|].
  apply (N.lt_le_trans _ 8); [|done]. by apply N.log2_lt_pow2.
Qed.

Lemma byte_ext b c :
  b < 256 → c < 256 → (∀ m, m < 8 → N.testbit b m = N.testbit c m) → b = c.
Proof.
  intros Hb Hc Heq. apply N.bits_inj. intros m.
  destruct (N.lt_ge_cases m 8); [by apply Heq|]. by rewrite !byte_high.
Qed.

(** The loop over the bits of a byte finds the lowest one. *)
Definition first_offset_ok (b o : N) : bool :=
  match first_offset 9 b 0 with
  | Ok o' => (o' <? 8) && N.testbit b o' && ((o' <=? o) || negb (N.testbit b o))
  | Panic _ => (b =? 0)
  end.

Lemma first_offset_spec b :
  b < 256 → b ≠ 0 → ∃ o, first_offset 9 b 0 = Ok o ∧ o < 8 ∧ N.testbit b o = true ∧
    ∀ j, j < o → N.testbit b j = false.
Proof.
  intros Hb H0.
  assert (∀ o, o < 8 → first_offset_ok b o = true) as H.
  { intros o. apply all_bytes_true; [vm_compute; reflexivity|done]. }
  unfold first_offset_ok in H. destruct (first_offset 9 b 0) as [o|].
  - pose proof (H 0 ltac:(lia)) as Ho. rewrite !andb_true_iff, N.ltb_lt in Ho.
    destruct_and!. exists o. split_and!; try done.
    intros j Hj. specialize (H j ltac:(lia)). rewrite !andb_true_iff, orb_true_iff in H.
    destruct H as [_ [Hle%N.leb_le|Hn]]; [lia|]. by destruct (N.testbit b j).
  - specialize (H 0 ltac:(lia)). apply N.eqb_eq in H. done.
Qed.

(** ** One level *)
Definition byte_at (l : list N) (n : N) : N := default 0 (l !! N.to_nat n).
Definition rbit (l : list N) (i : N) : bool := N.testbit (byte_at l (i / 8)) (i mod 8).
Definition popsum (l : list N) : N := foldr (λ b a, pop b + a) 0 l.
Definition bytes (l : list N) : Prop := Forall (λ b, b < 256) l.

Record ref_ok (r : BlockBitmapRef) : Prop := {
  ref_bytes : bytes (bits r);
  ref_count : count r = popsum (bits r);
  ref_small : 8 * vlen (bits r) < W64;
}.

Lemma pop_le b : pop b ≤ 8.
Proof.
  assert (∀ l, foldr (λ m a, N.b2n (N.testbit b m) + a) 0 l ≤ N.of_nat (length l)) as H;
    [|exact (H (range 0 8))].
  intros l. induction l as [|m l IH]; [done|]. cbn [foldr length].
  destruct (N.testbit b m); cbn [N.b2n]; lia.
Qed.

Lemma pop_pos b m : m < 8 → N.testbit b m = true → pop b ≠ 0.
Proof.
  intros Hm Ht. unfold pop. assert (m ∈ range 0 8) as Hin by (apply elem_of_range; lia).
  revert Hin. generalize (range 0 8). intros l Hin.
  induction Hin as [l|m m' l Hin IH]; cbn [foldr]; [|specialize (IH Hm Ht); lia].
  rewrite Ht. cbn [N.b2n]. lia.
Qed.

Lemma popsum_le l : popsum l ≤ 8 * vlen l.
Proof.
  unfold vlen. induction l as [|b l IH]; simpl; [lia|]. pose proof (pop_le b). lia.
Qed.

Lemma popsum_insert l n b c :
  l !! n = Some b → popsum (<[n := c]> l) + pop b = popsum l + pop c.
Proof.
  revert n. induction l as [|d l IH]; intros [|n]; simpl; intros Hl; simplify_eq; [lia|].
  specialize (IH n Hl). lia.
Qed.

Lemma popsum_lookup l n b : l !! n = Some b → pop b ≤ popsum l.
Proof.
  revert n. induction l as [|d l IH]; intros [|n] Hb; cbn [popsum foldr]; [done..| |].
  - injection Hb as ->. lia.
  - specialize (IH n Hb). fold (popsum l). lia.
Qed.

Lemma popsum_zero l : popsum l = 0 → ∀ i, rbit l i = false.
Proof.
  intros Hz i. unfold rbit, byte_at. destruct (l !! N.to_nat (i / 8)) as [b|] eqn:Hb; simpl.
  - pose proof (popsum_lookup l _ b Hb).
    assert (pop b = 0) as Hp by lia.
    destruct (N.testbit b (i mod 8)) eqn:Ht; [|done].
    by destruct (pop_pos b (i mod 8) ltac:(lia) Ht).
  - done.
Qed.

Lemma bytes_lookup l n b : bytes l → l !! n = Some b → b < 256.
Proof. unfold bytes. intros H Hb. rewrite Forall_lookup in H. eauto. Qed.

Lemma byte_at_insert l n m b :
  m < vlen l → byte_at (<[N.to_nat m := b]> l) n = if (n =? m) then b else byte_at l n.
Proof.
  unfold byte_at, vlen. intros Hm. destruct (N.eqb_spec n m) as [->|Hne].
  - by rewrite list_lookup_insert_eq by lia.
  - by rewrite list_lookup_insert_ne by lia.
Qed.

Lemma ref_get_run r i :
  ref_ok r → i / 8 < vlen (bits r) → ref_get r i = Ok (rbit (bits r) i).
Proof.
  intros [] Hi. unfold ref_get. destruct (vget_is_Ok (bits r) (i / 8) Hi) as (b & -> & Hb).
  mred. rewrite byte_get; [|by eapply bytes_lookup|lia].
  unfold rbit, byte_at. by rewrite Hb.
Qed.

Definition set_bit (f : N → bool) (i : N) (b : bool) : N → bool := λ j,
  if j =? i then b else f j.

(** An update of one byte that acts as [f] on the bit [i]. *)
Lemma rbit_insert l i b c (v : bool) :
  i / 8 < vlen l → l !! N.to_nat (i / 8) = Some b →
  (∀ j, j < 8 → N.testbit c j = if j =? i mod 8 then v else N.testbit b j) →
  ∀ j, rbit (<[N.to_nat (i / 8) := c]> l) j = set_bit (rbit l) i v j.
Proof.
  intros Hi Hb Hc j. unfold rbit, set_bit. rewrite byte_at_insert by done.
  destruct (N.eqb_spec (j / 8) (i / 8)) as [He|He].
  - rewrite Hc, He by lia. unfold byte_at. rewrite Hb. simpl.
    destruct (N.eqb_spec j i) as [->|Hne]; [by rewrite N.eqb_refl|].
    destruct (N.eqb_spec (j mod 8) (i mod 8)); [lia|done].
  - destruct (N.eqb_spec j i) as [->|Hne]; [lia|done].
Qed.

Lemma set_1_run r i :
  ref_ok r → i / 8 < vlen (bits r) →
  ∃ r', set_1 r i = Ok r' ∧ ref_ok r' ∧ vlen (bits r') = vlen (bits r) ∧
    ∀ j, rbit (bits r') j = set_bit (rbit (bits r)) i true j.
Proof.
  intros Hr Hi. unfold set_1. rewrite ref_get_run by done. mred.
  destruct (vget_is_Ok (bits r) (i / 8) Hi) as (b & -> & Hb). destruct Hr as [Hby Hc Hs].
  assert (b < 256) as Hb256 by by eapply bytes_lookup.
  destruct (byte_set_1 b (i mod 8)) as (H256 & Hpop & Hbit); [done|lia|].
  mstep. mstep. assert (rbit (bits r) i = N.testbit b (i mod 8)) as ->.
  { unfold rbit, byte_at. by rewrite Hb. }
  pose proof (popsum_insert (bits r) _ b (N.lor b (N.shiftl 1 (i mod 8))) Hb) as Hps.
  pose proof (popsum_le (bits r)). set (l' := <[_ := _]> (bits r)) in *.
  assert (count r + N.b2n (negb (N.testbit b (i mod 8))) = popsum l') as Hcnt by lia.
  pose proof (popsum_le l') as Hle. assert (vlen l' = vlen (bits r)) as Hl' by apply vlen_insert.
  exists (mkRef l' (popsum l')). split_and!; simpl.
  - destruct (N.testbit b (i mod 8)); simpl in *; msteps; do 2 f_equal; lia.
  - split; simpl; [|done|lia]. by apply Forall_insert.
  - done.
  - apply (rbit_insert _ _ b); [done|done|]. intros j Hj. rewrite Hbit by done.
    by destruct (_ =? _).
Qed.

Lemma set_0_run r i :
  ref_ok r → i / 8 < vlen (bits r) →
  ∃ r', set_0 r i = Ok r' ∧ ref_ok r' ∧ vlen (bits r') = vlen (bits r) ∧
    ∀ j, rbit (bits r') j = set_bit (rbit (bits r)) i false j.
Proof.
  intros Hr Hi. unfold set_0. rewrite ref_get_run by done. mred.
  destruct (vget_is_Ok (bits r) (i / 8) Hi) as (b & -> & Hb). destruct Hr as [Hby Hc Hs].
  assert (b < 256) as Hb256 by by eapply bytes_lookup.
  destruct (byte_set_0 b (i mod 8)) as (H256 & Hpop & Hbit); [done|lia|].
  mstep. mstep. assert (rbit (bits r) i = N.testbit b (i mod 8)) as ->.
  { unfold rbit, byte_at. by rewrite Hb. }
  pose proof (popsum_insert (bits r) _ b (N.land b (255 - N.shiftl 1 (i mod 8))) Hb) as Hps.
  pose proof (popsum_le (bits r)). set (l' := <[_ := _]> (bits r)) in *.
  assert (count r = popsum l' + N.b2n (N.testbit b (i mod 8))) as Hcnt by lia.
  pose proof (popsum_le l') as Hle. assert (vlen l' = vlen (bits r)) as Hl' by apply vlen_insert.
  exists (mkRef l' (popsum l')). split_and!; simpl.
  - destruct (N.testbit b (i mod 8)); simpl in *; msteps; do 2 f_equal; lia.
  - split; simpl; [|done|lia]. by apply Forall_insert.
  - done.
  - apply (rbit_insert _ _ b); [done|done|]. intros j Hj. rewrite Hbit by done.
    by destruct (_ =? _).
Qed.

Lemma first_byte_run fuel l n i :
  l !! N.to_nat i ≠ Some 0 → i < vlen l → n ≤ i → 
  vlen l < W64 →
  (∀ j, n ≤ j < i → l !! N.to_nat j = Some 0) → (N.to_nat (i - n) < fuel)%nat →
  ∃ b, first_byte fuel l n = Ok (i, b) ∧ l !! N.to_nat i = Some b ∧ b ≠ 0.
Proof.
  intros Hi Hlt. revert n. induction fuel as [|fuel IH]; intros n Hn Hw Hz Hf; [lia|]. simpl.
  destruct (vget_is_Ok l n ltac:(lia)) as (b & -> & Hb). mred.
  destruct (N.eq_dec n i) as [->|Hne].
  - rewrite Hb in Hi. bcase; [naive_solver|]. exists b. naive_solver.
  - rewrite Hz in Hb by lia. simplify_eq. simpl. mstep.
    apply IH; [lia|done| |lia]. intros j Hj. apply Hz. lia.
Qed.

(** The first non-zero byte of a slice that has one. *)
Lemma first_nonzero l :
  bytes l → popsum l ≠ 0 →
  ∃ i, i < vlen l ∧ l !! N.to_nat i ≠ Some 0 ∧ ∀ j, j < i → l !! N.to_nat j = Some 0.
Proof.
  unfold vlen. induction l as [|b l IH]; cbn [popsum foldr length]; intros Hl Hp; [done|].
  assert (pop 0 = 0) by reflexivity. fold (popsum l) in Hp.
  inversion Hl; subst. destruct (N.eq_dec b 0) as [->|Hb].
  - destruct IH as (i & Hi & Hn & Hz); [done|lia|]. exists (i + 1).
    replace (N.to_nat (i + 1)) with (S (N.to_nat i)) by lia. split_and!; [lia|done|].
    intros j Hj. destruct (N.eq_dec j 0) as [->|Hj0]; [done|].
    replace (N.to_nat j) with (S (N.to_nat (j - 1))) by lia. apply Hz. lia.
  - exists 0. split_and!; [lia|simpl; congruence|lia].
Qed.

Lemma first_1_run r :
  ref_ok r → count r ≠ 0 →
  ∃ i, first_1 r = Ok i ∧ i / 8 < vlen (bits r) ∧ rbit (bits r) i = true ∧
    ∀ j, j < i → rbit (bits r) j = false.
Proof.
  intros [Hby Hc Hs] Hne. unfold first_1, ref_empty.
  destruct (N.eqb_spec (count r) 0) as [|_]; [done|]. mstep.
  destruct (first_nonzero (bits r)) as (p & Hn & Hnz & Hz); [done|congruence|].
  destruct (first_byte_run (S (length (bits r))) (bits r) 0 p) as (b & Hrun & Hb & Hb0);
    [done|done|lia|lia|intros; apply Hz; lia|unfold vlen in *; lia|].
  rewrite Hrun. mstep.
  destruct (first_offset_spec b) as (o & Ho & Ho8 & Hbit & Hlow);
    [by eapply bytes_lookup|done|].
  rewrite Ho. msteps. exists (p * 8 + o).
  assert ((p * 8 + o) / 8 = p ∧ (p * 8 + o) mod 8 = o) as [Hd Hm] by lia.
  unfold rbit, byte_at. rewrite Hd, Hm, Hb. split_and!; try done.
  intros j Hj. destruct (N.eq_dec (j / 8) p) as [He|Hjn].
  - rewrite He, Hb. simpl. apply Hlow. lia.
  - rewrite Hz by lia. done.
Qed.

(** ** All levels *)

(** Bytes of a bitmap of [c] bits, and the place of level [k] in the slice. *)
Definition blen (c : N) : N := (c - 1) / 8 + 1.

Fixpoint off_nat (u : N) (k : nat) : N :=
  match k with O => 0 | S k => off_nat u k + blen (block_of (N.of_nat k) u) end.
Definition off (u k : N) : N := off_nat u (N.to_nat k).

Lemma off_0 u : off u 0 = 0.
Proof. done. Qed.
Lemma off_succ u k : off u (k + 1) = off u k + blen (block_of k u).
Proof.
  unfold off. replace (N.to_nat (k + 1)) with (S (N.to_nat k)) by lia. simpl.
  by rewrite N2Nat.id.
Qed.

Lemma off_mono u k j : k ≤ j → off u k ≤ off u j.
Proof.
  induction j as [|j IH] using N.peano_ind; intros Hkj; [by replace k with 0 by lia|].
  rewrite <-N.add_1_r, off_succ in *. destruct (N.eq_dec k (j + 1)) as [->|].
  - rewrite off_succ. lia.
  - specialize (IH ltac:(lia)). lia.
Qed.

Lemma off_next u k j : k < j → off u k + blen (block_of k u) ≤ off u j.
Proof. intros H. rewrite <-off_succ. apply off_mono. lia. Qed.

Lemma block_of_pos k u : 0 < u → k ≤ N.log2 u → 1 ≤ block_of k u.
Proof.
  intros Hu Hk. unfold block_of. apply N.div_le_lower_bound; [apply N.pow_nonzero; lia|].
  rewrite N.mul_1_r. transitivity (2 ^ N.log2 u); [apply N.pow_le_mono_r; lia|].
  by apply N.log2_spec.
Qed.

Lemma block_of_units_le k u : block_of k u ≤ u.
Proof. apply N.Div0.div_le_upper_bound. pose proof (N.pow_nonzero 2 k). nia. Qed.

Lemma blen_le c : 0 < c → blen c ≤ c.
Proof. unfold blen. lia. Qed.

(** A block, and its buddy, has a bit in the bitmap of its level. *)
Lemma blen_index i c : i < c → i / 8 < blen c.
Proof. unfold blen. lia. Qed.
Lemma blen_buddy i c : i < c → N.lxor i 1 / 8 < blen c.
Proof. intros Hi. unfold blen. pose proof (buddy_cases i). lia. Qed.

Definition level_bytes (s : BuddyBlock) (k : N) : list N :=
  take (N.to_nat (blen (block_of k (units (info s)))))
    (drop (N.to_nat (off (units (info s)) k)) (total_bits s)).

(** The bit of block [(k, i)]. *)
Definition free (s : BuddyBlock) (k i : N) : bool :=
  if k <? levels (info s) then rbit (level_bytes s k) i else false.

(** The shape of the metadata: each level has its own part of the slice and
    counts its set bits. *)
Record geom (s : BuddyBlock) : Prop := {
  g_units : 0 < units (info s) < 2 ^ 52;
  g_levels : levels (info s) = N.log2 (units (info s)) + 1;
  g_bitmaps : vlen (bitmaps s) = levels (info s);
  g_bitmap k : k < levels (info s) → bitmaps s !! N.to_nat k =
    Some (mkBitmap (off (units (info s)) k) (popsum (level_bytes s k)));
  g_len : vlen (total_bits s) = off (units (info s)) (levels (info s));
  g_bytes : bytes (total_bits s);
}.

Section geometry.
Context (s : BuddyBlock) (Hg : geom s).
Let u := units (info s).

Lemma levels_le : levels (info s) ≤ 52.
Proof using Hg.
  destruct Hg as [Hu -> _ _ _ _]. assert (N.log2 (units (info s)) < 52); [|lia].
  apply N.log2_lt_pow2; apply Hu.
Qed.

Lemma bitmap_len_levels : bitmap_len s = levels (info s).
Proof using Hg.
  unfold bitmap_len. rewrite (g_bitmaps s Hg). pose proof levels_le.
  apply N.mod_small. lia.
Qed.

Lemma level_blocks k : k < levels (info s) → 1 ≤ block_of k u < 2 ^ 52.
Proof using Hg.
  intros Hk. pose proof (block_of_units_le k u). destruct Hg as [Hu Hl _ _ _ _].
  split; [apply block_of_pos; unfold u; lia|unfold u in *; lia].
Qed.

Lemma vlen_level_bytes k : k < levels (info s) → vlen (level_bytes s k) = blen (block_of k u).
Proof using Hg.
  intros Hk. pose proof (off_next u k _ Hk) as Ho. pose proof (g_len s Hg) as Hlen.
  fold u in Hlen. unfold level_bytes, vlen in *.
  rewrite length_take, length_drop. fold u. lia.
Qed.

Lemma level_ref_ok k :
  k < levels (info s) → ref_ok (mkRef (level_bytes s k) (popsum (level_bytes s k))).
Proof using Hg.
  intros Hk. split; simpl; [|done|].
  - unfold bytes, level_bytes. apply Forall_take, Forall_drop, (g_bytes s Hg).
  - rewrite vlen_level_bytes by done. pose proof (level_blocks k Hk).
    pose proof (blen_le (block_of k u) ltac:(lia)). lia.
Qed.

Lemma get_bits_run k :
  k < levels (info s) →
  get_bits s k = Ok (mkRef (level_bytes s k) (popsum (level_bytes s k))).
Proof using Hg.
  intros Hk. pose proof levels_le. pose proof (level_blocks k Hk) as Hb.
  pose proof (vlen_level_bytes k Hk) as Hv. pose proof (g_bitmap s Hg k Hk) as Hm.
  unfold get_bits, bits_len. fold u. mstep. fold (block_of k u).
  mstep. mstep. mstep. fold (blen (block_of k u)). simpl.
  fold u. change (take _ _) with (level_bytes s k). by rewrite Hv, N.eqb_refl.
Qed.
End geometry.

Section put_bits.
Context (s : BuddyBlock) (Hg : geom s) (k : N) (Hk : k < levels (info s)).
Context (r : BlockBitmapRef) (Hr : ref_ok r).
Context (Hlen : vlen (bits r) = blen (block_of k (units (info s)))).
Let u := units (info s).
Let s' := put_bits s k r.

Lemma put_bits_eq :
  s' = mkBuddy (info s) (used s) (<[N.to_nat k := mkBitmap (off u k) (count r)]> (bitmaps s))
         (splice (N.to_nat (off u k)) (bits r) (total_bits s)).
Proof using Hg Hk. unfold s', put_bits. by rewrite (g_bitmap s Hg k Hk). Qed.

Lemma splice_fits : (N.to_nat (off u k) + length (bits r) ≤ length (total_bits s))%nat.
Proof using Hg Hk Hlen.
  pose proof (off_next u k _ Hk) as Ho. pose proof (g_len s Hg) as Hl.
  fold u in Hl, Hlen. unfold vlen in *. lia.
Qed.

Lemma level_bytes_put j :
  j < levels (info s) →
  level_bytes s' j = if j =? k then bits r else level_bytes s j.
Proof using Hg Hk Hlen.
  intros Hj. pose proof splice_fits as Hf. rewrite put_bits_eq. unfold level_bytes. simpl.
  fold u in Hlen |- *. unfold vlen in Hlen. destruct (N.eqb_spec j k) as [->|Hne].
  - replace (N.to_nat (blen (block_of k u))) with (length (bits r)) by lia.
    by apply splice_same.
  - apply splice_other; [done|].
    destruct (N.lt_ge_cases j k) as [Hlt|Hge].
    + left. pose proof (off_next u j k Hlt). lia.
    + right. pose proof (off_next u k j ltac:(lia)). lia.
Qed.

Lemma geom_put : geom s'.
Proof using Hg Hk Hr Hlen.
  pose proof splice_fits as Hf. pose proof level_bytes_put as Hlb.
  rewrite put_bits_eq in Hlb |- *. destruct Hg as [Hu Hl Hb Hm Ht Hby]. split; simpl; try done.
  - by rewrite vlen_insert.
  - intros j Hj. rewrite Hlb by done. destruct (N.eqb_spec j k) as [->|Hne].
    + rewrite list_lookup_insert_eq by (unfold vlen in Hb; lia).
      by rewrite (ref_count r Hr).
    + rewrite list_lookup_insert_ne by lia. by apply Hm.
  - unfold vlen. rewrite length_splice by done. done.
  - apply Forall_splice; [done|]. apply Hr.
Qed.

Lemma free_put k' i' :
  free s' k' i' = if k' =? k then rbit (bits r) i' else free s k' i'.
Proof using Hg Hk Hlen.
  unfold free. replace (info s') with (info s) by by rewrite put_bits_eq.
  destruct (N.ltb_spec k' (levels (info s))).
  - rewrite level_bytes_put by done. by destruct (k' =? k).
  - destruct (N.eqb_spec k' k); [lia|done].
Qed.
End put_bits.

(** Equal bits make equal metadata. *)
Lemma rbit_ext l l' :
  bytes l → bytes l' → length l = length l' → (∀ i, rbit l i = rbit l' i) → l = l'.
Proof.
  intros Hl Hl' Hlen Heq. apply list_eq_same_length with (length l'); [done|done|].
  intros n b c Hn Hb Hc. apply byte_ext; [exact (bytes_lookup _ _ _ Hl Hb)|exact (bytes_lookup _ _ _ Hl' Hc)|].
  intros m Hm. specialize (Heq (N.of_nat n * 8 + m)). unfold rbit, byte_at in Heq.
  replace ((N.of_nat n * 8 + m) / 8) with (N.of_nat n) in Heq by lia.
  replace ((N.of_nat n * 8 + m) mod 8) with m in Heq by lia.
  by rewrite Nat2N.id, Hb, Hc in Heq.
Qed.

Lemma geom_ext s s' :
  geom s → geom s' → info s = info s' → used s = used s' →
  (∀ k i, free s k i = free s' k i) → s = s'.
Proof.
  intros Hg Hg' Hi Hus Hf.
  assert (∀ k, k < levels (info s) → level_bytes s k = level_bytes s' k) as Hlb.
  { intros k Hk. pose proof (level_ref_ok s Hg k Hk) as [Hb _ _].
    assert (k < levels (info s')) as Hk' by by rewrite <-Hi.
    pose proof (level_ref_ok s' Hg' k Hk') as [Hb' _ _].
    pose proof (vlen_level_bytes s Hg k Hk) as Hv.
    pose proof (vlen_level_bytes s' Hg' k Hk') as Hv'.
    apply rbit_ext; [done|done|unfold vlen in *; rewrite <-Hi in *; lia|].
    intros i. specialize (Hf k i). unfold free in Hf. rewrite <-Hi in Hf.
    apply N.ltb_lt in Hk. by rewrite Hk in Hf. }
  destruct s as [inf us bm tb], s' as [inf' us' bm' tb']; simpl in *; subst inf' us'.
  set (u := units inf) in *.
  assert (tb = tb') as ->.
  { pose proof (g_len _ Hg) as Hl. pose proof (g_len _ Hg') as Hl'. simpl in Hl, Hl'.
    assert (∀ k, k ≤ levels inf →
      take (N.to_nat (off u k)) tb = take (N.to_nat (off u k)) tb') as Htk.
    { intros k. induction k as [|k IH] using N.peano_ind; intros Hk; [done|].
      rewrite <-N.add_1_r, off_succ in *. specialize (IH ltac:(lia)).
      specialize (Hlb k ltac:(lia)). unfold level_bytes in Hlb. simpl in Hlb. fold u in Hlb.
      rewrite N2Nat.inj_add, <-!take_take_drop. by rewrite IH, Hlb. }
    specialize (Htk _ (N.le_refl _)). unfold vlen in *. fold u in Hl, Hl'.
    rewrite !take_ge in Htk by lia. done. }
  f_equal. apply list_eq. intros n.
  pose proof (g_bitmaps _ Hg) as Hv. pose proof (g_bitmaps _ Hg') as Hv'.
  unfold vlen in *. simpl in Hv, Hv'.
  destruct (N.lt_ge_cases (N.of_nat n) (levels inf)) as [Hn|Hn].
  - pose proof (g_bitmap _ Hg _ Hn) as H1. pose proof (g_bitmap _ Hg' _ Hn) as H2.
    rewrite Nat2N.id in H1, H2. simpl in H1, H2. by rewrite H1, H2, Hlb.
  - by rewrite !lookup_ge_None_2 by lia.
Qed.

End BuddyBits.
