(* ===== verification/BuddyAlloc.v ===== *)
(** * The buddy allocator: invariant, contract and correctness

    [inv s A] relates the allocator [s] to the map [A] of the blocks handed
    out, each with the length it was allocated for.  [alloc] and [dealloc]
    are shown to preserve it on every call, with their exact effect on [A];
    from it follow that blocks never overlap, that a request is refused only
    when no block of its size is free, and that freeing what was allocated
    restores the metadata bit for bit. *)
From stdpp Require Import gmap.
From S2P Require Import Prelude Buddy BuddyTree BuddyBits.
Import Buddy BuddyTree BuddyBits.
Local Open Scope N_scope.

Module BuddyAlloc.

(** ** Levels and sizes *)

(** [n] bytes are allocated from level [k]. *)
Record fits (k n : N) : Prop := {
  fits_units : n mod 4096 = 0;
  fits_pos : 0 < n;
  fits_le : n ≤ 4096 * 2 ^ k;
  fits_gt : k = 0 ∨ 4096 * 2 ^ (k - 1) < n;
}.

Lemma pow2_pos k : 0 < 2 ^ k.
Proof. apply N.neq_0_lt_0, N.pow_nonzero. lia. Qed.

Lemma pow2_mono k j : k ≤ j → 2 ^ k ≤ 2 ^ j.
Proof. intros. apply N.pow_le_mono_r; lia. Qed.

Lemma pow2_51 k : k ≤ 51 → 4096 * 2 ^ k ≤ 2 ^ 63.
Proof. intros Hk. pose proof (pow2_mono k 51 Hk). change (2 ^ 63) with (4096 * 2 ^ 51). lia. Qed.

Lemma index_loop_run fuel n idx k :
  fits k n → k ≤ 51 → idx ≤ k → (N.to_nat (k - idx) < fuel)%nat →
  index_loop fuel n idx = Ok k.
Proof.
  intros [_ Hpos Hle Hgt] Hk. revert idx.
  induction fuel as [|fuel IH]; intros idx Hidx Hf; [lia|]. cbn [index_loop].
  pose proof (pow2_51 idx ltac:(lia)) as H63. change (2 ^ 63) with 9223372036854775808 in H63.
  unfold UNIT_SIZE. rewrite checked_shl_Ok by lia. mred.
  destruct (N.eq_dec idx k) as [->|Hne].
  - bcase; [lia|done].
  - destruct Hgt as [->|Hgt]; [lia|]. pose proof (pow2_mono idx (k - 1) ltac:(lia)).
    bcase; [|lia]. mstep. apply IH; lia.
Qed.

Lemma fits_index k n : fits k n → k ≤ 51 → bitmap_index_for_size n = Ok k.
Proof. intros. apply index_loop_run; [done|done|lia|lia]. Qed.

(** Every length up to half the address space has a level. *)
Lemma fits_exists n :
  0 < n → n mod 4096 = 0 → n ≤ 2 ^ 63 → ∃ k, k ≤ 51 ∧ fits k n.
Proof.
  intros Hpos Hmod Hn.
  assert (∀ j, n ≤ 4096 * 2 ^ j → ∃ k, k ≤ j ∧ fits k n) as H.
  { induction j as [|j IH] using N.peano_ind; intros Hj.
    - exists 0. split; [lia|]. split; [done|done|done|by left].
    - destruct (N.le_gt_cases n (4096 * 2 ^ j)) as [Hle|Hgt].
      + destruct (IH Hle) as (k & ? & ?). exists k. split; [lia|done].
      + exists (N.succ j). split; [lia|]. split; [done|done|done|right].
        by replace (N.succ j - 1) with j by lia. }
  apply (H 51). change (2 ^ 63) with (4096 * 2 ^ 51) in Hn. lia.
Qed.

Lemma fits_unique k j n : fits k n → fits j n → k = j.
Proof.
  assert (∀ k j, fits k n → fits j n → k < j → False) as H.
  { intros k' j' [_ _ Hle _] [_ _ _ [->|Hgt]] Hlt; [lia|].
    pose proof (pow2_mono k' (j' - 1) ltac:(lia)). lia. }
  intros Hk Hj. destruct (N.lt_trichotomy k j) as [?|[?|?]]; [|done|]; exfalso; eauto.
Qed.

(** ** The bytes handed out *)
Definition total (A : gmap block N) : N := map_fold (λ _ n a, n + a) 0 A.
Definition weight (A : gmap block N) : N := map_fold (λ b _ a, 2 ^ b.1 + a) 0 A.

Lemma total_insert A b n : A !! b = None → total (<[b := n]> A) = n + total A.
Proof. intros H. unfold total. apply map_fold_insert_L; [lia|done]. Qed.
Lemma weight_insert A b n : A !! b = None → weight (<[b := n]> A) = 2 ^ b.1 + weight A.
Proof.
  intros H. unfold weight.
  rewrite (map_fold_insert_L (λ (b : block) (_ a : N), 2 ^ b.1 + a) 0 b n A); [done| |done].
  intros; simpl; lia.
Qed.
Lemma total_delete A b n : A !! b = Some n → total A = n + total (delete b A).
Proof.
  intros H. rewrite <-(insert_delete_id A b n H) at 1.
  apply total_insert, lookup_delete_eq.
Qed.

Definition units_of (b : block) : gset N :=
  list_to_set (range (b.2 * 2 ^ b.1) ((b.2 + 1) * 2 ^ b.1)).

Lemma elem_of_units_of k i u : u ∈ units_of (k, i) ↔ block_of k u = i.
Proof.
  unfold units_of. rewrite elem_of_list_to_set, elem_of_range, block_of_range. done.
Qed.

Lemma NoDup_range a b : NoDup (range a b).
Proof. unfold range. apply NoDup_fmap; [apply _|apply NoDup_seq]. Qed.

Lemma size_units_of b : size (units_of b) = N.to_nat (2 ^ b.1).
Proof.
  unfold units_of. rewrite size_list_to_set by apply NoDup_range.
  rewrite length_range. lia.
Qed.

(** Blocks that do not overlap and lie in the chunk hold at most its units. *)
Lemma weight_le n A :
  (∀ b, is_Some (A !! b) → b.2 < block_of b.1 n) →
  (∀ b c u, is_Some (A !! b) → is_Some (A !! c) →
    block_of b.1 u = b.2 → block_of c.1 u = c.2 → b = c) →
  weight A ≤ n.
Proof.
  intros Hr Hd.
  assert (∃ U : gset N, (∀ u, u ∈ U ↔ ∃ b, is_Some (A !! b) ∧ block_of b.1 u = b.2) ∧
    N.of_nat (size U) = weight A) as (U & HU & Hs).
  { clear Hr. induction A as [|b m A Hb IH] using map_ind.
    - exists ∅. split; [|done]. intros u. split; [set_solver|].
      intros (b & [? Hb] & _). by rewrite lookup_empty in Hb.
    - destruct IH as (U & HU & Hs).
      { intros b1 b2 u H1 H2. assert (∀ c, is_Some (A !! c) → is_Some (<[b := m]> A !! c)) as Hi.
        { intros c Hc. rewrite lookup_insert. by case_decide. }
        apply Hd; by apply Hi. }
      exists (units_of b ∪ U). split.
      + intros u. rewrite elem_of_union, HU. destruct b as [k i]. rewrite elem_of_units_of.
        split.
        * intros [Hu|(c & Hc & Hu)].
          -- exists (k, i). by rewrite lookup_insert_eq.
          -- exists c. rewrite lookup_insert_ne; [done|]. intros <-. rewrite Hb in Hc. by destruct Hc.
        * intros (c & Hc & Hu). rewrite lookup_insert in Hc. case_decide; [subst; by left|].
          right. eauto.
      + rewrite size_union, size_units_of, weight_insert by first
          [ done
          | intros u Hu Hu'; apply HU in Hu' as (c & Hc & Hcu); destruct b as [k i];
            apply elem_of_units_of in Hu;
            assert ((k, i) = c) as <- by
              (apply (Hd _ _ u); [by rewrite lookup_insert_eq| |done|done];
               rewrite lookup_insert; by case_decide);
            rewrite Hb in Hc; by destruct Hc ].
        lia. }
  assert (size U ≤ size (list_to_set (range 0 n) : gset N))%nat as Hle.
  { apply subseteq_size. intros u (b & Hb & Hu)%HU. apply elem_of_list_to_set, elem_of_range.
    split; [lia|]. apply (block_of_bound n b.1). rewrite Hu. by apply Hr. }
  rewrite size_list_to_set, length_range in Hle by apply NoDup_range. lia.
Qed.

(** ** The invariant *)

(** Each block was handed out for a length of its level. *)
Definition sizes_ok (A : gmap block N) : Prop := ∀ k i n, A !! (k, i) = Some n → fits k n.


(** The chunk as the kernel sets it up: whole pages, without wrap-around. *)
Record chunk_ok (i : BuddyBlockInfo) : Prop := {
  chunk_raw : raw_addr i mod 4096 = 0;
  chunk_off : data_offset i mod 4096 = 0;
  chunk_len : total_len i = data_offset i + units i * 4096;
  chunk_end : raw_addr i + total_len i < W64;
}.

Definition data_start (i : BuddyBlockInfo) : N := raw_addr i + data_offset i.

Record inv (s : BuddyBlock) (A : gmap block N) : Prop := {
  inv_geom : geom s;
  inv_chunk : chunk_ok (info s);
  inv_tree : tree (units (info s)) (free s) A;
  inv_size : sizes_ok A;
  inv_used : used s = total A;
}.

Lemma total_le n F A : tree n F A → sizes_ok A → total A ≤ 4096 * n.
Proof.
  intros HT Hs. assert (total A ≤ 4096 * weight A) as H1.
  { clear HT. induction A as [|[k i] m A Hb IH] using map_ind; [done|].
    rewrite total_insert, weight_insert by done. simpl.
    pose proof (fits_le k m (Hs k i m ltac:(apply lookup_insert_eq))).
    specialize (IH ltac:(intros k' i' n' Hn; apply (Hs k' i'); rewrite lookup_insert_ne;
      [done|congruence])). lia. }
  assert (weight A ≤ n) as H2; [|lia].
  apply weight_le.
  - intros [k i] Ha. eapply tree_range; [done|by right].
  - intros [k i] [j i'] u H3 H4 Hu Hu'. by eapply tree_allocated_disjoint.
Qed.

Lemma sizes_insert A k i n : sizes_ok A → fits k n → sizes_ok (<[(k, i) := n]> A).
Proof.
  intros Hs Hn k' i' n' Hl. rewrite lookup_insert in Hl. case_decide; simplify_eq; eauto.
Qed.
Lemma sizes_delete A b : sizes_ok A → sizes_ok (delete b A).
Proof. intros Hs k' i' n' [_ Hl]%lookup_delete_Some. eauto. Qed.

(** The tree does not depend on the lengths. *)
Lemma tree_relabel n F A b m m' :
  tree n F (<[b := m]> A) → tree n F (<[b := m']> A).
Proof.
  intros HT.
  assert (∀ c, <[b := m']> A !! c = None ↔ <[b := m]> A !! c = None) as He.
  { intros c. rewrite !lookup_insert. by case_decide. }
  apply (tree_same_blocks _ F (<[b := m]> A)); [done| | |].
  - intros k i. unfold in_use. rewrite <-!not_eq_None_Some, He. done.
  - intros k i Hf. apply He. by apply HT.
  - intros k i. apply HT.
Qed.

(** A step of the metadata that keeps everything but the bits. *)
Definition same_frame (s s' : BuddyBlock) : Prop := info s' = info s ∧ used s' = used s.

Lemma same_frame_trans s1 s2 s3 : same_frame s1 s2 → same_frame s2 s3 → same_frame s1 s3.
Proof. intros [? ?] [? ?]. split; congruence. Qed.

Lemma tree_level s A k i :
  geom s → tree (units (info s)) (free s) A → in_use (free s) A k i → k < levels (info s).
Proof.
  intros Hg HT Hu. rewrite (g_levels s Hg). pose proof (in_use_level _ _ _ _ _ HT Hu). lia.
Qed.

Lemma free_rbit s k i : k < levels (info s) → free s k i = rbit (level_bytes s k) i.
Proof. intros Hk. unfold free. by apply N.ltb_lt in Hk as ->. Qed.

(** Writing back a bitmap whose bits are known. *)
Lemma put_run s k r F :
  geom s → k < levels (info s) → ref_ok r →
  vlen (bits r) = blen (block_of k (units (info s))) →
  (∀ j, F k j = rbit (bits r) j) → (∀ k' j, k' ≠ k → F k' j = free s k' j) →
  geom (put_bits s k r) ∧ same_frame s (put_bits s k r) ∧
    ∀ k' j, F k' j = free (put_bits s k r) k' j.
Proof.
  intros Hg Hk Hr Hl HF HF'. split_and!.
  - by apply geom_put.
  - split; by rewrite put_bits_eq.
  - intros k' j. rewrite free_put by done. destruct (N.eqb_spec k' k) as [->|]; auto.
Qed.

(** ** Allocation *)

(** One iteration of the splitting loop: the block in hand is halved. *)
Lemma split_step_run k A b st :
  geom st → tree (units (info st)) (free st) (<[(k + 1, b) := 0]> A) →
  A !! (k + 1, b) = None →
  ∃ st', split_step k (st, b) = Ok (st', b * 2) ∧ geom st' ∧ same_frame st st' ∧
    tree (units (info st')) (free st') (<[(k, b * 2) := 0]> A) ∧ A !! (k, b * 2) = None.
Proof.
  intros Hg HT Ha.
  assert (in_use (free st) (<[(k + 1, b) := 0]> A) (k + 1) b) as Hu.
  { right. by rewrite lookup_insert_eq. }
  pose proof (tree_level _ _ _ _ Hg HT Hu) as Hlv.
  pose proof (tree_range _ _ _ HT _ _ Hu) as Hb. rewrite block_of_succ in Hb.
  pose proof (level_blocks st Hg k ltac:(lia)) as Hlb.
  change (2 ^ 52) with 4503599627370496 in Hlb.
  unfold split_step. mstep. rewrite get_bits_run by (done || lia). mred. mstep.
  set (r := mkRef _ _). assert (ref_ok r) as Hr by (apply level_ref_ok; [done|lia]).
  assert (vlen (bits r) = blen (block_of k (units (info st)))) as Hvl.
  { apply vlen_level_bytes; [done|lia]. }
  destruct (set_1_run r (b * 2 + 1)) as (r' & -> & Hr' & Hl' & Hbits); [done| |].
  { rewrite Hvl. apply blen_index. lia. }
  mred. destruct (put_run st k r' (upd (free st) k (2 * b + 1) true))
    as (Hg' & Hfr & Hfree); [done|lia|done|congruence| | |].
  { intros j. rewrite Hbits. unfold upd, set_bit. simpl.
    destruct (N.eqb_spec j (b * 2 + 1)) as [->|].
    - by rewrite decide_True by lia.
    - rewrite decide_False by lia. by rewrite free_rbit by lia. }
  { intros k' j Hne. unfold upd. by rewrite decide_False by lia. }
  pose proof (tree_split _ _ _ k b 0 HT ltac:(by rewrite lookup_insert_eq)) as HT'.
  rewrite delete_insert_id, (N.mul_comm 2 b) in HT' by done. rewrite (N.mul_comm 2 b) in Hfree.
  apply (tree_ext _ _ _ _ Hfree) in HT'. exists (put_bits st k r').
  split_and!; [done|done|done|by destruct Hfr as [-> _]|].
  destruct (A !! (k, b * 2)) eqn:HA; [|done]. exfalso.
  assert (in_use (free st) (<[(k + 1, b) := 0]> A) k (b * 2)) as Hu2.
  { right. rewrite lookup_insert_ne by (intros [=]; lia). by rewrite HA. }
  pose proof (tree_disj _ _ _ HT (b * 2 * 2 ^ k) k (k + 1)) as Hd.
  rewrite block_of_succ, block_of_first in Hd.
  replace (b * 2 / 2) with b in Hd by lia. specialize (Hd Hu2 Hu). lia.
Qed.

(** The splitting loop: the block in hand goes down to the level asked for. *)
Lemma split_run fit d A :
  ∀ b st, geom st → tree (units (info st)) (free st) (<[(fit + d, b) := 0]> A) →
  A !! (fit + d, b) = None →
  ∃ st', for_each (reverse (range fit (fit + d))) split_step (st, b) = Ok (st', b * 2 ^ d) ∧
    geom st' ∧ same_frame st st' ∧
    tree (units (info st')) (free st') (<[(fit, b * 2 ^ d) := 0]> A) ∧
    A !! (fit, b * 2 ^ d) = None.
Proof.
  induction d as [|d IH] using N.peano_ind; intros b st Hg HT Ha.
  - rewrite N.add_0_r in *. rewrite range_nil, N.pow_0_r, N.mul_1_r by lia.
    exists st. split_and!; done.
  - rewrite <-N.add_1_r, N.add_assoc in *. set (k := fit + d) in *.
    rewrite range_snoc, reverse_snoc by lia. cbn [for_each].
    destruct (split_step_run k A b st) as (st1 & -> & Hg1 & Hfr1 & HT1 & Ha1); [done..|].
    mred. destruct (IH (b * 2) st1) as (st' & Hrun & Hg' & Hfr' & HT' & Ha'); [done..|].
    exists st'. rewrite N.pow_add_r, N.pow_1_r.
    replace (b * (2 ^ d * 2)) with (b * 2 * 2 ^ d) by lia.
    split_and!; try done. by eapply same_frame_trans.
Qed.

(** The address of a block. *)
Definition block_addr (i : BuddyBlockInfo) (b : block) : N :=
  data_start i + b.2 * 2 ^ b.1 * 4096.

Lemma block_end n k i : i < block_of k n → (i + 1) * 2 ^ k ≤ n.
Proof.
  intros Hi. destruct (N.le_gt_cases ((i + 1) * 2 ^ k) n) as [|Hgt]; [done|].
  assert (block_of k n < i + 1); [|lia].
  apply N.Div0.div_lt_upper_bound. lia.
Qed.

Lemma block_addr_end s A k i :
  inv s A → i < block_of k (units (info s)) →
  block_addr (info s) (k, i) + 2 ^ k * 4096 ≤ raw_addr (info s) + total_len (info s).
Proof.
  intros HI Hi. apply block_end in Hi. destruct (inv_chunk s A HI) as [_ _ Hl _].
  unfold block_addr, data_start. simpl. rewrite Hl. nia.
Qed.

(** Taking the free block [b] of level [j], for a request of level [fit]. *)
Lemma take_run s A fit j b n :
  inv s A → fits fit n → fit ≤ j → free s j b = true →
  let r := mkRef (level_bytes s j) (popsum (level_bytes s j)) in
  ∃ r' s1 i, set_0 r b = Ok r' ∧
    for_each (reverse (range fit j)) split_step (put_bits s j r', b) = Ok (s1, i) ∧
    i = b * 2 ^ (j - fit) ∧ info s1 = info s ∧ used s1 = used s ∧ A !! (fit, i) = None ∧
    i < block_of fit (units (info s)) ∧
    inv (mkBuddy (info s1) (used s1 + n) (bitmaps s1) (total_bits s1)) (<[(fit, i) := n]> A).
Proof.
  intros HI Hn Hj Hfree r. destruct HI as [Hg Hc HT Hs Hus].
  pose proof (tree_level s A j b Hg HT (or_introl Hfree)) as Hlv.
  pose proof (tree_range _ _ _ HT _ _ (or_introl Hfree)) as Hb.
  pose proof (level_ref_ok s Hg j Hlv) as Hr. fold r in Hr.
  assert (vlen (bits r) = blen (block_of j (units (info s)))) as Hvl.
  { by apply vlen_level_bytes. }
  destruct (set_0_run r b) as (r' & Hset & Hr' & Hl' & Hbits); [done| |].
  { rewrite Hvl. by apply blen_index. }
  destruct (put_run s j r' (upd (free s) j b false)) as (Hg' & [Hfi Hfu] & Hfr);
    [done|done|done|congruence| | |].
  { intros i. rewrite Hbits. unfold upd, set_bit. simpl.
    destruct (N.eqb_spec i b) as [->|]; [by rewrite decide_True|].
    rewrite decide_False by lia. by apply free_rbit. }
  { intros k' i Hne. unfold upd. by rewrite decide_False by lia. }
  pose proof (tree_take _ _ _ j b 0 HT Hfree) as HT'. apply (tree_ext _ _ _ _ Hfr) in HT'.
  pose proof (tree_excl _ _ _ HT _ _ Hfree) as Ha.
  assert (fit + (j - fit) = j) as Hjf by lia.
  destruct (split_run fit (j - fit) A b (put_bits s j r')) as (s1 & Hrun & Hg1 & [Hi1 Hu1] & HT1 & Ha1);
    [done|by rewrite Hjf, Hfi|by rewrite Hjf|].
  rewrite Hjf in Hrun.
  exists r', s1, (b * 2 ^ (j - fit)).
  assert (b * 2 ^ (j - fit) < block_of fit (units (info s))) as Hlt.
  { rewrite Hi1, Hfi in HT1. eapply tree_range; [apply HT1|]. right. by rewrite lookup_insert_eq. }
  split_and!; try done; try congruence.
  split; simpl.
  - destruct Hg1 as [? ? ? ? ? ?]. split; simpl; done.
  - by rewrite Hi1, Hfi.
  - apply (tree_relabel _ _ _ _ 0). done.
  - by apply sizes_insert.
  - rewrite total_insert by done. rewrite Hu1, Hfu. lia.
Qed.

Lemma inv_used_lt s A : inv s A → used s ≤ units (info s) * 4096.
Proof. intros [_ _ HT Hs Hu]. rewrite Hu. pose proof (total_le _ _ _ HT Hs). lia. Qed.

(** The search through the levels. *)
Lemma alloc_loop_run s A fit n :
  inv s A → fits fit n → ∀ d lo, levels (info s) = lo + d → fit ≤ lo →
  (alloc_loop (range lo (levels (info s))) fit n s = Ok (None, s) ∧
    ∀ k i, lo ≤ k → free s k i = false) ∨
  (∃ i s', alloc_loop (range lo (levels (info s))) fit n s =
      Ok (Some (block_addr (info s) (fit, i)), s') ∧
    i < block_of fit (units (info s)) ∧ A !! (fit, i) = None ∧ info s' = info s ∧
    inv s' (<[(fit, i) := n]> A)).
Proof.
  intros HI Hn d. induction d as [|d IH] using N.peano_ind; intros lo Hlv Hlo.
  - left. rewrite range_nil by lia. split; [done|]. intros k i Hk. unfold free.
    destruct (N.ltb_spec k (levels (info s))); [lia|done].
  - pose proof (inv_geom s A HI) as Hg.
    rewrite range_cons by lia. cbn [alloc_loop]. rewrite get_bits_run by (done || lia). mred.
    unfold ref_empty. simpl. destruct (N.eqb_spec (popsum (level_bytes s lo)) 0) as [Hz|Hnz].
    + destruct (IH (lo + 1)) as [[Hrun Hnone]|Hsome]; [lia|lia| |by right].
      left. split; [done|]. intros k i Hk. destruct (N.eq_dec k lo) as [->|].
      * rewrite free_rbit by lia. by apply popsum_zero.
      * apply Hnone. lia.
    + right. destruct (first_1_run (mkRef (level_bytes s lo) (popsum (level_bytes s lo))))
        as (b & -> & _ & Hbit & _); [apply level_ref_ok; [done|lia]|done|].
      mred. assert (free s lo b = true) as Hfree by by rewrite free_rbit by lia.
      destruct (take_run s A fit lo b n) as (r' & s1 & i & -> & Hrun & Hi & Hi1 & Hu1 & Ha & Hlt & HI');
        [done..|].
      mred. rewrite Hrun. mred. rewrite Hi1 in HI'.
      pose proof (inv_used_lt _ _ HI') as Hu. simpl in Hu.
      destruct (inv_chunk s A HI) as [_ _ Hl He].
      pose proof (block_addr_end s A fit i HI Hlt) as Hend.
      unfold block_addr, data_start in Hend. simpl in Hend.
      assert (b * (4096 * 2 ^ lo) = i * 2 ^ fit * 4096) as Hoff.
      { rewrite Hi. replace lo with ((lo - fit) + fit) at 1 by lia.
        rewrite N.pow_add_r. lia. }
      pose proof (levels_le s Hg). pose proof (pow2_51 lo ltac:(lia)) as H63.
      change (2 ^ 63) with 9223372036854775808 in H63. pose proof (pow2_pos fit).
      mstep. unfold data_addr. simpl. rewrite Hi1. mstep. unfold UNIT_SIZE.
      rewrite checked_shl_Ok by lia. mred. rewrite checked_mul_Ok by lia. mred.
      rewrite checked_add_Ok by lia. mred. exists i. eexists. split; [|split_and!; [..|exact HI']].
      * unfold block_addr, data_start. simpl. by rewrite Hoff.
      * done.
      * done.
      * done.
Qed.

Section alloc.
Context `{NumInteger}.

(** The length a request is rounded up to. *)
Definition aligned (len : N) : N := div_ceil len UNIT_SIZE * UNIT_SIZE.

Lemma aligned_spec len :
  0 < len → len ≤ 2 ^ 63 →
  len ≤ aligned len < len + 4096 ∧ 0 < aligned len ∧ aligned len mod 4096 = 0 ∧
  aligned len ≤ 2 ^ 63.
Proof.
  intros H0 Hl. change (2 ^ 63) with 9223372036854775808 in *. unfold aligned.
  pose proof (div_ceil_bounds len UNIT_SIZE ltac:(done)) as Hd. unfold UNIT_SIZE in *. lia.
Qed.

Lemma alloc_run s A len :
  inv s A → 0 < len → len ≤ 2 ^ 63 →
  ∃ k, k ≤ 51 ∧ fits k (aligned len) ∧
  ((alloc s len = Ok (None, s) ∧ ∀ j i, k ≤ j → free s j i = false) ∨
   (∃ i s', alloc s len = Ok (Some (block_addr (info s) (k, i)), s') ∧
      i < block_of k (units (info s)) ∧ A !! (k, i) = None ∧ info s' = info s ∧
      inv s' (<[(k, i) := aligned len]> A))).
Proof.
  intros HI H0 Hl. pose proof (inv_geom s A HI) as Hg.
  destruct (aligned_spec len H0 Hl) as (Hb & Hpos & Hmod & H63).
  destruct (fits_exists (aligned len) Hpos Hmod H63) as (k & Hk & Hfit).
  exists k. split_and!; [done|done|].
  unfold alloc. destruct (N.eqb_spec len 0) as [->|_]; [lia|]. mstep.
  change (2 ^ 63) with 9223372036854775808 in H63. unfold aligned in H63.
  rewrite checked_mul_Ok by lia. mred. fold (aligned len).
  rewrite fits_index with (k := k) by done. mred. rewrite bitmap_len_levels by done.
  bcase.
  - left. split; [done|]. intros j i Hj. unfold free.
    destruct (N.ltb_spec j (levels (info s))); [lia|done].
  - apply (alloc_loop_run s A k (aligned len) HI Hfit (levels (info s) - k) k); lia.
Qed.
End alloc.

(** ** Deallocation *)

(** One iteration of the merging loop on the block in hand. *)
Section merge_step.
Context (s : BuddyBlock) (A : gmap block N) (k i : N) (fuel : nat).
Context (Hg : geom s) (HT : tree (units (info s)) (free s) A) (Ha : is_Some (A !! (k, i))).
Let r := mkRef (level_bytes s k) (popsum (level_bytes s k)).

Lemma hand_level : k < levels (info s) ∧ i < block_of k (units (info s)).
Proof using Hg HT Ha.
  split; [eapply tree_level; [done..|]|eapply tree_range; [done|]]; by right.
Qed.

Lemma hand_ref :
  ref_ok r ∧ vlen (bits r) = blen (block_of k (units (info s))) ∧
  (∀ j, rbit (bits r) j = free s k j) ∧ free s k i = false ∧ N.lxor i 1 ≠ i.
Proof using Hg HT Ha.
  destruct hand_level as [Hlv Hi]. split_and!.
  - by apply level_ref_ok.
  - by apply vlen_level_bytes.
  - intros j. by rewrite free_rbit.
  - destruct (free s k i) eqn:Hx; [|done]. apply (tree_excl _ _ _ HT) in Hx.
    rewrite Hx in Ha. by destruct Ha.
  - pose proof (buddy_cases i). lia.
Qed.

(** The iteration up to the test of the buddy. *)
Lemma merge_loop_unfold :
  ∃ r1, set_1 r i = Ok r1 ∧ ref_ok r1 ∧ vlen (bits r1) = vlen (bits r) ∧
    (∀ j, rbit (bits r1) j = set_bit (free s k) i true j) ∧
    merge_loop (S fuel) s i k =
      if free s k (N.lxor i 1) then
        if levels (info s) <=? k + 1 then Ok (put_bits s k r1)
        else (r2 ← set_0 r1 (N.lxor i 1); r3 ← set_0 r2 i;
              merge_loop fuel (put_bits s k r3) (i / 2) (k + 1))
      else Ok (put_bits s k r1).
Proof using All.
  destruct hand_level as [Hlv Hi], hand_ref as (Hr & Hvl & Hfr & Hfi & Hnb).
  pose proof (blen_index _ _ Hi). pose proof (blen_buddy _ _ Hi). pose proof (levels_le s Hg).
  destruct (set_1_run r i) as (r1 & Hset & Hr1 & Hl1 & Hb1); [done|lia|].
  exists r1. split_and!; try done.
  { intros j. rewrite Hb1. unfold set_bit. by rewrite Hfr. }
  cbn [merge_loop]. rewrite get_bits_run by done. mred. fold r.
  rewrite ref_get_run, Hfr, Hfi by (done || lia). mred. simpl. mred. rewrite Hset. mred.
  rewrite ref_get_run, Hb1 by (done || lia). unfold set_bit.
  destruct (N.eqb_spec (N.lxor i 1) i); [done|]. rewrite Hfr. mred.
  destruct (free s k (N.lxor i 1)); [|done]. mstep. by rewrite bitmap_len_levels.
Qed.

Lemma merge_stop :
  free s k (N.lxor i 1) = false →
  ∃ s', merge_loop (S fuel) s i k = Ok s' ∧ geom s' ∧ same_frame s s' ∧
    tree (units (info s')) (free s') (delete (k, i) A).
Proof using All.
  intros Hbuddy. destruct merge_loop_unfold as (r1 & _ & Hr1 & Hl1 & Hb1 & ->).
  rewrite Hbuddy. destruct hand_level as [Hlv Hi], hand_ref as (_ & Hvl & _).
  destruct (put_run s k r1 (upd (free s) k i true)) as (Hg' & Hfrm & Hfree);
    [done|done|done|congruence| | |].
  { intros j. rewrite Hb1. unfold set_bit, upd. destruct (N.eqb_spec j i) as [->|].
    - by rewrite decide_True.
    - by rewrite decide_False by tauto. }
  { intros k' j Hne. unfold upd. by rewrite decide_False by tauto. }
  pose proof (tree_put _ _ _ k i HT Ha Hbuddy) as HT'. apply (tree_ext _ _ _ _ Hfree) in HT'.
  exists (put_bits s k r1). split_and!; [done|done|done|by destruct Hfrm as [-> _]].
Qed.

Lemma merge_up :
  free s k (N.lxor i 1) = true →
  ∃ s', merge_loop (S fuel) s i k = merge_loop fuel s' (i / 2) (k + 1) ∧ geom s' ∧
    same_frame s s' ∧ A !! (k + 1, i / 2) = None ∧
    tree (units (info s')) (free s') (<[(k + 1, i / 2) := 0]> (delete (k, i) A)).
Proof using All.
  intros Hbuddy. pose proof (tree_merge _ _ _ k i 0 HT Ha Hbuddy) as HT'.
  assert (k + 1 < levels (info s)) as Hk1.
  { rewrite (g_levels s Hg). pose proof (in_use_level _ _ _ (k + 1) (i / 2) HT') as Hlev.
    assert (k + 1 ≤ N.log2 (units (info s))); [|lia].
    apply Hlev. right. by rewrite lookup_insert_eq. }
  assert (A !! (k + 1, i / 2) = None) as Hnone.
  { destruct (A !! (k + 1, i / 2)) eqn:Hx; [|done].
    pose proof (tree_disj _ _ _ HT (i * 2 ^ k) k (k + 1)) as Hd.
    rewrite block_of_succ, block_of_first in Hd.
    assert (k = k + 1); [|lia]. apply Hd; right; [done|by rewrite Hx]. }
  destruct hand_level as [Hlv Hi], hand_ref as (_ & Hvl & _ & Hfi & Hnb).
  pose proof (blen_index _ _ Hi). pose proof (blen_buddy _ _ Hi).
  destruct merge_loop_unfold as (r1 & _ & Hr1 & Hl1 & Hb1 & ->). rewrite Hbuddy. bcase; [lia|].
  destruct (set_0_run r1 (N.lxor i 1)) as (r2 & -> & Hr2 & Hl2 & Hb2); [done|lia|]. mred.
  destruct (set_0_run r2 i) as (r3 & -> & Hr3 & Hl3 & Hb3); [done|lia|]. mred.
  destruct (put_run s k r3 (upd (free s) k (N.lxor i 1) false)) as (Hg' & Hfrm & Hfree);
    [done|done|done|congruence| | |].
  { intros j. rewrite Hb3. unfold set_bit at 1. rewrite Hb2. unfold set_bit at 1. rewrite Hb1.
    unfold set_bit, upd. destruct (N.eqb_spec j i) as [->|Hji].
    - by rewrite decide_False by (intros [_ ?]; congruence).
    - destruct (N.eqb_spec j (N.lxor i 1)) as [->|]; [by rewrite decide_True|].
      by rewrite decide_False by tauto. }
  { intros k' j Hne. unfold upd. by rewrite decide_False by tauto. }
  apply (tree_ext _ _ _ _ Hfree) in HT'. exists (put_bits s k r3).
  split_and!; [done|done|done|done|by destruct Hfrm as [-> _]].
Qed.
End merge_step.

(** The merging loop: the block in hand goes up while its buddy is free. *)
Lemma merge_run fuel : ∀ s A k i,
  geom s → tree (units (info s)) (free s) A → is_Some (A !! (k, i)) →
  (N.to_nat (levels (info s) - k) < fuel)%nat →
  ∃ s', merge_loop fuel s i k = Ok s' ∧ geom s' ∧ same_frame s s' ∧
    tree (units (info s')) (free s') (delete (k, i) A).
Proof.
  induction fuel as [|fuel IH]; intros s A k i Hg HT Ha Hf; [lia|].
  destruct (free s k (N.lxor i 1)) eqn:Hbuddy; [|by apply merge_stop].
  destruct (merge_up s A k i fuel Hg HT Ha Hbuddy) as (s1 & -> & Hg1 & Hfr & Hnone & HT1).
  pose proof (hand_level s A k i Hg HT Ha) as [Hlv _].
  destruct (IH s1 (<[(k + 1, i / 2) := 0]> (delete (k, i) A)) (k + 1) (i / 2))
    as (s' & Hrun & Hg' & Hfr' & HT'); [done|done|by rewrite lookup_insert_eq| |].
  { destruct Hfr as [-> _]. lia. }
  exists s'. split_and!; [done|done|by eapply same_frame_trans|].
  rewrite delete_insert_id in HT'; [done|]. rewrite lookup_delete_ne by (intros [=]; lia). done.
Qed.

Section dealloc.
Context `{NumInteger}.

(** [dealloc(addr, len)] names the block [(k, i)] handed out for [n] bytes:
    rounded to pages, the range is the first [n] bytes of the block. *)
Definition names (info : BuddyBlockInfo) (addr len : N) (b : block) (n : N) : Prop :=
  0 < len ∧ block_addr info b ≤ addr < block_addr info b + 4096 ∧
  block_addr info b + n - 4096 < addr + len ≤ block_addr info b + n.

Lemma block_addr_mod s A k i : inv s A → block_addr (info s) (k, i) mod 4096 = 0.
Proof.
  intros HI. destruct (inv_chunk s A HI) as [Hr Ho _ _]. unfold block_addr, data_start. simpl.
  lia.
Qed.

(** The computation of [dealloc] up to the merging loop, for a range that
    rounds to the [n] bytes at [a]. *)
Lemma dealloc_unfold s addr len a n k d :
  0 < len → a ≤ addr < a + 4096 → a + n < addr + len + 4096 → addr + len ≤ a + n →
  a mod 4096 = 0 → n mod 4096 = 0 → d = raw_addr (info s) + data_offset (info s) →
  d ≤ a → data_offset (info s) ≤ total_len (info s) →
  a + n ≤ raw_addr (info s) + total_len (info s) < W64 →
  bitmap_index_for_size n = Ok k → k < bitmap_len s → k ≤ 51 →
  dealloc s addr len =
    (s ← merge_loop (S (length (bitmaps s))) s ((a - d) / (4096 * 2 ^ k)) k;
     u ← (used s -! n)%checked;
     Ok (mkBuddy (info s) u (bitmaps s) (total_bits s))).
Proof.
  intros Hl0 Haddr Hend Hend' Ham Hnm Hd Hda Ho Hce Hidx Hk Hk51.
  unfold dealloc, data_addr, data_len. destruct (N.eqb_spec len 0) as [->|_]; [lia|].
  rewrite (checked_add_Ok _ (raw_addr _)), <-Hd by lia. mred.
  rewrite (checked_sub_Ok (total_len _)) by lia. mred.
  rewrite (checked_add_Ok _ addr len) by lia. mred.
  pose proof (div_ceil_bounds (addr + len) UNIT_SIZE ltac:(done)) as Hdc.
  unfold UNIT_SIZE in *. assert (addr / 4096 * 4096 = a) as -> by lia.
  assert (div_ceil (addr + len) 4096 * 4096 = a + n) as Hend_eq by lia. clear Hdc.
  rewrite checked_mul_Ok by lia. mred. rewrite Hend_eq.
  rewrite !checked_sub_Ok by lia. mred. replace (a + n - a) with n by lia.
  rewrite (proj2 (N.leb_le d a)), (proj2 (N.ltb_lt d (a + n))) by lia.
  rewrite checked_add_Ok by lia. mred. rewrite (assert_true (a <? _)) by (apply N.ltb_lt; lia).
  mred. rewrite (assert_true (a + n <=? _)) by (apply N.leb_le; lia). mred.
  rewrite Hidx. mred. rewrite assert_true by by apply N.ltb_lt. mred.
  pose proof (pow2_51 k Hk51) as H63. change (2 ^ 63) with 9223372036854775808 in H63.
  pose proof (pow2_pos k). rewrite checked_shl_Ok by lia. mred.
  by rewrite checked_div_Ok by lia.
Qed.

Lemma dealloc_run s A addr len k i n :
  inv s A → A !! (k, i) = Some n → names (info s) addr len (k, i) n →
  ∃ s', dealloc s addr len = Ok s' ∧ info s' = info s ∧ inv s' (delete (k, i) A).
Proof.
  intros HI Ha (Hl0 & Haddr & Hend & Hend'). pose proof (block_addr_mod s A k i HI) as Hmod.
  pose proof (inv_size s A HI k i n Ha) as Hfit. pose proof (inv_geom s A HI) as Hg.
  destruct (hand_level s A k i Hg (inv_tree s A HI)) as [Hlv Hi]; [by rewrite Ha|].
  pose proof (levels_le s Hg) as Hl52. pose proof (block_addr_end s A k i HI Hi) as Hbe.
  pose proof (pow2_pos k) as Hp.
  destruct (inv_chunk s A HI) as [_ _ Hcl Hce], Hfit as [Hnm Hnp Hnl Hng] eqn:Hfe. clear Hfe.
  rewrite (dealloc_unfold s addr len (block_addr (info s) (k, i)) n k (data_start (info s)));
    try done; [|lia|unfold block_addr; lia|lia|lia| |rewrite bitmap_len_levels; done|lia].
  2: { apply fits_index; [done|lia]. }
  replace ((_ - _) / _) with i.
  2: { replace (_ - _) with (i * (4096 * 2 ^ k)) by (unfold block_addr; simpl; lia).
       rewrite N.div_mul; lia. }
  destruct (merge_run (S (length (bitmaps s))) s A k i) as (s1 & -> & Hg1 & [Hi1 Hu1] & HT1);
    [done|apply HI|by rewrite Ha| |].
  { pose proof (g_bitmaps s Hg) as Hbm. unfold vlen in Hbm. lia. }
  mred. pose proof (total_delete A (k, i) n Ha) as Htot. pose proof (inv_used s A HI) as Hu.
  rewrite checked_sub_Ok by lia. mred. eexists. split; [done|]. simpl. split; [done|].
  split; simpl.
  - destruct Hg1 as [? ? ? ? ? ?]. split; simpl; done.
  - rewrite Hi1. apply HI.
  - done.
  - by apply sizes_delete, HI.
  - lia.
Qed.
End dealloc.

End BuddyAlloc.
