(* ===== verification/BuddyNew.v ===== *)
(** * The buddy allocator: layout and construction

    [BuddyBlockInfo::new] and [BuddyBlock::new] in closed form.  The layout of
    a chunk is given by two functions, [pages] and [meta]; the bitmaps of a
    fresh chunk by [init_maps] and [init_bits].  [tree_init] shows that they
    describe the decomposition of the chunk in maximal blocks, and [new_spec]
    what [new] does on every chunk, the contract of its slices included. *)
From stdpp Require Import gmap.
From S2P Require Import Prelude Buddy BuddyTree BuddyBits BuddyAlloc.
Import Buddy BuddyTree BuddyBits BuddyAlloc.
Local Open Scope N_scope.

Module BuddyNew.

(** ** The blocks of a fresh chunk *)

(** A level with an odd number of blocks has its last block free: the others
    are halves of blocks one level up. *)
Definition init_free (u k i : N) : bool :=
  N.odd (block_of k u) && (i =? block_of k u - 1).

Lemma init_free_true u k i :
  init_free u k i = true ↔ block_of k u mod 2 = 1 ∧ i + 1 = block_of k u.
Proof.
  unfold init_free. rewrite andb_true_iff, N.eqb_eq, <-N.bit0_odd, N.bit0_eqb, N.eqb_eq. lia.
Qed.

Lemma init_cover u v : v < u → ∃ k, init_free u k (block_of k v) = true.
Proof.
  intros Hv. assert (∀ j, block_of j v = block_of j u →
    ∃ k, init_free u k (block_of k v) = true) as H.
  { induction j as [|j IH] using N.peano_ind; [rewrite !block_of_0; lia|].
    rewrite <-N.add_1_r, !block_of_succ. intros Heq.
    destruct (N.eq_dec (block_of j v) (block_of j u)) as [|Hne]; [by apply IH|].
    exists j. apply init_free_true. pose proof (block_of_mono j v u). lia. }
  apply (H (N.log2 u + 1)). unfold block_of.
  assert (u < 2 ^ (N.log2 u + 1)) by (rewrite N.add_1_r; apply N.log2_spec; lia).
  rewrite !N.div_small; lia.
Qed.

Lemma init_disj u v k j :
  init_free u k (block_of k v) = true → init_free u j (block_of j v) = true → k = j.
Proof.
  assert (∀ k j, k < j → init_free u k (block_of k v) = true →
    init_free u j (block_of j v) = true → False) as H.
  { intros k' j' Hlt [H1 H2]%init_free_true [H3 H4]%init_free_true.
    rewrite !(block_of_le (k' + 1) j') in H4 by lia.
    rewrite !block_of_succ in H4. replace (block_of k' v / 2) with (block_of k' u / 2) in H4 by lia.
    lia. }
  intros H1 H2. destruct (N.lt_trichotomy k j) as [?|[?|?]]; [|done|]; exfalso; eauto.
Qed.

Lemma tree_init u : tree u (init_free u) ∅.
Proof.
  assert (∀ k i, in_use (init_free u) ∅ k i ↔ init_free u k i = true) as Hu.
  { intros k i. unfold in_use. rewrite lookup_empty. split; [intros [?|[? ?]]; done|by left]. }
  split.
  - intros k i [_ Hi]%Hu%init_free_true. lia.
  - done.
  - intros v [k Hk]%init_cover. exists k. by apply Hu.
  - intros v k j Hk%Hu Hj%Hu. by eapply init_disj.
  - intros k i [_ H1]%init_free_true [_ H2]%init_free_true. lia.
Qed.

(** ** The bitmaps of a fresh chunk *)
Definition init_level (c : N) : list N :=
  replicate (N.to_nat ((c - 1) / 8)) 0 ++ [if N.odd c then 2 ^ ((c - 1) mod 8) else 0].

Fixpoint init_maps (n : nat) (c e : N) : list BlockBitmap :=
  match n with
  | O => []
  | S n => mkBitmap e (N.b2n (N.odd c)) :: init_maps n (c / 2) (e + blen c)
  end.

Fixpoint init_bits (n : nat) (c : N) : list N :=
  match n with O => [] | S n => init_level c ++ init_bits n (c / 2) end.

Lemma vlen_init_level c : vlen (init_level c) = blen c.
Proof. unfold vlen, init_level, blen. rewrite length_app, length_replicate. simpl. lia. Qed.

Lemma pow2_byte m : m < 8 → 2 ^ m < 256 ∧ pop (2 ^ m) = 1 ∧
  ∀ j, j < 8 → N.testbit (2 ^ m) j = (j =? m).
Proof.
  intros Hm. split_and!.
  - change 256 with (2 ^ 8). apply N.pow_lt_mono_r; lia.
  - assert (m = 0 ∨ m = 1 ∨ m = 2 ∨ m = 3 ∨ m = 4 ∨ m = 5 ∨ m = 6 ∨ m = 7) as Hc by lia.
    by destruct_or!; subst m.
  - intros j _. rewrite N.pow2_bits_eqb. apply N.eqb_sym.
Qed.

Lemma popsum_app l l' : popsum (l ++ l') = popsum l + popsum l'.
Proof. induction l as [|b l IH]; simpl; [done|]. rewrite IH. lia. Qed.
Lemma popsum_zeros n : popsum (replicate n 0) = 0.
Proof. induction n as [|n IH]; simpl; [done|]. by rewrite IH. Qed.

Lemma popsum_init_level c : popsum (init_level c) = N.b2n (N.odd c).
Proof.
  unfold init_level. rewrite popsum_app, popsum_zeros. simpl.
  destruct (N.odd c); [|done]. destruct (pow2_byte ((c - 1) mod 8)) as (_ & -> & _); [lia|done].
Qed.

Lemma bytes_init_level c : bytes (init_level c).
Proof.
  apply Forall_app. split; [apply Forall_replicate; lia|]. apply Forall_singleton.
  destruct (N.odd c); [|lia]. apply pow2_byte. lia.
Qed.

Lemma rbit_init_level c i : rbit (init_level c) i = N.odd c && (i =? c - 1).
Proof.
  unfold rbit, byte_at, init_level.
  destruct (N.lt_trichotomy (i / 8) ((c - 1) / 8)) as [Hlt|[Heq|Hgt]].
  - rewrite lookup_app_l by (rewrite length_replicate; lia).
    rewrite lookup_replicate_2 by lia. simpl.
    destruct (N.eqb_spec i (c - 1)); [lia|]. by rewrite andb_false_r.
  - rewrite lookup_app_r, length_replicate, Heq, Nat.sub_diag by (rewrite length_replicate; lia).
    simpl. destruct (N.odd c); [|done]. simpl.
    destruct (pow2_byte ((c - 1) mod 8)) as (_ & _ & Hb); [lia|].
    rewrite Hb by lia.
    destruct (N.eqb_spec (i mod 8) ((c - 1) mod 8)), (N.eqb_spec i (c - 1)); lia || done.
  - rewrite lookup_app_r, length_replicate by (rewrite length_replicate; lia).
    rewrite lookup_ge_None_2 by (simpl; lia). simpl.
    destruct (N.eqb_spec i (c - 1)); [lia|]. by rewrite andb_false_r.
Qed.

Lemma block_of_half c k : block_of (k + 1) c = block_of k (c / 2).
Proof. unfold block_of. rewrite N.pow_add_r, N.pow_1_r, N.Div0.div_div. f_equal. lia. Qed.

Lemma off_half c k : off c (k + 1) = blen c + off (c / 2) k.
Proof.
  induction k as [|k IH] using N.peano_ind; [rewrite off_succ, !off_0, block_of_0; lia|].
  rewrite <-N.add_1_r, (off_succ c), IH, off_succ, block_of_half. lia.
Qed.

Lemma vlen_init_bits n c : vlen (init_bits n c) = off c (N.of_nat n).
Proof.
  revert c. induction n as [|n IH]; intros c; [done|]. cbn [init_bits].
  rewrite Nat2N.inj_succ, <-N.add_1_r, off_half, <-IH, <-vlen_init_level.
  unfold vlen. rewrite length_app. lia.
Qed.

Lemma bytes_init_bits n c : bytes (init_bits n c).
Proof.
  revert c. induction n as [|n IH]; intros c; [constructor|].
  apply Forall_app. split; [apply bytes_init_level|apply IH].
Qed.

Lemma length_init_maps n c e : length (init_maps n c e) = n.
Proof. revert c e. induction n as [|n IH]; intros c e; simpl; auto. Qed.

Lemma lookup_init_maps n c e k :
  (k < n)%nat →
  init_maps n c e !! k =
    Some (mkBitmap (e + off c (N.of_nat k)) (N.b2n (N.odd (block_of (N.of_nat k) c)))).
Proof.
  revert c e k. induction n as [|n IH]; intros c e [|k] Hk; [lia|lia| |].
  - simpl. by rewrite off_0, N.add_0_r, block_of_0.
  - change (init_maps (S n) c e !! S k) with (init_maps n (c / 2) (e + blen c) !! k).
    rewrite IH by lia. rewrite Nat2N.inj_succ, <-N.add_1_r, off_half, block_of_half.
    do 2 f_equal. lia.
Qed.

Lemma slice_init_bits n c k :
  (k < n)%nat →
  take (N.to_nat (blen (block_of (N.of_nat k) c))) (drop (N.to_nat (off c (N.of_nat k))) (init_bits n c)) =
  init_level (block_of (N.of_nat k) c).
Proof.
  revert c k. induction n as [|n IH]; intros c [|k] Hk; [lia|lia| |]; cbn [init_bits].
  - rewrite block_of_0, off_0. simpl. apply take_app_length'.
    pose proof (vlen_init_level c). unfold vlen in *. lia.
  - rewrite Nat2N.inj_succ, <-N.add_1_r, off_half, block_of_half.
    pose proof (vlen_init_level c) as Hv. unfold vlen in Hv.
    rewrite drop_app_ge by lia. rewrite <-(IH (c / 2) k) by lia. do 2 f_equal. lia.
Qed.

(** The allocator [BuddyBlock::new] builds from a layout. *)
Definition initial (i : BuddyBlockInfo) : BuddyBlock :=
  mkBuddy i 0 (init_maps (N.to_nat (levels i)) (units i) 0)
    (init_bits (N.to_nat (levels i)) (units i)).

Section initial.
Context (i : BuddyBlockInfo) (Hu : 0 < units i < 2 ^ 52) (Hl : levels i = N.log2 (units i) + 1).

Lemma level_bytes_initial k :
  k < levels i → level_bytes (initial i) k = init_level (block_of k (units i)).
Proof using Hu Hl.
  intros Hk. pose proof (slice_init_bits (N.to_nat (levels i)) (units i) (N.to_nat k)) as Hs.
  rewrite N2Nat.id in Hs. apply Hs. lia.
Qed.

Lemma geom_initial : geom (initial i).
Proof using Hu Hl.
  split; simpl; [done|done| | | |apply bytes_init_bits].
  - unfold vlen. rewrite length_init_maps. lia.
  - intros k Hk. rewrite level_bytes_initial, popsum_init_level by done.
    rewrite lookup_init_maps, N2Nat.id by lia. done.
  - by rewrite vlen_init_bits, N2Nat.id.
Qed.

Lemma free_initial k j : init_free (units i) k j = free (initial i) k j.
Proof using Hu Hl.
  unfold free. destruct (N.ltb_spec k (levels i)) as [Hk|Hk]; simpl;
    destruct (N.ltb_spec k (levels i)); try lia.
  - by rewrite level_bytes_initial, rbit_init_level.
  - unfold init_free, block_of. rewrite N.div_small; [done|].
    apply N.log2_lt_pow2; lia.
Qed.

Lemma inv_initial : chunk_ok i → inv (initial i) ∅.
Proof using Hu Hl.
  intros Hc. split; [by apply geom_initial|done| |done|done].
  apply (tree_ext _ _ _ _ free_initial), tree_init.
Qed.
End initial.

(** ** The loops of [from_chunk] and [new] *)
Lemma log2_half c : 2 ≤ c → N.log2 c = N.log2 (c / 2) + 1.
Proof.
  intros Hc. destruct (N.log2_spec (c / 2)) as [H1 H2]; [lia|].
  rewrite N.add_1_r. apply N.log2_unique; rewrite ?N.pow_succ_r' in *; lia.
Qed.

Lemma off_le c n : off c (N.of_nat n) ≤ 2 * c + N.of_nat n.
Proof.
  revert c. induction n as [|n IH]; intros c; [change (off c _) with 0; lia|].
  rewrite Nat2N.inj_succ, <-N.add_1_r, off_half. specialize (IH (c / 2)). unfold blen. lia.
Qed.

Definition nlevels (c : N) : N := N.log2 c + 1.

Lemma chunk_loop_run fuel lv b c :
  0 < c → (N.to_nat (nlevels c) ≤ fuel)%nat → lv + nlevels c < W32 →
  b + off c (nlevels c) < W64 →
  chunk_loop fuel lv b c = Ok (lv + nlevels c, b + off c (nlevels c)).
Proof.
  unfold nlevels. revert lv b c. induction fuel as [|fuel IH]; intros lv b c Hc Hf Hlv Hb; [lia|].
  assert (blen c ≤ off c (N.log2 c + 1)) as Ho by (rewrite off_half; lia).
  cbn [chunk_loop]. mstep. unfold bits_len. mstep. unfold blen in Ho. mstep. mstep.
  destruct (N.eqb_spec c 1) as [->|Hne]; [done|].
  rewrite (log2_half c), off_half in * by lia. unfold blen in *. rewrite IH by lia.
  do 2 f_equal; lia.
Qed.

(** The bytes of one level: of zeroes, the last byte of an odd level is set. *)
Lemma new_level_run T m c :
  0 < c → blen c ≤ m →
  (if negb (c mod 2 =? 0) then
     (sh ← checked_sub (c mod 8) 1;
      last ← checked_sub (blen c) 1;
      l ← vset (T ++ replicate (N.to_nat m) 0) (vlen T + last) (N.shiftl 1 sh mod 256);
      Ok (l, 1))
   else Ok (T ++ replicate (N.to_nat m) 0, 0)) =
  Ok ((T ++ init_level c) ++ replicate (N.to_nat (m - blen c)) 0, N.b2n (N.odd c)).
Proof.
  intros Hc Hm. assert (N.odd c = negb (c mod 2 =? 0)) as ->.
  { rewrite <-N.bit0_odd, N.bit0_eqb.
    destruct (N.eqb_spec (c mod 2) 1), (N.eqb_spec (c mod 2) 0); lia || done. }
  assert (replicate (N.to_nat m) 0 = replicate (N.to_nat ((c - 1) / 8)) 0 ++
    0 :: replicate (N.to_nat (m - blen c)) 0) as Hrep.
  { change (0 :: ?l) with ([0] ++ l). change [0] with (replicate 1 0). rewrite <-!replicate_add.
    f_equal. unfold blen in *. lia. }
  rewrite Hrep. unfold init_level. destruct (N.eqb_spec (c mod 2) 0) as [He|He]; simpl.
  - rewrite <-N.bit0_odd, N.bit0_eqb. destruct (N.eqb_spec (c mod 2) 1); [lia|].
    by rewrite <-!app_assoc.
  - rewrite <-N.bit0_odd, N.bit0_eqb. destruct (N.eqb_spec (c mod 2) 1); [|lia].
    unfold blen in *. do 2 mstep.
    rewrite vset_Ok by (unfold vlen; rewrite !length_app, length_replicate; simpl; lia). mred.
    destruct (pow2_byte ((c - 1) mod 8)) as (H256 & _ & _); [lia|].
    rewrite N.shiftl_1_l. replace (c mod 8 - 1) with ((c - 1) mod 8) by lia.
    rewrite N.mod_small by done. rewrite app_assoc. do 2 f_equal.
    rewrite insert_app_r_alt by (unfold vlen; rewrite length_app, length_replicate; lia).
    replace (_ - _)%nat with 0%nat by (unfold vlen; rewrite length_app, length_replicate; lia).
    simpl. by rewrite <-!app_assoc.
Qed.

Lemma new_entry_run (B : list BlockBitmap) n bm :
  vset (map Some B ++ replicate (S n) None) (vlen B) (Some bm) =
  Ok (map Some (B ++ [bm]) ++ replicate n None).
Proof.
  rewrite vset_Ok by (unfold vlen; rewrite length_app, length_map, length_replicate; lia).
  rewrite insert_app_r_alt by (unfold vlen; rewrite length_map; lia).
  replace (_ - _)%nat with 0%nat by (unfold vlen; rewrite length_map; lia).
  by rewrite map_app, <-app_assoc.
Qed.

Lemma new_loop_run fuel B T c :
  0 < c → (N.to_nat (nlevels c) ≤ fuel)%nat →
  vlen T + off c (nlevels c) < W64 → vlen B + nlevels c < W64 →
  new_loop fuel (map Some B ++ replicate (N.to_nat (nlevels c)) None)
    (T ++ replicate (N.to_nat (off c (nlevels c))) 0) c (vlen T) (vlen B) =
  Ok (map Some (B ++ init_maps (N.to_nat (nlevels c)) c (vlen T)),
      T ++ init_bits (N.to_nat (nlevels c)) c, vlen T + off c (nlevels c), vlen B + nlevels c).
Proof.
  revert B T c. induction fuel as [|fuel IH]; intros B T c Hc Hf HT HB; [unfold nlevels in Hf; lia|].
  assert (nlevels c = N.log2 c + 1) as Hn by done. rewrite Hn, off_half in *.
  replace (N.to_nat (N.log2 c + 1)) with (S (N.to_nat (N.log2 c))) by lia.
  cbn [new_loop]. unfold bits_len. rewrite (checked_sub_Ok c 1) by lia. mred.
  assert (blen c < W64) by lia. unfold blen in *.
  rewrite (checked_add_Ok _ ((c - 1) / 8)) by lia. mred. fold (blen c) in *.
  rewrite (checked_add_Ok _ (vlen T)) by lia. mred.
  rewrite (proj2 (N.leb_le _ _)) by (unfold vlen; rewrite length_app, length_replicate; lia).
  mred. rewrite new_level_run by lia. mred.
  rewrite new_entry_run. mred. rewrite (checked_add_Ok _ (vlen B)) by lia. mred.
  set (bm := mkBitmap _ _). destruct (N.eqb_spec (c / 2) 0) as [Hz|Hz].
  - assert (c = 1) as -> by lia. simpl. rewrite !app_nil_r. repeat f_equal; lia.
  - rewrite (log2_half c) by lia. fold (nlevels (c / 2)).
    assert (vlen (B ++ [bm]) = vlen B + 1) as HvB by (unfold vlen; rewrite length_app; simpl; lia).
    assert (vlen (T ++ init_level c) = vlen T + blen c) as HvT.
    { rewrite <-vlen_init_level. unfold vlen. rewrite length_app. lia. }
    replace (blen c + _ - blen c) with (off (c / 2) (nlevels (c / 2))) by lia.
    rewrite (log2_half c) in Hf, HT, HB by lia. fold (nlevels (c / 2)) in Hf, HT, HB.
    rewrite <-HvB, <-HvT, IH by lia. rewrite HvB, HvT. cbn [init_maps init_bits].
    rewrite <-!app_assoc. do 2 f_equal; [f_equal|]; lia.
Qed.

(** ** Layout *)

(** Pages of [len] bytes, and the bytes of metadata of a chunk of [u] pages. *)
Definition pages (len : N) : N := (len - 1) / 4096 + 1.
Definition meta (u : N) : N := nlevels u * 16 + off u (nlevels u).

Lemma nlevels_le u : 0 < u → nlevels u ≤ u.
Proof. intros Hu. unfold nlevels. pose proof (N.log2_lt_lin u Hu). lia. Qed.

Lemma meta_le u : 0 < u → meta u ≤ 19 * u.
Proof.
  intros Hu. pose proof (nlevels_le u Hu). unfold meta.
  pose proof (off_le u (N.to_nat (nlevels u))) as Ho. rewrite N2Nat.id in Ho. lia.
Qed.

Lemma pages_bounds len : 0 < len → (pages len - 1) * 4096 < len ≤ pages len * 4096.
Proof. unfold pages. lia. Qed.

Lemma nlevels_small u : 0 < u < 2 ^ 53 → nlevels u ≤ 53.
Proof. intros Hu. unfold nlevels. assert (N.log2 u < 53); [|lia]. apply N.log2_lt_pow2; lia. Qed.

Lemma from_chunk_run addr len :
  len < W64 →
  from_chunk addr len =
    if 4096 <? len then
      Ok (mkInfo addr len (meta (pages len)) 0 (pages len) (nlevels (pages len)))
    else Panic Assertion.
Proof.
  intros Hlen. unfold from_chunk, UNIT_SIZE. destruct (N.ltb_spec 4096 len) as [Hl|Hl]; [|done].
  rewrite assert_true by done. mred. rewrite (checked_sub_Ok len) by lia. mred.
  rewrite (checked_add_Ok _ ((len - 1) / 4096)) by lia. mred. fold (pages len).
  pose proof (pages_bounds len ltac:(lia)) as Hp. set (u := pages len) in *.
  pose proof (nlevels_small u ltac:(change (2 ^ 53) with 9007199254740992; lia)) as Hn.
  pose proof (meta_le u ltac:(lia)) as Hm. unfold meta in *.
  rewrite chunk_loop_run by lia. rewrite !N.add_0_l. mred. unfold BLOCK_BITMAP_SIZE.
  do 2 mstep. by rewrite assert_true by (apply N.ltb_lt; lia).
Qed.

Section layout.
Context `{NumInteger}.

Definition offset_of (len : N) : N := div_ceil (meta (pages len)) 4096 * 4096.

(** The conditions under which a chunk is accepted, and its layout. *)
Definition layout (raw len : N) : result BuddyBlockInfo :=
  let o := offset_of len in
  let u := pages (len - o) in
  if (4096 <? len) && (4096 <? len - o) && (meta u <? o)
  then Ok (mkInfo raw len (meta u) o u (nlevels u))
  else Panic Assertion.

Lemma offset_of_bounds len :
  4096 < len → meta (pages len) ≤ offset_of len ∧ 0 < offset_of len < len.
Proof.
  intros Hl. pose proof (pages_bounds len ltac:(lia)) as Hp.
  pose proof (meta_le (pages len) ltac:(unfold pages; lia)) as Hm.
  assert (0 < meta (pages len)) by (unfold meta, nlevels; lia).
  unfold offset_of. pose proof (div_ceil_bounds (meta (pages len)) 4096 ltac:(done)) as Hd. lia.
Qed.

Lemma info_new_run raw len : raw + len < W64 → info_new raw len = layout raw len.
Proof.
  intros Hw. unfold info_new, layout. rewrite from_chunk_run by lia.
  destruct (N.ltb_spec 4096 len) as [Hl|Hl]; [|done]. mred. cbn [metadata_len andb].
  pose proof (offset_of_bounds len Hl) as [_ Ho]. unfold UNIT_SIZE.
  rewrite checked_mul_Ok by (fold (offset_of len); lia). fold (offset_of len). mred.
  set (o := offset_of len) in *. rewrite (checked_add_Ok _ raw) by lia. mred.
  rewrite (checked_sub_Ok len) by lia. mred. rewrite from_chunk_run by lia.
  destruct (N.ltb_spec 4096 (len - o)); [|done]. mred. simpl.
  by destruct (meta _ <? o).
Qed.

Lemma assume_init_map {A} (l : list A) : assume_init (map Some l) = Ok l.
Proof.
  unfold assume_init. rewrite (mapM_fmap_Some _ Some); [done|].
  done.
Qed.

Lemma from_raw_parts_run data size align len :
  len * size < 2 ^ 63 → data + len * size ≤ W64 →
  from_raw_parts_mut data size align len = if (data =? 0) || negb (data mod align =? 0) then Panic UB else Ok ().
Proof.
  intros H1 H2. unfold from_raw_parts_mut. rewrite (proj2 (N.ltb_lt _ _) H1), (proj2 (N.leb_le _ _) H2), !andb_true_r.
  by destruct (data =? 0), (data mod align =? 0).
Qed.

(** Construction: the layout is checked, then the place of the bitmaps. *)
Lemma buddy_new_cases raw len :
  raw + len < W64 →
  buddy_new raw len =
    (i ← layout raw len; if (raw =? 0) || negb (raw mod 8 =? 0) then Panic UB else Ok (initial i)).
Proof.
  intros Hw. unfold buddy_new. rewrite info_new_run by done. unfold layout.
  destruct (N.ltb_spec 4096 len) as [Hl|]; [|done].
  pose proof (offset_of_bounds len Hl) as [_ Ho]. set (o := offset_of len) in *.
  destruct (N.ltb_spec 4096 (len - o)) as [Hl2|]; [|done].
  set (u := pages (len - o)) in *. destruct (N.ltb_spec (meta u) o) as [Hm|]; [|done].
  cbn [andb]. mred. cbn [levels units metadata_len]. unfold BLOCK_BITMAP_SIZE.
  pose proof (pages_bounds (len - o) ltac:(lia)) as Hp. fold u in Hp.
  assert (0 < u) as Hu by (unfold u, pages; lia). pose proof (meta_le u Hu) as Hml.
  pose proof (nlevels_small u ltac:(change (2 ^ 53) with 9007199254740992; lia)) as Hn.
  assert (meta u < 2 ^ 63) as Hm63 by (change (2 ^ 63) with 9223372036854775808; lia). clear Hml. unfold meta in Hm, Hm63 |- *.
  rewrite (checked_mul_Ok _ (nlevels u)) by lia. mred. rewrite (from_raw_parts_run raw) by lia.
  destruct ((raw =? 0) || negb (raw mod 8 =? 0)) eqn:Hraw; [done|]. mred.
  rewrite (checked_add_Ok _ raw) by lia. mred. rewrite (checked_sub_Ok (_ + _)) by lia. mred.
  replace (_ + _ - _) with (off u (nlevels u)) by lia. rewrite from_raw_parts_run by lia.
  apply orb_false_iff in Hraw as [Hr0 _]. apply N.eqb_neq in Hr0.
  rewrite (proj2 (N.eqb_neq (raw + _) 0)) by lia. rewrite N.mod_1_r. mred.
  pose proof (new_loop_run 64 [] [] u Hu ltac:(lia)) as Hrun. cbn [app map vlen length] in Hrun.
  change (vlen []) with 0 in Hrun. rewrite Hrun by lia. mred.
  rewrite !N.add_0_l, vlen_init_bits, N2Nat.id, N.eqb_refl. mred. simpl.
  rewrite assert_true by (unfold vlen; rewrite length_map, length_init_maps; apply N.eqb_eq; lia).
  mred. by rewrite assume_init_map.
Qed.

Lemma buddy_new_run raw len :
  raw + len < W64 → raw ≠ 0 → raw mod 8 = 0 → buddy_new raw len = (initial <$> layout raw len).
Proof.
  intros Hw H0 H8. rewrite buddy_new_cases by done.
  rewrite (proj2 (N.eqb_neq _ _) H0), (proj2 (N.eqb_eq _ _) H8). by destruct (layout raw len).
Qed.

(** A chunk of whole pages that is accepted starts out with the invariant. *)
Lemma buddy_new_inv raw len s :
  raw mod 4096 = 0 → len mod 4096 = 0 → raw + len < W64 →
  buddy_new raw len = Ok s → inv s ∅ ∧ raw_addr (info s) = raw ∧ total_len (info s) = len ∧
    metadata_len (info s) < data_offset (info s).
Proof.
  intros Hr Hl Hw. rewrite buddy_new_cases by done. unfold layout.
  destruct (N.ltb_spec 4096 len) as [Hl1|]; [|done].
  pose proof (offset_of_bounds len Hl1) as [_ Ho].
  assert (offset_of len mod 4096 = 0) as Hom by (unfold offset_of; lia).
  set (o := offset_of len) in *. destruct (N.ltb_spec 4096 (len - o)) as [Hl2|]; [|done].
  destruct (N.ltb_spec (meta (pages (len - o))) o) as [Hm|]; [|done]. cbn [andb]. mred.
  destruct (_ || _); [done|]. intros [= <-].
  split; [|done]. assert (pages (len - o) * 4096 = len - o) as Hpg by (unfold pages; lia).
  apply inv_initial; simpl; [change (2 ^ 52) with 4503599627370496; lia|done|].
  split; simpl; [done|done|lia|done].
Qed.


(** The check of the layout also rejects chunks whose metadata fits: at
    15466 pages the metadata fills the pages before the data exactly. *)
Lemma layout_rejects_exact_fit raw :
  raw + 15466 * 4096 < W64 →
  info_new raw (15466 * 4096) = Panic Assertion ∧
  offset_of (15466 * 4096) = meta (pages (15466 * 4096 - offset_of (15466 * 4096))).
Proof.
  intros Hw. rewrite info_new_run by done. unfold layout.
  assert (offset_of (15466 * 4096) = 4096) as Ho.
  { unfold offset_of. pose proof (div_ceil_bounds (meta (pages (15466 * 4096))) 4096 ltac:(done)) as Hd.
    replace (meta (pages (15466 * 4096))) with 4096 in * by (vm_compute; reflexivity). lia. }
  rewrite !Ho. split; vm_compute; reflexivity.
Qed.
End layout.


End BuddyNew.
