(* ===== verification/BuddySpec.v ===== *)
(** * The buddy allocator: what its clients rely on

    [reachable s0 s live] says that a client brought the allocator from [s0] to
    [s] with calls of [alloc] and [dealloc], and holds the ranges [live] (start
    address to requested length).  The theorems are about every such history:
    ranges never overlap, no call panics, a request is refused only if memory
    is really missing, and giving everything back restores the allocator. *)
From stdpp Require Import gmap.
From S2P Require Import Prelude Buddy BuddyTree BuddyBits BuddyAlloc BuddyNew.
Import Buddy BuddyTree BuddyBits BuddyAlloc BuddyNew.
Local Open Scope N_scope.

Module BuddySpec.

(** The lengths [alloc] accepts; see [alloc_zero] and [alloc_huge]. *)
Definition request_ok (len : N) : Prop := 0 < len ≤ 2 ^ 63.

Section client.
Context `{NumInteger}.

Inductive reachable (s0 : BuddyBlock) : BuddyBlock → gmap N N → Prop :=
  | reach_start : reachable s0 s0 ∅
  | reach_alloc s live len a s' :
      reachable s0 s live → request_ok len → alloc s len = Ok (Some a, s') →
      reachable s0 s' (<[a := len]> live)
  | reach_refused s live len s' :
      reachable s0 s live → request_ok len → alloc s len = Ok (None, s') →
      reachable s0 s' live
  | reach_dealloc s live a len s' :
      reachable s0 s live → live !! a = Some len → dealloc s a len = Ok s' →
      reachable s0 s' (delete a live).

(** A chunk the kernel hands to [BuddyBlock::new]. *)
Definition fresh_chunk (raw len : N) (s0 : BuddyBlock) : Prop :=
  raw mod 4096 = 0 ∧ len mod 4096 = 0 ∧ raw + len < W64 ∧ buddy_new raw len = Ok s0.

(** The bytes set aside for a request: the smallest power of two of pages. *)
Definition reserved (len : N) : N := 4096 * 2 ^ N.log2_up (div_ceil len 4096).

(** The bytes held, in whole pages. *)
Definition held (live : gmap N N) : N := map_fold (λ _ len a, aligned len + a) 0 live.

(** [live] lists the blocks of [A] by address. *)
Record client (s : BuddyBlock) (A : gmap block N) (live : gmap N N) : Prop := {
  client_inv : inv s A;
  client_block b n : A !! b = Some n →
    ∃ len, live !! block_addr (info s) b = Some len ∧ request_ok len ∧ n = aligned len;
  client_live a len : live !! a = Some len →
    ∃ b, a = block_addr (info s) b ∧ A !! b = Some (aligned len) ∧ request_ok len;
  client_held : total A = held live;
}.

Lemma held_insert live a len :
  live !! a = None → held (<[a := len]> live) = aligned len + held live.
Proof. intros Ha. unfold held. rewrite map_fold_insert_L; [done|intros; lia|done]. Qed.
Lemma held_delete live a len :
  live !! a = Some len → held live = aligned len + held (delete a live).
Proof.
  intros Ha. rewrite <-(insert_delete_id live a len Ha) at 1.
  apply held_insert, lookup_delete_eq.
Qed.

Lemma block_addr_inj s A b c :
  inv s A → is_Some (A !! b) → is_Some (A !! c) →
  block_addr (info s) b = block_addr (info s) c → b = c.
Proof.
  destruct b as [k i], c as [j i']. intros HI Hb Hc Heq. unfold block_addr in Heq. simpl in Heq.
  apply (tree_allocated_disjoint _ _ A k i j i' (i * 2 ^ k) (inv_tree s A HI)); [done|done| |].
  - apply block_of_first.
  - replace (i * 2 ^ k) with (i' * 2 ^ j) by lia. apply block_of_first.
Qed.

Lemma client_alloc s A live len a s' :
  client s A live → request_ok len → alloc s len = Ok (Some a, s') →
  ∃ A', client s' A' (<[a := len]> live) ∧ info s' = info s ∧ live !! a = None.
Proof.
  intros [HI Hb Hl Hh] Hr Ha. destruct (alloc_run s A len HI) as (k & Hk & Hf & [[He _]|Hs]);
    [apply Hr|apply Hr|congruence|].
  destruct Hs as (i & s1 & He & Hi & Hn & Hinf & HI'). rewrite Ha in He.
  injection He as -> <-. exists (<[(k, i) := aligned len]> A).
  assert (∀ b n, A !! b = Some n → block_addr (info s) b ≠ block_addr (info s) (k, i)) as Hne.
  { intros b n HA Heq. rewrite <-Hinf in Heq.
    apply (block_addr_inj s' _ b (k, i) HI') in Heq as ->;
      [congruence| |by rewrite lookup_insert_eq].
    destruct (decide (b = (k, i))) as [->|]; [by rewrite lookup_insert_eq|].
    by rewrite lookup_insert_ne, HA by done. }
  assert (live !! block_addr (info s) (k, i) = None) as Hfresh.
  { destruct (live !! _) as [l'|] eqn:HL; [|done]. destruct (Hl _ _ HL) as (b & Heq & HA & _).
    by destruct (Hne b _ HA). }
  split; [|done]. split; [done| | |].
  - rewrite Hinf. intros b n [[<- <-]|[Hbne HA]]%lookup_insert_Some.
    + exists len. by rewrite lookup_insert_eq.
    + destruct (Hb b n HA) as (l' & ? & ? & ?). exists l'.
      by rewrite lookup_insert_ne by (symmetry; eauto).
  - rewrite Hinf. intros a' l' [[<- <-]|[Hbne HL]]%lookup_insert_Some.
    + exists (k, i). by rewrite lookup_insert_eq.
    + destruct (Hl a' l' HL) as (b & -> & HA & ?). exists b.
      split_and!; [done| |done..]. rewrite lookup_insert_ne; [done|]. by intros <-.
  - rewrite total_insert, held_insert by done. lia.
Qed.

Lemma client_names s A live a len b :
  client s A live → live !! a = Some len → a = block_addr (info s) b → request_ok len →
  names (info s) a len b (aligned len).
Proof.
  intros _ _ -> [H0 Hl]. destruct (aligned_spec len H0 Hl) as (Hb & _). unfold names. lia.
Qed.

Lemma client_dealloc s A live a len :
  client s A live → live !! a = Some len →
  ∃ A' s', dealloc s a len = Ok s' ∧ client s' A' (delete a live) ∧ info s' = info s.
Proof.
  intros HC HL. pose proof HC as [HI Hb Hl Hh].
  destruct (Hl a len HL) as ([k i] & Ha & HA & Hr).
  destruct (dealloc_run s A a len k i (aligned len)) as (s' & Hrun & Hinf & HI');
    [done|done|by eapply client_names|].
  exists (delete (k, i) A), s'. split_and!; [done| |done]. split; [done| | |]; rewrite ?Hinf.
  - intros b n [Hne HA']%lookup_delete_Some. destruct (Hb b n HA') as (l' & HL' & ?).
    exists l'. split; [|done]. rewrite lookup_delete_ne; [done|]. intros Heq. apply Hne.
    apply (block_addr_inj s A); [done|by rewrite HA|by rewrite HA'|congruence].
  - intros a' l' [Hne HL']%lookup_delete_Some. destruct (Hl a' l' HL') as (b & -> & HA' & ?).
    exists b. rewrite lookup_delete_ne; [done|]. intros <-. done.
  - pose proof (total_delete A _ _ HA). pose proof (held_delete live a len HL). lia.
Qed.

Lemma reachable_client s0 s live :
  inv s0 ∅ → reachable s0 s live → ∃ A, client s A live ∧ info s = info s0.
Proof.
  intros HI Hr. induction Hr as [|s live len a s' Hr (A & HC & Hi) Hlen Ha
    |s live len s' Hr (A & HC & Hi) Hlen Ha|s live a len s' Hr (A & HC & Hi) HL Hd].
  - exists ∅. split; [|done]. by split.
  - destruct (client_alloc s A live len a s' HC Hlen Ha) as (A' & HC' & Hi' & _).
    exists A'. split; [done|congruence].
  - destruct (alloc_run s A len (client_inv _ _ _ HC)) as (k & Hk & Hf & [[He _]|Hs]);
      [apply Hlen|apply Hlen| |].
    + assert (s' = s) as -> by congruence. eauto.
    + destruct Hs as (i & s1 & He & _). congruence.
  - destruct (client_dealloc s A live a len HC HL) as (A' & s1 & Hrun & HC' & Hi').
    assert (s' = s1) as -> by congruence. exists A'. split; [done|congruence].
Qed.

Lemma fresh_inv raw len s0 : fresh_chunk raw len s0 → inv s0 ∅.
Proof. intros (Hr & Hl & Hw & Hn). by apply (buddy_new_inv raw len). Qed.

Lemma log2_up_le n k : 0 < n → n ≤ 2 ^ k → N.log2_up n ≤ k.
Proof. intros H0 Hle. apply N.log2_up_le_pow2; lia. Qed.

Lemma fits_log2_up k n : fits k n → k = N.log2_up (n / 4096).
Proof.
  intros [Hm Hp Hle Hgt]. assert (n = 4096 * (n / 4096)) as Hn by lia.
  apply N.le_antisymm; [|apply log2_up_le; lia].
  destruct Hgt as [->|Hgt]; [lia|]. assert (k - 1 < N.log2_up (n / 4096)); [|lia].
  apply N.log2_up_lt_pow2; lia.
Qed.

Lemma reserved_fits k len : fits k (aligned len) → reserved len = 4096 * 2 ^ k.
Proof.
  intros Hf. rewrite (fits_log2_up k _ Hf). unfold reserved, aligned, UNIT_SIZE.
  by rewrite N.div_mul.
Qed.

(** A live range, with the space reserved for it. *)
Lemma client_range s A live a len :
  client s A live → live !! a = Some len →
  ∃ k i, a = block_addr (info s) (k, i) ∧ A !! (k, i) = Some (aligned len) ∧
    reserved len = 4096 * 2 ^ k ∧ i < block_of k (units (info s)) ∧
    len ≤ aligned len ≤ reserved len.
Proof.
  intros [HI Hb Hl _] HL. destruct (Hl a len HL) as ([k i] & -> & HA & H0 & Hlen).
  exists k, i. pose proof (inv_size s A HI k i _ HA) as Hf.
  rewrite (reserved_fits k len Hf). destruct (aligned_spec len H0 Hlen) as (Hal & _).
  pose proof (fits_le _ _ Hf). split_and!; try done; try lia.
  eapply tree_range; [apply (inv_tree s A HI)|]. right. by rewrite HA.
Qed.

(** States with the same blocks handed out are equal. *)
Lemma inv_unique s s' A : inv s A → inv s' A → info s = info s' → s = s'.
Proof.
  intros HI HI' Hinf. apply geom_ext; [apply HI|apply HI'|done| |].
  - by rewrite (inv_used s A HI), (inv_used s' A HI').
  - pose proof (inv_tree s' A HI') as HT. rewrite <-Hinf in HT.
    by apply (tree_unique _ _ _ A A (inv_tree s A HI) HT).
Qed.

(** Two blocks, as ranges of units, share a unit. *)
Definition overlap (b c : block) : Prop :=
  b.2 * 2 ^ b.1 < (c.2 + 1) * 2 ^ c.1 ∧ c.2 * 2 ^ c.1 < (b.2 + 1) * 2 ^ b.1.

Lemma overlap_unit b c : overlap b c → ∃ u, block_of b.1 u = b.2 ∧ block_of c.1 u = c.2.
Proof.
  intros [H1 H2]. exists (N.max (b.2 * 2 ^ b.1) (c.2 * 2 ^ c.1)).
  pose proof (pow2_pos b.1). pose proof (pow2_pos c.1). rewrite !block_of_range. nia.
Qed.

Lemma overlap_of_unit u k j : overlap (k, block_of k u) (j, block_of j u).
Proof.
  pose proof (proj1 (block_of_range k (block_of k u) u) eq_refl).
  pose proof (proj1 (block_of_range j (block_of j u) u) eq_refl).
  unfold overlap. simpl. lia.
Qed.

(** Ranges in use do not overlap. *)
Lemma client_disjoint s A live a n b m :
  client s A live → live !! a = Some n → live !! b = Some m → a ≠ b →
  a + reserved n ≤ b ∨ b + reserved m ≤ a.
Proof.
  intros HC Ha Hb Hne.
  destruct (client_range s A live a n HC Ha) as (k & i & -> & HA & -> & _).
  destruct (client_range s A live b m HC Hb) as (j & i' & -> & HB & -> & _).
  pose proof (client_inv _ _ _ HC) as HI. unfold block_addr in *. simpl in *.
  destruct (N.le_gt_cases ((i + 1) * 2 ^ k) (i' * 2 ^ j)) as [|H1]; [left; lia|].
  destruct (N.le_gt_cases ((i' + 1) * 2 ^ j) (i * 2 ^ k)) as [|H2]; [right; lia|].
  destruct (overlap_unit (k, i) (j, i')) as (u & Hu & Hu'); [by split; simpl|].
  pose proof (tree_allocated_disjoint _ _ A k i j i' u (inv_tree s A HI)) as Hd.
  rewrite HA, HB in Hd. destruct Hne. by injection (Hd ltac:(done) ltac:(done) Hu Hu') as -> ->.
Qed.

(** A block without a free block around it meets a block handed out. *)
Lemma refused_overlap s A k i :
  inv s A → i < block_of k (units (info s)) → (∀ j i', k ≤ j → free s j i' = false) →
  ∃ b n, A !! b = Some n ∧ overlap b (k, i).
Proof.
  intros HI Hi Hnone.
  destruct (decide (map_Exists (λ b _, overlap b (k, i)) A)) as [(b & n & Hb & Ho)|Hno].
  { eauto. }
  destruct (tree_complete _ _ A k i (inv_tree s A HI) Hi) as (j & Hj & Hf).
  - intros u j <-. apply eq_None_not_Some. intros [n Hn]. apply Hno.
    exists (j, block_of j u), n. split; [done|apply overlap_of_unit].
  - by rewrite Hnone in Hf.
Qed.

(** The search for a level runs off the end of the word. *)
Lemma index_loop_huge fuel size idx :
  2 ^ 63 < size → idx ≤ 64 → (N.to_nat (64 - idx) < fuel)%nat →
  index_loop fuel size idx = Panic Overflow.
Proof.
  intros Hs. revert idx. induction fuel as [|fuel IH]; intros idx Hi Hf; [lia|].
  cbn [index_loop]. unfold checked_shl. destruct (N.ltb_spec idx 64) as [Hlt|]; [|done]. mred.
  assert (N.shiftl UNIT_SIZE idx mod W64 ≤ 2 ^ 63) as Hb.
  { rewrite N.shiftl_mul_pow2. unfold UNIT_SIZE. destruct (N.le_gt_cases idx 51) as [Hle|Hgt].
    - pose proof (pow2_51 idx Hle). etransitivity; [apply N.Div0.mod_le|lia].
    - replace idx with (52 + (idx - 52)) by lia. rewrite N.pow_add_r.
      change (4096 * (2 ^ 52 * ?x)) with (4096 * (4503599627370496 * x)).
      replace (4096 * (4503599627370496 * 2 ^ (idx - 52))) with (2 ^ (idx - 52) * W64) by lia.
      rewrite N.Div0.mod_mul. lia. }
  change (2 ^ 63) with 9223372036854775808 in *.
  destruct (N.ltb_spec (N.shiftl UNIT_SIZE idx mod W64) size); [|lia]. mstep. apply IH; lia.
Qed.

(** The range [addr, addr + len) lies in the data area. *)
Definition in_data (i : BuddyBlockInfo) (addr len : N) : Prop :=
  data_start i ≤ addr ∧ addr + len ≤ raw_addr i + total_len i.

(** A range that is not within the data area is refused before any change. *)
Lemma dealloc_outside_run s addr len :
  0 < len → data_start (info s) < W64 → data_offset (info s) ≤ total_len (info s) →
  raw_addr (info s) + total_len (info s) < W64 → addr + len + 4096 ≤ W64 →
  data_start (info s) mod 4096 = 0 → total_len (info s) mod 4096 = 0 →
  raw_addr (info s) mod 4096 = 0 →
  addr < data_start (info s) ∨ raw_addr (info s) + total_len (info s) < addr + len →
  dealloc s addr len = Panic Assertion.
Proof.
  intros Hl0 Hd Ho Hce Hae Hdm Htm Hrm Hout. unfold dealloc, data_addr, data_len.
  destruct (N.eqb_spec len 0) as [->|_]; [lia|]. unfold data_start in *.
  rewrite (checked_add_Ok _ (raw_addr _)) by lia. mred.
  rewrite (checked_sub_Ok (total_len _)) by lia. mred.
  rewrite (checked_add_Ok _ addr len) by lia. mred.
  pose proof (div_ceil_bounds (addr + len) UNIT_SIZE ltac:(done)) as Hdc. unfold UNIT_SIZE in *.
  rewrite (checked_mul_Ok _ (div_ceil _ _)) by lia. mred.
  set (e := div_ceil (addr + len) 4096 * 4096) in *.
  rewrite (checked_sub_Ok e) by lia. mred. set (d := raw_addr _ + data_offset _) in *.
  destruct (N.leb_spec d (addr / 4096 * 4096)); [|done].
  rewrite !(checked_add_Ok _ d) by lia. mred.
  destruct (N.ltb_spec (addr / 4096 * 4096) (d + (total_len (info s) - data_offset (info s))));
    [|done]. mred. rewrite assert_true by done. mred.
  destruct (N.ltb_spec d e); [|done]. mred.
  destruct (N.leb_spec e (d + (total_len (info s) - data_offset (info s)))); [lia|done].
Qed.

(** Freeing a block whose own bit says it is free. *)
Lemma dealloc_free_run s A k i len :
  inv s A → request_ok len → fits k (aligned len) → free s k i = true →
  dealloc s (block_addr (info s) (k, i)) len = Panic Assertion.
Proof.
  intros HI [H0 Hl] Hf Hfree. pose proof (inv_geom s A HI) as Hg.
  pose proof (tree_level s A k i Hg (inv_tree s A HI) (or_introl Hfree)) as Hlv.
  pose proof (tree_range _ _ _ (inv_tree s A HI) _ _ (or_introl Hfree)) as Hi.
  destruct (aligned_spec len H0 Hl) as (Hal & _ & Ham & _).
  pose proof (block_addr_end s A k i HI Hi) as Hbe. pose proof (fits_le _ _ Hf).
  pose proof (levels_le s Hg) as Hl52. destruct (inv_chunk s A HI) as [_ _ Hcl Hce].
  rewrite (dealloc_unfold s _ len (block_addr (info s) (k, i)) (aligned len) k (data_start (info s)));
    try done; try lia; [|by apply (block_addr_mod s A)|unfold block_addr; lia
      |by apply fits_index; [|lia]|by rewrite bitmap_len_levels].
  replace ((_ - _) / _) with i.
  2: { replace (_ - _) with (i * (4096 * 2 ^ k)) by (unfold block_addr; simpl; lia).
       pose proof (pow2_pos k). rewrite N.div_mul; lia. }
  cbn [merge_loop]. rewrite get_bits_run by done. mred.
  rewrite ref_get_run; [|by apply level_ref_ok|].
  - mred. simpl. by rewrite <-free_rbit, Hfree.
  - simpl. rewrite vlen_level_bytes by done. by apply blen_index.
Qed.
(** A block given back lies in a free block. *)
Lemma given_back_free s A k i :
  inv s A → i < block_of k (units (info s)) → unallocated A k i →
  ∃ j, k ≤ j ∧ j < levels (info s) ∧ free s j (block_of j (i * 2 ^ k)) = true ∧
    ∀ k' u, k' < j → block_of j u = block_of j (i * 2 ^ k) → free s k' (block_of k' u) = false.
Proof.
  intros HI Hi Hun. pose proof (inv_tree s A HI) as HT.
  destruct (tree_complete _ _ A k i HT Hi Hun) as (j & Hj & Hf). exists j.
  split_and!; [done|eapply tree_level; [apply HI|done|by left]|done|].
  intros k' u Hk' Hu. apply not_true_is_false. intros Hf'. rewrite <-Hu in Hf.
  pose proof (tree_disj _ _ _ HT u k' j (or_introl Hf') (or_introl Hf)). lia.
Qed.

(** The merging loop on a block whose bit is clear and that has no free buddy. *)
Lemma merge_loop_stray s k i fuel :
  geom s → k < levels (info s) → i < block_of k (units (info s)) →
  free s k i = false → free s k (N.lxor i 1) = false →
  ∃ s', merge_loop (S fuel) s i k = Ok s' ∧ same_frame s s' ∧ ∀ k' j, upd (free s) k i true k' j = free s' k' j.
Proof.
  intros Hg Hk Hi Hf Hb. set (r := mkRef (level_bytes s k) (popsum (level_bytes s k))).
  pose proof (level_ref_ok s Hg k Hk) as Hr. fold r in Hr.
  assert (vlen (bits r) = blen (block_of k (units (info s)))) as Hvl by by apply vlen_level_bytes.
  assert (∀ j, rbit (bits r) j = free s k j) as Hfr by (intros j; by rewrite free_rbit).
  pose proof (blen_index _ _ Hi). pose proof (blen_buddy _ _ Hi). assert (N.lxor i 1 ≠ i) by (pose proof (buddy_cases i); lia).
  destruct (set_1_run r i) as (r1 & Hset & Hr1 & Hl1 & Hb1); [done|lia|].
  destruct (put_run s k r1 (upd (free s) k i true)) as (_ & Hfrm & Hfree); [done|done|done|congruence| | |].
  { intros j. rewrite Hb1. unfold set_bit, upd. destruct (N.eqb_spec j i) as [->|].
    - by rewrite decide_True.
    - by rewrite decide_False by tauto. }
  { intros k' j Hne. unfold upd. by rewrite decide_False by tauto. }
  exists (put_bits s k r1). split; [|by split]. cbn [merge_loop]. rewrite get_bits_run by done. mred. fold r.
  rewrite ref_get_run, Hfr, Hf by (done || lia). mred. simpl. mred. rewrite Hset. mred.
  rewrite ref_get_run, Hb1 by (done || lia). unfold set_bit. destruct (N.eqb_spec (N.lxor i 1) i); [done|].
  by rewrite Hfr, Hb.
Qed.

(** Freeing a block inside a larger free one. *)
Lemma dealloc_stray s A k i j len :
  inv s A → request_ok len → fits k (aligned len) → i < block_of k (units (info s)) →
  k < j → j < levels (info s) → free s j (block_of j (i * 2 ^ k)) = true →
  (∀ k' u, k' < j → block_of j u = block_of j (i * 2 ^ k) → free s k' (block_of k' u) = false) →
  if used s <? aligned len then dealloc s (block_addr (info s) (k, i)) len = Panic Overflow
  else ∃ s', dealloc s (block_addr (info s) (k, i)) len = Ok s' ∧
    free s' k i = true ∧ free s' j (block_of j (i * 2 ^ k)) = true.
Proof.
  intros HI [H0 Hl] Hf Hi Hkj Hj Hfree Hnone. pose proof (inv_geom s A HI) as Hg.
  destruct (aligned_spec len H0 Hl) as (Hal & _ & Ham & _).
  pose proof (block_addr_end s A k i HI Hi) as Hbe. pose proof (fits_le _ _ Hf).
  pose proof (levels_le s Hg) as Hl52. destruct (inv_chunk s A HI) as [_ _ Hcl Hce]. pose proof (pow2_pos k).
  rewrite (dealloc_unfold s _ len (block_addr (info s) (k, i)) (aligned len) k (data_start (info s)));
    try done; try lia; [|by apply (block_addr_mod s A)|unfold block_addr; lia
      |by apply fits_index; [|lia]|rewrite bitmap_len_levels by done; lia].
  replace ((_ - _) / _) with i.
  2: { replace (_ - _) with (i * (4096 * 2 ^ k)) by (unfold block_addr; simpl; lia). rewrite N.div_mul; lia. }
  destruct (merge_loop_stray s k i (length (bitmaps s))) as (s1 & -> & [Hi1 Hu1] & Hf1); [done|lia|done| | |].
  - rewrite <-(block_of_first k i). by apply Hnone.
  - rewrite <-(block_of_first k (N.lxor i 1)). apply Hnone; [done|]. apply (block_of_nested (k + 1)); [lia|].
    rewrite !block_of_succ, !block_of_first. pose proof (buddy_cases i). lia.
  - mred. rewrite Hu1. unfold checked_sub. destruct (N.ltb_spec (used s) (aligned len)) as [Hlt|Hge].
    + by rewrite (proj2 (N.leb_gt _ _) Hlt).
    + rewrite (proj2 (N.leb_le _ _) Hge). mred. eexists. split; [done|].
      assert (∀ k' b, free (mkBuddy (info s1) (used s - aligned len) (bitmaps s1) (total_bits s1)) k' b = free s1 k' b) as He by done.
      rewrite !He, <-!Hf1, upd_eq. split; [done|]. rewrite upd_ne; [done|]. intros [=]. lia.
Qed.
End client.

(** ** The guarantees *)
Section guarantees.
Context `{NumInteger} (raw total : N) (s0 s : BuddyBlock) (live : gmap N N).
Context (Hfresh : fresh_chunk raw total s0) (Hreach : reachable s0 s live).

Lemma guarantee_client :
  ∃ A, client s A live ∧ info s = info s0 ∧ inv s0 ∅ ∧ raw_addr (info s) = raw ∧
    total_len (info s) = total ∧ metadata_len (info s) < data_offset (info s).
Proof using Hfresh Hreach.
  pose proof (fresh_inv raw total s0 Hfresh) as HI.
  destruct (reachable_client s0 s live HI Hreach) as (A & HC & Hinf). exists A.
  destruct Hfresh as (Hr & Hl & Hw & Hn).
  destruct (buddy_new_inv raw total s0 Hr Hl Hw Hn) as (_ & ? & ? & ?). by rewrite Hinf.
Qed.

(** A range in use is page aligned, holds the length asked for, and lies
    in the chunk after the metadata. *)
Lemma live_range_in_chunk a n :
  live !! a = Some n →
  a mod 4096 = 0 ∧ n ≤ reserved n ∧ raw + metadata_len (info s) < a ∧
  a + reserved n ≤ raw + total.
Proof using Hfresh Hreach.
  intros Ha. destruct guarantee_client as (A & HC & _ & _ & <- & <- & Hmd).
  pose proof (client_inv _ _ _ HC) as HI.
  destruct (client_range s A live a n HC Ha) as (k & i & -> & HA & -> & Hi & Hle).
  pose proof (block_addr_end s A k i HI Hi). split_and!; [by apply (block_addr_mod s A)|lia| |lia].
  unfold block_addr, data_start. lia.
Qed.

(** C1: a range in use is page aligned, holds the length asked for and lies in
    the chunk after the metadata, and ranges in use do not overlap, with the
    whole space reserved for each of them, whatever the history of requests
    was. *)
Theorem live_ranges_disjoint a n :
  live !! a = Some n →
  (a mod 4096 = 0 ∧ n ≤ reserved n ∧ raw + metadata_len (info s) < a ∧ a + reserved n ≤ raw + total) ∧
  ∀ b m, live !! b = Some m → a ≠ b → a + reserved n ≤ b ∨ b + reserved m ≤ a.
Proof using Hfresh Hreach.
  intros Ha. split; [by apply live_range_in_chunk|]. intros b m Hb Hne.
  destruct guarantee_client as (A & HC & _ & _). by apply (client_disjoint s A live).
Qed.

(** C3: no request panics: every allocation of an admissible length is
    answered, and every range in use can be given back. *)
Theorem requests_never_panic :
  (∀ len, request_ok len → ∃ r, alloc s len = Ok r) ∧
  (∀ a len, live !! a = Some len → ∃ s', dealloc s a len = Ok s').
Proof using Hfresh Hreach.
  destruct guarantee_client as (A & HC & _ & _). split.
  - intros len [H0 Hl]. destruct (alloc_run s A len (client_inv _ _ _ HC) H0 Hl)
      as (k & _ & _ & [[-> _]|(i & s' & -> & _)]); eauto.
  - intros a len HL. destruct (client_dealloc s A live a len HC HL) as (A' & s' & -> & _). eauto.
Qed.

(** C29: a request is refused only for lack of memory: every block of the
    size it needs meets a range in use, and the refusal changes nothing. *)
Theorem refused_only_if_full len s' i :
  request_ok len → alloc s len = Ok (None, s') →
  let base := data_start (info s) + i * reserved len in
  base + reserved len ≤ raw + total →
  s' = s ∧ ∃ a n, live !! a = Some n ∧ a < base + reserved len ∧ base < a + reserved n.
Proof using Hfresh Hreach.
  intros [H0 Hl] Hal base Hend. destruct guarantee_client as (A & HC & _ & _ & Hr & Ht & _).
  pose proof (client_inv _ _ _ HC) as HI.
  destruct (alloc_run s A len HI H0 Hl) as (k & Hk & Hf & [[He Hnone]|(? & ? & He & _)]);
    [|congruence].
  split; [congruence|]. unfold base in *. rewrite (reserved_fits k len Hf) in *.
  destruct (refused_overlap s A k i HI) as (b & n & HA & Ho); [|done|].
  { destruct (inv_chunk s A HI) as [_ _ Hcl _]. unfold block_of, data_start in *.
    apply N.lt_le_trans with (i + 1); [lia|]. pose proof (pow2_pos k).
    apply N.div_le_lower_bound; lia. }
  destruct (client_block s A live HC b n HA) as (m & HL & _ & ->).
  exists (block_addr (info s) b), m. split; [done|].
  destruct b as [j i']. pose proof (inv_size s A HI j i' _ HA) as Hfm.
  rewrite (reserved_fits j m Hfm). destruct Ho as [H1 H2]. unfold block_addr. simpl in *. lia.
Qed.

(** The bytes accounted as used are the ranges in use, in whole pages,
    and the free bytes are the rest of the data area. *)
Lemma used_is_held :
  used s = held live ∧
  left s = Ok (total - data_offset (info s) - held live).
Proof using Hfresh Hreach.
  destruct guarantee_client as (A & HC & _ & _ & _ & <- & _). pose proof (client_inv _ _ _ HC) as HI.
  assert (used s = held live) as Hu by (rewrite (inv_used s A HI); apply (client_held _ _ _ HC)).
  split; [done|]. pose proof (inv_used_lt s A HI). destruct (inv_chunk s A HI) as [_ _ Hl _].
  unfold left, data_len. rewrite checked_sub_Ok by lia. mred. rewrite Hu in *.
  by rewrite checked_sub_Ok by lia.
Qed.

(** Giving back what was just allocated restores the allocator bit for bit. *)
Lemma round_trip_run len a s' :
  request_ok len → alloc s len = Ok (Some a, s') → dealloc s' a len = Ok s.
Proof using Hfresh Hreach.
  intros [H0 Hl] Hal. destruct guarantee_client as (A & HC & _ & _).
  pose proof (client_inv _ _ _ HC) as HI.
  destruct (alloc_run s A len HI H0 Hl) as (k & _ & _ & [[He _]|(i & s1 & He & _ & Hn & Hinf & HI')]);
    [congruence|]. rewrite Hal in He. injection He as -> <-.
  destruct (aligned_spec len H0 Hl) as (Hb & _).
  destruct (dealloc_run s' _ (block_addr (info s) (k, i)) len k i (aligned len) HI')
    as (s2 & -> & Hinf2 & HI2); [apply lookup_insert_eq|rewrite Hinf; unfold names; lia|].
  rewrite delete_insert_id in HI2 by done. f_equal.
  symmetry. apply (inv_unique s s2 A HI HI2). congruence.
Qed.

(** A range outside the data area is not freed: the call panics. *)
Lemma dealloc_outside addr len :
  0 < len → addr + len + 4096 ≤ W64 → ~ in_data (info s) addr len →
  dealloc s addr len = Panic Assertion.
Proof using Hfresh Hreach.
  intros Hl Hw Hout. destruct guarantee_client as (A & HC & _ & _ & Hr & Ht & _).
  destruct (inv_chunk s A (client_inv _ _ _ HC)) as [? ? ? ?].
  apply dealloc_outside_run; unfold in_data, data_start in *; try done; lia.
Qed.

(** A block whose own bit is set is free as it stands; freeing it again panics. *)
Lemma dealloc_free_block k i len :
  request_ok len → fits k (aligned len) → free s k i = true →
  dealloc s (block_addr (info s) (k, i)) len = Panic Assertion.
Proof using Hfresh Hreach.
  intros Hr Hf Hfree. destruct guarantee_client as (A & HC & _).
  apply (dealloc_free_run s A k i len); [apply HC|done..].
Qed.
End guarantees.

Section whole.
Context `{NumInteger}.

(** C30: when everything is given back, in any order, the allocator is what
    it was after [new], bit for bit. *)
Theorem all_freed_restores raw total s0 s :
  fresh_chunk raw total s0 → reachable s0 s ∅ → s = s0.
Proof.
  intros Hfresh Hreach. destruct (guarantee_client raw total s0 s ∅ Hfresh Hreach)
    as (A & HC & Hinf & HI0 & _). assert (A = ∅) as ->.
  { apply map_empty. intros b. destruct (A !! b) as [n|] eqn:HA; [|done].
    destruct (client_block _ _ _ HC b n HA) as (? & HL & _). by rewrite lookup_empty in HL. }
  apply (inv_unique s s0 ∅); [apply HC|done|done].
Qed.

(** C39: a second free of a range goes unnoticed when its block was merged.
    After any history, freeing a range in use and freeing it again: if the
    block stayed what it was, the second call panics by the assertion; if the
    first call merged it into a larger one, the bit that the assertion reads
    is clear again, and the second call panics only if less than the range
    is in use, and else succeeds and leaves two free blocks one inside the
    other, so that the same memory can be handed out twice. *)
Theorem double_free_after_merge raw total s0 s live a len s1 :
  fresh_chunk raw total s0 → reachable s0 s live → live !! a = Some len → dealloc s a len = Ok s1 →
  ∃ k i j, a = block_addr (info s1) (k, i) ∧ reserved len = 4096 * 2 ^ k ∧ k ≤ j ∧
    free s1 j (block_of j (i * 2 ^ k)) = true ∧
    (k = j → dealloc s1 a len = Panic Assertion) ∧
    (k < j → if used s1 <? aligned len then dealloc s1 a len = Panic Overflow
             else ∃ s2, dealloc s1 a len = Ok s2 ∧ free s2 k i = true ∧ free s2 j (block_of j (i * 2 ^ k)) = true).
Proof.
  intros Hfresh Hreach HL Hd. destruct (guarantee_client raw total s0 s live Hfresh Hreach) as (A & HC & _).
  destruct (client_range s A live a len HC HL) as (k & i & -> & HA & Hres & Hi & _).
  destruct (client_live s A live HC _ _ HL) as (_ & _ & _ & Hr).
  destruct (dealloc_run s A (block_addr (info s) (k, i)) len k i (aligned len) (client_inv _ _ _ HC) HA)
    as (s1' & Hrun & Hinf & HI1); [by eapply client_names|].
  assert (s1' = s1) as -> by congruence. clear Hrun. pose proof (inv_size s A (client_inv _ _ _ HC) k i _ HA) as Hf.
  rewrite <-Hinf in Hi |- *.
  destruct (given_back_free s1 _ k i HI1 Hi) as (j & Hj & Hlv & Hfree & Hnone).
  { intros u k' Hu. apply eq_None_not_Some. rewrite lookup_delete_is_Some. intros [Hne HA'].
    apply Hne. symmetry. eapply (tree_allocated_disjoint _ _ A k' _ k i u); [apply HC|done|by rewrite HA|done|done]. }
  exists k, i, j. split_and!; [done..| |].
  - intros <-. rewrite block_of_first in Hfree. by eapply dealloc_free_run.
  - intros Hlt. by eapply dealloc_stray.
Qed.

(** [alloc] panics on an empty request, and on one of more than half of
    the address space instead of refusing it. *)
Lemma alloc_bad_request s len :
  len < W64 → ~ request_ok len →
  alloc s len = Panic (if len =? 0 then Assertion else Overflow).
Proof.
  intros Hw Hr. unfold alloc, request_ok in *. destruct (N.eqb_spec len 0) as [->|Hne]; [done|].
  assert (2 ^ 63 < len) as Hbig by lia. mstep. unfold checked_mul.
  pose proof (div_ceil_bounds len UNIT_SIZE ltac:(done)) as Hd.
  destruct (N.ltb_spec (div_ceil len UNIT_SIZE * UNIT_SIZE) W64); [|done]. mred.
  unfold bitmap_index_for_size. rewrite index_loop_huge; [done|lia|lia|lia].
Qed.

End whole.

(** ** A chunk of sixteen pages *)

(** Runs of requests, to set up the examples. *)
Definition after_alloc (len : N) (s : BuddyBlock) : N * BuddyBlock :=
  match alloc (H:=num_integer_example) s len with Ok (Some a, s') => (a, s') | _ => (0, s) end.

Definition chunk16 : BuddyBlock := Eval vm_compute in
  match buddy_new (H:=num_integer_example) 0x200000 65536 with Ok s => s | _ => buddy_empty end.

Definition one_live : N * BuddyBlock := Eval vm_compute in after_alloc 100 chunk16.
Definition two_live : N * BuddyBlock := Eval vm_compute in after_alloc 8192 one_live.2.

Lemma chunk16_fresh : fresh_chunk 0x200000 65536 chunk16.
Proof. unfold fresh_chunk. split_and!; [reflexivity|reflexivity|lia|vm_compute; reflexivity]. Qed.

Lemma one_live_reachable : reachable chunk16 one_live.2 {[one_live.1 := 100]}.
Proof.
  apply (reach_alloc _ chunk16 ∅); [constructor|unfold request_ok; lia|vm_compute; reflexivity].
Qed.

Lemma two_live_reachable :
  reachable chunk16 two_live.2 (<[two_live.1 := 8192]> {[one_live.1 := 100]}).
Proof.
  eapply (reach_alloc _ one_live.2); [apply one_live_reachable|unfold request_ok; lia|].
  vm_compute. reflexivity.
Qed.

Lemma live_ranges_disjoint_witness :
  one_live.1 + reserved 100 ≤ 0x200000 + 65536 ∧
  (one_live.1 + reserved 100 ≤ two_live.1 ∨ two_live.1 + reserved 8192 ≤ one_live.1).
Proof.
  destruct (live_ranges_disjoint 0x200000 65536 chunk16 two_live.2
    (<[two_live.1 := 8192]> {[one_live.1 := 100]}) chunk16_fresh two_live_reachable one_live.1 100) as [(_ & _ & _ & Hin) Hd];
    [reflexivity|]. split; [exact Hin|]. apply Hd; [reflexivity|discriminate].
Defined.

Lemma requests_never_panic_witness :
  (∀ len, request_ok len → ∃ r, alloc two_live.2 len = Ok r) ∧
  (∀ a len, (<[two_live.1 := 8192]> {[one_live.1 := 100]} : gmap N N) !! a = Some len →
    ∃ s', dealloc two_live.2 a len = Ok s').
Proof.
  exact (requests_never_panic 0x200000 65536 chunk16 two_live.2 _ chunk16_fresh two_live_reachable).
Defined.

(** Sixteen pages never fit: the chunk has fifteen, the eight first of which
    make the only block of eight. *)
Definition eight_live : N * BuddyBlock := Eval vm_compute in after_alloc 20000 chunk16.

Lemma eight_live_reachable : reachable chunk16 eight_live.2 {[eight_live.1 := 20000]}.
Proof.
  apply (reach_alloc _ chunk16 ∅); [constructor|unfold request_ok; lia|vm_compute; reflexivity].
Qed.

Lemma refused_only_if_full_witness :
  eight_live.2 = eight_live.2 ∧ ∃ a n, ({[eight_live.1 := 20000]} : gmap N N) !! a = Some n ∧
    a < data_start (info eight_live.2) + 0 * reserved 20000 + reserved 20000 ∧
    data_start (info eight_live.2) + 0 * reserved 20000 < a + reserved n.
Proof.
  apply (refused_only_if_full 0x200000 65536 chunk16 eight_live.2 {[eight_live.1 := 20000]}
    chunk16_fresh eight_live_reachable 20000 eight_live.2 0);
    [unfold request_ok; lia|vm_compute; reflexivity|vm_compute; discriminate].
Defined.



Lemma all_freed_restores_witness :
  ∃ s, dealloc one_live.2 one_live.1 100 = Ok s ∧ s = chunk16.
Proof.
  eexists. split; [vm_compute; reflexivity|].
  apply (all_freed_restores 0x200000 65536 chunk16); [apply chunk16_fresh|].
  apply (reach_dealloc _ _ {[one_live.1 := 100]} one_live.1 100 _ one_live_reachable);
    [reflexivity|vm_compute; reflexivity].
Defined.

(** Three pages are handed out and two buddies freed; freeing the second one
    again is the last case of the theorem. *)
Definition page_a : N * BuddyBlock := Eval vm_compute in after_alloc 4096 chunk16.
Definition page_b : N * BuddyBlock := Eval vm_compute in after_alloc 4096 page_a.2.
Definition page_c : N * BuddyBlock := Eval vm_compute in after_alloc 4096 page_b.2.
Definition after_dealloc (a len : N) (s : BuddyBlock) : BuddyBlock :=
  match dealloc (H:=num_integer_example) s a len with Ok s' => s' | _ => s end.
Definition freed_b : BuddyBlock := Eval vm_compute in after_dealloc page_b.1 4096 page_c.2.
Definition freed_c : BuddyBlock := Eval vm_compute in after_dealloc page_c.1 4096 freed_b.
Definition freed_b_live : gmap N N := delete page_b.1 (<[page_c.1 := 4096]> (<[page_b.1 := 4096]> {[page_a.1 := 4096]})).

Lemma freed_b_reachable : reachable chunk16 freed_b freed_b_live.
Proof.
  apply (reach_dealloc _ page_c.2 _ page_b.1 4096); [|vm_compute; reflexivity..].
  apply (reach_alloc _ page_b.2); [|unfold request_ok; lia|vm_compute; reflexivity].
  apply (reach_alloc _ page_a.2); [|unfold request_ok; lia|vm_compute; reflexivity].
  apply (reach_alloc _ chunk16 ∅); [constructor|unfold request_ok; lia|vm_compute; reflexivity].
Qed.

Lemma double_free_after_merge_witness :
  dealloc freed_b page_c.1 4096 = Ok freed_c ∧
  ∃ k i j, page_c.1 = block_addr (info freed_c) (k, i) ∧ k < j ∧
    ∃ s2, dealloc freed_c page_c.1 4096 = Ok s2 ∧ free s2 k i = true ∧ free s2 j (block_of j (i * 2 ^ k)) = true.
Proof.
  split; [vm_compute; reflexivity|].
  destruct (double_free_after_merge 0x200000 65536 chunk16 freed_b freed_b_live page_c.1 4096 freed_c
    chunk16_fresh freed_b_reachable) as (k & i & j & Ha & Hk & Hle & Hf & Heq & Hlt);
    [vm_compute; reflexivity|vm_compute; reflexivity|].
  assert (k < j) as Hkj.
  { apply N.le_neq. split; [exact Hle|]. intros He. specialize (Heq He). vm_compute in Heq. discriminate Heq. }
  specialize (Hlt Hkj). exists k, i, j. split; [exact Ha|]. split; [exact Hkj|].
  destruct (used freed_c <? aligned 4096) eqn:Hu; [vm_compute in Hu; discriminate Hu|exact Hlt].
Defined.

(** Then two of the next allocations overlap. *)
Lemma double_free_overlap :
  ∃ d e s6 s8, dealloc freed_c page_c.1 4096 = Ok s6 ∧
    (r4 ← alloc s6 8192; r5 ← alloc r4.2 4096; Ok (r4.1, r5.1, r5.2)) = Ok (Some d, Some e, s8) ∧
    d < e + 4096 ∧ e < d + 8192.
Proof.
  do 4 eexists. split; [vm_compute; reflexivity|].
  split; [vm_compute; reflexivity|]. split; vm_compute; reflexivity.
Qed.

End BuddySpec.
