(* ===== verification/BuddyTotal.v ===== *)
(** * The buddy allocator on any state: termination and types

    Two properties that need no invariant of the allocator.  Its loops end:
    the bounds on the iterations of the model are never reached, whatever
    state, address and length.  And what it stores fits the Rust types. *)
From S2P Require Import Prelude Totality Buddy BuddySpec.
Import Buddy.
Local Open Scope N_scope.

Module BuddyTotal.

(** ** Termination *)

Lemma bits_len_ends n : ends (bits_len n).
Proof. unfold bits_len. ends. Qed.
Lemma data_addr_ends i : ends (data_addr i).
Proof. apply ends_add. Qed.
Lemma data_len_ends i : ends (data_len i).
Proof. apply ends_sub. Qed.
#[local] Hint Resolve bits_len_ends data_addr_ends data_len_ends : fuel.

Lemma checked_add_inv w a b x : checked_add w a b = Ok x → x = a + b ∧ x < w.
Proof. unfold checked_add. destruct (N.ltb_spec (a + b) w); [|done]. by intros [= <-]. Qed.

Lemma half_lt n (f : nat) : n < 2 ^ N.of_nat (S f) → n / 2 < 2 ^ N.of_nat f.
Proof. rewrite Nat2N.inj_succ, N.pow_succ_r'. intros Hn. apply N.Div0.div_lt_upper_bound. lia. Qed.

Lemma chunk_loop_ends fuel lv b n : (0 < fuel)%nat → n < 2 ^ N.of_nat fuel → ends (chunk_loop fuel lv b n).
Proof.
  revert lv b n. induction fuel as [|fuel IH]; intros lv b n Hf Hn; [lia|]. cbn [chunk_loop]. ends.
  destruct fuel as [|fuel].
  - exfalso. change (2 ^ N.of_nat 1) with 2 in Hn. assert (n = 0 ∨ n = 1) as [->| ->] by lia; [|done].
    match goal with Hx : bits_len 0 = Ok _ |- _ => vm_compute in Hx; discriminate Hx end.
  - apply IH; [lia|]. by apply half_lt.
Qed.

Lemma from_chunk_ends addr len : ends (from_chunk addr len).
Proof.
  unfold from_chunk. ends.
  match goal with Hx : checked_add _ _ 1 = Ok _ |- _ => apply checked_add_inv in Hx as [_ Hx] end.
  by apply chunk_loop_ends; [lia|].
Qed.
#[local] Hint Resolve from_chunk_ends : fuel.

(** A byte out of range panics. *)
Lemma first_byte_ends fuel l i : (0 < fuel)%nat → (length l < fuel + N.to_nat i)%nat → ends (first_byte fuel l i).
Proof.
  revert i. induction fuel as [|fuel IH]; intros i H0 Hf; [lia|]. cbn [first_byte]. ends.
  match goal with Hx : vget _ _ = Ok _ |- _ => apply vget_inv, lookup_lt_Some in Hx end.
  match goal with Hx : checked_add _ _ _ = Ok _ |- _ => apply checked_add_inv in Hx as [-> _] end. apply IH; lia.
Qed.

Lemma first_offset_ends fuel b o : (0 < fuel)%nat → 8 < N.of_nat fuel + o → ends (first_offset fuel b o).
Proof.
  revert o. induction fuel as [|fuel IH]; intros o H0 Hf; [lia|]. cbn [first_offset].
  destruct (N.ltb_spec o 8); mred; [|done]. ends. apply IH; lia.
Qed.

Lemma index_loop_ends fuel size i : (0 < fuel)%nat → 64 < N.of_nat fuel + i → ends (index_loop fuel size i).
Proof.
  revert i. induction fuel as [|fuel IH]; intros i H0 Hf; [lia|]. cbn [index_loop].
  unfold checked_shl. destruct (N.ltb_spec i 64); mred; [|done]. ends.
  match goal with Hx : checked_add _ _ _ = Ok _ |- _ => apply checked_add_inv in Hx as [-> _] end. apply IH; lia.
Qed.

Lemma index_for_size_ends size : ends (bitmap_index_for_size size).
Proof. apply index_loop_ends; lia. Qed.

Lemma new_loop_ends fuel bs tb n b i : (0 < fuel)%nat → n < 2 ^ N.of_nat fuel → ends (new_loop fuel bs tb n b i).
Proof.
  revert bs tb n b i. induction fuel as [|fuel IH]; intros bs tb n b i H0 Hn; [lia|]. cbn [new_loop]. ends.
  apply half_lt in Hn. match goal with Hx : (n / 2 =? 0) = false |- _ => apply N.eqb_neq in Hx end.
  apply IH; [|done]. destruct fuel; [|lia]. change (2 ^ N.of_nat 0) with 1 in Hn. lia.
Qed.

Lemma first_1_ends r : ends (first_1 r).
Proof. unfold first_1. ends; [apply first_byte_ends; lia|apply first_offset_ends; lia]. Qed.
#[local] Hint Resolve index_for_size_ends first_1_ends : fuel.

Section with_num_integer.
Context `{NumInteger}.

Lemma info_new_ends a l : ends (info_new a l).
Proof. unfold info_new. ends. Qed.
#[local] Hint Resolve info_new_ends : fuel.

Lemma get_bits_ends s i : ends (get_bits s i).
Proof. unfold get_bits. ends. Qed.
Lemma ref_get_ends r i : ends (ref_get r i).
Proof. unfold ref_get. ends. Qed.
#[local] Hint Resolve get_bits_ends ref_get_ends : fuel.
Lemma set_1_ends r i : ends (set_1 r i).
Proof. unfold set_1. ends. Qed.
Lemma set_0_ends r i : ends (set_0 r i).
Proof. unfold set_0. ends. Qed.
#[local] Hint Resolve set_1_ends set_0_ends : fuel.

Lemma assume_init_ends {A} (l : list (option A)) : ends (assume_init l).
Proof. unfold assume_init. by case_match. Qed.
Lemma from_raw_parts_ends data size align n : ends (from_raw_parts_mut data size align n).
Proof. unfold from_raw_parts_mut. ends. Qed.
#[local] Hint Resolve assume_init_ends from_raw_parts_ends : fuel.

Lemma chunk_loop_inv fuel lv b n lv' b' : chunk_loop fuel lv b n = Ok (lv', b') → lv' < W32 ∧ b' < W64.
Proof.
  revert lv b n. induction fuel as [|fuel IH]; intros lv b n; cbn [chunk_loop]; [done|]. intros Hr. repeat minv_step Hr.
  repeat match goal with Hx : checked_add _ _ _ = Ok _ |- _ => apply checked_add_inv in Hx as [_ Hx] end.
  destruct (n =? 1); [|by eapply IH]. by injection Hr as <- <-.
Qed.

Lemma from_chunk_inv a l i :
  from_chunk a l = Ok i →
  raw_addr i = a ∧ total_len i = l ∧ data_offset i = 0 ∧ units i < W64 ∧ levels i < W32 ∧ metadata_len i < W64.
Proof.
  unfold from_chunk. intros Hr. repeat minv_step Hr.
  match goal with Hx : chunk_loop _ _ _ _ = Ok ?x |- _ => destruct x as [lv b]; apply chunk_loop_inv in Hx as [Hlv Hb] end.
  repeat minv_step Hr. subst i. cbn. split_and!; try done;
    match goal with Hx : checked_add _ _ _ = Ok ?x |- ?x < _ => by apply checked_add_inv in Hx as [_ Hx] end.
Qed.

Lemma info_new_inv a l i :
  info_new a l = Ok i → raw_addr i = a ∧ total_len i = l ∧ data_offset i < W64 ∧ units i < W64 ∧ levels i < W32 ∧ metadata_len i < W64.
Proof.
  unfold info_new. intros Hr. repeat minv_step Hr. subst i. cbn.
  repeat match goal with Hx : from_chunk _ _ = Ok _ |- _ => apply from_chunk_inv in Hx as (? & ? & ? & ? & ? & ?) end.
  split_and!; try done. match goal with Hx : checked_mul _ _ _ = Ok ?x |- ?x < _ => revert Hx; unfold checked_mul end.
  case_match eqn:Hm; [|done]. intros [= <-]. by apply N.ltb_lt.
Qed.

Lemma new_ends a l : ends (buddy_new a l).
Proof.
  unfold buddy_new. ends. apply new_loop_ends; [lia|].
  match goal with Hx : info_new _ _ = Ok _ |- _ => by apply info_new_inv in Hx as (_ & _ & _ & Hx & _) end.
Qed.

Lemma split_step_ends j st : ends (split_step j st).
Proof. unfold split_step. ends. Qed.
Lemma alloc_loop_ends l fit len s : ends (alloc_loop l fit len s).
Proof.
  revert s. induction l as [|i l IH]; intros s; cbn [alloc_loop]; [done|]. ends.
  apply ends_for_each. intros j st. apply split_step_ends.
Qed.
Lemma alloc_ends s len : ends (alloc s len).
Proof. unfold alloc. ends. apply alloc_loop_ends. Qed.

Lemma put_bits_length s i r : length (bitmaps (put_bits s i r)) = length (bitmaps s).
Proof. unfold put_bits. destruct (_ !! _); [|done]. cbn [bitmaps]. apply length_insert. Qed.

Lemma merge_loop_ends fuel s b c :
  (0 < fuel)%nat → (length (bitmaps s) < fuel + N.to_nat c)%nat → ends (merge_loop fuel s b c).
Proof.
  revert s b c. induction fuel as [|fuel IH]; intros s b c H0 Hf; [lia|]. cbn [merge_loop]. ends.
  match goal with Hx : checked_add _ c _ = Ok _ |- _ => apply checked_add_inv in Hx as [-> _] end.
  match goal with Hx : (bitmap_len s <=? _) = false |- _ => apply N.leb_gt in Hx; unfold bitmap_len, vlen in Hx end.
  apply IH; rewrite ?put_bits_length; lia.
Qed.

Lemma dealloc_ends s a len : ends (dealloc s a len).
Proof. unfold dealloc. ends. apply merge_loop_ends; lia. Qed.

(** The loops of the allocator end on every input: whatever the chunk,
    the state and the request, valid or not, construction, allocation and
    deallocation return or panic as the code does, and never for want of
    iterations. *)
Lemma buddy_terminates s raw total addr len :
  ends (buddy_new raw total) ∧ ends (alloc s len) ∧ ends (dealloc s addr len).
Proof. split_and!; [apply new_ends|apply alloc_ends|apply dealloc_ends]. Qed.

(** ** Types *)
Definition bitmap_typed (b : BlockBitmap) : Prop := bits_ptr b < W64 ∧ bitmap_count b < W64.
Definition byte_typed (b : N) : Prop := b < 256.

Record info_typed (i : BuddyBlockInfo) : Prop := {
  it_raw : raw_addr i < W64;
  it_total : total_len i < W64;
  it_metadata : metadata_len i < W64;
  it_offset : data_offset i < W64;
  it_units : units i < W64;
  it_levels : levels i < W32;
}.

Record well_typed (s : BuddyBlock) : Prop := {
  wt_info : info_typed (info s);
  wt_used : used s < W64;
  wt_bitmaps : Forall bitmap_typed (bitmaps s);
  wt_bytes : Forall byte_typed (total_bits s);
}.
Definition ref_typed (r : BlockBitmapRef) : Prop := Forall byte_typed (bits r) ∧ count r < W64.

Lemma get_bits_typed s i r : well_typed s → get_bits s i = Ok r → ref_typed r.
Proof.
  intros [_ _ Hb Hy]. unfold get_bits. intros Hr. repeat minv_step Hr. subst r. split; cbn [bits count].
  - by apply Forall_take, Forall_drop.
  - match goal with Hx : vget (bitmaps s) _ = Ok _ |- _ => apply vget_inv in Hx; apply (Forall_lookup_1 _ _ _ _ Hb) in Hx as [_ Hx] end. done.
Qed.

Lemma lor_byte b k : b < 256 → N.lor b (N.shiftl 1 (k mod 8)) < 256.
Proof.
  intros Hb. change 256 with (2 ^ 8) in *. destruct (N.eq_dec (N.lor b (N.shiftl 1 (k mod 8))) 0) as [->|Hne]; [done|].
  apply N.log2_lt_pow2; [lia|]. rewrite N.log2_lor. apply N.max_lub_lt.
  - destruct (N.eq_dec b 0) as [->|]; [done|]. apply N.log2_lt_pow2; lia.
  - rewrite N.shiftl_1_l, N.log2_pow2 by lia. apply N.mod_lt. done.
Qed.
Lemma land_byte b m : b < 256 → N.land b m < 256.
Proof.
  intros Hb. change 256 with (2 ^ 8) in *. destruct (N.eq_dec (N.land b m) 0) as [->|Hne]; [done|].
  apply N.log2_lt_pow2; [lia|]. pose proof (N.log2_land b m). assert (b ≠ 0) by (intros ->; by rewrite N.land_0_l in Hne).
  assert (N.log2 b < 8) by (apply N.log2_lt_pow2; lia). lia.
Qed.

Lemma vset_typed {A} (P : A → Prop) l i x l' : Forall P l → P x → vset l i x = Ok l' → Forall P l'.
Proof. unfold vset. intros Hl Hx. case_match; [|done]. intros [= <-]. by apply Forall_insert. Qed.

Lemma checked_sub_inv a b x : checked_sub a b = Ok x → x = a - b ∧ b ≤ a.
Proof. unfold checked_sub. destruct (N.leb_spec b a); [|done]. by intros [= <-]. Qed.

Lemma set_1_typed r i r' : ref_typed r → set_1 r i = Ok r' → ref_typed r'.
Proof.
  intros [Hb Hc]. unfold set_1. intros Hr. repeat minv_step Hr. subst r'. split; cbn [bits count].
  - eapply vset_typed; [exact Hb| |eassumption]. apply lor_byte.
    match goal with Hx : vget (bits r) _ = Ok _ |- _ => apply vget_inv in Hx; by apply (Forall_lookup_1 _ _ _ _ Hb) in Hx end.
  - match goal with Hx : (if _ then _ else _) = Ok _ |- _ => revert Hx end. case_match; [|by intros [= <-]].
    by intros [_ ?]%checked_add_inv.
Qed.
Lemma set_0_typed r i r' : ref_typed r → set_0 r i = Ok r' → ref_typed r'.
Proof.
  intros [Hb Hc]. unfold set_0. intros Hr. repeat minv_step Hr. subst r'. split; cbn [bits count].
  - eapply vset_typed; [exact Hb| |eassumption]. apply land_byte.
    match goal with Hx : vget (bits r) _ = Ok _ |- _ => apply vget_inv in Hx; by apply (Forall_lookup_1 _ _ _ _ Hb) in Hx end.
  - match goal with Hx : (if _ then _ else _) = Ok _ |- _ => revert Hx end. case_match; [|by intros [= <-]].
    intros [-> ?]%checked_sub_inv. lia.
Qed.

Lemma put_bits_typed s i r : well_typed s → ref_typed r → well_typed (put_bits s i r).
Proof.
  intros [Hi Hu Hb Hy] [Hrb Hrc]. unfold put_bits. destruct (bitmaps s !! N.to_nat i) as [b|] eqn:He; [|by split].
  split; cbn; try done; [|by apply Forall_splice].
  apply Forall_insert; [done|]. split; [|done]. by apply (Forall_lookup_1 _ _ _ _ Hb) in He as [? _].
Qed.

(** The slice of bitmaps while it is written. *)
Definition slot_typed (o : option BlockBitmap) : Prop := match o with Some b => bitmap_typed b | None => True end.

Lemma new_loop_typed fuel bs tb n p i bs' tb' p' i' :
  Forall slot_typed bs → Forall byte_typed tb → p < W64 →
  new_loop fuel bs tb n p i = Ok (bs', tb', p', i') → Forall slot_typed bs' ∧ Forall byte_typed tb'.
Proof.
  revert bs tb n p i. induction fuel as [|fuel IH]; intros bs tb n p i Hbs Htb Hp; cbn [new_loop]; [done|].
  intros Hr. mpeel Hr.
  match goal with Hx : (if negb _ then _ else _) = Ok ?x |- _ => rename Hx into Hlast; destruct x as [tb1 c] end.
  assert (Forall byte_typed tb1 ∧ c < W64) as [Htb1 Hc].
  { revert Hlast. destruct (negb _); [|by intros [= <- <-]]. intros Hl. mpeel Hl. injection Hl as <- <-.
    split; [|done]. eapply vset_typed; [exact Htb| |eassumption]. unfold byte_typed. by apply N.mod_lt. }
  mpeel Hr.
  match goal with Hx : vset bs _ _ = Ok _ |- _ => apply (vset_typed slot_typed) in Hx; [|done|done] end.
  repeat match goal with Hx : checked_add _ _ _ = Ok _ |- _ => apply checked_add_inv in Hx as [_ Hx] end.
  destruct (n / 2 =? 0); [by injection Hr as <- <- _ _|]. by eapply IH in Hr.
Qed.

Lemma assume_init_typed l l' : Forall slot_typed l → assume_init l = Ok l' → Forall bitmap_typed l'.
Proof.
  unfold assume_init. intros Hl. destruct (mapM _ l) as [l1|] eqn:Hm; [|done]. intros [= <-].
  apply mapM_Some_1 in Hm. revert Hl. induction Hm as [|o b l l1 Ho Hm IH]; intros Hl; [done|].
  inversion Hl; subst. constructor; auto.
Qed.

Lemma split_step_typed j s b s' b' : well_typed s → split_step j (s, b) = Ok (s', b') → well_typed s'.
Proof.
  intros Hs. unfold split_step. intros Hr. mpeel Hr. injection Hr as <- _.
  eauto using put_bits_typed, set_1_typed, get_bits_typed.
Qed.

Lemma splits_typed l s b s' b' : well_typed s → for_each l split_step (s, b) = Ok (s', b') → well_typed s'.
Proof.
  revert s b. induction l as [|j l IH]; intros s b Hs; cbn [for_each]; [by intros [= <- <-]|].
  destruct (split_step j (s, b)) as [[s1 b1]|] eqn:Hj; mred; [|done]. intros Hr. eapply IH; [|exact Hr].
  by eapply split_step_typed.
Qed.

Lemma alloc_loop_typed l fit len s r s' :
  well_typed s → alloc_loop l fit len s = Ok (r, s') → well_typed s' ∧ match r with Some a => a < W64 | None => True end.
Proof.
  revert s. induction l as [|i l IH]; intros s Hs; cbn [alloc_loop]; [by intros [= <- <-]|].
  destruct (get_bits s i) as [b|] eqn:Hb; mred; [|done]. destruct (ref_empty b); [by apply IH|].
  destruct (first_1 b) as [k|]; mred; [|done]. destruct (set_0 b k) as [b1|] eqn:Hb1; mred; [|done].
  destruct (for_each _ _ _) as [[s1 k1]|] eqn:Hf; mred; [|done]. intros Hr. mpeel Hr. injection Hr as <- <-.
  repeat match goal with Hx : checked_add _ _ _ = Ok _ |- _ => apply checked_add_inv in Hx as [_ Hx] end.
  apply splits_typed in Hf as [? _ ? ?]; [|by eauto using put_bits_typed, set_0_typed, get_bits_typed].
  split; [by split|done].
Qed.

Lemma merge_loop_typed fuel s b c s' : well_typed s → merge_loop fuel s b c = Ok s' → well_typed s'.
Proof.
  revert s b c. induction fuel as [|fuel IH]; intros s b c Hs; cbn [merge_loop]; [done|].
  destruct (get_bits s c) as [r|] eqn:Hg; mred; [|done]. destruct (ref_get r b); mred; [|done].
  destruct (assert _); mred; [|done]. destruct (set_1 r b) as [r1|] eqn:H1; mred; [|done].
  assert (ref_typed r1) as Hr1 by eauto using set_1_typed, get_bits_typed.
  destruct (ref_get r1 _) as [[]|]; mred; [|intros [= <-]; by apply put_bits_typed|done].
  destruct (checked_add _ _ _); mred; [|done]. destruct (_ <=? _); [intros [= <-]; by apply put_bits_typed|].
  destruct (set_0 r1 _) as [r2|] eqn:H2; mred; [|done]. destruct (set_0 r2 _) as [r3|] eqn:H3; mred; [|done].
  apply IH. eauto using put_bits_typed, set_0_typed.
Qed.

(** C28: the allocator stores nothing but values of their Rust types: the
    state that [new] makes of machine words is well typed, and [alloc] and
    [dealloc] keep any well-typed state so and return machine words,
    whatever the request. *)
Theorem buddy_typed s raw total addr len :
  well_typed s →
  (∀ s', raw < W64 → total < W64 → buddy_new raw total = Ok s' → well_typed s') ∧
  (∀ r s', alloc s len = Ok (r, s') → well_typed s' ∧ match r with Some a => a < W64 | None => True end) ∧
  (∀ s', dealloc s addr len = Ok s' → well_typed s').
Proof.
  intros Hs. split_and!.
  - intros s' Hra Hto. unfold buddy_new. intros Hr. mpeel Hr.
    match goal with Hx : info_new _ _ = Ok ?i |- _ => apply info_new_inv in Hx as (? & ? & ? & ? & ? & ?) end.
    match goal with Hx : new_loop _ _ _ _ _ _ = Ok ?x |- _ => destruct x as [[[bs tb] p] i'];
      apply new_loop_typed in Hx as [Hbs Htb]; [| | |done] end.
    + mpeel Hr. injection Hr as <-. split; cbn; [split; congruence|done| |done]. by eapply assume_init_typed.
    + by apply Forall_replicate.
    + by apply Forall_replicate.
  - intros r s'. unfold alloc. intros Hr. mpeel Hr.
    destruct (_ <=? _); [by injection Hr as <- <-|]. by eapply alloc_loop_typed.
  - intros s'. unfold dealloc. destruct (len =? 0); [by intros [= <-]|]. intros Hr. mpeel Hr. injection Hr as <-.
    match goal with Hx : merge_loop _ _ _ _ = Ok _ |- _ => apply merge_loop_typed in Hx as [? Hu ? ?]; [|done] end.
    match goal with Hx : checked_sub (used _) _ = Ok _ |- _ => apply checked_sub_inv in Hx as [-> _] end.
    split; cbn; try done. lia.
Qed.
End with_num_integer.

(** ** An example: sixteen pages *)
Lemma chunk16_typed : well_typed BuddySpec.chunk16.
Proof. split; [split; vm_compute; reflexivity|vm_compute; reflexivity|repeat constructor|repeat constructor]. Qed.

Lemma buddy_typed_witness :
  well_typed BuddySpec.chunk16 ∧ ∃ a s', alloc BuddySpec.chunk16 100 = Ok (Some a, s') ∧ well_typed s' ∧ a < W64.
Proof.
  split; [exact chunk16_typed|].
  destruct (alloc BuddySpec.chunk16 100) as [[[a|] s']|] eqn:Ha; [|vm_compute in Ha; discriminate Ha|vm_compute in Ha; discriminate Ha].
  destruct (buddy_typed BuddySpec.chunk16 0 0 0 100 chunk16_typed) as (_ & Hal & _).
  exists a, s'. split; [reflexivity|]. exact (Hal (Some a) s' Ha).
Defined.

End BuddyTotal.
