(* ===== verification/Slab.v ===== *)
(** * The slab allocator of [slab_alloc/src/lib.rs]: data and operations

    A page obtained from a [PageAllocator] starts with a [SlotPage] header and
    continues with [SlotObject]s: magic number, free-list link, a red zone,
    the payload of type [T], and a second red zone.  Pages with a free slot
    are on a doubly linked list.

    Memory is typed by what the code stores there: [links] has the [PageLink]
    at an address, [pages] the rest of the [SlotPage] whose link is there (the
    struct is [repr(C)], so both have the page's address), and a page has its
    objects by offset.  A dereference of an address that holds no such value
    is [Panic UB]. *)
From stdpp Require Import gmap.
From S2P Require Import Prelude.
Local Open Scope checked_scope.

Module Slab.

(** ** Constants and layout *)
Definition PAGE_SIZE : N := 4096.
Definition REDZONE_SIZE : N := 16.
Definition EMPTY_MAGIC : N := 0x3a49.
Definition OBJECT_MAGIC : N := 0x6b5c.
Definition REDZONE_FILL : N := 0xf1.
Definition UNUSED_FILL : N := 0xf2.

(** What the compiler knows of the type parameter [T]. *)
Record TypeLayout := mkT { size_of_T : N; align_of_T : N }.

(** [size_of] and [align_of] of the structs: two [u16]; two pointers and two [u16]. *)
Definition SLOT_OBJECT_SIZE : N := 4.
Definition SLOT_OBJECT_ALIGN : N := 2.
Definition SLOT_PAGE_SIZE : N := 24.

(** The functions below are [const fn]s: an overflow in them is a compile-time
    error, not a panic. *)
Definition align_ceil (x align : N) : N :=
  let mask := (align - 1)%N in N.land (x + mask) (N.lnot mask 64).

Section layout.
Context (T : TypeLayout).

Definition object_align_of : N :=
  let a := SLOT_OBJECT_ALIGN in
  let b := align_of_T T in
  if (b <? a)%N then a else b.
Definition redzone1_offset : N := SLOT_OBJECT_SIZE.
Definition payload_offset : N := align_ceil (redzone1_offset + REDZONE_SIZE) (align_of_T T).
Definition redzone1_size : N := (payload_offset - redzone1_offset)%N.
Definition redzone2_offset : N := (payload_offset + size_of_T T)%N.
Definition object_size_of : N := align_ceil (redzone2_offset + REDZONE_SIZE) object_align_of.
Definition redzone2_size : N := (object_size_of - redzone2_offset)%N.
Definition object_offset : N := align_ceil SLOT_PAGE_SIZE object_align_of.

(** [SIZE_ASSERT]: checked when [SlabAllocator::<T, _>::new] is compiled. *)
Definition SIZE_ASSERT : bool := (object_offset + object_size_of <=? PAGE_SIZE)%N.
End layout.

(** ** Memory *)

(** The bytes of an object after its two fields: red zone, payload, red zone. *)
Record SlotObject := mkObj {
  magic : N; next : N; redzone1 : list N; payload : list N; redzone2 : list N;
}.
Record PageLink := mkLink { link_next : N; link_prev : N }.
Record PageList := mkList { head : N; tail : N }.
Record SlotPage := mkPage { free_index : N; alloc_count : N; objects : gmap N SlotObject }.

Record mem := mkMem { links : gmap N PageLink; pages : gmap N SlotPage }.

Definition deref {A} (o : option A) : result A :=
  match o with Some x => Ok x | None => Panic UB end.

Definition set_link (p : N) (l : PageLink) (m : mem) : mem := mkMem (<[p := l]> (links m)) (pages m).
Definition set_page (p : N) (g : SlotPage) (m : mem) : mem := mkMem (links m) (<[p := g]> (pages m)).

(** The page of an address, and the offset in it. *)
Definition page_from_object (raw : N) : N := N.land raw (N.lnot (PAGE_SIZE - 1) 64).
Definition load_obj (m : mem) (addr : N) : result SlotObject :=
  g ← deref (pages m !! page_from_object addr);
  deref (objects g !! (addr - page_from_object addr)%N).
Definition store_obj (addr : N) (o : SlotObject) (m : mem) : result mem :=
  g ← deref (pages m !! page_from_object addr);
  deref (objects g !! (addr - page_from_object addr)%N);;
  Ok (set_page (page_from_object addr)
        (mkPage (free_index g) (alloc_count g)
           (<[(addr - page_from_object addr)%N := o]> (objects g))) m).

(** ** [SlotObject] *)
Definition write_bytes (b n : N) : list N := replicate (N.to_nat n) b.

Section object.
Context (T : TypeLayout).

Definition obj_init : SlotObject :=
  mkObj EMPTY_MAGIC 0 (write_bytes REDZONE_FILL (redzone1_size T))
    (write_bytes UNUSED_FILL (size_of_T T)) (write_bytes REDZONE_FILL (redzone2_size T)).

Definition check_redzone (o : SlotObject) : bool :=
  forallb (λ b, b =? REDZONE_FILL)%N (redzone1 o) && forallb (λ b, b =? REDZONE_FILL)%N (redzone2 o).

Definition check_unused (o : SlotObject) : bool :=
  forallb (λ b, b =? UNUSED_FILL)%N (payload o).

Definition write_unused (b : N) (o : SlotObject) : SlotObject :=
  mkObj (magic o) (next o) (redzone1 o) (write_bytes b (size_of_T T)) (redzone2 o).

Definition set_magic (n : N) (o : SlotObject) : SlotObject :=
  mkObj n (next o) (redzone1 o) (payload o) (redzone2 o).
Definition set_next (n : N) (o : SlotObject) : SlotObject :=
  mkObj (magic o) n (redzone1 o) (payload o) (redzone2 o).

Definition payload_addr (obj : N) : result N := obj +! payload_offset T.

Definition on_alloc (o : SlotObject) : result SlotObject :=
  assert ((magic o =? EMPTY_MAGIC)%N && (next o =? 0)%N);;
  assert (check_redzone o);;
  assert (check_unused o);;
  Ok (write_unused 0 (set_magic OBJECT_MAGIC o)).

Definition on_dealloc (o : SlotObject) : result SlotObject :=
  assert ((magic o =? OBJECT_MAGIC)%N && (next o =? 0)%N);;
  assert (check_redzone o);;
  Ok (write_unused UNUSED_FILL (set_magic EMPTY_MAGIC o)).
End object.

(** ** [PageLink] and [PageList]: [null] is address 0 *)
Definition link_null : PageLink := mkLink 0 0.
Definition list_new : PageList := mkList 0 0.

Definition assign_singleton (l : PageList) (link : N) (m : mem) : result (PageList * mem) :=
  deref (links m !! link);;
  Ok (mkList link link, set_link link (mkLink 0 0) m).

Definition push_back (l : PageList) (link : N) (m : mem) : result (PageList * mem) :=
  deref (links m !! link);;
  let m := set_link link (mkLink 0 (tail l)) m in
  '(l, m) ← (if negb (tail l =? 0)%N then
               t ← deref (links m !! tail l);
               Ok (l, set_link (tail l) (mkLink link (link_prev t)) m)
             else if (head l =? 0)%N then Ok (mkList link (tail l), m)
             else Ok (l, m));
  Ok (mkList (head l) link, m).

Definition remove (l : PageList) (link : N) (m : mem) : result (PageList * mem) :=
  k ← deref (links m !! link);
  '(l, m) ← (if (link_prev k =? 0)%N then Ok (mkList (link_next k) (tail l), m)
             else
               p ← deref (links m !! link_prev k);
               Ok (l, set_link (link_prev k) (mkLink (link_next k) (link_prev p)) m));
  k ← deref (links m !! link);
  '(l, m) ← (if (link_next k =? 0)%N then Ok (mkList (head l) (link_prev k), m)
             else
               n ← deref (links m !! link_next k);
               Ok (l, set_link (link_next k) (mkLink (link_next n) (link_prev k)) m));
  Ok (l, set_link link (mkLink 0 0) m).

(** ** [SlotPage] *)
Section page.
Context (T : TypeLayout).

(** The loop of [SlotPage::init].  An object takes at least 36 bytes, so a
    page has less than 128.  Writing an object past the page is undefined. *)
Fixpoint init_loop (fuel : nat) (addr offset : N) (objs : gmap N SlotObject)
    : result (gmap N SlotObject) :=
  match fuel with
  | O => Panic OutOfFuel
  | S fuel =>
      obj_addr ← addr +! offset;
      let obj_size := object_size_of T in
      next_offset ← offset +! obj_size;
      (if (next_offset <=? PAGE_SIZE)%N then Ok () else Panic UB);;
      let obj := obj_init T in
      e ← next_offset +! obj_size;
      if (e <? PAGE_SIZE)%N then
        init_loop fuel addr next_offset (<[offset := set_next (next_offset mod W16)%N obj]> objs)
      else Ok (<[offset := set_next 0 obj]> objs)
  end.

Definition page_init (addr : N) (m : mem) : result mem :=
  let offset := object_offset T in
  objs ← init_loop 128 addr offset ∅;
  Ok (set_page addr (mkPage (offset mod W16)%N 0 objs) (set_link addr link_null m)).

Definition pop_front_object (page_addr : N) (m : mem) : result (N * bool * mem) :=
  g ← deref (pages m !! page_addr);
  assert (negb (free_index g =? 0)%N);;
  obj_addr ← page_addr +! free_index g;
  o ← load_obj m obj_addr;
  let '(free_index, full) := if (next o =? 0)%N then (0%N, true) else (next o, false) in
  let m := set_page page_addr (mkPage free_index (alloc_count g) (objects g)) m in
  m ← store_obj obj_addr (set_next 0 o) m;
  g ← deref (pages m !! page_addr);
  c ← checked_add W16 (alloc_count g) 1;
  Ok (obj_addr, full, set_page page_addr (mkPage free_index c (objects g)) m).

Definition push_front_object (page_addr obj_addr : N) (m : mem) : result mem :=
  g ← deref (pages m !! page_addr);
  o ← load_obj m obj_addr;
  m ← store_obj obj_addr (set_next (free_index g) o) m;
  d ← obj_addr -! page_addr;
  g ← deref (pages m !! page_addr);
  c ← alloc_count g -! 1;
  Ok (set_page page_addr (mkPage (d mod W16)%N c (objects g)) m).
End page.

(** ** [PageAllocator] and [SlabAllocator] *)

(** The trait's operations; the contract is [PageAllocatorOk] below. *)
Class PageAllocator (PA : Type) := {
  allocate : PA → result (option N * PA);
  deallocate : PA → N → result PA;
}.

Record SlabAllocator (PA : Type) := mkSlab { partial_list : PageList; page_allocator : PA }.
Arguments mkSlab {PA}.
Arguments partial_list {PA}.
Arguments page_allocator {PA}.

Section slab.
Context `{PageAllocator PA} (T : TypeLayout).

Definition slab_new (pa : PA) : SlabAllocator PA := mkSlab list_new pa.

Definition alloc_page (s : SlabAllocator PA) (m : mem)
    : result (option unit * SlabAllocator PA * mem) :=
  '(page_ptr, pa) ← allocate (page_allocator s);
  match page_ptr with
  | None => Ok (None, mkSlab (partial_list s) pa, m)
  | Some page_addr =>
      m ← page_init T page_addr m;
      '(l, m) ← assign_singleton (partial_list s) page_addr m;
      Ok (Some (), mkSlab l pa, m)
  end.

(** [alloc] after the list is known to have a page. *)
Definition alloc_from_head (s : SlabAllocator PA) (m : mem)
    : result (option N * SlabAllocator PA * mem) :=
  let page := head (partial_list s) in
  '(obj, full, m) ← pop_front_object page m;
  '(l, m) ← (if (full : bool) then remove (partial_list s) page m else Ok (partial_list s, m));
  o ← load_obj m obj;
  o ← on_alloc T o;
  m ← store_obj obj o m;
  ptr ← payload_addr T obj;
  Ok (Some ptr, mkSlab l (page_allocator s), m).

Definition alloc (s : SlabAllocator PA) (m : mem)
    : result (option N * SlabAllocator PA * mem) :=
  if (head (partial_list s) =? 0)%N then
    '(r, s, m) ← alloc_page s m;
    match r with
    | None => Ok (None, s, m)
    | Some _ => alloc_from_head s m
    end
  else alloc_from_head s m.

(** A page given back is no longer the allocator's memory. *)
Definition forget_page (p : N) (m : mem) : mem := mkMem (delete p (links m)) (delete p (pages m)).

Definition dealloc (s : SlabAllocator PA) (m : mem) (ptr : N) : result (SlabAllocator PA * mem) :=
  obj ← ptr -! payload_offset T;
  o ← load_obj m obj;
  o ← on_dealloc T o;
  m ← store_obj obj o m;
  let page := page_from_object obj in
  g ← deref (pages m !! page);
  let was_full := (free_index g =? 0)%N in
  m ← push_front_object page obj m;
  g ← deref (pages m !! page);
  if (alloc_count g =? 0)%N then
    '(l, m) ← (if negb was_full then remove (partial_list s) page m else Ok (partial_list s, m));
    pa ← deallocate (page_allocator s) page;
    Ok (mkSlab l pa, forget_page page m)
  else if was_full then
    '(l, m) ← push_back (partial_list s) page m;
    Ok (mkSlab l (page_allocator s), m)
  else Ok (s, m).
End slab.

(** ** The contract of [PageAllocator]

    [owns pa O]: the pages [O] are handed out.  A page is aligned, not null,
    within the address space, and not handed out twice; only a page handed
    out is given back. *)
Class PageAllocatorOk (PA : Type) `{PageAllocator PA} := {
  owns : PA → gset N → Prop;
  allocate_ok pa O : owns pa O → ∃ r pa', allocate pa = Ok (r, pa') ∧
    match r with
    | None => owns pa' O
    | Some p => (p ∉ O) ∧ owns pa' ({[p]} ∪ O) ∧
        (p mod 4096 = 0 ∧ p ≠ 0 ∧ p + 4096 ≤ W64)%N
    end;
  deallocate_ok pa O p :
    owns pa O → p ∈ O → ∃ pa', deallocate pa p = Ok pa' ∧ owns pa' (O ∖ {[p]});
}.

End Slab.
