(* ===== verification/SlabList.v ===== *)
(** * The list of pages of the slab allocator

    [PageList] is a doubly linked list through the [PageLink]s.  [dll m l xs]
    says that [l] is the list of the links at the addresses [xs], in this
    order; [push_back], [remove] and [assign_singleton] are shown to be the
    operations on [xs] their names say, in any sequence from the empty list on,
    and to touch no other link. *)
From stdpp Require Import gmap.
From S2P Require Import Prelude Slab.
Import Slab.
Local Open Scope N_scope.

Module SlabList.

(** The address of the first and of the last link, with the neighbour beyond. *)
Definition first_of (n : N) (xs : list N) : N := default n (hd_error xs).
Definition last_of (p : N) (xs : list N) : N := default p (list.last xs).

(** A segment: the links [xs] point to each other, the first one back to [p]
    and the last one on to [n]. *)
Fixpoint seg (lk : gmap N PageLink) (p : N) (xs : list N) (n : N) : Prop :=
  match xs with
  | [] => True
  | x :: xs => lk !! x = Some (mkLink (first_of n xs) p) ∧ seg lk x xs n
  end.

Record dll (lk : gmap N PageLink) (l : PageList) (xs : list N) : Prop := {
  dll_seg : seg lk 0 xs 0;
  dll_head : head l = first_of 0 xs;
  dll_tail : tail l = last_of 0 xs;
  dll_nodup : NoDup xs;
  dll_null : 0 ∉ xs;
}.

Lemma last_of_app p xs ys : last_of p (xs ++ ys) = last_of (last_of p xs) ys.
Proof.
  unfold last_of. rewrite last_app. destruct (list.last ys); [done|]. by destruct (list.last xs).
Qed.
Lemma last_of_cons p x xs : last_of p (x :: xs) = last_of x xs.
Proof. unfold last_of. rewrite last_cons. by destruct (list.last xs). Qed.
Lemma last_of_snoc p xs x : last_of p (xs ++ [x]) = x.
Proof. by rewrite last_of_app. Qed.
Lemma first_of_app n xs ys : first_of n (xs ++ ys) = first_of (first_of n ys) xs.
Proof. by destruct xs. Qed.

Lemma seg_app lk p xs ys n :
  seg lk p (xs ++ ys) n ↔ seg lk p xs (first_of n ys) ∧ seg lk (last_of p xs) ys n.
Proof.
  revert p. induction xs as [|x xs IH]; intros p; simpl; [naive_solver|].
  rewrite first_of_app, IH, last_of_cons. naive_solver.
Qed.

Lemma seg_frame lk p xs n a k : a ∉ xs → seg lk p xs n → seg (<[a := k]> lk) p xs n.
Proof.
  revert p. induction xs as [|x xs IH]; intros p Ha; simpl; [done|].
  rewrite not_elem_of_cons in Ha. destruct Ha as [Hax Ha]. intros [Hx Hs].
  rewrite lookup_insert_ne by done. auto.
Qed.

Lemma seg_delete lk p xs n a : a ∉ xs → seg lk p xs n → seg (delete a lk) p xs n.
Proof.
  revert p. induction xs as [|x xs IH]; intros p Ha; simpl; [done|].
  rewrite not_elem_of_cons in Ha. destruct Ha as [Hax Ha]. intros [Hx Hs].
  rewrite lookup_delete_ne by done. auto.
Qed.

Lemma seg_lookup lk p xs n x : seg lk p xs n → x ∈ xs → is_Some (lk !! x).
Proof.
  revert p. induction xs as [|y xs IH]; intros p Hs Hx; [by apply not_elem_of_nil in Hx|].
  destruct Hs as [Hy Hs]. apply elem_of_cons in Hx as [->|Hx]; [by rewrite Hy|eauto].
Qed.

(** Redirecting the last link of a segment forward, or its first one back. *)
Lemma seg_set_next lk p xs a n n' :
  NoDup (xs ++ [a]) → seg lk p (xs ++ [a]) n →
  seg (<[a := mkLink n' (last_of p xs)]> lk) p (xs ++ [a]) n'.
Proof.
  intros Hnd Hs. rewrite list.NoDup_app in Hnd. destruct Hnd as (_ & Hni & _).
  rewrite seg_app in *. destruct Hs as [Hs _]. split.
  - apply seg_frame; [|done]. intros Ha. apply (Hni a Ha), list_elem_of_singleton. done.
  - simpl. by rewrite lookup_insert_eq.
Qed.

Lemma seg_set_prev lk p p' b xs n :
  NoDup (b :: xs) → seg lk p (b :: xs) n →
  seg (<[b := mkLink (first_of n xs) p']> lk) p' (b :: xs) n.
Proof.
  intros [Hb _]%list.NoDup_cons [_ Hs]. simpl. rewrite lookup_insert_eq. split; [done|].
  by apply seg_frame.
Qed.

(** Only the links of the list, and [x], change. *)
Definition links_frame (lk lk' : gmap N PageLink) (xs : list N) : Prop :=
  dom lk' = dom lk ∧ ∀ y, y ∉ xs → lk' !! y = lk !! y.

Lemma assign_singleton_run m l x :
  is_Some (links m !! x) → x ≠ 0 →
  ∃ l' m', assign_singleton l x m = Ok (l', m') ∧ pages m' = pages m ∧
    dll (links m') l' [x] ∧ links_frame (links m) (links m') [x].
Proof.
  intros [k Hk] Hx. unfold assign_singleton. rewrite Hk. mred.
  eexists _, _. split; [done|]. split; [done|]. split.
  - split; simpl; rewrite ?lookup_insert_eq; try done; [apply NoDup_singleton|].
    rewrite list_elem_of_singleton. done.
  - split; simpl; [rewrite dom_insert_L; apply elem_of_dom_2 in Hk; set_solver|].
    intros y Hy. rewrite lookup_insert_ne; [done|]. intros <-. apply Hy, list_elem_of_singleton. done.
Qed.

Lemma push_back_run m l xs x :
  dll (links m) l xs → is_Some (links m !! x) → x ≠ 0 → x ∉ xs →
  ∃ l' m', push_back l x m = Ok (l', m') ∧ pages m' = pages m ∧
    dll (links m') l' (xs ++ [x]) ∧ links_frame (links m) (links m') (xs ++ [x]).
Proof.
  intros [Hs Hh Ht Hnd H0] [k Hk] Hx Hnx. unfold push_back. rewrite Hk. mred.
  apply elem_of_dom_2 in Hk. set (m1 := set_link x (mkLink 0 (tail l)) m).
  assert (NoDup (xs ++ [x])) as Hnd'.
  { apply list.NoDup_app. split_and!; [done| |apply NoDup_singleton].
    intros y Hy ->%list_elem_of_singleton. done. }
  assert (0 ∉ xs ++ [x]) as H0'.
  { rewrite elem_of_app, list_elem_of_singleton. naive_solver. }
  destruct xs as [|y ys _] using rev_ind.
  - unfold first_of, last_of in *. simpl in Hh, Ht. rewrite Hh, Ht. simpl.
    eexists _, _. split; [done|]. split; [done|]. split.
    + split; simpl; rewrite ?Ht; try done. by rewrite lookup_insert_eq.
    + split; simpl; [rewrite dom_insert_L; set_solver|]. intros z Hz.
      rewrite lookup_insert_ne; [done|]. set_solver.
  - rewrite last_of_snoc in Ht. rewrite Ht.
    destruct (N.eqb_spec y 0) as [->|Hy0]; [set_solver|]. simpl.
    assert (x ≠ y) as Hxy by set_solver. rewrite lookup_insert_ne by done.
    pose proof (proj1 (seg_app _ _ _ _ _) Hs) as [_ [Hy _]]. simpl in Hy. rewrite Hy. mred.
    eexists _, _. split; [done|]. split; [done|]. split.
    + split; simpl; try done.
      * apply seg_app. split; [apply (seg_set_next _ _ _ _ 0)|]; [done| |].
        { apply seg_frame; [|done]. set_solver. }
        rewrite last_of_snoc. simpl. rewrite lookup_insert_ne, lookup_insert_eq by done. by rewrite Ht.
      * by rewrite Hh, !first_of_app.
      * by rewrite last_of_snoc.
    + apply elem_of_dom_2 in Hy. split; simpl; [rewrite !dom_insert_L; set_solver|].
      intros z Hz. rewrite !lookup_insert_ne; [done|set_solver..].
Qed.
(** The two halves of [remove]: the neighbour before, then the one after. *)
Definition cut_prev (l : PageList) (k : PageLink) (m : mem) : result (PageList * mem) :=
  if link_prev k =? 0 then Ok (mkList (link_next k) (tail l), m)
  else
    p ← deref (links m !! link_prev k);
    Ok (l, set_link (link_prev k) (mkLink (link_next k) (link_prev p)) m).
Definition cut_next (l : PageList) (k : PageLink) (m : mem) : result (PageList * mem) :=
  if link_next k =? 0 then Ok (mkList (head l) (link_prev k), m)
  else
    n ← deref (links m !! link_next k);
    Ok (l, set_link (link_next k) (mkLink (link_next n) (link_prev k)) m).

Lemma remove_cuts l x m :
  remove l x m =
    (k ← deref (links m !! x); '(l, m) ← cut_prev l k m;
     k ← deref (links m !! x); '(l, m) ← cut_next l k m; Ok (l, set_link x (mkLink 0 0) m)).
Proof. done. Qed.

Lemma cut_prev_run m l l1 n0 n :
  seg (links m) 0 l1 n0 → NoDup l1 → 0 ∉ l1 → head l = first_of n0 l1 →
  ∃ l' m', cut_prev l (mkLink n (last_of 0 l1)) m = Ok (l', m') ∧ pages m' = pages m ∧
    tail l' = tail l ∧ head l' = first_of n l1 ∧ seg (links m') 0 l1 n ∧
    links_frame (links m) (links m') l1.
Proof.
  intros Hs Hnd H0 Hh. unfold cut_prev. destruct l1 as [|a l1 _] using rev_ind; cbn [link_prev link_next].
  - exists (mkList n (tail l)), m. split_and!; try done.
  - rewrite last_of_snoc. destruct (N.eqb_spec a 0) as [->|Ha]; [set_solver|].
    pose proof (proj1 (seg_app _ _ _ _ _) Hs) as [_ [Hk _]]. simpl in Hk. rewrite Hk. mred.
    eexists _, _. split; [done|]. split_and!; try done; simpl.
    + by rewrite Hh, !first_of_app.
    + by apply (seg_set_next _ _ _ _ n0).
    + apply elem_of_dom_2 in Hk. split; [rewrite dom_insert_L; set_solver|].
      intros z Hz. rewrite lookup_insert_ne; [done|set_solver].
Qed.

Lemma cut_next_run m l l2 x p :
  seg (links m) x l2 0 → NoDup l2 → 0 ∉ l2 → tail l = last_of x l2 →
  ∃ l' m', cut_next l (mkLink (first_of 0 l2) p) m = Ok (l', m') ∧ pages m' = pages m ∧
    head l' = head l ∧ tail l' = last_of p l2 ∧ seg (links m') p l2 0 ∧
    links_frame (links m) (links m') l2.
Proof.
  intros Hs Hnd H0 Ht. unfold cut_next. destruct l2 as [|b l2]; cbn [link_prev link_next].
  - exists (mkList (head l) p), m. split_and!; done.
  - change (first_of 0 (b :: l2)) with b. destruct (N.eqb_spec b 0) as [->|Hb]; [set_solver|].
    pose proof Hs as [Hk _]. rewrite Hk. mred.
    eexists _, _. split; [done|]. split_and!; try done; simpl.
    + by rewrite Ht, !last_of_cons.
    + by apply (seg_set_prev _ x).
    + apply elem_of_dom_2 in Hk. split; [rewrite dom_insert_L; set_solver|].
      intros z Hz. rewrite lookup_insert_ne; [done|set_solver].
Qed.

Lemma links_frame_trans lk1 lk2 lk3 xs ys :
  links_frame lk1 lk2 xs → links_frame lk2 lk3 ys → links_frame lk1 lk3 (xs ++ ys).
Proof.
  intros [Hd1 H1] [Hd2 H2]. split; [congruence|]. intros z Hz.
  rewrite not_elem_of_app in Hz. rewrite H2, H1; naive_solver.
Qed.

Lemma seg_links_frame lk lk' p xs n ys :
  links_frame lk lk' ys → (∀ x, x ∈ xs → x ∉ ys) → seg lk p xs n → seg lk' p xs n.
Proof.
  intros [_ Hf]. revert p. induction xs as [|x xs IH]; intros p Hd; simpl; [done|].
  intros [Hx Hs]. rewrite Hf by set_solver. split; [done|]. apply IH; [set_solver|done].
Qed.

Lemma remove_run m l l1 x l2 :
  dll (links m) l (l1 ++ x :: l2) →
  ∃ l' m', remove l x m = Ok (l', m') ∧ pages m' = pages m ∧
    dll (links m') l' (l1 ++ l2) ∧ links_frame (links m) (links m') (l1 ++ x :: l2).
Proof.
  intros [Hs Hh Ht Hnd H0]. apply seg_app in Hs as [Hs1 [Hx Hs2]]. rewrite first_of_app in Hh.
  rewrite last_of_app, last_of_cons in Ht.
  pose proof (proj1 (list.NoDup_app _ _) Hnd) as (Hnd1 & Hni & [Hx2 Hnd2]%list.NoDup_cons).
  assert (x ∉ l1) as Hx1 by set_solver.
  destruct (cut_prev_run m l l1 x (first_of 0 l2)) as (la & ma & Hra & Hpa & Hta & Hha & Hsa & Hfa);
    [done|done|set_solver|done|].
  assert (links ma !! x = Some (mkLink (first_of 0 l2) (last_of 0 l1))) as Hxa.
  { destruct Hfa as [_ ->]; done. }
  assert (∀ z, z ∈ l2 → z ∉ l1) as Hd21 by set_solver.
  destruct (cut_next_run ma la l2 x (last_of 0 l1)) as (lb & mb & Hrb & Hpb & Hhb & Htb & Hsb & Hfb);
    [by eapply seg_links_frame|done|set_solver|congruence|].
  assert (remove l x m = Ok (lb, set_link x (mkLink 0 0) mb)) as ->.
  { rewrite remove_cuts, Hx. cbn [deref]. mred. rewrite Hra. mred. rewrite Hxa.
    cbn [deref]. mred. by rewrite Hrb. }
  assert (links_frame (links m) (links mb) (l1 ++ l2)) as Hf by by eapply links_frame_trans.
  eexists _, _. split; [done|]. split; [by simpl; rewrite Hpb|]. split.
  - split; simpl.
    + apply seg_frame; [set_solver|]. apply seg_app. split; [|done].
      eapply seg_links_frame; [apply Hfb|set_solver|done].
    + by rewrite Hhb, Hha, first_of_app.
    + by rewrite Htb, last_of_app.
    + apply list.NoDup_app. split_and!; [done|set_solver|done].
    + set_solver.
  - destruct Hf as [Hdom Hf]. apply elem_of_dom_2 in Hx. split; simpl.
    + rewrite dom_insert_L, Hdom. set_solver.
    + intros z Hz. rewrite lookup_insert_ne by set_solver. apply Hf. set_solver.
Qed.

(** ** Sequences of operations *)
Inductive list_op := PushBack (link : N) | Remove (link : N) | AssignSingleton (link : N).

Definition op_link (o : list_op) : N := match o with PushBack x | Remove x | AssignSingleton x => x end.

Definition run_op (o : list_op) (l : PageList) (m : mem) : result (PageList * mem) :=
  match o with
  | PushBack x => push_back l x m
  | Remove x => remove l x m
  | AssignSingleton x => assign_singleton l x m
  end.

Fixpoint run_ops (ops : list list_op) (l : PageList) (m : mem) : result (PageList * mem) :=
  match ops with
  | [] => Ok (l, m)
  | o :: ops => '(l, m) ← run_op o l m; run_ops ops l m
  end.

(** What they do to the list of the addresses. *)
Definition list_effect (xs : list N) (o : list_op) : list N :=
  match o with
  | PushBack x => xs ++ [x]
  | Remove x => filter (λ y, y ≠ x) xs
  | AssignSingleton x => [x]
  end.

(** What the callers keep to: the link exists, [push_back] is for a link off
    the list and [remove] for one on it. *)
Definition op_allowed (m : mem) (xs : list N) (o : list_op) : Prop :=
  op_link o ≠ 0 ∧ is_Some (links m !! op_link o) ∧
  match o with PushBack x => x ∉ xs | Remove x => x ∈ xs | AssignSingleton _ => True end.

Fixpoint ops_allowed (m : mem) (xs : list N) (ops : list list_op) : Prop :=
  match ops with
  | [] => True
  | o :: ops => op_allowed m xs o ∧ ops_allowed m (list_effect xs o) ops
  end.

Lemma filter_middle (l1 l2 : list N) x :
  NoDup (l1 ++ x :: l2) → filter (λ y, y ≠ x) (l1 ++ x :: l2) = l1 ++ l2.
Proof.
  intros [_ [Hd [Hx _]%list.NoDup_cons]]%list.NoDup_app.
  assert (∀ l : list N, x ∉ l → filter (λ y, y ≠ x) l = l) as Hid.
  { induction l as [|y l IH]; intros Hl; [done|]. rewrite filter_cons_True, IH by set_solver. done. }
  rewrite list.filter_app, filter_cons_False, !Hid by set_solver. done.
Qed.

Lemma list_effect_other xs o y : y ∉ xs → y ≠ op_link o → y ∉ list_effect xs o.
Proof. destruct o; simpl; rewrite ?list_elem_of_filter; set_solver. Qed.

Lemma remove_nulls l x m l' m' : remove l x m = Ok (l', m') → links m' !! x = Some (mkLink 0 0).
Proof.
  rewrite remove_cuts. intros Hr. mpeel Hr. repeat case_match; mpeel Hr.
  repeat case_match. injection Hr as _ <-.
  apply lookup_insert_eq.
Qed.

Lemma op_allowed_dom m m' xs o : dom (links m') = dom (links m) → op_allowed m xs o → op_allowed m' xs o.
Proof. intros Hd (H0 & Hx & Ho). split_and!; [done| |done]. by rewrite <-elem_of_dom, Hd, elem_of_dom. Qed.

Lemma ops_allowed_dom m m' xs ops : dom (links m') = dom (links m) → ops_allowed m xs ops → ops_allowed m' xs ops.
Proof.
  intros Hd. revert xs. induction ops as [|o ops IH]; intros xs; simpl; [done|]. intros [Ho Hops].
  split; [by eapply op_allowed_dom|auto].
Qed.

Lemma run_op_run m l xs o :
  dll (links m) l xs → op_allowed m xs o →
  ∃ l' m', run_op o l m = Ok (l', m') ∧ pages m' = pages m ∧ dll (links m') l' (list_effect xs o) ∧
    links_frame (links m) (links m') (op_link o :: xs).
Proof.
  intros Hd (H0 & Hx & Ho). destruct o as [x|x|x]; simpl in *.
  - destruct (push_back_run m l xs x Hd Hx H0 Ho) as (l' & m' & Hr & Hp & Hd' & Hdom & Hf).
    exists l', m'. split_and!; [done..|]. split; [done|]. intros y Hy. apply Hf. set_solver.
  - apply list_elem_of_split in Ho as (l1 & l2 & ->).
    destruct (remove_run m l l1 x l2 Hd) as (l' & m' & Hr & Hp & Hd' & Hdom & Hf). exists l', m'.
    rewrite filter_middle by apply Hd. split_and!; [done..|]. split; [done|]. intros y Hy. apply Hf. set_solver.
  - destruct (assign_singleton_run m l x Hx H0) as (l' & m' & Hr & Hp & Hd' & Hdom & Hf).
    exists l', m'. split_and!; [done..|]. split; [done|]. intros y Hy. apply Hf. set_solver.
Qed.

(** C37: the list of pages is a list, from the empty one on: any sequence of
    [push_back]s of links off the list, [remove]s of links on it, wherever
    they are, and [assign_singleton]s succeeds, makes of the list what the
    operations say, leaves the pages alone and every link that was neither on
    the list nor given to an operation, and leaves a removed link null. *)
Theorem page_list_refines m l xs ops :
  dll (links m) l xs → ops_allowed m xs ops →
  dll (links m) list_new [] ∧
  ∃ l' m', run_ops ops l m = Ok (l', m') ∧ dll (links m') l' (foldl list_effect xs ops) ∧
    pages m' = pages m ∧ links_frame (links m) (links m') (xs ++ (op_link <$> ops)) ∧
    ∀ ops0 x, ops = ops0 ++ [Remove x] → links m' !! x = Some (mkLink 0 0).
Proof.
  intros Hd Hok. split; [by split; try constructor; try apply not_elem_of_nil|].
  revert m l xs Hd Hok. induction ops as [|o ops IH]; intros m l xs Hd Hok; simpl.
  - exists l, m. split_and!; try done. by intros [] ?.
  - destruct Hok as [Ho Hops]. destruct (run_op_run m l xs o Hd Ho) as (l1 & m1 & Hr & Hp & Hd1 & Hdom & Hf).
    rewrite Hr. mred. destruct (IH m1 l1 _ Hd1 (ops_allowed_dom _ _ _ _ Hdom Hops)) as (l2 & m2 & Hr2 & Hd2 & Hp2 & [Hdom2 Hf2] & Hn).
    exists l2, m2. split_and!; [done|done|congruence| |].
    + split; [congruence|]. intros y Hy. rewrite not_elem_of_app, not_elem_of_cons in Hy.
      destruct Hy as (Hy & Hyo & Hys). rewrite Hf2, Hf; [done|by apply not_elem_of_cons|].
      apply not_elem_of_app. split; [by apply list_effect_other|done].
    + intros ops0 x He. destruct ops0 as [|o0 ops0]; injection He as -> He; [|by eapply Hn].
      subst ops. injection Hr2 as <- <-. by eapply remove_nulls.
Qed.

(** Four pages: three come to the empty list, the one in the middle leaves. *)
Definition demo_mem : mem :=
  mkMem (<[4096 := mkLink 1 2]> (<[8192 := mkLink 3 4]>
    (<[12288 := mkLink 0 0]> (<[16384 := mkLink 5 6]> ∅)))) ∅.
Definition demo_ops : list list_op := [PushBack 4096; PushBack 8192; PushBack 12288; Remove 8192].

Lemma page_list_refines_witness :
  ∃ l' m', run_ops demo_ops list_new demo_mem = Ok (l', m') ∧ dll (links m') l' [4096; 12288] ∧
    links m' !! 16384 = Some (mkLink 5 6) ∧ links m' !! 8192 = Some (mkLink 0 0).
Proof.
  destruct (page_list_refines demo_mem list_new [] demo_ops) as (_ & l' & m' & Hr & Hd & _ & [_ Hf] & Hn).
  - split; try reflexivity; [constructor|apply not_elem_of_nil].
  - simpl. unfold op_allowed. simpl. split_and!; try done; try (eexists; reflexivity); set_solver.
  - exists l', m'. split; [exact Hr|]. split; [exact Hd|]. split.
    + rewrite Hf; [reflexivity|]. simpl. set_solver.
    + apply (Hn [PushBack 4096; PushBack 8192; PushBack 12288]). reflexivity.
Defined.

End SlabList.
