(* ===== verification/SlabPage.v ===== *)
(** * The slab allocator: layout and pages

    The layout computed for a payload type, the slots of a page, and the
    invariant of a page: its free slots form the chain that starts at
    [free_index], and every object has the magic number, red zones and fill
    of its state. *)
From stdpp Require Import gmap.
From S2P Require Import Prelude Slab.
Import Slab.
Local Open Scope N_scope.

Module SlabPage.

(** ** Layout *)

(** A type as Rust has them: the alignment is a power of two, at most [2^29],
    the size is a multiple of it; and the object fits in a page. *)
Record layout_ok (T : TypeLayout) : Prop := {
  lo_align : ∃ k, k ≤ 29 ∧ align_of_T T = 2 ^ k;
  lo_size : (align_of_T T | size_of_T T);
  lo_max : size_of_T T < 2 ^ 63;
  lo_fit : SIZE_ASSERT T = true;
}.

Lemma land_lnot_mask a k : a < W64 → N.land a (N.lnot (2 ^ k - 1) 64) = a / 2 ^ k * 2 ^ k.
Proof.
  intros Ha. rewrite N.sub_1_r, <-N.ones_equiv, <-N.ldiff_land_low, N.ldiff_ones_r.
  - by rewrite N.shiftl_mul_pow2, N.shiftr_div_pow2.
  - destruct (N.eq_0_gt_0_cases a) as [->|Hp]; [done|]. by apply N.log2_lt_pow2.
Qed.

Lemma align_ceil_spec x k :
  x + 2 ^ k ≤ W64 → 
  (2 ^ k | align_ceil x (2 ^ k)) ∧ x ≤ align_ceil x (2 ^ k) < x + 2 ^ k.
Proof.
  intros Hx. assert (0 < 2 ^ k) by (apply N.neq_0_lt_0, N.pow_nonzero; lia).
  unfold align_ceil. rewrite land_lnot_mask by lia. split; [apply N.divide_factor_r|].
  pose proof (N.div_mod' (x + (2 ^ k - 1)) (2 ^ k)). pose proof (N.mod_lt (x + (2 ^ k - 1)) (2 ^ k)).
  lia.
Qed.

Lemma page_from_object_run p o :
  p mod 4096 = 0 → o < 4096 → p + 4096 ≤ W64 → page_from_object (p + o) = p.
Proof.
  intros Hp Ho Hw. unfold page_from_object. change (PAGE_SIZE - 1) with (2 ^ 12 - 1).
  rewrite land_lnot_mask by lia. change (2 ^ 12) with 4096. lia.
Qed.

Section layout.
Context (T : TypeLayout) (HT : layout_ok T).

Lemma pow2_le j k : j ≤ k → (2 ^ j | 2 ^ k).
Proof using Type.
  intros Hjk. exists (2 ^ (k - j)). rewrite <-N.pow_add_r. f_equal. lia.
Qed.

Lemma object_align : ∃ k, object_align_of T = 2 ^ k ∧ k ≤ 29 ∧ (align_of_T T | object_align_of T).
Proof using HT.
  destruct (lo_align T HT) as (k & Hk & He). unfold object_align_of, SLOT_OBJECT_ALIGN.
  destruct (N.ltb_spec (align_of_T T) 2) as [Hlt|Hge].
  - exists 1. split_and!; [done|lia|]. rewrite He in *.
    assert (2 ^ k = 1) as -> by (assert (0 < 2 ^ k) by (apply N.neq_0_lt_0, N.pow_nonzero; lia); lia).
    apply N.divide_1_l.
  - exists k. by split_and!.
Qed.

Lemma pow2_29 k : k ≤ 29 → 0 < 2 ^ k ≤ 536870912.
Proof using Type.
  intros Hk. split; [apply N.neq_0_lt_0, N.pow_nonzero; lia|].
  change 536870912 with (2 ^ 29). apply N.pow_le_mono_r; lia.
Qed.

(** The parts of an object: the red zones have their size or more, the payload
    is aligned, and so are the objects of a page. *)
Lemma layout_spec :
  (align_of_T T | payload_offset T) ∧ 20 ≤ payload_offset T ∧
  16 ≤ redzone1_size T ∧ redzone1_offset + redzone1_size T = payload_offset T ∧
  16 ≤ redzone2_size T ∧ redzone2_offset T + redzone2_size T = object_size_of T ∧
  (align_of_T T | object_size_of T) ∧ (align_of_T T | object_offset T) ∧ 24 ≤ object_offset T ∧
  object_offset T + object_size_of T ≤ 4096 ∧ 36 ≤ object_size_of T ∧
  payload_offset T + size_of_T T + 16 ≤ object_size_of T.
Proof using HT.
  destruct (lo_align T HT) as (k & Hk & He). destruct object_align as (j & Hj & Hj29 & Hdiv).
  pose proof (pow2_29 k Hk). pose proof (pow2_29 j Hj29). pose proof (lo_max T HT) as Hm.
  change (2 ^ 63) with 9223372036854775808 in Hm.
  destruct (align_ceil_spec (redzone1_offset + REDZONE_SIZE) k) as [Hpd Hp];
    [unfold redzone1_offset, SLOT_OBJECT_SIZE, REDZONE_SIZE; lia|].
  rewrite <-He in Hpd, Hp. fold (payload_offset T) in Hpd, Hp.
  unfold redzone1_offset, SLOT_OBJECT_SIZE, REDZONE_SIZE in Hp.
  destruct (align_ceil_spec (redzone2_offset T + REDZONE_SIZE) j) as [Hod Ho];
    [unfold redzone2_offset, REDZONE_SIZE; lia|].
  rewrite <-Hj in Hod, Ho. fold (object_size_of T) in Hod, Ho. unfold REDZONE_SIZE in Ho.
  destruct (align_ceil_spec SLOT_PAGE_SIZE j) as [Hpg Hpo]; [unfold SLOT_PAGE_SIZE; lia|].
  rewrite <-Hj in Hpg, Hpo. fold (object_offset T) in Hpg, Hpo. unfold SLOT_PAGE_SIZE in Hpo.
  pose proof (lo_fit T HT) as Hf. unfold SIZE_ASSERT, PAGE_SIZE in Hf. apply N.leb_le in Hf.
  unfold redzone1_size, redzone2_size, redzone1_offset, SLOT_OBJECT_SIZE.
  unfold redzone2_offset in *.
  split_and!; try done; try lia; by apply (N.divide_trans _ _ _ Hdiv).
Qed.

Lemma object_size_min : 36 ≤ object_size_of T.
Proof using HT. apply layout_spec. Qed.

(** ** Slots *)
Definition slot (i : N) : N := object_offset T + i * object_size_of T.
Definition slot_count : N := N.max 1 ((4095 - object_offset T) / object_size_of T).
Definition is_slot (off : N) : Prop := ∃ i, i < slot_count ∧ off = slot i.

Lemma slot_count_bounds : 0 < slot_count < 128.
Proof using HT.
  unfold slot_count. destruct layout_spec as (_ & _ & _ & _ & _ & _ & _ & _ & ? & ? & ? & _).
  assert ((4095 - object_offset T) / object_size_of T < 127); [|lia].
  apply N.Div0.div_lt_upper_bound. nia.
Qed.

Lemma slot_end i : i < slot_count → slot i + object_size_of T ≤ 4096.
Proof using HT.
  unfold slot_count, slot. intros Hi.
  destruct layout_spec as (_ & _ & _ & _ & _ & _ & _ & _ & ? & ? & ? & _).
  destruct (N.eq_dec i 0) as [->|Hi0]; [lia|].
  assert (i + 1 ≤ (4095 - object_offset T) / object_size_of T) as Hle by lia.
  pose proof (N.Div0.mul_div_le (4095 - object_offset T) (object_size_of T)). nia.
Qed.

Lemma slot_next i : slot i + object_size_of T + object_size_of T < 4096 ↔ i + 1 < slot_count.
Proof using HT.
  unfold slot_count, slot. destruct layout_spec as (_ & _ & _ & _ & _ & _ & _ & _ & ? & ? & ? & _).
  set (S := object_size_of T) in *. set (O := object_offset T) in *.
  pose proof (N.Div0.mul_div_le (4095 - O) S). pose proof (N.mul_succ_div_gt (4095 - O) S ltac:(lia)).
  split; intros Hi.
  - assert (i + 2 ≤ (4095 - O) / S); [|lia]. apply N.div_le_lower_bound; [lia|]. nia.
  - assert (i + 2 ≤ (4095 - O) / S) by lia. nia.
Qed.

Lemma slot_succ i : slot (i + 1) = slot i + object_size_of T.
Proof using Type. unfold slot. lia. Qed.

Lemma slot_inj i j : slot i = slot j → i = j.
Proof using HT.
  unfold slot. destruct layout_spec as (_ & _ & _ & _ & _ & _ & _ & _ & ? & ? & ? & _). nia.
Qed.

Lemma slot_bounds off : is_slot off → 24 ≤ off ∧ off + object_size_of T ≤ 4096.
Proof using HT.
  intros (i & Hi & ->). split; [|by apply slot_end].
  destruct layout_spec as (_ & _ & _ & _ & _ & _ & _ & _ & ? & _). unfold slot. nia.
Qed.

(** Two slots of a page are at least an object apart. *)
Lemma slot_apart a b :
  is_slot a → is_slot b → a ≠ b → a + object_size_of T ≤ b ∨ b + object_size_of T ≤ a.
Proof using Type.
  intros (i & _ & ->) (j & _ & ->) Hne. unfold slot in *.
  destruct (N.lt_trichotomy i j) as [?|[->|?]]; [left; nia|done|right; nia].
Qed.

Lemma slot_aligned off : is_slot off → (align_of_T T | off + payload_offset T).
Proof using HT.
  intros (i & _ & ->). destruct layout_spec as (? & _ & _ & _ & _ & _ & ? & ? & _).
  unfold slot. apply N.divide_add_r; [|done]. apply N.divide_add_r; [done|]. by apply N.divide_mul_r.
Qed.
End layout.

(** ** The invariant of a page *)

(** The offsets of a free list, from [free_index] on. *)
Fixpoint chain (objs : gmap N SlotObject) (n : N) (fl : list N) : Prop :=
  match fl with
  | [] => n = 0
  | o :: fl => n = o ∧ ∃ ob, objs !! o = Some ob ∧ chain objs (next ob) fl
  end.

Definition filled (b n : N) (l : list N) : Prop := l = write_bytes b n.

(** An object as the allocator left it: free, or handed out. *)
Record obj_ok (T : TypeLayout) (free : bool) (o : SlotObject) : Prop := {
  ob_redzone1 : filled REDZONE_FILL (redzone1_size T) (redzone1 o);
  ob_redzone2 : filled REDZONE_FILL (redzone2_size T) (redzone2 o);
  ob_payload : vlen (payload o) = size_of_T T;
  ob_state : if free then magic o = EMPTY_MAGIC ∧ filled UNUSED_FILL (size_of_T T) (payload o)
             else magic o = OBJECT_MAGIC ∧ next o = 0;
}.

Record page_ok (T : TypeLayout) (g : SlotPage) (fl : list N) : Prop := {
  pk_slots off : is_Some (objects g !! off) ↔ is_slot T off;
  pk_chain : chain (objects g) (free_index g) fl;
  pk_nodup : NoDup fl;
  pk_objs off o : objects g !! off = Some o → obj_ok T (bool_decide (off ∈ fl)) o;
  pk_count : alloc_count g + vlen fl = slot_count T;
}.

Lemma chain_frame objs n fl a o : a ∉ fl → chain objs n fl → chain (<[a := o]> objs) n fl.
Proof.
  revert n. induction fl as [|x fl IH]; intros n Ha; simpl; [done|].
  apply not_elem_of_cons in Ha as [Hax Ha]. intros [-> (ob & Hx & Hc)]. split; [done|].
  exists ob. rewrite lookup_insert_ne by done. auto.
Qed.

Lemma chain_slots objs n fl : chain objs n fl → ∀ x, x ∈ fl → is_Some (objs !! x).
Proof.
  revert n. induction fl as [|y fl IH]; intros n Hc x Hx; [by apply not_elem_of_nil in Hx|].
  destruct Hc as [_ (ob & Hy & Hc)]. apply elem_of_cons in Hx as [->|Hx]; [by rewrite Hy|eauto].
Qed.

Lemma forallb_filled b n l : filled b n l → forallb (λ x, x =? b) l = true.
Proof.
  intros ->. unfold write_bytes. induction (N.to_nat n) as [|k IH]; simpl; [done|].
  by rewrite N.eqb_refl.
Qed.

Lemma vlen_write_bytes b n : vlen (write_bytes b n) = n.
Proof. unfold vlen, write_bytes. rewrite length_replicate. lia. Qed.

Lemma check_redzone_ok T f o : obj_ok T f o → check_redzone o = true.
Proof. intros [H1 H2 _ _]. unfold check_redzone. by rewrite (forallb_filled _ _ _ H1), (forallb_filled _ _ _ H2). Qed.

Lemma obj_init_ok T n : obj_ok T true (set_next n (obj_init T)).
Proof. split; try done. apply vlen_write_bytes. Qed.

(** What [on_alloc] and [on_dealloc] make of an object in the right state. *)
Definition handed_out (T : TypeLayout) (o : SlotObject) : SlotObject :=
  mkObj OBJECT_MAGIC 0 (redzone1 o) (write_bytes 0 (size_of_T T)) (redzone2 o).
Definition taken_back (T : TypeLayout) (n : N) (o : SlotObject) : SlotObject :=
  mkObj EMPTY_MAGIC n (redzone1 o) (write_bytes UNUSED_FILL (size_of_T T)) (redzone2 o).

Lemma on_alloc_run T o : obj_ok T true o → on_alloc T (set_next 0 o) = Ok (handed_out T o).
Proof.
  intros Ho. pose proof (check_redzone_ok T true o Ho) as Hr. destruct Ho as [_ _ _ [Hm Hp]].
  unfold on_alloc, check_unused, handed_out. cbn [magic next set_next payload].
  change (check_redzone (set_next 0 o)) with (check_redzone o). rewrite Hm, Hr.
  by rewrite (forallb_filled _ _ _ Hp).
Qed.

Lemma on_dealloc_run T o : obj_ok T false o → on_dealloc T o = Ok (taken_back T 0 o).
Proof.
  intros Ho. pose proof (check_redzone_ok T false o Ho) as Hr. destruct Ho as [_ _ _ [Hm Hn]].
  unfold on_dealloc, taken_back. unfold write_unused, set_magic. cbn [magic next redzone1 redzone2]. by rewrite Hm, Hn, Hr.
Qed.

Lemma handed_out_ok T o : obj_ok T true o → obj_ok T false (handed_out T o).
Proof. intros [H1 H2 _ _]. split; try done. apply vlen_write_bytes. Qed.
Lemma taken_back_ok T n o : obj_ok T false o → obj_ok T true (taken_back T n o).
Proof. intros [H1 H2 _ _]. split; try done. apply vlen_write_bytes. Qed.

Section page_ok.
Context (T : TypeLayout) (HT : layout_ok T).

Lemma slots_insert g a o fl :
  page_ok T g fl → is_slot T a →
  ∀ off, is_Some (<[a := o]> (objects g) !! off) ↔ is_slot T off.
Proof using Type.
  intros HP Ha off. rewrite lookup_insert_is_Some, (pk_slots T g fl HP).
  destruct (decide (a = off)) as [<-|]; naive_solver.
Qed.

(** The head of the free list is handed out. *)
Lemma page_ok_alloc g a fl ob :
  page_ok T g (a :: fl) → objects g !! a = Some ob →
  page_ok T (mkPage (next ob) (alloc_count g + 1) (<[a := handed_out T ob]> (objects g))) fl.
Proof using Type.
  intros HP Ha. pose proof HP as [Hs Hc [Hni Hnd]%list.NoDup_cons Ho Hn].
  assert (obj_ok T true ob) as Hok.
  { specialize (Ho a ob Ha). by rewrite bool_decide_true in Ho by left. }
  split; simpl.
  - apply (slots_insert g a _ (a :: fl)); [done|]. by apply Hs; rewrite Ha.
  - apply chain_frame; [done|]. destruct Hc as [_ (ob' & Ha' & Hc)]. congruence.
  - done.
  - intros off o [[<- <-]|[Hne Hoff]]%lookup_insert_Some.
    + rewrite bool_decide_false by done. by apply handed_out_ok.
    + specialize (Ho off o Hoff). erewrite bool_decide_ext; [exact Ho|].
      rewrite elem_of_cons. naive_solver.
  - unfold vlen in *. simpl in Hn. lia.
Qed.

(** A slot handed out goes back to the front of the free list. *)
Lemma page_ok_dealloc g a fl ob :
  page_ok T g fl → objects g !! a = Some ob → a ∉ fl → 0 < alloc_count g →
  page_ok T (mkPage a (alloc_count g - 1) (<[a := taken_back T (free_index g) ob]> (objects g)))
    (a :: fl).
Proof using Type.
  intros HP Ha Hni Hpos. pose proof HP as [Hs Hc Hnd Ho Hn].
  assert (obj_ok T false ob) as Hok.
  { specialize (Ho a ob Ha). by rewrite bool_decide_false in Ho. }
  split; simpl.
  - apply (slots_insert g a _ fl); [done|]. by apply Hs; rewrite Ha.
  - split; [done|]. eexists. split; [apply lookup_insert_eq|]. by apply chain_frame.
  - by apply list.NoDup_cons.
  - intros off o [[<- <-]|[Hne Hoff]]%lookup_insert_Some.
    + rewrite bool_decide_true by left. by apply taken_back_ok.
    + specialize (Ho off o Hoff). erewrite bool_decide_ext; [exact Ho|].
      rewrite elem_of_cons. naive_solver.
  - unfold vlen in *. simpl. lia.
Qed.

Lemma page_ok_free_index g fl : page_ok T g fl → (free_index g = 0 ↔ fl = []).
Proof using HT.
  intros [Hs Hc _ _ _]. destruct fl as [|a fl]; simpl in Hc; [naive_solver|].
  destruct Hc as [-> (ob & Ha & _)]. split; [|done]. intros ->.
  destruct (slot_bounds T HT 0) as [? _]; [|lia]. apply Hs. by rewrite Ha.
Qed.

(** A chain whose head object points on: the next one, or none. *)
Lemma page_ok_next g a fl ob :
  page_ok T g (a :: fl) → objects g !! a = Some ob → (next ob = 0 ↔ fl = []).
Proof using HT.
  intros HP Ha. apply (page_ok_free_index _ _ (page_ok_alloc g a fl ob HP Ha)).
Qed.

(** ** A fresh page *)
Definition fresh_next (i : N) : N := if i + 1 <? slot_count T then slot T (i + 1) else 0.

(** The loop of [init] from slot [i] on fills the slots from [i] to the last. *)
Lemma init_loop_run fuel addr i objs :
  i < slot_count T → (N.to_nat (slot_count T - i) ≤ fuel)%nat → addr + 4096 ≤ W64 →
  ∃ objs', init_loop T fuel addr (slot T i) objs = Ok objs' ∧
    (∀ j, i ≤ j < slot_count T → objs' !! slot T j = Some (set_next (fresh_next j) (obj_init T))) ∧
    (∀ off, (∀ j, i ≤ j < slot_count T → off ≠ slot T j) → objs' !! off = objs !! off).
Proof using HT.
  revert i objs. induction fuel as [|fuel IH]; intros i objs Hi Hf Ha; [lia|].
  pose proof (slot_end T HT i Hi) as He. pose proof (slot_bounds T HT (slot T i) ltac:(by exists i)).
  pose proof (object_size_min T HT).
  cbn [init_loop]. rewrite (checked_add_Ok _ addr) by lia. mred.
  rewrite (checked_add_Ok _ (slot T i)) by lia. mred. unfold PAGE_SIZE.
  rewrite (proj2 (N.leb_le _ _)) by lia. mred.
  rewrite (checked_add_Ok _ (slot T i + _)) by lia. mred.
  pose proof (slot_next T HT i) as Hnext. unfold fresh_next in *.
  destruct (N.ltb_spec (slot T i + object_size_of T + object_size_of T) 4096) as [Hlt|Hge].
  - apply Hnext in Hlt. rewrite <-slot_succ. pose proof (slot_end T HT (i + 1) Hlt).
    rewrite (N.mod_small (slot T (i + 1))) by lia.
    destruct (IH (i + 1) (<[slot T i := set_next (slot T (i + 1)) (obj_init T)]> objs))
      as (objs' & -> & Hin & Hout); [lia|lia|done|].
    exists objs'. split; [done|]. split.
    + intros j Hj. destruct (N.eq_dec j i) as [->|Hne]; [|apply Hin; lia].
      rewrite Hout, lookup_insert_eq by (intros j' Hj' Hs; apply slot_inj in Hs; [lia|done]).
      by apply N.ltb_lt in Hlt as ->.
    + intros off Hoff. rewrite Hout by (intros; apply Hoff; lia).
      rewrite lookup_insert_ne; [done|]. apply not_eq_sym, Hoff. lia.
  - eexists. split; [done|]. assert (slot_count T = i + 1) as Hc.
    { destruct (N.lt_ge_cases (i + 1) (slot_count T)) as [Hlt|]; [|lia]. apply Hnext in Hlt. lia. }
    split.
    + intros j Hj. assert (j = i) as -> by lia. rewrite lookup_insert_eq.
      destruct (N.ltb_spec (i + 1) (slot_count T)); [lia|done].
    + intros off Hoff. rewrite lookup_insert_ne; [done|]. apply not_eq_sym, Hoff. lia.
Qed.

Definition all_slots : list N := slot T <$> range 0 (slot_count T).

Lemma chain_fresh objs i :
  (∀ j, i ≤ j < slot_count T → objs !! slot T j = Some (set_next (fresh_next j) (obj_init T))) →
  i < slot_count T → chain objs (slot T i) (slot T <$> range i (slot_count T)).
Proof using Type.
  intros Hobjs Hi. assert (∃ d, slot_count T - i = d) as [d Hd] by eauto.
  revert i Hobjs Hi Hd. induction d as [|d IH] using N.peano_ind; intros i Hobjs Hi Hd; [lia|].
  rewrite range_cons by lia. simpl. split; [done|]. eexists. split; [apply Hobjs; lia|].
  cbn [next set_next]. unfold fresh_next. destruct (N.ltb_spec (i + 1) (slot_count T)) as [Hlt|Hge].
  - apply IH; [intros; apply Hobjs; lia|lia|lia].
  - by rewrite range_nil by lia.
Qed.

Lemma elem_of_all_slots off : off ∈ all_slots ↔ is_slot T off.
Proof using Type.
  unfold all_slots, is_slot. rewrite list_elem_of_fmap. setoid_rewrite elem_of_range.
  split; intros (i & ? & ?); exists i; naive_solver lia.
Qed.

Lemma page_init_run addr m :
  addr + 4096 ≤ W64 →
  ∃ g, page_init T addr m = Ok (set_page addr g (set_link addr link_null m)) ∧
    page_ok T g all_slots ∧ alloc_count g = 0.
Proof using HT.
  intros Ha. unfold page_init. pose proof (slot_count_bounds T HT) as Hc.
  destruct (init_loop_run 128 addr 0 ∅) as (objs & Hrun & Hin & Hout); [lia|lia|done|].
  unfold slot in Hrun at 1. rewrite N.mul_0_l, N.add_0_r in Hrun. rewrite Hrun. mred.
  eexists. split; [done|]. split; [|done].
  assert (∀ off, is_Some (objs !! off) ↔ is_slot T off) as Hs.
  { intros off. split.
    - intros Hx. destruct (decide (off ∈ all_slots)) as [Hd|Hd]; [by apply elem_of_all_slots|].
      rewrite elem_of_all_slots in Hd. rewrite Hout, lookup_empty in Hx; [by destruct Hx|].
      intros j Hj ->. apply Hd. exists j. split; [lia|done].
    - intros (j & Hj & ->). by rewrite Hin by lia. }
  destruct (slot_bounds T HT (slot T 0)) as [_ Hs0]; [exists 0; split; [lia|done]|].
  assert (slot T 0 = object_offset T) as H0 by (unfold slot; lia). rewrite H0 in Hs0.
  split; simpl.
  - done.
  - rewrite N.mod_small by lia. rewrite <-H0. apply chain_fresh; [done|lia].
  - apply NoDup_fmap_2_strong; [|unfold range; apply NoDup_fmap; [apply _|apply NoDup_seq]].
    intros x y _ _. by apply slot_inj.
  - intros off o Hoff. assert (is_slot T off) as Hi by (apply Hs; by rewrite Hoff).
    rewrite bool_decide_true by by apply elem_of_all_slots. destruct Hi as (j & Hj & ->).
    rewrite Hin in Hoff by lia. injection Hoff as <-. apply obj_init_ok.
  - unfold vlen, all_slots. rewrite length_fmap, length_range. lia.
Qed.
End page_ok.

(** A page has one slot less than it has room for when the slots fill it
    exactly: the test for the next slot is strict. *)
Lemma last_slot_unused T k :
  layout_ok T → 2 ≤ k → object_offset T + k * object_size_of T = PAGE_SIZE → slot_count T = k - 1.
Proof.
  intros HT Hk Hfit. unfold PAGE_SIZE in Hfit. pose proof (object_size_min T HT).
  unfold slot_count. replace ((4095 - object_offset T) / object_size_of T) with (k - 1); [lia|].
  apply (N.div_unique _ _ _ (object_size_of T - 1)); nia.
Qed.

End SlabPage.
