(* ===== verification/SlabAlloc.v ===== *)
(** * The slab allocator: invariant and guarantees

    [slab_inv] relates the allocator and its memory to the free slots of each
    page and to the list of the pages that have one.  [reachable] is the
    allocator's history under a client that allocates, frees what it holds,
    and writes to the payloads it holds; the guarantees hold on every such
    history, over any page allocator that keeps the contract of the trait. *)
From stdpp Require Import gmap.
From S2P Require Import Prelude Slab SlabList SlabPage.
Import Slab SlabList SlabPage.
Local Open Scope N_scope.

Module SlabAlloc.

(** ** Objects in memory *)
Definition page_addr_ok (p : N) : Prop := p mod 4096 = 0 ∧ p ≠ 0 ∧ p + 4096 ≤ W64.

Section memory.
Context (T : TypeLayout) (HT : layout_ok T).
Context (m : mem) (p : N) (g : SlotPage) (Hp : page_addr_ok p) (Hg : pages m !! p = Some g).

Lemma load_obj_run a ob :
  a < 4096 → objects g !! a = Some ob → load_obj m (p + a) = Ok ob.
Proof using Hp Hg.
  intros Ha Ho. destruct Hp as (H1 & H2 & H3). unfold load_obj.
  rewrite page_from_object_run by done. rewrite Hg. cbn [deref]. mred.
  replace (p + a - p) with a by lia. by rewrite Ho.
Qed.

Lemma store_obj_run a ob o :
  a < 4096 → objects g !! a = Some ob →
  store_obj (p + a) o m =
    Ok (set_page p (mkPage (free_index g) (alloc_count g) (<[a := o]> (objects g))) m).
Proof using Hp Hg.
  intros Ha Ho. destruct Hp as (H1 & H2 & H3). unfold store_obj.
  rewrite page_from_object_run by done. rewrite Hg. cbn [deref]. mred.
  replace (p + a - p) with a by lia. by rewrite Ho.
Qed.

Lemma slot_lt a fl : page_ok T g fl → is_Some (objects g !! a) → a < 4096.
Proof using HT.
  intros HP Ha%(pk_slots T g fl HP). destruct (slot_bounds T HT a Ha).
  pose proof (object_size_min T HT). lia.
Qed.
End memory.

Lemma set_page_set_page p g g' m : set_page p g' (set_page p g m) = set_page p g' m.
Proof. unfold set_page. simpl. by rewrite insert_insert_eq. Qed.

Section page_steps.
Context (T : TypeLayout) (HT : layout_ok T) (m : mem) (p : N) (g : SlotPage).
Context (Hp : page_addr_ok p) (Hg : pages m !! p = Some g).

(** The computation of [pop_front_object], whatever the objects hold. *)
Lemma pop_unfold a ob :
  free_index g = a → 0 < a < 4096 → objects g !! a = Some ob → alloc_count g + 1 < W16 →
  pop_front_object p m =
    Ok (p + a, next ob =? 0,
      set_page p (mkPage (next ob) (alloc_count g + 1) (<[a := set_next 0 ob]> (objects g))) m).
Proof using Hp Hg.
  intros Hf Hlt Ha Hc. pose proof Hp as (_ & _ & Hw).
  unfold pop_front_object. rewrite Hg. cbn [deref]. mred.
  destruct (N.eqb_spec (free_index g) 0) as [Hz|_]; [lia|].
  rewrite assert_true by done. mred. rewrite checked_add_Ok by lia. mred. rewrite Hf.
  rewrite (load_obj_run m p g Hp Hg a ob) by (done || lia). mred.
  assert ((if next ob =? 0 then (0, true) else (next ob, false)) = (next ob, next ob =? 0)) as ->.
  { by destruct (N.eqb_spec (next ob) 0) as [->|]. }
  rewrite (store_obj_run _ p (mkPage (next ob) (alloc_count g) (objects g)) Hp) with (ob := ob);
    [|apply lookup_insert_eq|lia|done].
  mred. cbn [pages set_page]. rewrite lookup_insert_eq. cbn [deref]. mred.
  cbn [alloc_count objects]. rewrite checked_add_Ok by lia. mred. by rewrite !set_page_set_page.
Qed.

Lemma pop_run a fl ob :
  page_ok T g (a :: fl) → objects g !! a = Some ob →
  pop_front_object p m =
    Ok (p + a, bool_decide (fl = []),
      set_page p (mkPage (next ob) (alloc_count g + 1) (<[a := set_next 0 ob]> (objects g))) m).
Proof using HT Hp Hg.
  intros HP Ha. assert (a < 4096) as Hlt by (eapply (slot_lt T HT g); [done|by rewrite Ha]).
  pose proof (page_ok_next T HT g a fl ob HP Ha) as Hnx.
  pose proof (page_ok_free_index T HT g _ HP) as Hfi. pose proof (slot_count_bounds T HT) as Hsc.
  pose proof (pk_count T g _ HP) as Hn. pose proof (proj1 (pk_chain T g _ HP)) as Hf.
  unfold vlen in Hn. simpl in Hn.
  rewrite (pop_unfold a ob); [|done| |done|lia].
  - do 3 f_equal. destruct (N.eqb_spec (next ob) 0) as [Hz|Hz]; symmetry.
    + by apply bool_decide_true, Hnx.
    + apply bool_decide_false. by rewrite <-Hnx.
  - split; [|done]. apply N.neq_0_lt_0. intros ->. by apply Hfi in Hf.
Qed.

Lemma push_run a ob :
  a < 4096 → objects g !! a = Some ob → 0 < alloc_count g →
  push_front_object p (p + a) m =
    Ok (set_page p (mkPage a (alloc_count g - 1) (<[a := set_next (free_index g) ob]> (objects g))) m).
Proof using Hp Hg.
  intros Hlt Ha Hc. unfold push_front_object. rewrite Hg. cbn [deref]. mred.
  rewrite (load_obj_run m p g Hp Hg a ob Hlt Ha). mred.
  rewrite (store_obj_run m p g Hp Hg a ob _ Hlt Ha). mred. rewrite checked_sub_Ok by lia. mred.
  cbn [pages set_page]. rewrite lookup_insert_eq. cbn [deref]. mred. cbn [alloc_count objects].
  rewrite checked_sub_Ok by lia. mred. rewrite set_page_set_page.
  replace (p + a - p) with a by lia. by rewrite N.mod_small by lia.
Qed.
End page_steps.

(** ** The invariant *)
Section slab.
Context `{PageAllocatorOk PA} (T : TypeLayout) (HT : layout_ok T).
Implicit Types (s : SlabAllocator PA) (fls : gmap N (list N)) (xs : list N).

(** [fls] has the free slots of every page, [xs] the pages with a free slot.
    Every page has an object handed out, except [q] while it is being set up. *)
Record slab_inv (q : N) s (m : mem) fls xs : Prop := {
  si_links : dom (links m) = dom fls;
  si_pages : dom (pages m) = dom fls;
  si_page p fl : fls !! p = Some fl → page_addr_ok p ∧
    ∃ g, pages m !! p = Some g ∧ page_ok T g fl ∧ (p ≠ q → 0 < alloc_count g);
  si_list : dll (links m) (partial_list s) xs;
  si_partial p : p ∈ xs ↔ (∃ fl, fls !! p = Some fl ∧ fl ≠ []);
  si_owns : owns (page_allocator s) (dom fls);
}.

(** The pointers the client holds. *)
Definition pointer (p a : N) : N := p + a + payload_offset T.
Definition is_live fls (ptr : N) : Prop :=
  ∃ p a fl, fls !! p = Some fl ∧ is_slot T a ∧ (a ∉ fl) ∧ ptr = pointer p a.

(** A step that changes one page, and the list accordingly. *)
Lemma slab_inv_update q s m fls xs p fl0 fl' l' m' g' xs' :
  slab_inv q s m fls xs → fls !! p = Some fl0 → q = 0 ∨ q = p →
  pages m' = <[p := g']> (pages m) → dom (links m') = dom (links m) →
  dll (links m') l' xs' → page_ok T g' fl' → 0 < alloc_count g' →
  (∀ x, x ∈ xs' ↔ (if decide (x = p) then fl' ≠ [] else x ∈ xs)) →
  slab_inv 0 (mkSlab l' (page_allocator s)) m' (<[p := fl']> fls) xs'.
Proof using HT.
  intros [Hl Hpg Hpage Hlist Hpart Ho] Hp Hq Hm' Hlk Hd HP Hc Hx.
  assert (dom (<[p := fl']> fls) = dom fls) as Hdom.
  { rewrite dom_insert_L. apply elem_of_dom_2 in Hp. set_solver. }
  split; simpl.
  - congruence.
  - rewrite Hm', dom_insert_L, Hdom, Hpg. apply elem_of_dom_2 in Hp. set_solver.
  - intros p1 fl1 [[<- <-]|[Hne Hp1]]%lookup_insert_Some.
    + split; [by eapply Hpage|]. exists g'. rewrite Hm', lookup_insert_eq. done.
    + destruct (Hpage p1 fl1 Hp1) as (Ha & g1 & Hg1 & HP1 & Hc1). split; [done|]. exists g1.
      rewrite Hm', lookup_insert_ne by done. split_and!; [done|done|]. intros _. apply Hc1.
      destruct Hq as [->| ->]; [apply Ha|done].
  - done.
  - intros x. rewrite Hx. destruct (decide (x = p)) as [->|Hne].
    + rewrite lookup_insert_eq. naive_solver.
    + rewrite lookup_insert_ne by done. apply Hpart.
  - by rewrite Hdom.
Qed.

Lemma slab_inv_obj q s m fls xs p fl a :
  slab_inv q s m fls xs → fls !! p = Some fl → is_slot T a →
  page_addr_ok p ∧ ∃ g ob, pages m !! p = Some g ∧ page_ok T g fl ∧ (p ≠ q → 0 < alloc_count g) ∧
    objects g !! a = Some ob ∧ a < 4096.
Proof using HT.
  intros HI Hp Ha. destruct (si_page _ _ _ _ _ HI p fl Hp) as (Hok & g & Hg & HP & Hc).
  split; [done|]. apply (pk_slots T g fl HP) in Ha as [ob Hob]. exists g, ob.
  split_and!; try done. eapply (slot_lt T HT g); [done|by rewrite Hob].
Qed.

(** ** Allocation *)
Lemma alloc_from_head_run q s m fls p xs :
  slab_inv q s m fls (p :: xs) → q = 0 ∨ q = p →
  ∃ a fl s' m' g ob, fls !! p = Some (a :: fl) ∧ is_slot T a ∧
    alloc_from_head T s m = Ok (Some (pointer p a), s', m') ∧
    slab_inv 0 s' m' (<[p := fl]> fls) (if decide (fl = []) then xs else p :: xs) ∧
    pages m !! p = Some g ∧ objects g !! a = Some ob ∧
    pages m' = <[p := mkPage (next ob) (alloc_count g + 1)
                        (<[a := handed_out T ob]> (objects g))]> (pages m).
Proof using HT.
  intros HI Hq. pose proof (proj1 (si_partial _ _ _ _ _ HI p) ltac:(left)) as (fl0 & Hfl & Hne).
  destruct fl0 as [|a fl]; [done|]. clear Hne.
  destruct (si_page _ _ _ _ _ HI p _ Hfl) as (Hok & g & Hg & HP & Hc).
  destruct (chain_slots _ _ _ (pk_chain T g _ HP) a ltac:(left)) as [ob Hob].
  assert (is_slot T a) as Hsl by (apply (pk_slots T g _ HP); by rewrite Hob).
  assert (a < 4096) as Hlt by (eapply (slot_lt T HT g); [done|by rewrite Hob]).
  pose proof (pk_objs T g _ HP a ob Hob) as Hoo. rewrite bool_decide_true in Hoo by left.
  pose proof (si_list _ _ _ _ _ HI) as Hd.
  set (g1 := mkPage (next ob) (alloc_count g + 1) (<[a := set_next 0 ob]> (objects g))).
  assert (∃ l' m2, (if bool_decide (fl = []) then remove (partial_list s) p (set_page p g1 m)
      else Ok (partial_list s, set_page p g1 m)) = Ok (l', m2) ∧
    pages m2 = <[p := g1]> (pages m) ∧ dom (links m2) = dom (links m) ∧
    dll (links m2) l' (if decide (fl = []) then xs else p :: xs)) as (l' & m2 & Hrm & Hpm & Hdom & Hd').
  { destruct (decide (fl = [])) as [He|He].
    - rewrite bool_decide_true by done.
      destruct (remove_run (set_page p g1 m) (partial_list s) [] p xs Hd) as (l' & m2 & -> & Hpg & Hd' & [Hdm _]).
      by exists l', m2.
    - rewrite bool_decide_false by done. by eexists _, _. }
  pose proof (slot_bounds T HT a Hsl) as [_ Hend].
  destruct (layout_spec T HT) as (_ & _ & _ & _ & _ & _ & _ & _ & _ & _ & _ & Hpo).
  exists a, fl. eexists _, _, g, ob. split; [done|]. split; [done|]. split; [|split; [|split_and!; [done|done|]]].
  - unfold alloc_from_head. rewrite (dll_head _ _ _ Hd). change (first_of 0 (p :: xs)) with p.
    rewrite (pop_run T HT m p g Hok Hg a fl ob HP Hob). mred. fold g1. rewrite Hrm. mred.
    assert (pages m2 !! p = Some g1) as Hg1 by (rewrite Hpm; apply lookup_insert_eq).
    assert (objects g1 !! a = Some (set_next 0 ob)) as Ha1 by apply lookup_insert_eq.
    rewrite (load_obj_run m2 p g1 Hok Hg1 a _ Hlt Ha1). mred. rewrite on_alloc_run by done. mred.
    rewrite (store_obj_run m2 p g1 Hok Hg1 a _ _ Hlt Ha1). mred. unfold payload_addr.
    destruct Hok as (_ & _ & Hw). rewrite checked_add_Ok by lia. mred. reflexivity.
  - eapply (slab_inv_update q s m fls (p :: xs) p (a :: fl)); try done.
    + cbn [pages set_page]. by rewrite Hpm, insert_insert_eq.
    + cbn [objects g1 free_index alloc_count]. rewrite insert_insert_eq. by apply page_ok_alloc.
    + simpl. lia.
    + intros x. pose proof (dll_nodup _ _ _ Hd) as [Hni _]%list.NoDup_cons.
      destruct (decide (x = p)) as [->|], (decide (fl = [])); set_solver.
  - cbn [pages set_page]. rewrite Hpm, insert_insert_eq. cbn [objects g1 free_index alloc_count].
    by rewrite insert_insert_eq.
Qed.

Lemma fresh_page_run s m fls :
  slab_inv 0 s m fls [] →
  (∃ s', alloc_page T s m = Ok (None, s', m) ∧ slab_inv 0 s' m fls []) ∨
  (∃ s' m' p g, alloc_page T s m = Ok (Some (), s', m') ∧ fls !! p = None ∧
     pages m' = <[p := g]> (pages m) ∧ page_addr_ok p ∧
     slab_inv p s' m' (<[p := all_slots T]> fls) [p]).
Proof using HT.
  intros HI. pose proof HI as [Hl Hpg Hpage Hlist Hpart Ho]. unfold alloc_page.
  destruct (allocate_ok _ _ Ho) as (r & pa & -> & Hr). mred. destruct r as [p|].
  2: { left. eexists. split; [done|]. by split. }
  right. destruct Hr as (Hni & Ho' & Hp1 & Hp2 & Hp3). apply not_elem_of_dom in Hni.
  destruct (page_init_run T HT p m Hp3) as (g & -> & HP & Hc). mred.
  set (m1 := set_page p g _).
  destruct (assign_singleton_run m1 (partial_list s) p) as (l' & m2 & -> & Hpm & Hd & [Hdom Hfr]);
    [simpl; by rewrite lookup_insert_eq|done|].
  mred. eexists _, m2, p, g. split; [done|]. split; [done|]. split; [by rewrite Hpm|].
  split; [done|]. split; simpl.
  - rewrite Hdom. simpl. rewrite !dom_insert_L. congruence.
  - rewrite Hpm. simpl. rewrite !dom_insert_L. congruence.
  - rewrite Hpm. simpl. intros p1 fl1 [[<- <-]|[Hne Hp1']]%lookup_insert_Some.
    + split; [done|]. exists g. rewrite lookup_insert_eq. done.
    + destruct (Hpage p1 fl1 Hp1') as (Ha & g1 & Hg1 & HP1 & Hc1). split; [done|]. exists g1.
      rewrite lookup_insert_ne by done. split_and!; [done|done|]. intros _. apply Hc1, Ha.
  - done.
  - intros x. rewrite list_elem_of_singleton. split.
    + intros ->. exists (all_slots T). rewrite lookup_insert_eq. split; [done|].
      intros He. pose proof (slot_count_bounds T HT). pose proof (pk_count T g _ HP) as Hn.
      rewrite He in Hn. unfold vlen in Hn. simpl in Hn. lia.
    + intros (fl & [[<- _]|[Hne Hx]]%lookup_insert_Some & Hfl); [done|].
      assert (x ∈ []) as Hbad by by (apply Hpart; eauto). by apply not_elem_of_nil in Hbad.
  - by rewrite dom_insert_L.
Qed.

(** [alloc] gives up where the page allocator does. *)
Lemma alloc_from_head_Some s m r s' m' : alloc_from_head T s m = Ok (r, s', m') → r ≠ None.
Proof.
  unfold alloc_from_head. intros Ha.
  repeat (apply bind_Ok_inv in Ha as (? & _ & Ha); repeat case_match; simplify_eq); done.
Qed.

Lemma slab_alloc_refused s m s' m' :
  alloc T s m = Ok (None, s', m') → allocate (page_allocator s) = Ok (None, page_allocator s').
Proof.
  unfold alloc. destruct (_ =? 0); [|by intros ?%alloc_from_head_Some].
  intros ([[r s1] m1] & Hp & Ha)%bind_Ok_inv. destruct r; [by apply alloc_from_head_Some in Ha|].
  simplify_eq. unfold alloc_page in Hp. apply bind_Ok_inv in Hp as ([[p|] pa] & Hal & Hp).
  - apply bind_Ok_inv in Hp as (? & _ & Hp). apply bind_Ok_inv in Hp as ([? ?] & _ & Hp). done.
  - by simplify_eq.
Qed.

(** The object [alloc] returns: the first free slot of a page of the list, or
    of a page just obtained. *)
Definition popped fls (p a : N) (fl : list N) : Prop :=
  fls !! p = Some (a :: fl) ∨ (fls !! p = None ∧ all_slots T = a :: fl).

Definition object_at (m : mem) (p a : N) : option SlotObject :=
  g ← pages m !! p; objects g !! a.

Lemma slab_alloc_run s m fls xs :
  slab_inv 0 s m fls xs →
  (∃ s', alloc T s m = Ok (None, s', m) ∧ xs = [] ∧ slab_inv 0 s' m fls []) ∨
  (∃ p a fl s' m' xs' ob, alloc T s m = Ok (Some (pointer p a), s', m') ∧
     popped fls p a fl ∧ is_slot T a ∧ (a ∉ fl) ∧ page_addr_ok p ∧
     slab_inv 0 s' m' (<[p := fl]> fls) xs' ∧
     object_at m' p a = Some (handed_out T ob) ∧
     (∀ p' a', is_Some (fls !! p') → (p', a') ≠ (p, a) → object_at m' p' a' = object_at m p' a')).
Proof using HT.
  intros HI. unfold alloc. rewrite (dll_head _ _ _ (si_list _ _ _ _ _ HI)).
  destruct xs as [|p xs].
  - change (first_of 0 [] =? 0) with true. cbn [first_of].
    destruct (fresh_page_run s m fls HI) as [(s' & -> & HI')|(s1 & m1 & p & g & -> & Hnone & Hpg & Hok & HI1)].
    { left. by exists s'. }
    mred. right. destruct (alloc_from_head_run p s1 m1 _ p [] HI1 (or_intror eq_refl))
      as (a & fl & s' & m' & g1 & ob & Hfl & Hsl & -> & HI' & Hg1 & Hob & Hpm).
    rewrite lookup_insert_eq in Hfl. injection Hfl as Hfl. rewrite insert_insert_eq in HI'.
    eexists p, a, fl, s', m', _, ob. split; [done|]. split_and!; [by right|done| |done|done|..].
    + destruct (si_page _ _ _ _ _ HI1 p _ (lookup_insert_eq _ _ _)) as (_ & g2 & _ & HP & _).
      rewrite Hfl in HP. by apply (pk_nodup T g2), list.NoDup_cons in HP as [].
    + unfold object_at. rewrite Hpm, lookup_insert_eq. simpl. apply lookup_insert_eq.
    + intros p' a' Hp' Hne. unfold object_at. rewrite Hpm, Hpg.
      assert (p' ≠ p) by (intros ->; rewrite Hnone in Hp'; by destruct Hp').
      by rewrite !lookup_insert_ne.
  - change (first_of 0 (p :: xs)) with p. pose proof (dll_null _ _ _ (si_list _ _ _ _ _ HI)) as H0'.
    destruct (N.eqb_spec p 0) as [->|_]; [set_solver|].
    right. destruct (alloc_from_head_run 0 s m fls p xs HI (or_introl eq_refl))
      as (a & fl & s' & m' & g1 & ob & Hfl & Hsl & -> & HI' & Hg1 & Hob & Hpm).
    destruct (si_page _ _ _ _ _ HI p _ Hfl) as (Hok & g2 & Hg2 & HP & _).
    eexists p, a, fl, s', m', _, ob. split; [done|]. split_and!; [by left|done| |done|done|..].
    + by apply (pk_nodup T g2), list.NoDup_cons in HP as [].
    + unfold object_at. rewrite Hpm, lookup_insert_eq. simpl. apply lookup_insert_eq.
    + intros p' a' _ Hne. unfold object_at. rewrite Hpm.
      destruct (decide (p' = p)) as [->|]; [|by rewrite lookup_insert_ne].
      rewrite lookup_insert_eq, Hg1. simpl. rewrite lookup_insert_ne; [done|]. congruence.
Qed.

(** ** Deallocation *)

(** A page without objects is taken off the list and given back. *)
Lemma slab_inv_delete s m fls xs p fl0 l' m' pa' xs' :
  slab_inv 0 s m fls xs → fls !! p = Some fl0 →
  pages m' = delete p (pages m) → dom (links m') = dom (links m) ∖ {[p]} →
  dll (links m') l' xs' → owns pa' (dom fls ∖ {[p]}) → (∀ x, x ∈ xs' ↔ x ≠ p ∧ x ∈ xs) →
  slab_inv 0 (mkSlab l' pa') m' (delete p fls) xs'.
Proof using Type.
  intros [Hl Hpg Hpage Hlist Hpart Ho] Hp Hm' Hlk Hd Ho' Hx. split; simpl.
  - rewrite Hlk, dom_delete_L. congruence.
  - rewrite Hm', !dom_delete_L. congruence.
  - intros p1 fl1 [Hne Hp1]%lookup_delete_Some. destruct (Hpage p1 fl1 Hp1) as (Ha & g1 & Hg1 & ?).
    split; [done|]. exists g1. by rewrite Hm', lookup_delete_ne.
  - done.
  - intros x. rewrite Hx, Hpart. setoid_rewrite lookup_delete_Some. naive_solver.
  - by rewrite dom_delete_L.
Qed.

(** The pages of the list do not depend on a page's link being there. *)
Lemma dll_delete lk l xs p : dll lk l xs → p ∉ xs → dll (delete p lk) l xs.
Proof using Type.
  intros [Hs Hh Ht Hnd H0'] Hp. split; try done. by apply seg_delete.
Qed.

(** [dealloc] up to the point where it looks at the page again. *)
Lemma slab_dealloc_unfold s m p a g ob :
  page_addr_ok p → pages m !! p = Some g → a < 4096 → objects g !! a = Some ob →
  obj_ok T false ob → 0 < alloc_count g →
  let g' := mkPage a (alloc_count g - 1) (<[a := taken_back T (free_index g) ob]> (objects g)) in
  let m1 := set_page p g' m in
  dealloc T s m (pointer p a) =
    if alloc_count g - 1 =? 0 then
      '(l, m) ← (if negb (free_index g =? 0) then remove (partial_list s) p m1
                 else Ok (partial_list s, m1));
      pa ← deallocate (page_allocator s) p;
      Ok (mkSlab l pa, forget_page p m)
    else if free_index g =? 0 then
      '(l, m) ← push_back (partial_list s) p m1; Ok (mkSlab l (page_allocator s), m)
    else Ok (s, m1).
Proof using HT.
  intros Hok Hg Hlt Hob Hoo Hc g' m1. pose proof Hok as (Hal & _ & Hw).
  unfold dealloc, pointer. rewrite checked_sub_Ok by lia. mred.
  replace (p + a + payload_offset T - payload_offset T) with (p + a) by lia.
  rewrite (load_obj_run m p g Hok Hg a ob Hlt Hob). mred. rewrite on_dealloc_run by done. mred.
  rewrite (store_obj_run m p g Hok Hg a ob _ Hlt Hob). mred.
  rewrite page_from_object_run by done. set (g1 := mkPage _ _ (<[a := taken_back T 0 ob]> _)).
  assert (pages (set_page p g1 m) !! p = Some g1) as Hg1 by apply lookup_insert_eq.
  rewrite Hg1. cbn [deref]. mred.
  rewrite (push_run (set_page p g1 m) p g1 Hok Hg1 a (taken_back T 0 ob));
    [|done|apply lookup_insert_eq|done].
  mred. rewrite set_page_set_page. cbn [g1 objects free_index alloc_count].
  rewrite insert_insert_eq. change (set_next (free_index g) (taken_back T 0 ob))
    with (taken_back T (free_index g) ob). cbn [pages set_page].
  rewrite lookup_insert_eq. cbn [deref]. mred. cbn [alloc_count]. reflexivity.
Qed.

(** The free slots after a slot was given back. *)
Definition given_back fls (p a : N) (fl : list N) : gmap N (list N) :=
  if vlen fl + 1 =? slot_count T then delete p fls else <[p := a :: fl]> fls.

(** The page is left without objects. *)
Lemma dealloc_last s m fls xs p fl g' :
  slab_inv 0 s m fls xs → fls !! p = Some fl → is_Some (pages m !! p) →
  let m1 := set_page p g' m in
  ∃ s' m' xs',
    ('(l, m) ← (if bool_decide (fl ≠ []) then remove (partial_list s) p m1
                else Ok (partial_list s, m1));
     pa ← deallocate (page_allocator s) p;
     Ok (mkSlab l pa, forget_page p m)) = Ok (s', m') ∧
    slab_inv 0 s' m' (delete p fls) xs' ∧ pages m' = delete p (pages m).
Proof using HT.
  intros HI Hfl Hpg m1. pose proof (si_list _ _ _ _ _ HI) as Hd.
  assert (p ∈ xs ↔ fl ≠ []) as Hpx by (rewrite (si_partial _ _ _ _ _ HI); naive_solver).
  assert (∃ l' m2 xs', (if bool_decide (fl ≠ []) then remove (partial_list s) p m1
      else Ok (partial_list s, m1)) = Ok (l', m2) ∧ pages m2 = pages m1 ∧
    dom (links m2) = dom (links m) ∧ dll (links m2) l' xs' ∧
    ∀ x, x ∈ xs' ↔ x ≠ p ∧ x ∈ xs) as (l' & m2 & xs' & -> & Hpm & Hdm & Hd' & Hx).
  { destruct (decide (fl ≠ [])) as [Hne|He].
    - rewrite bool_decide_true by done. apply Hpx, list_elem_of_split in Hne as (l1 & l2 & ->).
      destruct (remove_run m1 (partial_list s) l1 p l2 Hd) as (l' & m2 & -> & Hpm & Hd' & [Hdm _]).
      exists l', m2, (l1 ++ l2). split_and!; try done. intros x.
      pose proof (dll_nodup _ _ _ Hd) as (_ & Hni & [Hni2 _]%list.NoDup_cons)%list.NoDup_app.
      set_solver.
    - rewrite bool_decide_false by done. exists (partial_list s), m1, xs. split_and!; try done.
      intros x. naive_solver. }
  mred. assert (p ∈ dom fls) as Hpd by by apply elem_of_dom_2 in Hfl.
  destruct (deallocate_ok _ _ p (si_owns _ _ _ _ _ HI) Hpd) as (pa & -> & Ho). mred.
  assert (pages (forget_page p m2) = delete p (pages m)) as Hpd'.
  { simpl. rewrite Hpm. simpl. by rewrite delete_insert_eq. }
  eexists _, _, xs'. split; [done|]. split; [|done].
  apply (slab_inv_delete s m fls xs p fl); try done; simpl.
  - rewrite dom_delete_L. congruence.
  - apply dll_delete; [done|]. rewrite Hx. naive_solver.
Qed.

(** The page keeps an object: if it was full, it has a free slot now. *)
Lemma dealloc_keep s m fls xs p a fl g' :
  slab_inv 0 s m fls xs → fls !! p = Some fl → page_ok T g' (a :: fl) → 0 < alloc_count g' →
  let m1 := set_page p g' m in
  ∃ s' m' xs',
    (if bool_decide (fl = []) then
       '(l, m) ← push_back (partial_list s) p m1; Ok (mkSlab l (page_allocator s), m)
     else Ok (s, m1)) = Ok (s', m') ∧
    slab_inv 0 s' m' (<[p := a :: fl]> fls) xs' ∧ pages m' = <[p := g']> (pages m).
Proof using HT.
  intros HI Hfl HP Hc m1. pose proof (si_list _ _ _ _ _ HI) as Hd.
  assert (p ∈ xs ↔ fl ≠ []) as Hpx by (rewrite (si_partial _ _ _ _ _ HI); naive_solver).
  destruct (decide (fl = [])) as [He|Hne].
  - rewrite bool_decide_true by done.
    destruct (push_back_run m1 (partial_list s) xs p Hd) as (l' & m2 & -> & Hpm & Hd' & [Hdm _]).
    { apply elem_of_dom. simpl. rewrite (si_links _ _ _ _ _ HI). by apply elem_of_dom_2 in Hfl. }
    { by destruct (si_page _ _ _ _ _ HI p fl Hfl) as ((_ & ? & _) & _). }
    { naive_solver. }
    mred. eexists _, _, _. split; [done|]. split; [|done].
    eapply (slab_inv_update 0 s m fls xs p fl); try done; [by left|by rewrite Hpm|].
    intros x. destruct (decide (x = p)); set_solver.
  - rewrite bool_decide_false by done. eexists _, _, xs. split; [done|]. split; [|done].
    destruct s as [l pa]. eapply (slab_inv_update 0 (mkSlab l pa) m fls xs p fl); try done; [by left|].
    intros x. destruct (decide (x = p)); naive_solver.
Qed.

Lemma slab_dealloc_run s m fls xs p a fl :
  slab_inv 0 s m fls xs → fls !! p = Some fl → is_slot T a → a ∉ fl →
  ∃ s' m' xs', dealloc T s m (pointer p a) = Ok (s', m') ∧
    slab_inv 0 s' m' (given_back fls p a fl) xs' ∧
    (∀ p' a', is_Some (given_back fls p a fl !! p') → (p', a') ≠ (p, a) →
       object_at m' p' a' = object_at m p' a').
Proof using HT.
  intros HI Hfl Hsl Hni.
  destruct (slab_inv_obj 0 s m fls xs p fl a HI Hfl Hsl) as (Hok & g & ob & Hg & HP & Hc & Hob & Hlt).
  specialize (Hc (proj1 (proj2 Hok))). pose proof (pk_count T g fl HP) as Hn.
  pose proof (pk_objs T g fl HP a ob Hob) as Hoo. rewrite bool_decide_false in Hoo by done.
  rewrite (slab_dealloc_unfold s m p a g ob) by done. cbv zeta.
  set (g' := mkPage a _ _). unfold given_back.
  pose proof (page_ok_free_index T HT g fl HP) as Hfi.
  destruct (N.eqb_spec (alloc_count g - 1) 0) as [Hz|Hz].
  - replace (vlen fl + 1 =? slot_count T) with true by (symmetry; apply N.eqb_eq; lia).
    replace (negb (free_index g =? 0)) with (bool_decide (fl ≠ [])).
    2: { destruct (N.eqb_spec (free_index g) 0); apply bool_decide_eq_true || apply bool_decide_eq_false;
         naive_solver. }
    destruct (dealloc_last s m fls xs p fl g' HI Hfl ltac:(by rewrite Hg)) as (s' & m' & xs' & -> & HI' & Hpm).
    exists s', m', xs'. split_and!; [done|done|]. intros p' a' [? [Hne _]%lookup_delete_Some] _.
    unfold object_at. by rewrite Hpm, lookup_delete_ne.
  - replace (vlen fl + 1 =? slot_count T) with false by (symmetry; apply N.eqb_neq; lia).
    replace (free_index g =? 0) with (bool_decide (fl = [])).
    2: { destruct (N.eqb_spec (free_index g) 0); apply bool_decide_eq_true || apply bool_decide_eq_false;
         naive_solver. }
    destruct (dealloc_keep s m fls xs p a fl g' HI Hfl) as (s' & m' & xs' & -> & HI' & Hpm).
    { by apply page_ok_dealloc. }
    { simpl. lia. }
    exists s', m', xs'. split_and!; [done|done|]. intros p' a' _ Hne. unfold object_at. rewrite Hpm.
    destruct (decide (p' = p)) as [->|]; [|by rewrite lookup_insert_ne].
    rewrite lookup_insert_eq, Hg. simpl. rewrite lookup_insert_ne; [done|]. congruence.
Qed.
End slab.

End SlabAlloc.
