(* ===== verification/SlabSpec.v ===== *)
(** * The slab allocator: what its clients rely on

    [reachable pa0 s m live]: starting with the page allocator [pa0], a client
    allocated and freed objects and wrote to the payloads it held; [live] maps
    the pointers it holds to what it last wrote there.  The theorems hold for
    every such history, over any page allocator with the trait's contract. *)
From stdpp Require Import gmap.
From S2P Require Import Prelude Slab SlabList SlabPage SlabAlloc.
Import Slab SlabList SlabPage SlabAlloc.
Local Open Scope N_scope.

Module SlabSpec.

(** What a client does with a payload pointer. *)
Definition set_payload (bs : list N) (o : SlotObject) : SlotObject :=
  mkObj (magic o) (next o) (redzone1 o) bs (redzone2 o).
Definition read_payload (T : TypeLayout) (m : mem) (ptr : N) : result (list N) :=
  obj ← checked_sub ptr (payload_offset T); o ← load_obj m obj; Ok (payload o).
Definition write_payload (T : TypeLayout) (m : mem) (ptr : N) (bs : list N) : result mem :=
  obj ← checked_sub ptr (payload_offset T); o ← load_obj m obj; store_obj obj (set_payload bs o) m.

Definition empty_mem : mem := mkMem ∅ ∅.

(** A list longer than another has an element the other lacks. *)
Lemma list_exists_fresh (l k : list N) :
  NoDup l → (length k < length l)%nat → ∃ x, x ∈ l ∧ x ∉ k.
Proof.
  intros Hl Hlen. destruct (decide (Forall (λ x, x ∈ k) l)) as [Hall|Hno].
  - rewrite list.Forall_forall in Hall.
    pose proof (submseteq_length _ _ (NoDup_submseteq l k Hl Hall)). lia.
  - apply not_Forall_Exists in Hno; [|apply _]. apply list.Exists_exists in Hno as (x & Hx & Hn). eauto.
Qed.

Section client.
Context `{PageAllocatorOk PA} (T : TypeLayout).

Inductive reachable (pa0 : PA) : SlabAllocator PA → mem → gmap N (list N) → Prop :=
  | reach_new : reachable pa0 (slab_new pa0) empty_mem ∅
  | reach_alloc s m live ptr s' m' :
      reachable pa0 s m live → alloc T s m = Ok (Some ptr, s', m') →
      reachable pa0 s' m' (<[ptr := write_bytes 0 (size_of_T T)]> live)
  | reach_refused s m live s' m' :
      reachable pa0 s m live → alloc T s m = Ok (None, s', m') → reachable pa0 s' m' live
  | reach_dealloc s m live ptr s' m' :
      reachable pa0 s m live → is_Some (live !! ptr) → dealloc T s m ptr = Ok (s', m') →
      reachable pa0 s' m' (delete ptr live)
  | reach_write s m live ptr bs m' :
      reachable pa0 s m live → is_Some (live !! ptr) → vlen bs = size_of_T T →
      write_payload T m ptr bs = Ok m' → reachable pa0 s m' (<[ptr := bs]> live).

Context (HT : layout_ok T).

Record client s m (fls : gmap N (list N)) xs (live : gmap N (list N)) : Prop := {
  cl_inv : slab_inv T 0 s m fls xs;
  cl_live ptr : is_Some (live !! ptr) ↔ is_live T fls ptr;
  cl_contents p a bs : is_Some (fls !! p) → is_slot T a → live !! pointer T p a = Some bs →
    payload <$> object_at m p a = Some bs;
}.

Lemma pointer_inj p a p' a' :
  page_addr_ok p → page_addr_ok p' → a < 4096 → a' < 4096 →
  pointer T p a = pointer T p' a' → p = p' ∧ a = a'.
Proof using Type. unfold pointer, page_addr_ok. lia. Qed.

Lemma slot_4096 a : is_slot T a → a < 4096.
Proof using HT.
  intros Ha. destruct (slot_bounds T HT a Ha). pose proof (object_size_min T HT). lia.
Qed.

(** Pointers to slots of pages determine page and slot. *)
Lemma slab_pointer_inj s m fls xs p a p' a' :
  slab_inv T 0 s m fls xs → is_Some (fls !! p) → is_Some (fls !! p') →
  is_slot T a → is_slot T a' → pointer T p a = pointer T p' a' → p = p' ∧ a = a'.
Proof using HT.
  intros HI [fl Hp] [fl' Hp'] Ha Ha'. apply pointer_inj; try by apply slot_4096.
  - by apply (si_page _ _ _ _ _ _ HI p fl).
  - by apply (si_page _ _ _ _ _ _ HI p' fl').
Qed.

(** The live objects after a slot of page [p] was popped. *)
Lemma live_popped s m fls xs p a fl ptr :
  slab_inv T 0 s m (<[p := fl]> fls) xs → popped T fls p a fl → is_slot T a → a ∉ fl →
  is_live T (<[p := fl]> fls) ptr ↔ ptr = pointer T p a ∨ is_live T fls ptr.
Proof using HT.
  intros HI Hpop Ha Hni. unfold is_live. split.
  - intros (p' & a' & fl' & [[<- <-]|[Hne Hp']]%lookup_insert_Some & Ha' & Hni' & ->).
    + destruct (decide (a' = a)) as [->|Hne]; [by left|right].
      destruct Hpop as [Hp|[Hp Hall]].
      * exists p, a', (a :: fl). set_solver.
      * apply (elem_of_all_slots T) in Ha'. rewrite Hall in Ha'. set_solver.
    + right. by exists p', a', fl'.
  - intros [->|(p' & a' & fl' & Hp' & Ha' & Hni' & ->)].
    + exists p, a, fl. by rewrite lookup_insert_eq.
    + destruct (decide (p' = p)) as [->|Hne].
      * destruct Hpop as [Hp|[Hp _]]; simplify_eq. exists p, a', fl. rewrite lookup_insert_eq. set_solver.
      * exists p', a', fl'. by rewrite lookup_insert_ne.
Qed.

Lemma not_live_popped s m fls xs p a fl :
  slab_inv T 0 s m (<[p := fl]> fls) xs → popped T fls p a fl → is_slot T a →
  ¬ is_live T fls (pointer T p a).
Proof using HT.
  intros HI Hpop Ha (p' & a' & fl' & Hp' & Ha' & Hni' & Heq).
  assert (∀ q, is_Some (fls !! q) → is_Some (<[p := fl]> fls !! q)) as Hmono.
  { intros q Hq. rewrite lookup_insert. by case_decide. }
  destruct (slab_pointer_inj s m (<[p := fl]> fls) xs p a p' a') as [<- <-]; try done.
  - by rewrite lookup_insert_eq.
  - apply Hmono. by rewrite Hp'.
  - destruct Hpop as [Hp|[Hp _]]; simplify_eq. set_solver.
Qed.

Lemma slab_client_alloc s m fls xs live :
  client s m fls xs live →
  (∃ s', alloc T s m = Ok (None, s', m) ∧ xs = [] ∧ client s' m fls [] live) ∨
  (∃ ptr s' m' fls' xs', alloc T s m = Ok (Some ptr, s', m') ∧ live !! ptr = None ∧
     client s' m' fls' xs' (<[ptr := write_bytes 0 (size_of_T T)]> live)).
Proof using HT.
  intros [HI Hl Hc].
  destruct (slab_alloc_run T HT s m fls xs HI) as [(s' & Hal & Hx & HI')|
    (p & a & fl & s' & m' & xs' & ob & Hal & Hpop & Ha & Hni & Hok & HI' & Hob & Hfr)].
  - left. exists s'. by split_and!.
  - right. pose proof (not_live_popped _ _ _ _ _ _ _ HI' Hpop Ha) as Hnl.
    eexists _, s', m', (<[p := fl]> fls), xs'. split; [done|]. split; [|split].
    + apply eq_None_not_Some. by rewrite Hl.
    + done.
    + intros ptr. rewrite lookup_insert_is_Some, Hl, live_popped by done.
      destruct (decide (pointer T p a = ptr)) as [<-|]; naive_solver.
    + intros p' a' bs Hp' Ha' [[Heq <-]|[Hne Hbs]]%lookup_insert_Some.
      * destruct (slab_pointer_inj s' m' (<[p := fl]> fls) xs' p a p' a') as [<- <-]; try done.
        { by rewrite lookup_insert_eq. }
        by rewrite Hob.
      * assert ((p', a') ≠ (p, a)) as Hne' by (intros [= -> ->]; done).
        assert (is_Some (fls !! p')) as Hp''.
        { destruct (proj1 (Hl _) ltac:(by rewrite Hbs)) as (q & b & flq & Hq & Hb & _ & Heq).
          destruct (slab_pointer_inj s' m' (<[p := fl]> fls) xs' p' a' q b) as [<- <-]; try done.
          { rewrite lookup_insert. case_decide; [done|]. by rewrite Hq. }
        }
        rewrite Hfr by done. by apply Hc.
Qed.

(** A full set of free slots has all slots. *)
Lemma all_free g fl a b :
  page_ok T g fl → is_slot T a → a ∉ fl → vlen fl + 1 = slot_count T → is_slot T b → b ∉ fl → b = a.
Proof using HT.
  intros HP Ha Hni Hn Hb Hnb. assert (a :: fl ≡ₚ all_slots T) as Hperm.
  { apply submseteq_length_Permutation.
    - apply NoDup_submseteq; [apply list.NoDup_cons; split; [done|apply (pk_nodup T g fl HP)]|].
      intros x Hx. apply elem_of_all_slots. apply elem_of_cons in Hx as [->|Hx]; [done|].
      apply (pk_slots T g fl HP). by apply (chain_slots _ _ _ (pk_chain T g fl HP)).
    - unfold all_slots, vlen in *. rewrite length_fmap, length_range. simpl. lia. }
  apply (elem_of_all_slots T) in Hb. rewrite <-Hperm in Hb. set_solver.
Qed.

Lemma live_given_back s m fls xs p a fl ptr :
  slab_inv T 0 s m fls xs → fls !! p = Some fl → is_slot T a → a ∉ fl →
  is_live T (given_back T fls p a fl) ptr ↔ ptr ≠ pointer T p a ∧ is_live T fls ptr.
Proof using HT.
  intros HI Hp Ha Hni. destruct (si_page _ _ _ _ _ _ HI p fl Hp) as (_ & g & _ & HP & _).
  assert (∀ p' a', is_Some (fls !! p') → is_slot T a' →
    pointer T p' a' = pointer T p a → p' = p ∧ a' = a) as Hinj.
  { intros p' a' Hp' Ha'. apply (slab_pointer_inj s m fls xs p' a' p a); done. }
  unfold given_back, is_live. destruct (N.eqb_spec (vlen fl + 1) (slot_count T)) as [Hn|Hn]; split.
  - intros (p' & a' & fl' & [Hne Hp']%lookup_delete_Some & Ha' & Hni' & ->). split; [|by exists p', a', fl'].
    intros Heq. destruct (Hinj p' a') as [-> ->]; [by rewrite Hp'|done|done|done].
  - intros [Hne (p' & a' & fl' & Hp' & Ha' & Hni' & ->)]. exists p', a', fl'.
    rewrite lookup_delete_ne; [done|]. intros <-. simplify_eq.
    by rewrite (all_free g fl a a' HP Ha Hni Hn Ha' Hni') in Hne.
  - intros (p' & a' & fl' & [[<- <-]|[Hne Hp']]%lookup_insert_Some & Ha' & Hni' & ->).
    + split; [|exists p, a', fl; set_solver]. intros Heq.
      destruct (Hinj p a') as [_ ->]; [by rewrite Hp|done|done|]. set_solver.
    + split; [|by exists p', a', fl']. intros Heq.
      destruct (Hinj p' a') as [-> ->]; [by rewrite Hp'|done|done|done].
  - intros [Hne (p' & a' & fl' & Hp' & Ha' & Hni' & ->)].
    destruct (decide (p' = p)) as [->|Hpne]; simplify_eq.
    + exists p, a', (a :: fl). rewrite lookup_insert_eq. split_and!; try done.
      apply not_elem_of_cons. split; [|done]. intros ->. done.
    + exists p', a', fl'. by rewrite lookup_insert_ne.
Qed.

Lemma slab_client_dealloc s m fls xs live ptr :
  client s m fls xs live → is_Some (live !! ptr) →
  ∃ s' m' fls' xs', dealloc T s m ptr = Ok (s', m') ∧ client s' m' fls' xs' (delete ptr live).
Proof using HT.
  intros [HI Hl Hc] (p & a & fl & Hp & Ha & Hni & ->)%Hl.
  destruct (slab_dealloc_run T HT s m fls xs p a fl HI Hp Ha Hni) as (s' & m' & xs' & Hrun & HI' & Hfr).
  exists s', m', (given_back T fls p a fl), xs'. split; [done|]. split; [done| |].
  - intros ptr. rewrite (live_given_back s m fls xs) by done. rewrite <-Hl, lookup_delete_is_Some.
    naive_solver.
  - intros p' a' bs Hp' Ha' [Hne Hbs]%lookup_delete_Some. rewrite Hfr; [|done|by intros [= -> ->]].
    apply Hc; [|done|done]. unfold given_back in Hp'.
    destruct (vlen fl + 1 =? slot_count T); [by destruct Hp' as [? [_ Hp']%lookup_delete_Some]|].
    rewrite lookup_insert in Hp'. case_decide; [subst; by rewrite Hp|done].
Qed.

Lemma object_load p a g m o :
  page_addr_ok p → pages m !! p = Some g → a < 4096 → objects g !! a = Some o →
  load_obj m (pointer T p a - payload_offset T) = Ok o.
Proof using Type.
  intros Hok Hg Ha Ho. unfold pointer. replace (p + a + _ - _) with (p + a) by lia.
  by apply (load_obj_run m p g Hok Hg).
Qed.

(** A write to the payload changes nothing else. *)
Lemma client_write s m fls xs live ptr bs :
  client s m fls xs live → is_Some (live !! ptr) → vlen bs = size_of_T T →
  ∃ m', write_payload T m ptr bs = Ok m' ∧ client s m' fls xs (<[ptr := bs]> live).
Proof using HT.
  intros [HI Hl Hc] Hptr Hbs. pose proof (proj1 (Hl ptr) Hptr) as (p & a & fl & Hp & Ha & Hni & ->).
  destruct (slab_inv_obj T HT 0 s m fls xs p fl a HI Hp Ha) as (Hok & g & ob & Hg & HP & Hcnt & Hob & Hlt).
  set (g' := mkPage (free_index g) (alloc_count g) (<[a := set_payload bs ob]> (objects g))).
  exists (set_page p g' m). split.
  { unfold write_payload. rewrite checked_sub_Ok by (unfold pointer; lia). mred.
    rewrite (object_load p a g m ob) by done. mred. unfold pointer.
    replace (p + a + _ - _) with (p + a) by lia. by rewrite (store_obj_run m p g Hok Hg a ob). }
  assert (page_ok T g' fl) as HP'.
  { pose proof HP as [Hs Hch Hnd Hobj Hn]. split; simpl; [|by apply chain_frame|done| |done].
    - by apply (slots_insert T g a _ fl).
    - intros off o [[<- <-]|[Hne Hoff]]%lookup_insert_Some; [|by apply Hobj].
      specialize (Hobj a ob Hob). rewrite bool_decide_false in * by done. by destruct Hobj. }
  split.
  - pose proof HI as [H1 H2 H3 H4 H5 H6]. split; simpl; try done.
    + rewrite dom_insert_L, H2. apply elem_of_dom_2 in Hp. set_solver.
    + intros p1 fl1 Hp1. destruct (decide (p1 = p)) as [->|Hne].
      * simplify_eq. split; [done|]. exists g'. by rewrite lookup_insert_eq.
      * rewrite lookup_insert_ne by done. by apply H3.
  - intros ptr. rewrite lookup_insert_is_Some, <-Hl.
    destruct (decide (pointer T p a = ptr)) as [<-|]; naive_solver.
  - intros p' a' bs' Hp' Ha' Hlv. unfold object_at. simpl.
    destruct (decide ((p', a') = (p, a))) as [[= -> ->]|Hne].
    + rewrite lookup_insert_eq in Hlv. rewrite lookup_insert_eq. simpl. rewrite lookup_insert_eq. simpl. congruence.
    + rewrite lookup_insert_ne in Hlv.
      2: { intros Heq. destruct (slab_pointer_inj s m fls xs p a p' a'); try done; congruence. }
      specialize (Hc p' a' bs' Hp' Ha' Hlv). unfold object_at in Hc.
      destruct (decide (p' = p)) as [->|]; [|by rewrite lookup_insert_ne].
      rewrite lookup_insert_eq. rewrite Hg in Hc. simpl in *. rewrite lookup_insert_ne; congruence.
Qed.

Lemma slab_reachable_client pa0 s m live :
  owns pa0 ∅ → reachable pa0 s m live → ∃ fls xs, client s m fls xs live.
Proof using HT.
  intros Ho Hr. induction Hr as [|s m live ptr s' m' Hr (fls & xs & HC) Hal
    |s m live s' m' Hr (fls & xs & HC) Hal|s m live ptr s' m' Hr (fls & xs & HC) Hptr Hd
    |s m live ptr bs m' Hr (fls & xs & HC) Hptr Hbs Hw].
  - exists ∅, []. split; [split|..]; simpl; try done.
    + split; try done; [constructor|apply not_elem_of_nil].
    + intros p. rewrite elem_of_nil. split; [done|]. by intros (fl & ? & _).
    + intros ptr. split; [by intros [? ?]|]. by intros (? & ? & ? & ? & _).
  - destruct (slab_client_alloc s m fls xs live HC) as [(s1 & Hal' & _)|(q & s1 & m1 & fls' & xs' & Hal' & _ & HC')];
      [congruence|]. rewrite Hal in Hal'. simplify_eq. eauto.
  - destruct (slab_client_alloc s m fls xs live HC) as [(s1 & Hal' & _ & HC')|(q & s1 & m1 & fls' & xs' & Hal' & _)];
      [|congruence]. rewrite Hal in Hal'. simplify_eq. eauto.
  - destruct (slab_client_dealloc s m fls xs live ptr HC Hptr) as (s1 & m1 & fls' & xs' & Hd' & HC').
    rewrite Hd in Hd'. simplify_eq. eauto.
  - destruct (client_write s m fls xs live ptr bs HC Hptr Hbs) as (m1 & Hw' & HC').
    rewrite Hw in Hw'. simplify_eq. eauto.
Qed.
End client.

Lemma forallb_exists_ne b l : Exists (λ x, x ≠ b) l → forallb (λ x, x =? b) l = false.
Proof.
  induction 1 as [x l Hx|x l _ IH]; simpl; [by apply N.eqb_neq in Hx as ->|].
  rewrite IH. apply andb_false_r.
Qed.

(** The next free slot holds something else than the fill: [alloc] notices. *)
Lemma alloc_poisoned `{PageAllocatorOk PA} T (HT : layout_ok T) s m fls p xs g a fl ob bs :
  slab_inv T 0 s m fls (p :: xs) → page_addr_ok p → pages m !! p = Some g →
  page_ok T g (a :: fl) → objects g !! a = Some ob → 24 ≤ a < 4096 → obj_ok T true ob →
  Exists (λ b, b ≠ UNUSED_FILL) bs →
  alloc T s (set_page p (mkPage (free_index g) (alloc_count g)
    (<[a := set_payload bs ob]> (objects g))) m) = Panic Assertion.
Proof.
  intros HI Hok Hg HP Hob Ha Hoo Hex. set (ob1 := set_payload bs ob). set (g1 := mkPage _ _ _).
  set (m1 := set_page p g1 m). pose proof (si_list _ _ _ _ _ _ HI) as Hd.
  pose proof (slot_count_bounds T HT). pose proof (pk_count T g _ HP) as Hn.
  unfold alloc. rewrite (dll_head _ _ _ Hd). change (first_of 0 (p :: xs)) with p.
  destruct (N.eqb_spec p 0) as [->|_]; [by destruct Hok as (_ & ? & _)|].
  unfold alloc_from_head. rewrite (dll_head _ _ _ Hd). change (first_of 0 (p :: xs)) with p.
  rewrite (pop_unfold m1 p g1 Hok (lookup_insert_eq _ _ _) a ob1);
    [|apply (pk_chain T g _ HP)|lia|apply lookup_insert_eq|cbn; lia].
  mred. set (g2 := mkPage _ _ (<[a := set_next 0 ob1]> _)).
  assert (∃ l' m2, (if next ob1 =? 0 then remove (partial_list s) p (set_page p g2 m1)
    else Ok (partial_list s, set_page p g2 m1)) = Ok (l', m2) ∧ pages m2 !! p = Some g2)
    as (l' & m2 & -> & Hg2).
  { destruct (next ob1 =? 0).
    - destruct (remove_run (set_page p g2 m1) (partial_list s) [] p xs Hd) as (l' & m2 & -> & Hpm & _).
      exists l', m2. split; [done|]. rewrite Hpm. apply lookup_insert_eq.
    - eexists _, _. split; [done|]. apply lookup_insert_eq. }
  mred. rewrite (load_obj_run m2 p g2 Hok Hg2 a (set_next 0 ob1)); [|lia|apply lookup_insert_eq].
  mred. pose proof (check_redzone_ok T true ob Hoo) as Hr. destruct Hoo as [_ _ _ [Hm _]].
  unfold on_alloc, check_unused. cbn [magic next set_next ob1 set_payload payload].
  rewrite Hm. change (check_redzone (set_next 0 ob1)) with (check_redzone ob). rewrite Hr.
  by rewrite forallb_exists_ne.
Qed.

(** ** The guarantees *)
Section guarantees.
Context `{PageAllocatorOk PA} (T : TypeLayout) (HT : layout_ok T).
Context (pa0 : PA) (s : SlabAllocator PA) (m : mem) (live : gmap N (list N)).
Context (Howns : owns pa0 ∅).

(** C4: neither [alloc], nor the [dealloc] of a pointer in use, nor a write to
    its payload ever panics or touches memory that is not an object; a pointer
    [alloc] returns was not in use. *)
Theorem slab_never_panics (Hreach : reachable T pa0 s m live) :
  (∃ r s' m', alloc T s m = Ok (r, s', m') ∧ ∀ ptr, r = Some ptr → live !! ptr = None) ∧
  (∀ ptr, is_Some (live !! ptr) → ∃ s' m', dealloc T s m ptr = Ok (s', m')) ∧
  (∀ ptr bs, is_Some (live !! ptr) → vlen bs = size_of_T T → ∃ m', write_payload T m ptr bs = Ok m').
Proof using HT Howns.
  destruct (slab_reachable_client T HT pa0 s m live Howns Hreach) as (fls & xs & HC). split_and!.
  - destruct (slab_client_alloc T HT s m fls xs live HC) as [(s' & -> & _)|(p & s' & m' & _ & _ & -> & Hn & _)].
    + by exists None, s', m.
    + exists (Some p), s', m'. split; [done|]. by intros ? [= <-].
  - intros ptr Hptr. destruct (slab_client_dealloc T HT s m fls xs live ptr HC Hptr) as (s' & m' & _ & _ & -> & _).
    eauto.
  - intros ptr bs Hptr Hbs. destruct (client_write T HT s m fls xs live ptr bs HC Hptr Hbs) as (m' & -> & _).
    eauto.
Qed.

(** C2: the payloads in use are aligned for their type, and any two of them
    are at least a red zone apart. *)
Theorem slab_live_disjoint (Hreach : reachable T pa0 s m live) ptr ptr' :
  is_Some (live !! ptr) → is_Some (live !! ptr') →
  (align_of_T T | ptr) ∧
  (ptr ≠ ptr' → ptr + size_of_T T + REDZONE_SIZE ≤ ptr' ∨ ptr' + size_of_T T + REDZONE_SIZE ≤ ptr).
Proof using HT Howns.
  destruct (slab_reachable_client T HT pa0 s m live Howns Hreach) as (fls & xs & [HI Hl _]).
  intros (p & a & fl & Hp & Ha & _ & ->)%Hl (p' & a' & fl' & Hp' & Ha' & _ & ->)%Hl.
  destruct (si_page _ _ _ _ _ _ HI p fl Hp) as ((Hpm & _ & _) & _).
  destruct (si_page _ _ _ _ _ _ HI p' fl' Hp') as ((Hpm' & _ & _) & _).
  pose proof (slot_bounds T HT a Ha). pose proof (slot_bounds T HT a' Ha').
  destruct (layout_spec T HT) as (_ & _ & _ & _ & _ & _ & _ & Hoff & Hmin & Hfit & _ & Hsz).
  unfold pointer, REDZONE_SIZE. split.
  - rewrite <-N.add_assoc. apply N.divide_add_r; [|by apply slot_aligned].
    apply (N.divide_trans _ 4096); [|exists (p / 4096); lia].
    destruct (lo_align T HT) as (k & _ & Hk). rewrite Hk in *.
    change 4096 with (2 ^ 12). apply pow2_le. destruct (N.le_gt_cases k 12) as [|Hgt]; [done|].
    assert (2 ^ k ≤ object_offset T) by (apply N.divide_pos_le; [lia|done]).
    assert (2 ^ 13 ≤ 2 ^ k) by (apply N.pow_le_mono_r; lia). change (2 ^ 13) with 8192 in *. lia.
  - intros Hne. destruct (decide (p = p')) as [<-|Hpne].
    + destruct (slot_apart T a a' Ha Ha') as [?|?]; [congruence|left; lia|right; lia].
    + destruct (N.lt_ge_cases p p'); [left|right]; lia.
Qed.

(** C32: a payload in use holds what the client last wrote there, zeroes after
    [alloc]; the allocator never changes it. *)
Theorem slab_contents (Hreach : reachable T pa0 s m live) ptr bs :
  live !! ptr = Some bs → read_payload T m ptr = Ok bs.
Proof using HT Howns.
  destruct (slab_reachable_client T HT pa0 s m live Howns Hreach) as (fls & xs & [HI Hl Hc]).
  intros Hbs. destruct (proj1 (Hl ptr) ltac:(by rewrite Hbs)) as (p & a & fl & Hp & Ha & Hni & ->).
  destruct (slab_inv_obj T HT 0 s m fls xs p fl a HI Hp Ha) as (Hok & g & ob & Hg & _ & _ & Hob & Hlt).
  specialize (Hc p a bs ltac:(by rewrite Hp) Ha Hbs). unfold object_at in Hc. rewrite Hg in Hc.
  simpl in Hc. rewrite Hob in Hc. injection Hc as Hc. unfold read_payload.
  rewrite checked_sub_Ok by (unfold pointer; lia). mred.
  rewrite (object_load T p a g m ob) by done. mred. by rewrite Hc.
Qed.

(** C33: every page kept has an object in use: when the last object of a page
    is freed the page goes back to the page allocator.  With nothing in use,
    no page is kept and the list is empty. *)
Theorem slab_pages_in_use (Hreach : reachable T pa0 s m live) :
  (∀ p, is_Some (pages m !! p) → ∃ ptr, is_Some (live !! ptr) ∧ p ≤ ptr < p + PAGE_SIZE) ∧
  (live = ∅ → pages m = ∅ ∧ owns (page_allocator s) ∅ ∧ partial_list s = list_new).
Proof using HT Howns.
  destruct (slab_reachable_client T HT pa0 s m live Howns Hreach) as (fls & xs & [HI Hl _]).
  assert (∀ p, is_Some (pages m !! p) →
    ∃ ptr, is_Some (live !! ptr) ∧ p ≤ ptr < p + PAGE_SIZE) as Huse.
  { intros p [g Hg]. assert (p ∈ dom fls) as [fl Hp]%elem_of_dom.
    { rewrite <-(si_pages _ _ _ _ _ _ HI). by apply elem_of_dom_2 in Hg. }
    destruct (si_page _ _ _ _ _ _ HI p fl Hp) as ((_ & H0' & _) & g' & Hg' & HP & Hc).
    simplify_eq. specialize (Hc H0'). pose proof (pk_count T g fl HP) as Hn.
    destruct (list_exists_fresh (all_slots T) fl) as (a & Ha & Hni).
    { unfold all_slots. apply NoDup_fmap_2_strong; [intros ? ? _ _; by apply slot_inj|].
      unfold range. apply NoDup_fmap; [apply _|apply NoDup_seq]. }
    { unfold all_slots, vlen in *. rewrite length_fmap, length_range. lia. }
    apply elem_of_all_slots in Ha. exists (pointer T p a). split.
    - apply Hl. by exists p, a, fl.
    - destruct (slot_bounds T HT a Ha) as [_ Hend].
      destruct (layout_spec T HT) as (_ & _ & _ & _ & _ & _ & _ & _ & _ & _ & _ & Hsz).
      unfold pointer, PAGE_SIZE. lia. }
  split; [done|]. intros ->. assert (pages m = ∅) as Hpe.
  { apply map_empty. intros p. apply eq_None_not_Some. intros Hp%Huse.
    destruct Hp as (ptr & [bs Hbs] & _). by rewrite lookup_empty in Hbs. }
  assert (fls = ∅) as ->.
  { apply dom_empty_iff_L. rewrite <-(si_pages _ _ _ _ _ _ HI), Hpe. apply dom_empty_L. }
  pose proof (si_owns _ _ _ _ _ _ HI) as Ho. rewrite dom_empty_L in Ho. split_and!; [done|done|].
  assert (xs = []) as ->.
  { destruct xs as [|x xs]; [done|]. destruct (proj1 (si_partial _ _ _ _ _ _ HI x) ltac:(left)) as (fl & Hf & _).
    by rewrite lookup_empty in Hf. }
  destruct (si_list _ _ _ _ _ _ HI) as [_ Hh Ht _ _]. destruct (partial_list s). simpl in *. by subst.
Qed.

(** C34: [alloc] gives up only if the page allocator has no page and every slot
    of every page kept is in use; memory is then left as it was. *)
Theorem slab_refused (Hreach : reachable T pa0 s m live) s' m' :
  alloc T s m = Ok (None, s', m') →
  m' = m ∧ allocate (page_allocator s) = Ok (None, page_allocator s') ∧
  ∀ p a, is_Some (pages m !! p) → is_slot T a → is_Some (live !! pointer T p a).
Proof using HT Howns.
  intros Hal. destruct (slab_reachable_client T HT pa0 s m live Howns Hreach) as (fls & xs & HC).
  destruct (slab_client_alloc T HT s m fls xs live HC) as [(s1 & Hal' & Hx & _)|(? & ? & ? & ? & ? & Hal' & _)];
    [|congruence].
  pose proof (slab_alloc_refused T s m s' m' Hal). rewrite Hal in Hal'. simplify_eq.
  split_and!; [done|done|]. intros p a [g Hg] Ha. destruct HC as [HI Hl _].
  assert (p ∈ dom fls) as [fl Hp]%elem_of_dom.
  { rewrite <-(si_pages _ _ _ _ _ _ HI). by apply elem_of_dom_2 in Hg. }
  apply Hl. exists p, a, fl. split_and!; try done. intros Hin.
  assert (p ∈ []) as Hbad; [|by apply not_elem_of_nil in Hbad].
  apply (si_partial _ _ _ _ _ _ HI). exists fl. split; [done|]. intros ->. by apply not_elem_of_nil in Hin.
Qed.

(** Freeing a slot that is not in use, of a page that is kept, panics. *)
Lemma slab_double_free (Hreach : reachable T pa0 s m live) p a :
  is_Some (pages m !! p) → is_slot T a → live !! pointer T p a = None →
  dealloc T s m (pointer T p a) = Panic Assertion.
Proof using HT Howns.
  intros [g Hg] Ha Hnl. destruct (slab_reachable_client T HT pa0 s m live Howns Hreach) as (fls & xs & [HI Hl _]).
  assert (p ∈ dom fls) as [fl Hp]%elem_of_dom.
  { rewrite <-(si_pages _ _ _ _ _ _ HI). by apply elem_of_dom_2 in Hg. }
  destruct (slab_inv_obj T HT 0 s m fls xs p fl a HI Hp Ha) as (Hok & g' & ob & Hg' & HP & _ & Hob & Hlt).
  assert (a ∈ fl) as Hin.
  { destruct (decide (a ∈ fl)) as [|Hni]; [done|]. exfalso. apply eq_None_not_Some in Hnl. apply Hnl, Hl.
    by exists p, a, fl. }
  pose proof (pk_objs T g' fl HP a ob Hob) as Hoo. rewrite bool_decide_true in Hoo by done.
  destruct Hoo as [_ _ _ [Hm _]]. unfold dealloc.
  rewrite checked_sub_Ok by (unfold pointer; lia). mred.
  rewrite (object_load T p a g' m ob) by done. mred. unfold on_dealloc. by rewrite Hm.
Qed.

(** A write past the payload, into the red zones. *)
Definition overrun (ptr : N) (rz1 rz2 : list N) : result mem :=
  obj ← checked_sub ptr (payload_offset T); o ← load_obj m obj;
  store_obj obj (mkObj (magic o) (next o) rz1 (payload o) rz2) m.

(** A client that wrote a byte other than the fill into a red zone of its
    object is found out when the object is freed. *)
Lemma slab_overrun_detected (Hreach : reachable T pa0 s m live) ptr rz1 rz2 m' :
  is_Some (live !! ptr) → overrun ptr rz1 rz2 = Ok m' →
  Exists (λ b, b ≠ REDZONE_FILL) (rz1 ++ rz2) → dealloc T s m' ptr = Panic Assertion.
Proof using HT Howns.
  destruct (slab_reachable_client T HT pa0 s m live Howns Hreach) as (fls & xs & [HI Hl _]).
  intros (p & a & fl & Hp & Ha & Hni & ->)%Hl Hov Hex.
  destruct (slab_inv_obj T HT 0 s m fls xs p fl a HI Hp Ha) as (Hok & g & ob & Hg & HP & _ & Hob & Hlt).
  pose proof (pk_objs T g fl HP a ob Hob) as Hoo. rewrite bool_decide_false in Hoo by done.
  destruct Hoo as [_ _ _ [Hm Hn]]. unfold overrun in Hov.
  rewrite checked_sub_Ok in Hov by (unfold pointer; lia). revert Hov. mred.
  rewrite (object_load T p a g m ob) by done. mred. unfold pointer at 1.
  replace (p + a + _ - _) with (p + a) by lia. rewrite (store_obj_run m p g Hok Hg a ob) by done.
  set (o' := mkObj _ _ _ _ _). set (g' := mkPage _ _ _). intros [= <-]. unfold dealloc.
  rewrite checked_sub_Ok by (unfold pointer; lia). mred.
  rewrite (object_load T p a g' _ o'); [|done|apply lookup_insert_eq|done|apply lookup_insert_eq].
  mred. unfold on_dealloc, check_redzone. cbn [o' magic next redzone1 redzone2]. rewrite Hm, Hn. mred.
  rewrite <-forallb_app, forallb_exists_ne by done. done.
Qed.

(** C38: misuse that the allocator detects: freeing a slot that is not in use, of
    a page that is kept, panics, and so does freeing an object after a byte
    other than the fill was written into one of its red zones. *)
Theorem slab_misuse_detected (Hreach : reachable T pa0 s m live) :
  (∀ p a, is_Some (pages m !! p) → is_slot T a → live !! pointer T p a = None →
    dealloc T s m (pointer T p a) = Panic Assertion) ∧
  (∀ ptr rz1 rz2 m', is_Some (live !! ptr) → overrun ptr rz1 rz2 = Ok m' →
    Exists (λ b, b ≠ REDZONE_FILL) (rz1 ++ rz2) → dealloc T s m' ptr = Panic Assertion).
Proof using HT Howns.
  split; intros; [by apply slab_double_free|by eapply slab_overrun_detected].
Qed.

(** A write through a dangling pointer into the slot that is next on the
    free list is found out when the slot is allocated. *)
Lemma slab_use_after_free_detected (Hreach : reachable T pa0 s m live) p g bs m' :
  head (partial_list s) = p → pages m !! p = Some g →
  write_payload T m (pointer T p (free_index g)) bs = Ok m' →
  Exists (λ b, b ≠ UNUSED_FILL) bs → alloc T s m' = Panic Assertion.
Proof using HT Howns.
  intros Hh Hg Hw Hex. destruct (slab_reachable_client T HT pa0 s m live Howns Hreach) as (fls & xs & [HI Hl _]).
  pose proof (si_list _ _ _ _ _ _ HI) as Hd. pose proof (dll_head _ _ _ Hd) as Hhd.
  assert (p ∈ dom fls) as [fl Hp]%elem_of_dom.
  { rewrite <-(si_pages _ _ _ _ _ _ HI). by apply elem_of_dom_2 in Hg. }
  destruct (si_page _ _ _ _ _ _ HI p fl Hp) as (Hok & g' & Hg' & HP & Hc). simplify_eq.
  destruct xs as [|p' xs].
  { unfold first_of in Hhd. simpl in Hhd. rewrite Hhd in Hok. by destruct Hok as (_ & ? & _). }
  change (first_of 0 (p' :: xs)) with p' in Hhd. rewrite Hhd in *. clear Hhd.
  destruct (proj1 (si_partial _ _ _ _ _ _ HI p') ltac:(left)) as (fl' & Hp' & Hne). simplify_eq.
  destruct fl as [|a fl]; [done|]. pose proof (pk_chain T g _ HP) as [Hfi (ob & Hob & _)].
  assert (is_slot T a) as Ha by (apply (pk_slots T g _ HP); by rewrite Hob).
  pose proof (slot_4096 T HT a Ha) as Hlt. pose proof (slot_bounds T HT a Ha) as [Hmin _].
  pose proof (pk_objs T g _ HP a ob Hob) as Hoo. rewrite bool_decide_true in Hoo by left.
  rewrite Hfi in Hw. unfold write_payload in Hw.
  rewrite checked_sub_Ok in Hw by (unfold pointer; lia). revert Hw. mred.
  rewrite (object_load T p' a g m ob) by done. mred. unfold pointer.
  replace (p' + a + _ - _) with (p' + a) by lia. rewrite (store_obj_run m p' g Hok Hg a ob) by done.
  intros [= <-]. by apply (alloc_poisoned T HT s m fls p' xs g a fl ob).
Qed.
End guarantees.

End SlabSpec.
