(* ===== verification/SlabBuddy.v ===== *)
(** * The slab allocator over the buddy allocator

    The buddy allocator, asked for single pages, keeps the contract of
    [PageAllocator]; so the guarantees of the slab allocator hold over it.
    The example at the end runs both allocators together. *)
From stdpp Require Import gmap.
From S2P Require Import Prelude Buddy BuddyTree BuddyBits BuddyAlloc BuddyNew BuddySpec.
From S2P Require Import Slab SlabList SlabPage SlabAlloc SlabSpec.
Local Open Scope N_scope.

Module SlabBuddy.

Section instance.
Context `{NumInteger}.

#[export] Instance buddy_pages : Slab.PageAllocator Buddy.BuddyBlock := {
  Slab.allocate s := Buddy.alloc s 4096;
  Slab.deallocate s p := Buddy.dealloc s p 4096;
}.

(** The pages [O] are among the ranges in use. *)
Definition buddy_owns (s : Buddy.BuddyBlock) (O : gset N) : Prop :=
  BuddyAlloc.data_start (Buddy.info s) ≠ 0 ∧
  ∃ A live, BuddySpec.client s A live ∧ ∀ p, p ∈ O → live !! p = Some 4096.

Lemma buddy_allocate_ok s O :
  buddy_owns s O → ∃ r s', Buddy.alloc s 4096 = Ok (r, s') ∧
    match r with
    | None => buddy_owns s' O
    | Some p => (p ∉ O) ∧ buddy_owns s' ({[p]} ∪ O) ∧ (p mod 4096 = 0 ∧ p ≠ 0 ∧ p + 4096 ≤ W64)
    end.
Proof.
  intros [Hd (A & live & HC & HO)]. pose proof (BuddySpec.client_inv _ _ _ HC) as HI.
  destruct (BuddyAlloc.alloc_run s A 4096 HI) as (k & _ & _ & [[Hal _]|Hs]); [lia|lia| |].
  - exists None, s. split; [done|]. split; [done|]. eauto.
  - destruct Hs as (i & s' & Hal & Hi & _). rewrite Hal. eexists _, _. split; [done|].
    destruct (BuddySpec.client_alloc s A live 4096 (BuddyAlloc.block_addr (Buddy.info s) (k, i)) s' HC) as (A' & HC' & Hinf & Hfresh);
      [unfold BuddySpec.request_ok; lia|done|].
    pose proof (BuddyAlloc.block_addr_end s A k i HI Hi) as Hend.
    destruct (BuddyAlloc.inv_chunk s A HI) as [_ _ _ Hce]. pose proof (BuddyAlloc.pow2_pos k).
    split_and!.
    + intros Hin%HO. congruence.
    + split; [by rewrite Hinf|]. eexists _, _. split; [done|]. intros q [->%elem_of_singleton|Hq]%elem_of_union.
      * apply lookup_insert_eq.
      * rewrite lookup_insert_ne; [by apply HO|]. intros <-. apply HO in Hq. congruence.
    + by apply (BuddyAlloc.block_addr_mod s A).
    + unfold BuddyAlloc.block_addr. lia.
    + lia.
Qed.

Lemma buddy_deallocate_ok s O p :
  buddy_owns s O → p ∈ O → ∃ s', Buddy.dealloc s p 4096 = Ok s' ∧ buddy_owns s' (O ∖ {[p]}).
Proof.
  intros [Hd (A & live & HC & HO)] Hp.
  destruct (BuddySpec.client_dealloc s A live p 4096 HC (HO p Hp)) as (A' & s' & -> & HC' & Hinf).
  eexists. split; [done|]. split; [by rewrite Hinf|]. eexists _, _. split; [done|].
  intros q [Hq Hne%not_elem_of_singleton]%elem_of_difference. rewrite lookup_delete_ne by done. auto.
Qed.

#[export] Instance buddy_pages_ok : Slab.PageAllocatorOk Buddy.BuddyBlock := {
  Slab.owns := buddy_owns;
  Slab.allocate_ok := buddy_allocate_ok;
  Slab.deallocate_ok := buddy_deallocate_ok;
}.

Lemma fresh_owns raw len s : BuddySpec.fresh_chunk raw len s → buddy_owns s ∅.
Proof.
  intros (Hr & Hl & Hw & Hn). destruct (BuddyNew.buddy_new_inv raw len s Hr Hl Hw Hn) as (HI & _ & _ & Hm).
  split; [unfold BuddyAlloc.data_start; lia|]. exists ∅, ∅. split; [|set_solver]. by split.
Qed.
End instance.

(** ** Both allocators together

    Objects of 1000 bytes, three to a page, over a chunk of sixteen pages. *)
Import Slab SlabPage SlabAlloc SlabSpec.

Definition T1000 : TypeLayout := mkT 1000 8.

Lemma T1000_ok : layout_ok T1000.
Proof.
  split; [exists 3; split; [lia|reflexivity]|exists 125; reflexivity|reflexivity|reflexivity].
Qed.

Abbreviation state := (SlabAllocator Buddy.BuddyBlock * mem)%type (only parsing).

Definition after_alloc (st : state) : N * state :=
  match alloc T1000 st.1 st.2 with Ok (Some p, s, m) => (p, (s, m)) | _ => (0, st) end.
Definition after_dealloc (ptr : N) (st : state) : state :=
  match dealloc T1000 st.1 st.2 ptr with Ok (s, m) => (s, m) | _ => st end.

Definition start : state := (slab_new BuddySpec.chunk16, empty_mem).
Definition first : N * state := Eval vm_compute in after_alloc start.
Definition second : N * state := Eval vm_compute in after_alloc first.2.
(** The second object is freed again. *)
Definition third : state := Eval vm_compute in after_dealloc second.1 second.2.

Definition zeroes : list N := Eval vm_compute in write_bytes 0 1000.

Lemma chunk16_owns : owns BuddySpec.chunk16 ∅.
Proof. apply (fresh_owns 0x200000 65536), BuddySpec.chunk16_fresh. Qed.

Lemma first_reachable :
  reachable T1000 BuddySpec.chunk16 first.2.1 first.2.2 {[first.1 := zeroes]}.
Proof.
  apply (reach_alloc T1000 _ start.1 start.2 ∅ first.1); [apply reach_new|vm_compute; reflexivity].
Qed.

Lemma second_reachable :
  reachable T1000 BuddySpec.chunk16 second.2.1 second.2.2
    (<[second.1 := zeroes]> {[first.1 := zeroes]}).
Proof.
  apply (reach_alloc T1000 _ first.2.1 first.2.2 _ second.1); [apply first_reachable|].
  vm_compute. reflexivity.
Qed.

Lemma third_reachable :
  reachable T1000 BuddySpec.chunk16 third.1 third.2
    (delete second.1 (<[second.1 := zeroes]> {[first.1 := zeroes]})).
Proof.
  eapply (reach_dealloc T1000); [apply second_reachable|eexists; reflexivity|].
  vm_compute. reflexivity.
Qed.

Lemma slab_never_panics_witness :
  ∃ r s' m', alloc T1000 second.2.1 second.2.2 = Ok (r, s', m') ∧
    ∀ ptr, r = Some ptr →
      (<[second.1 := zeroes]> {[first.1 := zeroes]} : gmap N (list N)) !! ptr = None.
Proof.
  exact (proj1 (slab_never_panics T1000 T1000_ok _ _ _ _ chunk16_owns second_reachable)).
Defined.

Lemma slab_live_disjoint_witness :
  (8 | first.1) ∧
  (first.1 + 1000 + REDZONE_SIZE ≤ second.1 ∨ second.1 + 1000 + REDZONE_SIZE ≤ first.1).
Proof.
  destruct (slab_live_disjoint T1000 T1000_ok _ _ _ _ chunk16_owns second_reachable first.1 second.1)
    as [Hal Hd]; [eexists; reflexivity|eexists; reflexivity|].
  split; [exact Hal|]. apply Hd. vm_compute. discriminate.
Defined.

Lemma slab_contents_witness : read_payload T1000 second.2.2 first.1 = Ok zeroes.
Proof.
  apply (slab_contents T1000 T1000_ok _ _ _ _ chunk16_owns second_reachable). reflexivity.
Defined.

Lemma slab_pages_in_use_witness :
  ∃ s m, dealloc T1000 first.2.1 first.2.2 first.1 = Ok (s, m) ∧ pages m = ∅ ∧ partial_list s = list_new.
Proof.
  eexists _, _. split; [vm_compute; reflexivity|].
  eassert (reachable T1000 BuddySpec.chunk16 _ _ (delete first.1 {[first.1 := zeroes]})) as Hr.
  { apply (reach_dealloc T1000 _ first.2.1 first.2.2 _ first.1 _ _ first_reachable);
      [eexists; reflexivity|vm_compute; reflexivity]. }
  destruct (slab_pages_in_use T1000 T1000_ok _ _ _ _ chunk16_owns Hr) as [_ Hempty].
  destruct (Hempty ltac:(vm_compute; reflexivity)) as (Hp & _ & Hl). split; [exact Hp|exact Hl].
Defined.

(** The byte after the payload of the first object is overwritten. *)
Definition bad_redzone : list N := Eval vm_compute in 0 :: write_bytes REDZONE_FILL 19.

Lemma slab_misuse_detected_witness :
  dealloc T1000 third.1 third.2 second.1 = Panic Assertion ∧
  ∃ m', overrun T1000 third.2 first.1 (write_bytes REDZONE_FILL 20) bad_redzone = Ok m' ∧
    dealloc T1000 third.1 m' first.1 = Panic Assertion.
Proof.
  destruct (slab_misuse_detected T1000 T1000_ok _ _ _ _ chunk16_owns third_reachable) as [Hfree Hover]. split.
  - apply (Hfree (page_from_object second.1) (slot T1000 1)).
    + vm_compute. eexists. reflexivity.
    + exists 1. split; [vm_compute; reflexivity|reflexivity].
    + vm_compute. reflexivity.
  - eexists. split; [vm_compute; reflexivity|].
    apply (Hover first.1 (write_bytes REDZONE_FILL 20) bad_redzone); [eexists; reflexivity|vm_compute; reflexivity|].
    apply Exists_app. right. apply Exists_cons_hd. discriminate.
Defined.

(** Objects of 3000 bytes, one to a page, over a chunk with two pages of data. *)
Definition T3000 : TypeLayout := mkT 3000 8.
Definition chunk3 : Buddy.BuddyBlock := Eval vm_compute in
  match Buddy.buddy_new 0x200000 12288 with Ok s => s | _ => Buddy.buddy_empty end.
Definition full : N * N * SlabAllocator Buddy.BuddyBlock * mem := Eval vm_compute in
  match
    (r1 ← alloc T3000 (slab_new chunk3) empty_mem; r2 ← alloc T3000 r1.1.2 r1.2;
     Ok (default 0 r1.1.1, default 0 r2.1.1, r2.1.2, r2.2))
  with Ok r => r | _ => (0, 0, slab_new chunk3, empty_mem) end.
Definition zeroes3000 : list N := Eval vm_compute in write_bytes 0 3000.

Lemma full_reachable :
  reachable T3000 chunk3 full.1.2 full.2 (<[full.1.1.2 := zeroes3000]> {[full.1.1.1 := zeroes3000]}).
Proof.
  eapply (reach_alloc T3000 chunk3).
  - eapply (reach_alloc T3000 chunk3 (slab_new chunk3) empty_mem ∅); [apply reach_new|].
    vm_compute. reflexivity.
  - vm_compute. reflexivity.
Qed.

Lemma slab_refused_witness :
  ∃ s' m', alloc T3000 full.1.2 full.2 = Ok (None, s', m') ∧ m' = full.2.
Proof.
  assert (layout_ok T3000) as HT.
  { split; [exists 3; split; [lia|reflexivity]|exists 375; reflexivity|reflexivity|reflexivity]. }
  assert (owns chunk3 ∅) as Ho.
  { apply (fresh_owns 0x200000 12288). unfold BuddySpec.fresh_chunk.
    split_and!; [reflexivity|reflexivity|lia|vm_compute; reflexivity]. }
  eexists _, _. split; [vm_compute; reflexivity|].
  apply (slab_refused T3000 HT _ _ _ _ Ho full_reachable _ _ eq_refl).
Defined.

End SlabBuddy.
