(* ===== verification/SlabTotal.v ===== *)
(** * The slab allocator on any state: termination

    Whatever memory holds, and whatever pointer is freed, [alloc] and
    [dealloc] end if the page allocator's operations do: the loop over the
    objects of a page advances by an object at a time and stops at its end. *)
From stdpp Require Import gmap.
From S2P Require Import Prelude Totality Buddy BuddyTotal Slab SlabPage SlabBuddy.
Import Slab SlabPage SlabBuddy.
Local Open Scope N_scope.

Module SlabTotal.

Lemma deref_ends {A} (o : option A) : ends (deref o).
Proof. by destruct o. Qed.
#[local] Hint Resolve deref_ends : fuel.

Lemma load_obj_ends m a : ends (load_obj m a).
Proof. unfold load_obj. ends. Qed.
Lemma store_obj_ends a o m : ends (store_obj a o m).
Proof. unfold store_obj. ends. Qed.
#[local] Hint Resolve load_obj_ends store_obj_ends : fuel.

Lemma assign_singleton_ends l link m : ends (assign_singleton l link m).
Proof. unfold assign_singleton. ends. Qed.
#[local] Hint Resolve assign_singleton_ends : fuel.
Lemma push_back_ends l link m : ends (push_back l link m).
Proof. unfold push_back. ends. Qed.
Lemma remove_ends l link m : ends (remove l link m).
Proof. unfold remove. ends. Qed.
#[local] Hint Resolve push_back_ends remove_ends : fuel.

Section slab.
Context `{PageAllocator PA} (T : TypeLayout) (HT : layout_ok T).

Lemma init_loop_ends fuel addr offset objs :
  4096 < offset + N.of_nat fuel * 36 → (0 < fuel)%nat → ends (init_loop T fuel addr offset objs).
Proof.
  pose proof (object_size_min T HT) as Hmin. revert offset objs.
  induction fuel as [|fuel IH]; intros offset objs Hf H0; [lia|]. cbn [init_loop]. ends.
  repeat match goal with Hx : checked_add _ _ _ = Ok _ |- _ => apply BuddyTotal.checked_add_inv in Hx as [? _]; subst end.
  match goal with Hx : (_ <? PAGE_SIZE) = true |- _ => apply N.ltb_lt in Hx; unfold PAGE_SIZE in Hx end.
  apply IH; [lia|]. destruct fuel; lia.
Qed.

Lemma page_init_ends addr m : ends (page_init T addr m).
Proof. unfold page_init. ends. apply init_loop_ends; lia. Qed.
#[local] Hint Resolve page_init_ends : fuel.

Lemma pop_front_object_ends p m : ends (pop_front_object p m).
Proof. unfold pop_front_object. ends. Qed.
Lemma push_front_object_ends p o m : ends (push_front_object p o m).
Proof. unfold push_front_object. ends. Qed.
Lemma on_alloc_ends o : ends (on_alloc T o).
Proof. unfold on_alloc. ends. Qed.
Lemma on_dealloc_ends o : ends (on_dealloc T o).
Proof. unfold on_dealloc. ends. Qed.
Lemma payload_addr_ends o : ends (payload_addr T o).
Proof. unfold payload_addr. ends. Qed.
#[local] Hint Resolve pop_front_object_ends push_front_object_ends on_alloc_ends on_dealloc_ends payload_addr_ends : fuel.

Lemma alloc_from_head_ends (s : SlabAllocator PA) m : ends (alloc_from_head T s m).
Proof. unfold alloc_from_head. ends. Qed.
#[local] Hint Resolve alloc_from_head_ends : fuel.

Context (allocate_ends : ∀ pa : PA, ends (allocate pa)) (deallocate_ends : ∀ (pa : PA) p, ends (deallocate pa p)).
#[local] Hint Resolve allocate_ends deallocate_ends : fuel.

Lemma slab_terminates (s : SlabAllocator PA) m ptr : ends (alloc T s m) ∧ ends (dealloc T s m ptr).
Proof.
  split.
  - unfold alloc, alloc_page. ends; repeat case_match; ends.
  - unfold dealloc. ends.
Qed.
End slab.

(** The operations of the allocators, on a state of each and for every argument. *)
Definition allocators_end `{NumInteger} (T : TypeLayout) (b : Buddy.BuddyBlock) (s : SlabAllocator Buddy.BuddyBlock) (m : mem) : Prop :=
  (∀ raw total, ends (Buddy.buddy_new raw total)) ∧
  (∀ len, ends (Buddy.alloc b len)) ∧ (∀ addr len, ends (Buddy.dealloc b addr len)) ∧
  ends (alloc T s m) ∧ ∀ ptr, ends (dealloc T s m ptr).

(** C26: the loops of the buddy allocator and of the slab allocator over it end
    on every state and every memory and for every argument, valid or not: the
    bounds of the model are never reached. *)
Theorem allocators_terminate `{NumInteger} T b s m : layout_ok T → allocators_end T b s m.
Proof.
  intros HT. pose proof BuddyTotal.buddy_terminates as Hb.
  assert (∀ ptr, ends (alloc T s m) ∧ ends (dealloc T s m ptr)) as Hs.
  { apply (slab_terminates T HT); [intros pa; apply (Hb pa 0 0 0 4096)|intros pa p; apply (Hb pa 0 0 p 4096)]. }
  split_and!.
  - intros raw total. apply (Hb b raw total 0 0).
  - intros len. apply (Hb b 0 0 0 len).
  - intros addr len. apply (Hb b 0 0 addr len).
  - apply (Hs 0).
  - intros ptr. apply (Hs ptr).
Qed.

Lemma allocators_terminate_witness : ends (dealloc T1000 (slab_new Buddy.buddy_empty) (mkMem ∅ ∅) 4096).
Proof.
  destruct (allocators_terminate T1000 Buddy.buddy_empty (slab_new Buddy.buddy_empty) (mkMem ∅ ∅) T1000_ok) as (_ & _ & _ & _ & Hd).
  exact (Hd 4096).
Defined.

End SlabTotal.
