(* ===== verification/MemoryMap.v ===== *)
(** * The memory map of [kernel/src/memory.rs]: data and operations

    The BIOS e820 map is sorted, cut to whole pages above [DYNMEM_START_PHYS],
    freed of overlaps and of everything unusable ([create_dynmem_map]); the
    regions left are mapped one after the other from [DYNMEM_START_VIRT] on,
    and [virt_to_phys_dynmem] and [phys_to_virt_dynmem] translate. *)
From stdpp Require Import sorting.
From S2P Require Import Prelude.
Local Open Scope checked_scope.

Module MemoryMap.

Record MemoryMapEntry := mkEntry { base : N; size : N; mem_type : N; attrib : N }.

Inductive MemoryEntryType := Usable | Reserved | AcpiReclaimable | AcpiNVS | BadArea.

(** The discriminants ([repr(u32)]). *)
Definition entry_type_code (t : MemoryEntryType) : N :=
  match t with Usable => 1 | Reserved => 2 | AcpiReclaimable => 3 | AcpiNVS => 4 | BadArea => 5 end.

Definition DYNMEM_START_PHYS : N := 0x00800000.
Definition DYNMEM_START_VIRT : N := 0x00200000.
Definition PAGE_SIZE : N := 4096.
Definition KERNEL_START_VIRT : N := 0xffff800000000000.
Definition KERNEL_START_PHYS : N := 0x00200000.
Definition KSTACK_START_VIRT : N := 0xffff80000f000000.
Definition KSTACK_START_PHYS : N := 0x00600000.

Definition entry_zero : MemoryMapEntry := mkEntry 0 0 0 0.

(** The crate [num_enum]: the derived conversion accepts the discriminants. *)
Class NumEnum := {
  try_from : N → option MemoryEntryType;
  try_from_spec n t : try_from n = Some t ↔ n = entry_type_code t;
}.

(** [slice::sort_unstable_by_key]: some ordered permutation. *)
Class SortUnstable := {
  sort_by_base : list MemoryMapEntry → list MemoryMapEntry;
  sort_by_base_perm l : sort_by_base l ≡ₚ l;
  sort_by_base_sorted l : StronglySorted (λ x y, base x ≤ base y)%N (sort_by_base l);
}.

(** The crate [x86_64]: addresses are checked when they are made. *)
Class X86Addr := {
  PhysAddr_new : N → result N;
  VirtAddr_new : N → result N;
  PhysAddr_new_ok a : (a < 2 ^ 52)%N → PhysAddr_new a = Ok a;
  VirtAddr_new_ok a : (a < 2 ^ 47)%N → VirtAddr_new a = Ok a;
  VirtAddr_new_high a : (KERNEL_START_VIRT ≤ a < W64)%N → VirtAddr_new a = Ok a;
}.

(** ** [slice_remove] *)
Section slice_remove.
Context {A : Type} (predicate : A → bool).

(** [iter().position(predicate)] *)
Fixpoint position (l : list A) : option N :=
  match l with
  | [] => None
  | x :: l => if predicate x then Some 0%N else N.succ <$> position l
  end.

Definition swap (l : list A) (i j : N) : result (list A) :=
  x ← vget l i; y ← vget l j; l ← vset l i y; vset l j x.

(** The [while] loop; [p] grows to [len]. *)
Fixpoint remove_loop (fuel : nat) (slice : list A) (first p : N) : result (N * list A) :=
  match fuel with
  | O => Panic OutOfFuel
  | S fuel =>
      if (p <? vlen slice)%N then
        x ← vget slice p;
        '(first, slice) ←
          (if negb (predicate x) then
             slice ← swap slice first p;
             first ← first +! 1;
             Ok (first, slice)
           else Ok (first, slice));
        p ← p +! 1;
        remove_loop fuel slice first p
      else Ok (first, slice)
  end.

Definition slice_remove (slice : list A) : result (N * list A) :=
  let len := vlen slice in
  let first := default len (position slice) in
  p ← first +! 1;
  remove_loop (S (length slice)) slice first p.
End slice_remove.

(** ** [create_dynmem_map] *)
Section dynmem_map.
Context `{NumInteger, NumEnum, SortUnstable}.

Definition is_usable (e : MemoryMapEntry) : bool :=
  match try_from (mem_type e) with Some Usable => true | _ => false end.

(** The body of the loop over the entries; the state is [prev_end]. *)
Definition clip (entry : MemoryMapEntry) (prev_end : N) : result (MemoryMapEntry * N) :=
  if is_usable entry then
    let start := base entry in
    e ← base entry +! size entry;
    a ← div_ceil start PAGE_SIZE *! PAGE_SIZE;
    let align_start := N.max prev_end a in
    let align_end := (e / PAGE_SIZE * PAGE_SIZE)%N in
    if (align_start <? align_end)%N then
      n ← align_end -! align_start;
      Ok (mkEntry align_start n (mem_type entry) (attrib entry), align_end)
    else Ok (mkEntry (base entry) (size entry) 0 (attrib entry), prev_end)
  else Ok (entry, prev_end).

(** [for entry in &mut *buffer] *)
Fixpoint clip_all (buffer : list MemoryMapEntry) (prev_end : N) : result (list MemoryMapEntry) :=
  match buffer with
  | [] => Ok []
  | entry :: buffer =>
      '(entry, prev_end) ← clip entry prev_end;
      rest ← clip_all buffer prev_end;
      Ok (entry :: rest)
  end.

(** The length of the map, and the buffer it was built in. *)
Definition create_dynmem_map (e820_entries map_buffer : list MemoryMapEntry)
    : result (N * list MemoryMapEntry) :=
  let e820_len := N.min (vlen e820_entries) (vlen map_buffer) in
  buffer ← (if (vlen e820_entries =? e820_len)%N then Ok e820_entries else Panic Explicit);
  let buffer := sort_by_base buffer in
  buffer ← clip_all buffer DYNMEM_START_PHYS;
  '(n, buffer) ← slice_remove (λ x, negb (mem_type x =? entry_type_code Usable)%N) buffer;
  Ok (n, buffer ++ drop (N.to_nat e820_len) map_buffer).
End dynmem_map.

(** ** Translation *)
Section translation.
Context `{X86Addr}.

Fixpoint virt_to_phys_loop (entries : list MemoryMapEntry) (offset sum : N) : result N :=
  match entries with
  | [] => Panic Explicit
  | entry :: entries =>
      let oldsum := sum in
      sum ← sum +! size entry;
      if (offset <? sum)%N then
        d ← offset -! oldsum;
        phys ← base entry +! d;
        PhysAddr_new phys
      else virt_to_phys_loop entries offset sum
  end.

Definition virt_to_phys_dynmem (virt : N) (map : list MemoryMapEntry) (start_virt : N) : result N :=
  offset ← virt -! start_virt;
  virt_to_phys_loop map offset 0.

Fixpoint phys_to_virt_loop (entries : list MemoryMapEntry) (phys start_virt sum : N) : result N :=
  match entries with
  | [] => Panic Explicit
  | entry :: entries =>
      e ← base entry +! size entry;
      if ((base entry <=? phys) && (phys <? e))%N then
        v ← start_virt +! sum;
        d ← phys -! base entry;
        virt ← v +! d;
        VirtAddr_new virt
      else
        sum ← sum +! size entry;
        phys_to_virt_loop entries phys start_virt sum
  end.

Definition phys_to_virt_dynmem (phys : N) (map : list MemoryMapEntry) (start_virt : N) : result N :=
  phys_to_virt_loop map phys start_virt 0.

Definition virt_to_phys_kernel (virt : N) : result N :=
  d ← virt -! KERNEL_START_VIRT; addr ← d +! KERNEL_START_PHYS; PhysAddr_new addr.

Definition phys_to_virt_kernel (phys : N) : result N :=
  d ← phys -! KERNEL_START_PHYS; addr ← d +! KERNEL_START_VIRT; VirtAddr_new addr.

(** [map] is [get_memory_map()]. *)
Definition phys_to_virt (map : list MemoryMapEntry) (phys : N) : result N :=
  if (DYNMEM_START_PHYS <=? phys)%N then phys_to_virt_dynmem phys map DYNMEM_START_VIRT
  else if (phys <? KSTACK_START_PHYS)%N then phys_to_virt_kernel phys
  else Panic Explicit.
End translation.

End MemoryMap.
