(* ===== verification/MemoryMapSpec.v ===== *)
(** * The memory map: correctness

    [slice_remove] keeps the elements that do not satisfy the predicate, in
    order.  [create_dynmem_map] returns disjoint ascending regions of whole
    pages that hold exactly the pages above [DYNMEM_START_PHYS] which lie in
    a usable region of the e820 map.  Over such a map the two translations
    are inverse to each other. *)
From stdpp Require Import sorting.
From S2P Require Import Prelude MemoryMap.
Import MemoryMap.
Local Open Scope N_scope.

Module MemoryMapSpec.

(** ** [slice_remove] *)
Section slice_remove.
Context {A : Type} (predicate : A → bool).
Implicit Types (l kept removed rest : list A).

Definition keep (x : A) : bool := negb (predicate x).

Lemma vget_mid l x l' : vget (l ++ x :: l') (vlen l) = Ok x.
Proof.
  apply vget_Some. unfold vlen. rewrite Nat2N.id. by apply list_lookup_middle.
Qed.
Lemma vset_mid l x l' y : vset (l ++ x :: l') (vlen l) y = Ok (l ++ y :: l').
Proof.
  rewrite vset_Ok by (unfold vlen; rewrite length_app; simpl; lia).
  unfold vlen. rewrite Nat2N.id. f_equal.
  rewrite insert_app_r_alt by lia. by rewrite Nat.sub_diag.
Qed.

Lemma swap_run kept r rs x rest :
  swap (kept ++ (r :: rs) ++ x :: rest) (vlen kept) (vlen kept + vlen (r :: rs)) =
  Ok ((kept ++ [x]) ++ (rs ++ [r]) ++ rest).
Proof.
  assert (vlen kept + vlen (r :: rs) = vlen (kept ++ r :: rs)) as Hv
    by (unfold vlen; rewrite length_app; lia).
  unfold swap. change (kept ++ (r :: rs) ++ x :: rest) with (kept ++ r :: (rs ++ x :: rest)).
  rewrite vget_mid. mred. rewrite Hv.
  assert (kept ++ r :: rs ++ x :: rest = (kept ++ r :: rs) ++ x :: rest) as He by by rewrite <-app_assoc.
  rewrite He, vget_mid. mred. rewrite <-He, vset_mid. mred.
  assert (vlen (kept ++ r :: rs) = vlen (kept ++ x :: rs)) as -> by (unfold vlen; rewrite !length_app; done).
  replace (kept ++ x :: rs ++ x :: rest) with ((kept ++ x :: rs) ++ x :: rest) by by rewrite <-app_assoc.
  rewrite vset_mid. by rewrite <-!app_assoc.
Qed.

Lemma remove_loop_run fuel kept r rs rest :
  (length rest < fuel)%nat → vlen (kept ++ (r :: rs) ++ rest) + 1 < W64 →
  ∃ removed, remove_loop predicate fuel (kept ++ (r :: rs) ++ rest) (vlen kept)
      (vlen kept + vlen (r :: rs)) =
    Ok (vlen (kept ++ List.filter keep rest), (kept ++ List.filter keep rest) ++ removed) ∧
    removed ≡ₚ (r :: rs) ++ List.filter predicate rest.
Proof.
  revert kept r rs rest. induction fuel as [|fuel IH]; intros kept r rs rest Hf Hw; [lia|].
  cbn [remove_loop]. assert (vlen kept + vlen (r :: rs) = vlen (kept ++ r :: rs)) as Hv
    by (unfold vlen; rewrite length_app; lia).
  destruct rest as [|x rest].
  - rewrite app_nil_r. rewrite Hv, (proj2 (N.ltb_ge _ _)) by lia.
    exists (r :: rs). simpl. by rewrite !app_nil_r.
  - rewrite (proj2 (N.ltb_lt _ _)) by (unfold vlen; rewrite !length_app; simpl; lia).
    rewrite Hv. rewrite (app_assoc kept), vget_mid. mred. rewrite <-(app_assoc kept).
    unfold vlen in Hw. rewrite !length_app in Hw. simpl in Hw.
    assert (vlen (kept ++ r :: rs) + 1 < W64) as Hw1 by (unfold vlen; rewrite length_app; simpl; lia).
    cbn [List.filter]. assert (keep x = negb (predicate x)) as -> by done.
    destruct (predicate x) eqn:Hx; cbn [negb].
    + mred. rewrite checked_add_Ok by lia. mred.
      replace (kept ++ (r :: rs) ++ x :: rest) with (kept ++ (r :: rs ++ [x]) ++ rest)
        by (simpl; by rewrite <-app_assoc).
      replace (vlen (kept ++ r :: rs) + 1) with (vlen kept + vlen (r :: rs ++ [x]))
        by (unfold vlen; simpl; rewrite !length_app; simpl; lia).
      destruct (IH kept r (rs ++ [x]) rest) as (removed & -> & Hp);
        [simpl in Hf; lia|unfold vlen; simpl; rewrite !length_app; simpl; rewrite !length_app; simpl; lia|].
      exists removed. split; [done|]. rewrite Hp. simpl. by rewrite <-app_assoc.
    + rewrite <-Hv, swap_run. mred. rewrite checked_add_Ok by lia. mred. rewrite Hv.
      rewrite checked_add_Ok by lia. mred.
      destruct (rs ++ [r]) as [|r' rs'] eqn:Hrs; [by destruct rs|].
      assert (length (r' :: rs') = S (length rs)) as Hlen by (rewrite <-Hrs, length_app; simpl; lia).
      replace (vlen kept + 1) with (vlen (kept ++ [x])) by (unfold vlen; rewrite length_app; simpl; lia).
      replace (vlen (kept ++ r :: rs) + 1) with (vlen (kept ++ [x]) + vlen (r' :: rs'))
        by (unfold vlen; rewrite Hlen, !length_app; simpl; lia).
      destruct (IH (kept ++ [x]) r' rs' rest) as (removed & -> & Hp);
        [simpl in Hf; lia|unfold vlen; rewrite !length_app, Hlen; simpl; lia|].
      exists removed. rewrite <-(app_assoc kept). split; [done|]. rewrite Hp, <-Hrs. simpl.
      by rewrite (Permutation_app_comm rs [r]).
Qed.

Lemma position_None l : position predicate l = None → List.filter keep l = l ∧ List.filter predicate l = [].
Proof.
  induction l as [|x l IH]; simpl; [done|]. unfold keep at 1. destruct (predicate x); [done|].
  intros [H1 H2]%fmap_None%IH. simpl. by rewrite H1, H2.
Qed.
Lemma position_Some l n :
  position predicate l = Some n →
  ∃ pre x post, l = pre ++ x :: post ∧ n = vlen pre ∧ predicate x = true ∧
    List.filter keep pre = pre ∧ List.filter predicate pre = [].
Proof.
  revert n. induction l as [|x l IH]; intros n; simpl; [done|]. destruct (predicate x) eqn:Hx.
  - intros [= <-]. exists [], x, l. done.
  - intros (k & Hk & ->)%fmap_Some. destruct (IH k Hk) as (pre & y & post & -> & -> & Hy & Hf1 & Hf2).
    exists (x :: pre), y, post. simpl. unfold keep at 1. rewrite Hx. simpl. rewrite Hf1, Hf2.
    split_and!; try done. unfold vlen. simpl. lia.
Qed.

(** [slice_remove] moves the elements that are kept to the front, in their
    order, and returns their number; the others are left behind them. *)
Lemma slice_remove_spec l :
  vlen l + 1 < W64 →
  ∃ removed, slice_remove predicate l =
    Ok (vlen (List.filter keep l), List.filter keep l ++ removed) ∧
    removed ≡ₚ List.filter predicate l.
Proof.
  intros Hw. unfold slice_remove. destruct (position predicate l) as [n|] eqn:Hp; unfold id; cbn [from_option].
  - apply position_Some in Hp as (pre & x & post & -> & -> & Hx & Hf1 & Hf2).
    assert (vlen pre + vlen (x :: post) + 1 < W64) as Hw1
      by (unfold vlen in *; rewrite length_app in Hw; simpl in *; lia).
    unfold vlen in Hw1 at 2. simpl in Hw1. rewrite checked_add_Ok by lia. mred.
    destruct (remove_loop_run (S (length (pre ++ x :: post))) pre x [] post) as (removed & Hr & Hperm);
      [rewrite length_app; simpl; lia|done|].
    change (vlen pre + vlen [x]) with (vlen pre + 1) in Hr.
    exists removed. rewrite !List.filter_app, Hf1, Hf2. cbn [List.filter app].
    assert (keep x = false) as -> by (unfold keep; by rewrite Hx). rewrite Hx.
    split; [exact Hr|exact Hperm].
  - apply position_None in Hp as [H1 H2]. rewrite checked_add_Ok by lia. mred.
    cbn [remove_loop]. rewrite (proj2 (N.ltb_ge _ _)) by lia. exists [].
    by rewrite H1, H2, app_nil_r.
Qed.
End slice_remove.

(** ** [create_dynmem_map] *)

(** The page at [q] lies in a region of the list. *)
Definition page_in (l : list MemoryMapEntry) (q : N) : Prop :=
  ∃ e, e ∈ l ∧ base e ≤ q ∧ q + 4096 ≤ base e + size e.

Record region_ok (e : MemoryMapEntry) : Prop := {
  rg_base : base e mod 4096 = 0;
  rg_size : size e mod 4096 = 0;
  rg_pos : 0 < size e;
  rg_end : base e + size e < W64;
  rg_type : mem_type e = 1;
}.

(** Regions of whole pages, ascending from [lo] on and without overlap. *)
Fixpoint regions (lo : N) (l : list MemoryMapEntry) : Prop :=
  match l with
  | [] => True
  | e :: l => region_ok e ∧ lo ≤ base e ∧ regions (base e + size e) l
  end.

Lemma regions_weaken lo lo' l : lo' ≤ lo → regions lo l → regions lo' l.
Proof. destruct l; simpl; [done|]. intros ? (? & ? & ?). split_and!; [done|lia|done]. Qed.

Lemma page_in_cons e l q :
  page_in (e :: l) q ↔ (base e ≤ q ∧ q + 4096 ≤ base e + size e) ∨ page_in l q.
Proof.
  unfold page_in. setoid_rewrite elem_of_cons. naive_solver.
Qed.

Definition usable_code (e : MemoryMapEntry) : bool := mem_type e =? 1.

Section dynmem_map.
Context `{NumInteger, NumEnum, SortUnstable}.

Lemma is_usable_code e : is_usable e = usable_code e.
Proof.
  unfold is_usable, usable_code. destruct (N.eqb_spec (mem_type e) 1) as [He|Hne].
  - by rewrite (proj2 (try_from_spec _ Usable) He).
  - destruct (try_from (mem_type e)) as [[]|] eqn:Ht; try done.
    apply try_from_spec in Ht. done.
Qed.

(** A usable entry: its end, rounded up to a page, is a machine word. *)
Definition entry_fits (e : MemoryMapEntry) : Prop :=
  is_usable e = true → base e + size e + 4096 ≤ W64.

(** One entry: its whole pages from [prev_end] on. *)
Lemma clip_run e pe :
  entry_fits e → pe mod 4096 = 0 →
  ∃ e' pe', clip e pe = Ok (e', pe') ∧ pe ≤ pe' ∧ pe' mod 4096 = 0 ∧
    (usable_code e' = true → region_ok e' ∧ pe ≤ base e' ∧ base e' + size e' = pe') ∧
    (usable_code e' = false → pe' = pe) ∧
    (∀ q, q mod 4096 = 0 →
      (usable_code e' = true ∧ base e' ≤ q ∧ q + 4096 ≤ base e' + size e') ↔
      (usable_code e = true ∧ pe ≤ q ∧ base e ≤ q ∧ q + 4096 ≤ base e + size e)) ∧
    (∀ q, q mod 4096 = 0 → pe ≤ q < pe' → base e ≤ q →
      usable_code e' = true ∧ base e' ≤ q ∧ q + 4096 ≤ base e' + size e').
Proof.
  intros Hf Hpe. unfold clip, entry_fits in *. rewrite is_usable_code in *.
  destruct (usable_code e) eqn:Hu.
  - specialize (Hf eq_refl). rewrite checked_add_Ok by lia. mred.
    pose proof (div_ceil_bounds (base e) PAGE_SIZE ltac:(done)) as Hd. unfold PAGE_SIZE in *.
    rewrite checked_mul_Ok by lia. mred. set (a := div_ceil (base e) 4096 * 4096) in *.
    assert (a mod 4096 = 0) as Ha by (unfold a; lia).
    set (z := (base e + size e) / 4096 * 4096). assert (z mod 4096 = 0) as Hz by (unfold z; lia).
    assert (z ≤ base e + size e < z + 4096) as Hzb by (unfold z; lia).
    destruct (N.ltb_spec (N.max pe a) z) as [Hlt|Hge].
    + rewrite checked_sub_Ok by lia. mred. eexists _, _. split; [done|].
      unfold usable_code in *. simpl. split_and!; [lia|done| | | |].
      * intros _. split_and!; [|lia|lia]. split; simpl; [lia|lia|lia|lia|by apply N.eqb_eq].
      * congruence.
      * intros q Hq. rewrite Hu. split; intros (_ & ?); split_and!; try done; lia.
      * intros q Hq Hr Hb. split_and!; [done|lia|lia].
    + eexists _, _. split; [done|]. unfold usable_code in *. simpl. split_and!; try done; try lia.
  - eexists _, _. split; [done|]. rewrite Hu. split_and!; try done; try lia.
Qed.

Lemma page_in_filter e l q :
  page_in (List.filter usable_code (e :: l)) q ↔
  (usable_code e = true ∧ base e ≤ q ∧ q + 4096 ≤ base e + size e) ∨
  page_in (List.filter usable_code l) q.
Proof.
  simpl. destruct (usable_code e); [rewrite page_in_cons|]; naive_solver.
Qed.

(** All entries: the pages from [prev_end] on that lie in a usable entry. *)
Lemma clip_all_run l pe :
  StronglySorted (λ x y, base x ≤ base y) l → Forall entry_fits l → pe mod 4096 = 0 →
  ∃ l', clip_all l pe = Ok l' ∧ length l' = length l ∧ regions pe (List.filter usable_code l') ∧
    ∀ q, q mod 4096 = 0 →
      page_in (List.filter usable_code l') q ↔ pe ≤ q ∧ page_in (List.filter usable_code l) q.
Proof.
  revert pe. induction l as [|e l IH]; intros pe Hs Hf Hpe.
  { exists []. split_and!; try done. intros q Hq. split; [|by intros [_ ?]].
    by intros (? & ?%not_elem_of_nil & _). }
  apply StronglySorted_inv in Hs as [Hs Hle]. inversion_clear Hf as [|? ? Hfe Hfl].
  destruct (clip_run e pe Hfe Hpe) as (e' & pe' & Hc & Hmono & Hpe' & Hin & Hout & Hpg & Hgap).
  destruct (IH pe' Hs Hfl Hpe') as (l' & Hrun & Hlen & Hreg & Hpages).
  exists (e' :: l'). cbn [clip_all]. rewrite Hc. mred. rewrite Hrun. mred. split; [done|].
  split; [simpl; by rewrite Hlen|]. split.
  - simpl. destruct (usable_code e') eqn:Hu.
    + destruct (Hin eq_refl) as (Hok & Hlo & Hend). simpl. by rewrite Hend.
    + by rewrite (Hout eq_refl) in Hreg.
  - intros q Hq. rewrite !page_in_filter, Hpages, Hpg by done. split.
    + intros [?|[? ?]]; [naive_solver|]. split; [lia|]. by right.
    + intros [Hq' [?|Hl]]; [naive_solver|]. destruct (N.le_gt_cases pe' q) as [|Hlt]; [by right|].
      left. apply Hpg; [done|]. apply Hgap; [done|done|].
      destruct Hl as (x & Hx & Hb & _). rewrite Forall_forall in Hle.
      apply list_elem_of_In, List.filter_In in Hx as [Hx _]. specialize (Hle x Hx). lia.
Qed.

Lemma filter_perm (f : MemoryMapEntry → bool) l l' q :
  l ≡ₚ l' → page_in (List.filter f l) q ↔ page_in (List.filter f l') q.
Proof.
  intros Hp. unfold page_in. setoid_rewrite list_elem_of_In. setoid_rewrite List.filter_In.
  setoid_rewrite <-list_elem_of_In. setoid_rewrite Hp. done.
Qed.

Lemma create_dynmem_map_run e820 buffer :
  vlen e820 ≤ vlen buffer → vlen buffer + 1 < W64 → Forall entry_fits e820 →
  ∃ n buffer', create_dynmem_map e820 buffer = Ok (n, buffer') ∧ vlen buffer' = vlen buffer ∧
    let map := take (N.to_nat n) buffer' in
    vlen map = n ∧ regions DYNMEM_START_PHYS map ∧
    ∀ q, q mod 4096 = 0 →
      page_in map q ↔ DYNMEM_START_PHYS ≤ q ∧ page_in (List.filter is_usable e820) q.
Proof.
  intros Hlen Hw Hfits. unfold create_dynmem_map. rewrite N.min_l by done.
  rewrite N.eqb_refl. mred. pose proof (sort_by_base_perm e820) as Hperm.
  destruct (clip_all_run (sort_by_base e820) DYNMEM_START_PHYS) as (l' & -> & Hl' & Hreg & Hpg);
    [apply sort_by_base_sorted|by rewrite Hperm|done|]. mred.
  apply Permutation_length in Hperm as Hpl. unfold vlen in Hlen, Hw.
  destruct (slice_remove_spec (λ x, negb (mem_type x =? entry_type_code Usable)) l')
    as (removed & -> & Hrem); [unfold vlen; lia|].
  mred. assert (List.filter (keep (λ x, negb (mem_type x =? entry_type_code Usable))) l' =
    List.filter usable_code l') as Hk.
  { apply List.filter_ext. intros x. unfold keep. by rewrite negb_involutive. }
  rewrite Hk. eexists _, _. split; [done|].
  assert (length (List.filter usable_code l' ++ removed) = length l') as Hlr.
  { rewrite length_app, (Permutation_length Hrem). clear. induction l' as [|x l' IH]; [done|].
    simpl. unfold usable_code at 1. destruct (mem_type x =? _) eqn:Hx; simpl in *; unfold usable_code in *;
      simpl in *; rewrite ?Hx; simpl; lia. }
  split.
  { unfold vlen. rewrite length_app, Hlr, length_drop. unfold vlen. lia. }
  cbv zeta. rewrite <-app_assoc, take_app_length' by (unfold vlen; lia). split; [done|].
  split; [done|]. intros q Hq. rewrite Hpg by done.
  rewrite (filter_perm usable_code _ e820) by done.
  by rewrite (List.filter_ext is_usable usable_code) by apply is_usable_code.
Qed.

(** C5: the map has exactly the pages from [DYNMEM_START_PHYS] on that lie in
    a usable region of the e820 map, in ascending regions of whole pages that
    do not overlap, however the e820 regions are ordered and overlap. *)
Theorem create_dynmem_map_spec e820 buffer :
  vlen e820 ≤ vlen buffer → vlen buffer + 1 < W64 → Forall entry_fits e820 →
  ∃ n buffer', create_dynmem_map e820 buffer = Ok (n, buffer') ∧ vlen buffer' = vlen buffer ∧
    let map := take (N.to_nat n) buffer' in
    vlen map = n ∧ regions DYNMEM_START_PHYS map ∧
    ∀ q, q mod 4096 = 0 →
      page_in map q ↔ DYNMEM_START_PHYS ≤ q ∧ page_in (List.filter is_usable e820) q.
Proof. apply create_dynmem_map_run. Qed.

(** An e820 map with more entries than the buffer makes the copy panic:
    the length is cut to the buffer's, the source of the copy is not. *)
Lemma create_dynmem_map_overfull e820 buffer :
  vlen buffer < vlen e820 → create_dynmem_map e820 buffer = Panic Explicit.
Proof.
  intros Hlt.
  unfold create_dynmem_map. rewrite N.min_r by lia. destruct (N.eqb_spec (vlen e820) (vlen buffer)); [lia|done].
Qed.
End dynmem_map.

(** ** Translation *)
Definition total_size (l : list MemoryMapEntry) : N := foldr (λ e a, size e + a) 0 l.
Definition phys_limit (l : list MemoryMapEntry) : Prop := Forall (λ e, base e + size e ≤ 2 ^ 52) l.

(** The physical address lies in a region of the map. *)
Definition phys_in (l : list MemoryMapEntry) (a : N) : Prop :=
  ∃ e, e ∈ l ∧ base e ≤ a < base e + size e.

Section translation.
Context `{X86Addr} (start_virt : N).

Lemma virt_phys_loop l lo off sum :
  regions lo l → phys_limit l → sum ≤ off < sum + total_size l → start_virt + sum + total_size l < 2 ^ 47 →
  ∃ phys, virt_to_phys_loop l off sum = Ok phys ∧ phys_in l phys ∧ lo ≤ phys ∧
    phys_to_virt_loop l phys start_virt sum = Ok (start_virt + off).
Proof.
  change (2 ^ 47) with 140737488355328. revert lo sum.
  induction l as [|e l IH]; intros lo sum Hr Hlim Ho Hw; [simpl in Ho; lia|].
  destruct Hr as ([Hb Hs Hpos He _] & Hlo & Hr). inversion_clear Hlim as [|? ? Hle Hlim'].
  simpl total_size in *. fold (total_size l) in *. cbn [virt_to_phys_loop phys_to_virt_loop].
  change (2 ^ 52) with 4503599627370496 in Hle. rewrite checked_add_Ok by lia. mred.
  destruct (N.ltb_spec off (sum + size e)) as [Hlt|Hge].
  - rewrite checked_sub_Ok by lia. mred. rewrite checked_add_Ok by lia. mred.
    rewrite PhysAddr_new_ok by (change (2 ^ 52) with 4503599627370496; lia). eexists. split; [done|].
    split; [exists e; split; [left|lia]|]. split; [lia|]. rewrite (checked_add_Ok _ (base e) (size e)) by lia. mred.
    rewrite (proj2 (N.leb_le _ _)), (proj2 (N.ltb_lt _ _)) by lia. simpl.
    rewrite (checked_add_Ok _ start_virt) by lia. mred. rewrite checked_sub_Ok by lia. mred.
    rewrite checked_add_Ok by lia. mred. replace (start_virt + sum + _) with (start_virt + off) by lia.
    apply VirtAddr_new_ok. change (2 ^ 47) with 140737488355328. lia.
  - destruct (IH (base e + size e) (sum + size e)) as (phys & -> & Hin & Hge' & Hv); [done|done|lia|lia|].
    exists phys. split; [done|]. split; [destruct Hin as (x & Hx & ?); exists x; split; [by right|done]|].
    split; [lia|]. rewrite (checked_add_Ok _ (base e) (size e)) by lia. mred.
    rewrite (proj2 (N.ltb_ge phys _)), andb_false_r by lia.
    done.
Qed.

Lemma phys_virt_loop l lo phys sum :
  regions lo l → phys_limit l → phys_in l phys → start_virt + sum + total_size l < 2 ^ 47 →
  ∃ off, sum ≤ off < sum + total_size l ∧
    phys_to_virt_loop l phys start_virt sum = Ok (start_virt + off) ∧
    virt_to_phys_loop l off sum = Ok phys.
Proof.
  change (2 ^ 47) with 140737488355328. revert lo sum.
  induction l as [|e l IH]; intros lo sum Hr Hlim Hin Hw; [by destruct Hin as (? & ?%not_elem_of_nil & _)|].
  destruct Hr as ([Hb Hs Hpos He _] & Hlo & Hr). inversion_clear Hlim as [|? ? Hle Hlim'].
  simpl total_size in *. fold (total_size l) in *. cbn [virt_to_phys_loop phys_to_virt_loop].
  change (2 ^ 52) with 4503599627370496 in Hle. rewrite (checked_add_Ok _ (base e)) by lia. mred.
  destruct (decide (base e ≤ phys < base e + size e)) as [Hd|Hd].
  - exists (sum + (phys - base e)). split; [lia|].
    rewrite (proj2 (N.leb_le _ _)), (proj2 (N.ltb_lt _ _)) by lia. simpl.
    rewrite (checked_add_Ok _ start_virt) by lia. mred. rewrite (checked_sub_Ok phys) by lia. mred.
    rewrite (checked_add_Ok _ (start_virt + sum)) by lia. mred.
    rewrite VirtAddr_new_ok by (change (2 ^ 47) with 140737488355328; lia). split; [f_equal; lia|].
    rewrite checked_add_Ok by lia. mred. rewrite (proj2 (N.ltb_lt _ _)) by lia.
    rewrite checked_sub_Ok by lia. mred. rewrite checked_add_Ok by lia. mred.
    replace (base e + _) with phys by lia.
    apply PhysAddr_new_ok. change (2 ^ 52) with 4503599627370496. lia.
  - assert (phys_in l phys) as Hin'.
    { destruct Hin as (x & [->|Hx]%elem_of_cons & Hx'); [done|]. by exists x. }
    destruct (IH (base e + size e) (sum + size e) Hr Hlim' Hin' ltac:(lia)) as (off & Ho & Hv & Hp).
    exists off. split; [lia|]. assert ((base e <=? phys) && (phys <? base e + size e) = false) as ->.
    { destruct (N.leb_spec (base e) phys), (N.ltb_spec phys (base e + size e)); try done. lia. }
    rewrite checked_add_Ok by lia. mred. split; [done|].
    destruct (N.ltb_spec off (sum + size e)); [lia|done].
Qed.

Lemma virt_phys_outside l off sum :
  sum + total_size l ≤ off → sum + total_size l < W64 →
  virt_to_phys_loop l off sum = Panic Explicit.
Proof.
  revert sum. induction l as [|e l IH]; intros sum Ho Hw; [done|].
  simpl total_size in *. fold (total_size l) in *. cbn [virt_to_phys_loop].
  rewrite checked_add_Ok by lia. mred. destruct (N.ltb_spec off (sum + size e)); [lia|].
  apply IH; lia.
Qed.

(** C6: over a map of disjoint regions, the translation of virtual addresses
    of dynamic memory is a bijection from the [total_size] bytes at
    [start_virt] to the bytes of the regions, and [phys_to_virt_dynmem] is
    its inverse; addresses beyond are refused. *)
Theorem translation_bijective l lo :
  regions lo l → phys_limit l → start_virt + total_size l < 2 ^ 47 →
  (∀ v, start_virt ≤ v < start_virt + total_size l →
    ∃ p, virt_to_phys_dynmem v l start_virt = Ok p ∧ phys_in l p ∧
      phys_to_virt_dynmem p l start_virt = Ok v) ∧
  (∀ p, phys_in l p → ∃ v, phys_to_virt_dynmem p l start_virt = Ok v ∧
    start_virt ≤ v < start_virt + total_size l ∧ virt_to_phys_dynmem v l start_virt = Ok p) ∧
  (∀ v, start_virt + total_size l ≤ v → virt_to_phys_dynmem v l start_virt = Panic Explicit).
Proof.
  intros Hr Hlim Hw. change (2 ^ 47) with 140737488355328 in Hw.
  unfold virt_to_phys_dynmem, phys_to_virt_dynmem. split_and!.
  - intros v Hv. rewrite checked_sub_Ok by lia. mred.
    destruct (virt_phys_loop l lo (v - start_virt) 0) as (p & -> & Hin & _ & Hp);
      [done|done|lia|change (2 ^ 47) with 140737488355328; lia|].
    exists p. split_and!; [done|done|]. rewrite Hp. f_equal. lia.
  - intros p Hp. destruct (phys_virt_loop l lo p 0) as (off & Ho & -> & Hv);
      [done|done|done|change (2 ^ 47) with 140737488355328; lia|].
    exists (start_virt + off). split_and!; [done|lia|lia|]. rewrite checked_sub_Ok by lia. mred.
    by replace (start_virt + off - start_virt) with off by lia.
  - intros v Hv. rewrite checked_sub_Ok by lia. mred. apply virt_phys_outside; lia.
Qed.

Lemma phys_virt_outside l phys sum :
  phys_limit l → ¬ phys_in l phys → sum + total_size l < W64 →
  phys_to_virt_loop l phys start_virt sum = Panic Explicit.
Proof.
  revert sum. induction l as [|e l IH]; intros sum Hlim Hni Hw; [done|].
  inversion_clear Hlim as [|? ? Hle Hlim']. change (2 ^ 52) with 4503599627370496 in Hle.
  simpl total_size in *. fold (total_size l) in *. cbn [phys_to_virt_loop].
  rewrite (checked_add_Ok _ (base e)) by lia. mred.
  destruct (N.leb_spec (base e) phys), (N.ltb_spec phys (base e + size e)); cbn [andb].
  1: { destruct Hni. exists e. split; [left|lia]. }
  all: rewrite checked_add_Ok by lia; mred; apply IH; [done| |lia].
  all: intros (x & Hx & Hp); apply Hni; exists x; by split; [right|].
Qed.

Lemma regions_lo l lo phys : regions lo l → phys_in l phys → lo ≤ phys.
Proof.
  revert lo. induction l as [|e l IH]; intros lo Hr (x & Hx & Hp); [by apply not_elem_of_nil in Hx|].
  destruct Hr as (_ & Hlo & Hr). apply elem_of_cons in Hx as [->|Hx]; [lia|].
  assert (base e + size e ≤ phys) by (apply IH; [done|by exists x]). lia.
Qed.

Lemma kernel_round_trip p :
  KERNEL_START_PHYS ≤ p < KSTACK_START_PHYS →
  ∃ v, phys_to_virt_kernel p = Ok v ∧ virt_to_phys_kernel v = Ok p.
Proof.
  unfold KERNEL_START_PHYS, KSTACK_START_PHYS. intros Hp.
  unfold phys_to_virt_kernel, virt_to_phys_kernel, KERNEL_START_PHYS.
  rewrite checked_sub_Ok by lia. mred. unfold KERNEL_START_VIRT. rewrite checked_add_Ok by lia. mred.
  eexists. split; [apply VirtAddr_new_high; unfold KERNEL_START_VIRT; lia|].
  rewrite checked_sub_Ok by lia. mred. rewrite checked_add_Ok by lia. mred.
  rewrite PhysAddr_new_ok by (change (2 ^ 52) with 4503599627370496; lia). f_equal. lia.
Qed.
End translation.

(** [phys_to_virt] over a map built above [DYNMEM_START_PHYS]: it answers
    for the kernel image and for the bytes of the map, and the translations
    back undo it; the kernel stack, holes between regions and everything
    above the map are refused, as is what lies below the kernel. *)
Lemma phys_to_virt_spec `{X86Addr} map p :
  regions DYNMEM_START_PHYS map → phys_limit map → DYNMEM_START_VIRT + total_size map < 2 ^ 47 →
  (KERNEL_START_PHYS ≤ p < KSTACK_START_PHYS →
    ∃ v, phys_to_virt map p = Ok v ∧ virt_to_phys_kernel v = Ok p) ∧
  (phys_in map p →
    ∃ v, phys_to_virt map p = Ok v ∧ virt_to_phys_dynmem v map DYNMEM_START_VIRT = Ok p) ∧
  (KSTACK_START_PHYS ≤ p → ¬ phys_in map p → phys_to_virt map p = Panic Explicit) ∧
  (p < KERNEL_START_PHYS → phys_to_virt map p = Panic Overflow).
Proof.
  intros Hr Hlim Hw. change (2 ^ 47) with 140737488355328 in Hw. unfold phys_to_virt.
  destruct (N.leb_spec DYNMEM_START_PHYS p) as [Hd|Hd]; unfold DYNMEM_START_PHYS in Hd.
  - unfold KERNEL_START_PHYS, KSTACK_START_PHYS. split_and!; [lia| | |lia].
    + intros Hp. destruct (phys_virt_loop DYNMEM_START_VIRT map DYNMEM_START_PHYS p 0) as (off & Ho & Hv & Hb);
        [done|done|done|change (2 ^ 47) with 140737488355328; lia|].
      exists (DYNMEM_START_VIRT + off). split; [done|]. unfold virt_to_phys_dynmem.
      rewrite checked_sub_Ok by lia. mred. by rewrite N.add_comm, N.add_sub.
    + intros _ Hp. apply phys_virt_outside; [done|done|lia].
  - destruct (N.ltb_spec p KSTACK_START_PHYS) as [Hk|Hk]; unfold KSTACK_START_PHYS in Hk.
    + split_and!; [by apply kernel_round_trip| | |].
      * intros Hp%(regions_lo map DYNMEM_START_PHYS); [unfold DYNMEM_START_PHYS in Hp; lia|done].
      * unfold KSTACK_START_PHYS. lia.
      * intros Hp. unfold phys_to_virt_kernel. by rewrite checked_sub_Panic.
    + split_and!; [unfold KSTACK_START_PHYS; lia| |done|unfold KERNEL_START_PHYS; lia].
      intros Hp%(regions_lo map DYNMEM_START_PHYS); [unfold DYNMEM_START_PHYS in Hp; lia|done].
Qed.

(** ** The map of the repository's test *)

(** Functions with the documented behaviour of the crates and of the sort. *)
#[export, refine] Instance num_enum_example : NumEnum := {
  try_from n :=
    if n =? 1 then Some Usable else if n =? 2 then Some Reserved
    else if n =? 3 then Some AcpiReclaimable else if n =? 4 then Some AcpiNVS
    else if n =? 5 then Some BadArea else None;
}.
Proof.
  intros n t. destruct (N.eqb_spec n 1), (N.eqb_spec n 2), (N.eqb_spec n 3), (N.eqb_spec n 4),
    (N.eqb_spec n 5), t; simpl; split; intros; simplify_eq; try done; lia.
Defined.

Definition base_le (x y : MemoryMapEntry) : Prop := base x ≤ base y.
#[export] Instance base_le_dec x y : Decision (base_le x y) := N.le_dec _ _.
#[export] Instance base_le_total : Total base_le.
Proof. intros x y. unfold base_le. lia. Qed.
#[export] Instance base_le_trans : Transitive base_le.
Proof. intros x y z. unfold base_le. lia. Qed.

#[export, refine] Instance sort_example : SortUnstable := { sort_by_base := merge_sort base_le }.
Proof.
  - intros l. apply merge_sort_Permutation.
  - intros l. apply (StronglySorted_merge_sort base_le).
Defined.

#[export, refine] Instance x86_addr_example : X86Addr := {
  PhysAddr_new a := if a <? 2 ^ 52 then Ok a else Panic Explicit;
  VirtAddr_new a := if (a <? 2 ^ 47) || (KERNEL_START_VIRT <=? a) then Ok a else Panic Explicit;
}.
Proof.
  - intros a Ha. by apply N.ltb_lt in Ha as ->.
  - intros a Ha. by apply N.ltb_lt in Ha as ->.
  - intros a [Ha _]. apply N.leb_le in Ha as ->. by rewrite orb_true_r.
Defined.

Definition test_map : list MemoryMapEntry :=
  [mkEntry 0x03000000 0x01000000 1 0; mkEntry 0 0x01040000 1 0;
   mkEntry 0x02000000 0x01000000 1 0; mkEntry 0x01000000 0x01000000 1 0].
Definition expected : list MemoryMapEntry :=
  [mkEntry 0x00800000 0x00840000 1 0; mkEntry 0x01040000 0x00fc0000 1 0;
   mkEntry 0x02000000 0x01000000 1 0; mkEntry 0x03000000 0x01000000 1 0].

Lemma test_map_fits : Forall entry_fits test_map.
Proof. repeat constructor; intros _; vm_compute; discriminate. Qed.

Lemma expected_regions : regions DYNMEM_START_PHYS expected.
Proof.
  repeat (split; [split; vm_compute; reflexivity|split; [vm_compute; discriminate|]]). exact I.
Qed.

Lemma create_dynmem_map_spec_witness :
  ∃ n buffer', create_dynmem_map test_map (replicate 16 entry_zero) = Ok (n, buffer') ∧
    take (N.to_nat n) buffer' = expected ∧
    (page_in expected 0x01000000 ↔
      DYNMEM_START_PHYS ≤ 0x01000000 ∧ page_in (List.filter is_usable test_map) 0x01000000).
Proof.
  destruct (create_dynmem_map_spec test_map (replicate 16 entry_zero)) as (n & b & Hr & _ & _ & _ & Hp);
    [vm_compute; discriminate|vm_compute; reflexivity|apply test_map_fits|].
  exists n, b. assert (take (N.to_nat n) b = expected) as He.
  { vm_compute in Hr. injection Hr as <- <-. reflexivity. }
  rewrite He in Hp. split_and!; [exact Hr|exact He|]. apply Hp. reflexivity.
Defined.

Lemma translation_bijective_witness :
  ∃ p, virt_to_phys_dynmem 0x00a80000 expected DYNMEM_START_VIRT = Ok p ∧ phys_in expected p ∧
    phys_to_virt_dynmem p expected DYNMEM_START_VIRT = Ok 0x00a80000.
Proof.
  destruct (translation_bijective DYNMEM_START_VIRT expected DYNMEM_START_PHYS) as (Hv & _);
    [apply expected_regions|repeat constructor; vm_compute; discriminate|vm_compute; reflexivity|].
  apply Hv. split; [vm_compute; discriminate|vm_compute; reflexivity].
Defined.

End MemoryMapSpec.
