(* ===== verification/KernelMemory.v ===== *)
(** * Kernel memory: [kernel/src/memory.rs] over the buddy allocator, and the
    self test of [kernel/src/shell.rs]

    [init_dyn_alloc] gives the pages behind the page tables to the buddy
    allocator; [alloc_zero] and [deallocate] are the kernel's interface to
    it.  [cmd_test_dyn_seq] is the shell's test of both: level by level it
    allocates every block, writes and reads it back, and frees them all.
    What is printed is kept as data. *)
From stdpp Require Import gmap.
From S2P Require Import Prelude Buddy MemoryMap.
Import Buddy.
Local Open Scope checked_scope.

Module KernelMemory.

Record MemoryData := mkData {
  data_total_len : N; page_table_len : N; buddy_len : N; buddyblock : BuddyBlock;
}.

(** The kernel's data and the bytes of the virtual address space. *)
Record kernel := mkKernel { data : MemoryData; memory : N → N }.

Definition MEMORY_DATA : MemoryData := mkData 0 0 0 buddy_empty.

Record AllocatorInfo := mkAllocInfo { ai_buddy : BuddyBlockInfo; ai_used : N }.
Record AllocatorSizeInfo := mkSizeInfo { si_len : N; si_used : N }.

Definition write_bytes (addr b len : N) (m : N → N) : N → N :=
  λ a, if ((addr <=? a) && (a <? addr + len))%N then b else m a.

Section memory.
Context `{NumInteger}.

Definition set_buddy (b : BuddyBlock) (d : MemoryData) : MemoryData :=
  mkData (data_total_len d) (page_table_len d) (buddy_len d) b.

Definition init_dyn_alloc (d : MemoryData) : result MemoryData :=
  start ← MemoryMap.DYNMEM_START_VIRT +! page_table_len d;
  len ← data_total_len d -! page_table_len d;
  b ← buddy_new start len;
  Ok (mkData (data_total_len d) (page_table_len d) (data_offset (info b)) b).

Definition allocator_info (k : kernel) : AllocatorInfo :=
  mkAllocInfo (info (buddyblock (data k))) (used (buddyblock (data k))).

Definition allocator_size_info (k : kernel) : result AllocatorSizeInfo :=
  len ← data_len (info (buddyblock (data k)));
  Ok (mkSizeInfo len (used (buddyblock (data k)))).

Definition alloc_zero (len : N) (k : kernel) : result (option N * kernel) :=
  '(r, b) ← alloc (buddyblock (data k)) len;
  match r with
  | Some addr => Ok (Some addr, mkKernel (set_buddy b (data k)) (write_bytes addr 0 len (memory k)))
  | None => Ok (None, mkKernel (set_buddy b (data k)) (memory k))
  end.

Definition deallocate (addr len : N) (k : kernel) : result kernel :=
  b ← dealloc (buddyblock (data k)) addr len;
  Ok (mkKernel (set_buddy b (data k)) (memory k)).

(** ** [cmd_test_dyn_seq] *)

(** A little-endian [u32] in memory. *)
Definition store32 (a v : N) (m : N → N) : N → N :=
  λ x, if ((a <=? x) && (x <? a + 4))%N then ((v / 256 ^ (x - a)) mod 256)%N else m x.
Definition load32 (a : N) (m : N → N) : N :=
  (m a + 256 * m (a + 1) + 65536 * m (a + 2) + 16777216 * m (a + 3))%N.

(** What the test prints. *)
Inductive report :=
  | ChunkStart (addr : N) | DataRange (start stop : N)
  | LevelStart (level block_count size : N) | AllocPhase | DeallocPhase | Dot | LevelDone
  | ComparisonFail (level size index : N) | AllocFail (level size index : N).

(** The two loops over the slice of [size / 4] words. *)
Definition fill_slice (addr size : N) (m : N → N) : N → N :=
  foldl (λ m idx, store32 (addr + 4 * idx) (idx mod W32) m) m (range 0 (size / 4)).
Definition compare_slice (level addr size index : N) (m : N → N) : list report :=
  concat ((λ idx, if negb (load32 (addr + 4 * idx) m =? idx mod W32)%N
                  then [ComparisonFail level size index] else []) <$> range 0 (size / 4)).

(** The loop of allocations; [false] if the test is given up. *)
Fixpoint test_allocs (indices : list N) (level size : N) (k : kernel)
    : result (bool * list report * kernel) :=
  match indices with
  | [] => Ok (true, [], k)
  | index :: indices =>
      '(r, k) ← alloc_zero size k;
      match r with
      | Some addr =>
          let m := fill_slice addr size (memory k) in
          let log := compare_slice level addr size index m in
          '(go, log', k) ← test_allocs indices level size (mkKernel (data k) m);
          Ok (go, log ++ Dot :: log', k)
      | None => Ok (false, [AllocFail level size index], k)
      end
  end.

(** The body of the loop of deallocations; it prints a dot. *)
Definition test_dealloc_step (data_start size index : N) (st : list report * kernel) : result (list report * kernel) :=
  o ← size *! index;
  addr ← data_start +! o;
  k ← deallocate addr size st.2;
  Ok (st.1 ++ [Dot], k).

Definition test_level (i : BuddyBlockInfo) (level : N) (k : kernel) : result (bool * list report * kernel) :=
  block_count ← units i >>! level;
  size ← MemoryMap.PAGE_SIZE <<! level;
  szinfo ← allocator_size_info k;
  assert (si_used szinfo =? 0)%N;;
  '(go, log, k) ← test_allocs (range 0 block_count) level size k;
  let log := LevelStart level block_count size :: AllocPhase :: log in
  if (go : bool) then
    szinfo ← allocator_size_info k;
    assert (si_used szinfo =? si_len szinfo / size * size)%N;;
    a ← data_addr i;
    '(log, k) ← for_each (range 0 block_count) (test_dealloc_step a size) (log ++ [DeallocPhase], k);
    szinfo ← allocator_size_info k;
    assert (si_used szinfo =? 0)%N;;
    Ok (true, log ++ [LevelDone], k)
  else Ok (false, log, k).

Fixpoint test_levels (ls : list N) (i : BuddyBlockInfo) (k : kernel) : result (list report * kernel) :=
  match ls with
  | [] => Ok ([], k)
  | level :: ls =>
      '(go, log, k) ← test_level i level k;
      if (go : bool) then
        '(log', k) ← test_levels ls i k;
        Ok (log ++ log', k)
      else Ok (log, k)
  end.

Definition cmd_test_dyn_seq (k : kernel) : result (list report * kernel) :=
  let i := ai_buddy (allocator_info k) in
  a ← data_addr i;
  e ← raw_addr i +! total_len i;
  '(log, k) ← test_levels (range 0 (levels i)) i k;
  Ok (ChunkStart a :: DataRange a e :: log, k).
End memory.

End KernelMemory.
