(* ===== verification/KernelMemorySpec.v ===== *)
(** * Kernel memory: correctness

    [alloc_zero] hands out zeroed memory of the kernel's dynamic area that is
    not in use, and changes no other byte; the shell's self test passes on
    every accepted chunk and leaves the allocator as it was. *)
From stdpp Require Import gmap.
From S2P Require Import Prelude Buddy BuddyTree BuddyBits BuddyAlloc BuddyNew BuddySpec.
From S2P Require Import MemoryMap KernelMemory.
Import Buddy BuddyTree BuddyBits BuddyAlloc KernelMemory.
Local Open Scope N_scope.

Module KernelMemorySpec.

(** ** Words in memory *)
Lemma load32_store32 a v m : v < W32 → load32 a (store32 a v m) = v.
Proof.
  intros Hv. unfold load32, store32.
  replace (a - a) with 0 by lia. replace (a + 1 - a) with 1 by lia.
  replace (a + 2 - a) with 2 by lia. replace (a + 3 - a) with 3 by lia.
  rewrite !(proj2 (N.leb_le _ _)), !(proj2 (N.ltb_lt _ _)) by lia. cbn [andb].
  change (256 ^ 0) with 1. change (256 ^ 1) with 256. change (256 ^ 2) with 65536.
  change (256 ^ 3) with 16777216. lia.
Qed.

Lemma load32_store32_ne a b v m : a + 4 ≤ b ∨ b + 4 ≤ a → load32 a (store32 b v m) = load32 a m.
Proof.
  intros Hd. unfold load32, store32.
  assert (∀ x, a ≤ x < a + 4 → (b <=? x) && (x <? b + 4) = false) as Hx.
  { intros x Hx. destruct (N.leb_spec b x), (N.ltb_spec x (b + 4)); try done. lia. }
  by rewrite !Hx by lia.
Qed.

(** What was written to the slice is read back. *)
Lemma fill_slice_load addr n m idx :
  idx < n → load32 (addr + 4 * idx)
    (foldl (λ m idx, store32 (addr + 4 * idx) (idx mod W32) m) m (range 0 n)) = idx mod W32.
Proof.
  induction n as [|n IH] using N.peano_ind; intros Hi; [lia|].
  rewrite <-N.add_1_r, range_snoc, foldl_app by lia. cbn [foldl].
  destruct (N.eq_dec idx n) as [->|Hne]; [apply load32_store32; lia|].
  rewrite load32_store32_ne by lia. apply IH. lia.
Qed.

Lemma compare_slice_ok level addr size index m :
  compare_slice level addr size index (fill_slice addr size m) = [].
Proof.
  unfold compare_slice, fill_slice. set (m' := foldl _ _ _).
  assert (∀ l, (∀ i, i ∈ l → i < size / 4) →
    concat ((λ idx, if negb (load32 (addr + 4 * idx) m' =? idx mod W32)
      then [ComparisonFail level size index] else []) <$> l) = []) as Hl.
  { induction l as [|i l IH]; intros Hi; [done|]. simpl. unfold m' at 1.
    rewrite fill_slice_load, N.eqb_refl by (apply Hi; left). simpl. apply IH.
    intros j Hj. apply Hi. by right. }
  apply Hl. intros i Hi%elem_of_range. lia.
Qed.

(** ** All blocks of a level *)
Section level.
Context `{NumInteger} (k : N).

Definition level_size : N := 4096 * 2 ^ k.

(** Only blocks of this level are handed out, for their whole size. *)
Definition at_level (A : gmap block N) : Prop :=
  map_Forall (λ b n, b.1 = k ∧ n = level_size) A.

Lemma total_at_level A : at_level A → total A = N.of_nat (size A) * level_size.
Proof.
  induction A as [|b n A Hb IH] using map_ind; intros HA; [done|].
  apply map_Forall_insert in HA as [[_ ->] HA]; [|done].
  rewrite total_insert, IH, map_size_insert_None by done. lia.
Qed.

Lemma level_size_fits : fits k level_size.
Proof.
  unfold level_size. pose proof (pow2_pos k). split; [lia|lia|lia|].
  destruct (N.eq_dec k 0) as [->|Hk]; [by left|right].
  replace k with ((k - 1) + 1) at 2 by lia. rewrite N.pow_add_r, N.pow_1_r.
  pose proof (pow2_pos (k - 1)). lia.
Qed.

Lemma level_size_aligned : aligned level_size = level_size.
Proof.
  unfold aligned, UNIT_SIZE, level_size. rewrite (div_ceil_mult _ _ (2 ^ k)); lia.
Qed.

Lemma level_keys s A :
  inv s A → at_level A →
  dom A ⊆ list_to_set ((λ i, (k, i)) <$> range 0 (block_of k (units (info s)))).
Proof.
  intros HI HA b [n Hb]%elem_of_dom. destruct (HA b n Hb) as [Hk _]. destruct b as [k' i].
  simpl in Hk. subst k'. apply elem_of_list_to_set, list_elem_of_fmap. exists i. split; [done|].
  apply elem_of_range. split; [lia|]. eapply tree_range; [apply (inv_tree s A HI)|]. right. by rewrite Hb.
Qed.

Lemma level_set_size c :
  size (list_to_set ((λ i, (k, i)) <$> range 0 c) : gset block) = N.to_nat c.
Proof.
  rewrite size_list_to_set; [by rewrite length_fmap, length_range, Nat.sub_0_r|].
  apply NoDup_fmap; [by intros ? ? [= ->]|apply NoDup_range].
Qed.

(** As long as a block of the level is missing, the allocation succeeds. *)
Lemma level_alloc s A :
  inv s A → at_level A → k < levels (info s) →
  N.of_nat (size A) < block_of k (units (info s)) →
  ∃ i s', alloc s level_size = Ok (Some (block_addr (info s) (k, i)), s') ∧
    info s' = info s ∧ A !! (k, i) = None ∧ inv s' (<[(k, i) := level_size]> A).
Proof.
  intros HI HA Hk Hsz. pose proof (levels_le s (inv_geom s A HI)) as Hl.
  pose proof (pow2_51 k ltac:(lia)) as H63. pose proof level_size_fits as Hf. pose proof (fits_pos _ _ Hf).
  destruct (alloc_run s A level_size HI) as (k' & Hk' & Hf' & Hal); [done|done|].
  rewrite level_size_aligned in *. rewrite (fits_unique k' k level_size) in Hal by done.
  destruct Hal as [[_ Hnone]|(i & s' & -> & _ & Hn & Hinf & HI')]; [|by exists i, s'].
  exfalso. assert (list_to_set ((λ i, (k, i)) <$> range 0 (block_of k (units (info s)))) ⊆ dom A) as Hsub.
  { intros b Hb. apply elem_of_list_to_set, list_elem_of_fmap in Hb as (i & -> & Hi%elem_of_range).
    destruct (BuddySpec.refused_overlap s A k i HI ltac:(lia) Hnone) as ([k'' i'] & n & HA' & Ho).
    destruct (HA _ _ HA') as [Hk'' _]. simpl in Hk''. subst k''. apply elem_of_dom. exists n.
    apply BuddySpec.overlap_unit in Ho as (u & Hu1 & Hu2). simpl in Hu1, Hu2. congruence. }
  apply subseteq_size in Hsub. rewrite level_set_size, size_dom in Hsub. lia.
Qed.

(** When as many blocks are handed out as the level has, they are all of them. *)
Lemma level_full s A i :
  inv s A → at_level A → N.of_nat (size A) = block_of k (units (info s)) →
  i < block_of k (units (info s)) → A !! (k, i) = Some level_size.
Proof.
  intros HI HA Hsz Hi. pose proof (level_keys s A HI HA) as Hsub.
  assert (dom A = list_to_set ((λ i, (k, i)) <$> range 0 (block_of k (units (info s))))) as Heq.
  { apply set_subseteq_size_eq; [done|]. rewrite level_set_size, size_dom. lia. }
  assert ((k, i) ∈ dom A) as [n Hn]%elem_of_dom.
  { rewrite Heq. apply elem_of_list_to_set, list_elem_of_fmap. exists i. split; [done|].
    apply elem_of_range. lia. }
  rewrite Hn. f_equal. by apply (HA _ _ Hn).
Qed.

(** The loop of allocations hands out the missing blocks of the level. *)
Lemma test_allocs_run level idxs kn A :
  inv (buddyblock (data kn)) A → at_level A → k < levels (info (buddyblock (data kn))) →
  N.of_nat (size A) + vlen idxs = block_of k (units (info (buddyblock (data kn)))) →
  ∃ kn' A', test_allocs idxs level level_size kn = Ok (true, replicate (length idxs) Dot, kn') ∧
    info (buddyblock (data kn')) = info (buddyblock (data kn)) ∧
    inv (buddyblock (data kn')) A' ∧ at_level A' ∧
    N.of_nat (size A') = block_of k (units (info (buddyblock (data kn)))).
Proof.
  revert kn A. induction idxs as [|idx idxs IH]; intros kn A HI HA Hk Hsz.
  { exists kn, A. split_and!; try done. unfold vlen in Hsz. simpl in Hsz. lia. }
  unfold vlen in Hsz. simpl in Hsz. set (s := buddyblock (data kn)) in *.
  destruct (level_alloc s A HI HA Hk) as (i & s' & Hal & Hinf & Hn & HI'); [lia|].
  cbn [test_allocs]. unfold alloc_zero. fold s. rewrite Hal. mred. cbn [memory data].
  set (kn1 := mkKernel (set_buddy s' (data kn)) _).
  destruct (IH kn1 (<[(k, i) := level_size]> A)) as (kn' & A' & -> & Hinf' & HI2 & HA2 & Hs2).
  - exact HI'.
  - apply map_Forall_insert; done.
  - simpl. by rewrite Hinf.
  - simpl. rewrite Hinf, map_size_insert_None by done. unfold vlen. lia.
  - mred. rewrite compare_slice_ok. simpl in Hinf', Hs2. rewrite Hinf in Hinf', Hs2.
    by exists kn', A'.
Qed.

(** The blocks of the level from index [lo] on. *)
Definition from_index (lo : N) (A : gmap block N) (c : N) : Prop :=
  ∀ b, A !! b = if bool_decide (b.1 = k ∧ lo ≤ b.2 < c) then Some level_size else None.

Lemma test_deallocs_run d log kn A lo c :
  inv (buddyblock (data kn)) A → from_index lo A c → lo ≤ c →
  c = block_of k (units (info (buddyblock (data kn)))) → k < levels (info (buddyblock (data kn))) →
  data_start (info (buddyblock (data kn))) = d →
  ∃ kn', for_each (range lo c) (test_dealloc_step d level_size) (log, kn) =
      Ok (log ++ replicate (N.to_nat (c - lo)) Dot, kn') ∧
    info (buddyblock (data kn')) = info (buddyblock (data kn)) ∧ inv (buddyblock (data kn')) ∅.
Proof.
  intros HI HA Hlo Hc Hk Hd. assert (∃ n, c - lo = n) as [n Hn] by eauto.
  revert log kn A lo HI HA Hlo Hc Hk Hd Hn.
  induction n as [|n IH] using N.peano_ind; intros log kn A lo HI HA Hlo Hc Hk Hd Hn.
  - rewrite range_nil, Hn, app_nil_r by lia. exists kn. split_and!; try done. replace ∅ with A; [done|].
    apply map_empty. intros b. rewrite HA, bool_decide_false; [done|lia].
  - rewrite range_cons by lia. cbn [for_each]. set (s := buddyblock (data kn)) in *.
    assert (A !! (k, lo) = Some level_size) as Hb by (rewrite HA, bool_decide_true; [done|simpl; lia]).
    pose proof (block_addr_end s A k lo HI ltac:(lia)) as Hend. destruct (inv_chunk s A HI) as [_ _ _ Hce].
    assert (block_addr (info s) (k, lo) = d + level_size * lo) as Ha.
    { unfold block_addr, level_size. simpl. lia. }
    pose proof (pow2_pos k).
    destruct (dealloc_run s A (block_addr (info s) (k, lo)) level_size k lo level_size HI Hb)
      as (s' & Hrun & Hinf & HI'); [unfold names, level_size; lia|].
    assert (test_dealloc_step d level_size lo (log, kn) =
      Ok (log ++ [Dot], mkKernel (set_buddy s' (data kn)) (memory kn))) as ->.
    { unfold test_dealloc_step. rewrite checked_mul_Ok by (unfold level_size in *; lia). mred.
      rewrite checked_add_Ok by lia. mred. unfold deallocate. cbn [fst snd]. fold s. by rewrite <-Ha, Hrun. }
    mred. destruct (IH (log ++ [Dot]) (mkKernel (set_buddy s' (data kn)) (memory kn)) (delete (k, lo) A) (lo + 1))
      as (kn' & -> & Hinf' & HI2); simpl; rewrite ?Hinf; try done; try lia.
    + intros b. rewrite lookup_delete, HA. destruct (decide ((k, lo) = b)) as [<-|Hne].
      * by rewrite bool_decide_false by (simpl; lia).
      * erewrite bool_decide_ext; [done|]. destruct b as [k' i]. simpl.
        assert (k' = k → i ≠ lo) by (intros -> ->; done). lia.
    + exists kn'. simpl in Hinf'. rewrite Hinf', Hinf, <-app_assoc. split_and!; try done. do 3 f_equal.
      by replace (N.to_nat (c - lo)) with (S (N.to_nat (c - (lo + 1)))) by lia.
Qed.
End level.

Section kernel.
Context `{NumInteger}.

(** The transcript of a test without failures. *)
Definition level_log (i : BuddyBlockInfo) (level : N) : list report :=
  let n := block_of level (units i) in
  [LevelStart level n (level_size level); AllocPhase] ++ replicate (N.to_nat n) Dot ++ [DeallocPhase] ++
  replicate (N.to_nat n) Dot ++ [LevelDone].
Definition self_test_log (i : BuddyBlockInfo) : list report :=
  [ChunkStart (raw_addr i + data_offset i); DataRange (raw_addr i + data_offset i) (raw_addr i + total_len i)] ++
  concat (level_log i <$> range 0 (levels i)).

(** One level of the self test. *)
Lemma test_level_run i level kn :
  inv (buddyblock (data kn)) ∅ → info (buddyblock (data kn)) = i → level < levels i →
  ∃ kn', test_level i level kn = Ok (true, level_log i level, kn') ∧ buddyblock (data kn') = buddyblock (data kn).
Proof.
  intros HI Hinf Hk. set (s := buddyblock (data kn)) in *. pose proof (inv_geom s ∅ HI) as Hg.
  pose proof (levels_le s Hg) as Hl. rewrite Hinf in Hl.
  pose proof (pow2_51 level ltac:(lia)) as H63. change (2 ^ 63) with 9223372036854775808 in H63.
  pose proof (pow2_pos level) as Hp. destruct (inv_chunk s ∅ HI) as [_ _ Hlen Hce]. rewrite Hinf in Hlen, Hce.
  assert (∀ kn1, info (buddyblock (data kn1)) = i → allocator_size_info kn1 =
    Ok (mkSizeInfo (units i * 4096) (used (buddyblock (data kn1))))) as Hsi.
  { intros kn1 Hi1. unfold allocator_size_info, data_len. rewrite Hi1, checked_sub_Ok by lia. mred.
    by replace (total_len i - data_offset i) with (units i * 4096) by lia. }
  unfold test_level. rewrite checked_shr_Ok by lia. mred. fold (block_of level (units i)).
  unfold MemoryMap.PAGE_SIZE. rewrite checked_shl_Ok by lia. mred. rewrite (Hsi kn Hinf). mred.
  cbn [si_used]. fold s. rewrite (inv_used s ∅ HI). change (total ∅) with 0. rewrite assert_true by done. mred.
  fold (level_size level).
  destruct (test_allocs_run level level (range 0 (block_of level (units i))) kn ∅) as
    (kn1 & A & Hal & Hi1 & HI1 & HA & Hsz); fold s; [done|done|by rewrite Hinf| |].
  { unfold vlen. rewrite length_range, Hinf, map_size_empty. lia. }
  rewrite Hal. mred. fold s in Hi1, Hsz. rewrite Hinf in Hi1, Hsz. rewrite (Hsi kn1 Hi1). mred.
  cbn [si_used si_len]. rewrite (inv_used _ _ HI1), (total_at_level level A HA), Hsz.
  assert (units i * 4096 / level_size level = block_of level (units i)) as Hdiv.
  { unfold level_size, block_of. rewrite N.mul_comm. apply N.Div0.div_mul_cancel_l. lia. }
  rewrite assert_true by (apply N.eqb_eq; by rewrite Hdiv). mred.
  unfold data_addr. rewrite checked_add_Ok by lia. mred.
  match goal with |- context [for_each _ _ (?l, kn1)] => set (log := l) end.
  destruct (test_deallocs_run level (raw_addr i + data_offset i) log kn1 A 0 (block_of level (units i)))
    as (kn2 & -> & Hi2 & HI2); rewrite ?Hi1; try done; try lia.
  { intros [k' j]. simpl. destruct (bool_decide_reflect (k' = level ∧ 0 ≤ j < block_of level (units i))) as [[-> Hj]|Hno].
    - apply (level_full level _ A j HI1 HA); [by rewrite Hi1|rewrite Hi1; lia].
    - apply eq_None_not_Some. intros [n Hn]. apply Hno. destruct (HA _ _ Hn) as [Hk' _]. simpl in Hk'.
      split; [done|]. subst k'. split; [lia|]. rewrite <-Hi1.
      eapply tree_range; [apply (inv_tree _ _ HI1)|]. right. by rewrite Hn. }
  mred. rewrite (Hsi kn2) by congruence. mred. cbn [si_used]. rewrite (inv_used _ _ HI2).
  rewrite assert_true by done. mred. exists kn2. split.
  { unfold level_log, log. rewrite length_range, !N.sub_0_r, Nat.sub_0_r. by rewrite <-!app_assoc. }
  apply (BuddySpec.inv_unique _ _ ∅); [done|done|]. fold s. congruence.
Qed.

Lemma test_levels_run i ls kn :
  inv (buddyblock (data kn)) ∅ → info (buddyblock (data kn)) = i → (∀ l, l ∈ ls → l < levels i) →
  ∃ kn', test_levels ls i kn = Ok (concat (level_log i <$> ls), kn') ∧ buddyblock (data kn') = buddyblock (data kn).
Proof.
  revert kn. induction ls as [|l ls IH]; intros kn HI Hinf Hls; [by exists kn|]. cbn [test_levels].
  destruct (test_level_run i l kn HI Hinf) as (kn1 & -> & Hs1); [apply Hls; left|]. mred.
  destruct (IH kn1) as (kn2 & -> & Hs2); [by rewrite Hs1|by rewrite Hs1| |].
  - intros l' Hl'. apply Hls. by right.
  - mred. exists kn2. split; [done|congruence].
Qed.

Lemma init_dyn_alloc_keeps d d' :
  init_dyn_alloc d = Ok d' → data_total_len d' = data_total_len d ∧ page_table_len d' = page_table_len d.
Proof. unfold init_dyn_alloc. intros Hi. mpeel Hi. by injection Hi as <-. Qed.

(** The kernel after [init_dyn_alloc], with page tables and memory in whole pages. *)
Definition booted (d d' : MemoryData) : Prop :=
  page_table_len d mod 4096 = 0 ∧ data_total_len d mod 4096 = 0 ∧
  page_table_len d ≤ data_total_len d ∧ MemoryMap.DYNMEM_START_VIRT + data_total_len d < W64 ∧
  init_dyn_alloc d = Ok d'.

Lemma booted_fresh d d' :
  booted d d' →
  BuddySpec.fresh_chunk (MemoryMap.DYNMEM_START_VIRT + page_table_len d)
    (data_total_len d - page_table_len d) (buddyblock d').
Proof.
  unfold booted, init_dyn_alloc, MemoryMap.DYNMEM_START_VIRT. intros (Hp & Ht & Hle & Hw & Hi).
  rewrite checked_add_Ok in Hi by lia. revert Hi. mred. rewrite checked_sub_Ok by lia. mred.
  destruct (buddy_new _ _) as [b|] eqn:Hb; [|done]. mred. intros [= <-]. simpl.
  unfold BuddySpec.fresh_chunk. split_and!; [lia|lia|lia|done].
Qed.

(** The shell's self test of dynamic memory passes: on a kernel without
    ranges in use every block of every level is allocated, none of the
    test's assertions fails and no failure is printed, and the allocator is
    left as it was. *)
Lemma self_test_run d d' kn :
  booted d d' → buddyblock (data kn) = buddyblock d' →
  ∃ kn', cmd_test_dyn_seq kn = Ok (self_test_log (info (buddyblock (data kn))), kn') ∧
    buddyblock (data kn') = buddyblock (data kn).
Proof.
  intros Hb Heq. pose proof (BuddySpec.fresh_inv _ _ _ (booted_fresh d d' Hb)) as HI.
  rewrite <-Heq in HI. unfold cmd_test_dyn_seq, allocator_info, data_addr. cbn [ai_buddy].
  destruct (inv_chunk _ _ HI) as [_ _ Hl He].
  rewrite (checked_add_Ok _ _ (data_offset _)) by lia. mred.
  rewrite (checked_add_Ok _ _ (total_len _)) by lia. mred.
  destruct (test_levels_run (info (buddyblock (data kn))) (range 0 (levels (info (buddyblock (data kn))))) kn)
    as (kn' & -> & Hs); [done|done|intros l Hl'%elem_of_range; lia|]. mred. by exists kn'.
Qed.

Lemma alloc_zero_run d d' kn live len :
  booted d d' → BuddySpec.reachable (buddyblock d') (buddyblock (data kn)) live →
  BuddySpec.request_ok len →
  ∃ r kn', alloc_zero len kn = Ok (r, kn') ∧
    match r with
    | None => memory kn' = memory kn
    | Some addr =>
        MemoryMap.DYNMEM_START_VIRT + page_table_len d < addr ∧
        addr + len ≤ MemoryMap.DYNMEM_START_VIRT + data_total_len d ∧
        (∀ a n, live !! a = Some n → addr + len ≤ a ∨ a + n ≤ addr) ∧
        (∀ x, memory kn' x = if (addr <=? x) && (x <? addr + len) then 0 else memory kn x) ∧
        BuddySpec.reachable (buddyblock d') (buddyblock (data kn')) (<[addr := len]> live)
    end.
Proof.
  intros Hb Hr Hlen. pose proof (booted_fresh d d' Hb) as Hfresh. destruct Hb as (_ & _ & Hle & _ & _).
  destruct (BuddySpec.guarantee_client _ _ _ _ _ Hfresh Hr) as (A & HC & _).
  destruct (alloc_run _ A len (BuddySpec.client_inv _ _ _ HC)) as (k & _ & _ & Hal); [apply Hlen|apply Hlen|].
  unfold alloc_zero. destruct Hal as [[-> _]|(i & s' & Hal & _)].
  { mred. by eexists _, _. }
  rewrite Hal. mred. eexists _, _. split; [done|]. set (addr := block_addr _ _) in *.
  assert (BuddySpec.reachable (buddyblock d') s' (<[addr := len]> live)) as Hr'
    by by eapply BuddySpec.reach_alloc.
  destruct (BuddySpec.guarantee_client _ _ _ _ _ Hfresh Hr') as (A' & HC' & _ & _ & Hra & Hto & Hmd).
  pose proof (BuddySpec.client_inv _ _ _ HC') as HI'.
  destruct (BuddySpec.client_range s' A' _ addr len HC' (lookup_insert_eq _ _ _))
    as (k' & i' & Haddr & HA' & Hres & Hi' & Hal').
  pose proof (block_addr_end s' A' k' i' HI' Hi') as Hend. rewrite <-Haddr in Hend.
  split_and!; [rewrite Haddr; unfold block_addr, data_start; lia|lia| |done|done].
  intros a n Ha.
  assert (a ≠ addr) as Hne.
  { intros ->. destruct (BuddySpec.client_alloc _ A live len addr s' HC Hlen Hal) as (_ & _ & _ & Hf).
    congruence. }
  assert (<[addr := len]> live !! a = Some n) as Ha' by by rewrite lookup_insert_ne.
  destruct (BuddySpec.client_range s' A' _ a n HC' Ha') as (_ & _ & _ & _ & _ & _ & Hn).
  destruct (BuddySpec.client_disjoint s' A' _ addr len a n HC' (lookup_insert_eq _ _ _) Ha' ltac:(done)); lia.
Qed.

(** C35: whatever was allocated and freed before, [alloc_zero] answers; the
    memory it returns lies behind the page tables, is not in use, and is
    zero, and no other byte changes. *)
Theorem alloc_zero_spec d d' kn live len :
  booted d d' → BuddySpec.reachable (buddyblock d') (buddyblock (data kn)) live →
  BuddySpec.request_ok len →
  ∃ r kn', alloc_zero len kn = Ok (r, kn') ∧
    match r with
    | None => memory kn' = memory kn
    | Some addr =>
        MemoryMap.DYNMEM_START_VIRT + page_table_len d < addr ∧
        addr + len ≤ MemoryMap.DYNMEM_START_VIRT + data_total_len d ∧
        (∀ a n, live !! a = Some n → addr + len ≤ a ∨ a + n ≤ addr) ∧
        (∀ x, memory kn' x = if (addr <=? x) && (x <? addr + len) then 0 else memory kn x) ∧
        BuddySpec.reachable (buddyblock d') (buddyblock (data kn')) (<[addr := len]> live)
    end.
Proof. apply alloc_zero_run. Qed.
End kernel.

(** ** An example: three pages of page tables, sixteen pages behind them *)
Definition demo_data : MemoryData := mkData 77824 12288 0 buddy_empty.
Definition demo_booted : MemoryData := Eval vm_compute in
  match init_dyn_alloc demo_data with Ok d => d | _ => demo_data end.
Definition demo_kernel : kernel := mkKernel demo_booted (λ _, 7).

Lemma demo_is_booted : booted demo_data demo_booted.
Proof.
  split; [vm_compute; reflexivity|].
  split; [vm_compute; reflexivity|].
  split; [vm_compute; discriminate|].
  split; [vm_compute; reflexivity|].
  vm_compute; reflexivity.
Qed.

Lemma alloc_zero_spec_witness :
  ∃ addr kn', alloc_zero 100 demo_kernel = Ok (Some addr, kn') ∧
    memory kn' (addr + 99) = 0 ∧ memory kn' (addr + 100) = 7.
Proof.
  destruct (alloc_zero_spec demo_data demo_booted demo_kernel ∅ 100) as (r & kn' & Hr & Hs);
    [apply demo_is_booted|apply BuddySpec.reach_start|split; [lia|vm_compute; discriminate]|].
  assert (fst <$> alloc_zero 100 demo_kernel = Ok (Some 0x212000)) as Hr' by (vm_compute; reflexivity).
  rewrite Hr in Hr'. injection Hr' as ->. set (addr := 0x212000) in *. exists addr, kn'. split; [exact Hr|]. destruct Hs as (_ & _ & _ & Hm & _). rewrite !Hm.
  rewrite (proj2 (N.leb_le _ _)), (proj2 (N.ltb_lt _ _)), (proj2 (N.ltb_ge (addr + 100) _)) by lia.
  rewrite andb_false_r. split; reflexivity.
Defined.

End KernelMemorySpec.
