(* ===== verification/PageTable.v ===== *)
(** * The page tables of [kernel/src/memory.rs]: data and operations

    [create_tmp_page] bootstraps the mapping of dynamic memory through a
    table on the stack that maps itself; [create_dyn_page] then maps every
    page of the memory map, page after page, with a [PageInitWalker] that
    takes the tables it needs from the front of the very memory it maps.
    Tables are written through virtual addresses, which the processor
    translates by the tables as they are at that moment. *)
From S2P Require Import Prelude MemoryMap KernelMemory.
Import MemoryMap.
Local Open Scope checked_scope.

Module PageTable.

(** The crate [x86_64]: entries of page tables and their flags.  [set_addr]
    asserts that the address is the start of a page. *)
Class X86Paging := {
  PageTableEntry : Type;
  PageTableFlags : Type;
  PRESENT : PageTableFlags;
  WRITABLE : PageTableFlags;
  HUGE_PAGE : PageTableFlags;
  bitor : PageTableFlags → PageTableFlags → PageTableFlags;
  contains : PageTableFlags → PageTableFlags → bool;
  unused : PageTableEntry;
  set_addr : N → PageTableFlags → result PageTableEntry;
  entry_addr : PageTableEntry → N;
  entry_flags : PageTableEntry → PageTableFlags;
  contains_bitor_r a b : contains (bitor a b) b = true;
  table_flags_not_huge : contains (bitor WRITABLE PRESENT) HUGE_PAGE = false;
  unused_not_present : contains (entry_flags unused) PRESENT = false;
  set_addr_ok a fl : (a mod 4096 = 0)%N → (a < 2 ^ 52)%N →
    ∃ e, set_addr a fl = Ok e ∧ entry_addr e = a ∧ entry_flags e = fl;
}.

(** The crate [num-iter]: the numbers from [start] below [stop], by [step]. *)
Class NumIter := {
  range_step : N → N → N → list N;
  range_step_exact start n step : (0 < step)%N →
    range_step start (start + n * step) step = (λ i, start + i * step)%N <$> range 0 n;
}.

Definition PAGE_TABLE_ADDR : N := 0xffff8000003f0000.

(** A reference to a table is its address. *)
Definition get_table_mut : N := PAGE_TABLE_ADDR.
Definition get_table : N := get_table_mut.

(** ** The processor

    Physical memory as far as it holds page tables: the entry at an index of
    the 4 KiB frame at a physical address. *)
Section machine.
Context `{X86Paging}.

Definition phys_mem := N → N → PageTableEntry.

Definition upd (m : phys_mem) (frame idx : N) (e : PageTableEntry) : phys_mem :=
  λ f i, if ((f =? frame) && (i =? idx))%N then e else m f i.
Definition upd_frame (m : phys_mem) (frame : N) (e : PageTableEntry) : phys_mem :=
  λ f i, if (f =? frame)%N then e else m f i.

(** The index into the table of a level that [n] levels follow. *)
Definition table_index (n : nat) (va : N) : N := (va / 2 ^ (12 + 9 * N.of_nat n) mod 512)%N.

(** The walk of the tables from [table] on, which [n] levels follow. *)
Fixpoint walk (n : nat) (m : phys_mem) (table va : N) : option N :=
  let e := m table (table_index n va) in
  if contains (entry_flags e) PRESENT then
    match n with
    | O => Some (entry_addr e + va mod 4096)%N
    | S n' =>
        if contains (entry_flags e) HUGE_PAGE then
          let span := (2 ^ (12 + 9 * N.of_nat n))%N in
          if (n <=? 2)%nat then Some (entry_addr e / span * span + va mod span)%N else None
        else walk n' m (entry_addr e) va
    end
  else None.

(** The register [cr3] holds the frame of the top-level table. *)
Context (cr3 : N).

Definition canonical (va : N) : bool := ((va <? 2 ^ 47) || (KERNEL_START_VIRT <=? va))%N.
Definition translate (m : phys_mem) (va : N) : option N :=
  if canonical va then walk 3 m cr3 va else None.

(** The frame of the table behind a pointer.  A pointer to a [PageTable] is
    aligned; without a mapping the access ends in the page-fault handler,
    which panics. *)
Definition table_frame (m : phys_mem) (ptr : N) : result N :=
  if negb (ptr mod 4096 =? 0)%N then Panic UB
  else match translate m ptr with Some f => Ok f | None => Panic Explicit end.

(** [( *ptr)[idx] = e] and [( *ptr).zero()] *)
Definition write_entry (m : phys_mem) (ptr idx : N) (e : PageTableEntry) : result phys_mem :=
  if (512 <=? idx)%N then Panic OutOfBounds
  else f ← table_frame m ptr; Ok (upd m f idx e).
Definition zero_table (m : phys_mem) (ptr : N) : result phys_mem :=
  f ← table_frame m ptr; Ok (upd_frame m f unused).
(** [( *ptr)[idx].set_addr(addr, flags)] *)
Definition set_entry (m : phys_mem) (ptr idx addr : N) (flags : PageTableFlags) : result phys_mem :=
  e ← set_addr addr flags; write_entry m ptr idx e.

(** [ptr.add(n)] of a pointer to a table. *)
Definition table_add (ptr n : N) : result N := ptr +! (n * PAGE_SIZE)%N.

(** ** [create_tmp_page] *)
Context `{X86Addr}.

Definition stk_phys (ptr : N) : result N :=
  d ← ptr -! KSTACK_START_VIRT;
  addr ← d +! KSTACK_START_PHYS;
  PhysAddr_new addr.

Definition dyn_phys (idx : N) : result N :=
  o ← idx *! PAGE_SIZE;
  addr ← DYNMEM_START_PHYS +! o;
  PhysAddr_new addr.

(** The loops over the first three pages, into [table] from index [first] on. *)
Definition set_dyn_pages (table first : N) (flags : PageTableFlags) (m : phys_mem) : result phys_mem :=
  for_each (range 0 3) (λ idx m,
    o ← idx *! PAGE_SIZE;
    addr ← DYNMEM_START_PHYS +! o;
    addr ← PhysAddr_new addr;
    i ← first +! idx;
    set_entry m table i addr flags) m.

(** [tmptable] is the address of the local variable of that name. *)
Definition create_tmp_page (pml4t tmptable : N) (m : phys_mem) : result phys_mem :=
  let flags := bitor WRITABLE PRESENT in
  m ← zero_table m tmptable;
  phy_table ← stk_phys tmptable;
  m ← set_entry m pml4t 1 phy_table flags;
  m ← set_entry m tmptable 0 phy_table flags;
  m ← set_entry m tmptable 1 phy_table flags;
  m ← set_dyn_pages tmptable 2 flags m;
  let pdpt := N.lor (N.lor (N.shiftl 1 39) (N.shiftl 1 21)) (N.shiftl 2 12) in
  pdt ← table_add pdpt 1;
  pt ← table_add pdt 1;
  a ← dyn_phys 0;
  m ← set_entry m pml4t 0 a flags;
  a ← dyn_phys 1;
  m ← set_entry m pdpt 0 a flags;
  a ← dyn_phys 2;
  m ← set_entry m pdt 1 a flags;
  m ← set_dyn_pages pt 0 flags m;
  write_entry m pml4t 1 unused.

(** ** [PageInitWalker] *)
Record PageInitWalker := mkWalker {
  start_table : N; next_table : N; tables : list N; indices : list N; skip : N;
}.

Definition walker_new (pml4t pdpt first_dir : N) : result PageInitWalker :=
  pdt ← table_add pdpt 1;
  pt ← table_add pdt 1;
  next_table ← table_add pt 1;
  d ← checked_add W16 first_dir 1;
  Ok (mkWalker pdpt next_table [pml4t; pdpt; pdt; pt] [1; 1; d; 3]%N 3).

Definition count (w : PageInitWalker) : result N :=
  d ← next_table w -! start_table w;
  Ok (d / PAGE_SIZE)%N.

(** A fresh table for [level]: the walker with it, and its physical address. *)
Definition new_table (level : nat) (map : list MemoryMapEntry) (start_virt : N)
    (w : PageInitWalker) (m : phys_mem) : result (N * PageInitWalker * phys_mem) :=
  let next := next_table w in
  m ← zero_table m next;
  ts ← vset (tables w) (N.of_nat level) next;
  idxs ← vset (indices w) (N.of_nat level) 0%N;
  n ← table_add next 1;
  v ← VirtAddr_new next;
  next_phys ← virt_to_phys_dynmem v map start_virt;
  Ok (next_phys, mkWalker (start_table w) n ts idxs (skip w), m).

(** The entry of [level] that is next in line. *)
Definition fill_slot (level : nat) (addr : N) (flags : PageTableFlags)
    (w : PageInitWalker) (m : phys_mem) : result (PageInitWalker * phys_mem) :=
  table ← vget (tables w) (N.of_nat level);
  i ← vget (indices w) (N.of_nat level);
  m ← set_entry m table i addr flags;
  i ← checked_add W16 i 1;
  idxs ← vset (indices w) (N.of_nat level) i;
  Ok (mkWalker (start_table w) (next_table w) (tables w) idxs (skip w), m).

(** The levels count down to the top table, level 0; [level - 1] underflows
    below it. *)
Fixpoint next_set_recur (level : nat) (addr : N) (flags : PageTableFlags)
    (map : list MemoryMapEntry) (start_virt : N) (w : PageInitWalker) (m : phys_mem)
    : result (PageInitWalker * phys_mem) :=
  i ← vget (indices w) (N.of_nat level);
  assert (negb ((level =? 0)%nat && (256 <=? i)%N));;
  '(w, m) ←
    (if (512 <=? i)%N then
       '(next_phys, w, m) ← new_table level map start_virt w m;
       match level with
       | O => Panic Overflow
       | S level' => next_set_recur level' next_phys flags map start_virt w m
       end
     else Ok (w, m));
  fill_slot level addr flags w m.

Definition next_set (addr : N) (flags : PageTableFlags) (map : list MemoryMapEntry)
    (start_virt : N) (w : PageInitWalker) (m : phys_mem) : result (PageInitWalker * phys_mem) :=
  if (skip w =? 0)%N then next_set_recur 3 addr flags map start_virt w m
  else
    s ← skip w -! 1;
    Ok (mkWalker (start_table w) (next_table w) (tables w) (indices w) s, m).

(** ** [create_dyn_page] *)
Context `{NumIter}.

(** The body of the inner loop. *)
Definition map_page (flags : PageTableFlags) (map : list MemoryMapEntry) (start_virt base : N)
    (st : N * PageInitWalker * phys_mem) : result (N * PageInitWalker * phys_mem) :=
  let '(page_count, w, m) := st in
  page_count ← page_count +! 1;
  addr ← PhysAddr_new base;
  '(w, m) ← next_set addr flags map start_virt w m;
  Ok (page_count, w, m).

Definition create_dyn_page (pml4t : N) (map : list MemoryMapEntry) (start_virt : N) (m : phys_mem)
    : result (N * N * phys_mem) :=
  let flags := bitor WRITABLE PRESENT in
  walker ← walker_new pml4t start_virt 1;
  '(page_count, walker, m) ←
    for_each map (λ entry st,
      let start := base entry in
      stop ← base entry +! size entry;
      for_each (range_step start stop PAGE_SIZE) (map_page flags map start_virt) st)
    (0%N, walker, m);
  total_len ← page_count *! PAGE_SIZE;
  n ← count walker;
  page_table_len ← n *! PAGE_SIZE;
  Ok (total_len, page_table_len, m).

(** ** [init_dyn_page] and [init_memory]

    [map] is [get_memory_map()].  [flush_all] only drops cached
    translations. *)
Definition init_dyn_page (map : list MemoryMapEntry) (tmptable : N)
    (d : KernelMemory.MemoryData) (m : phys_mem) : result (KernelMemory.MemoryData * phys_mem) :=
  let pml4t := get_table_mut in
  m ← create_tmp_page pml4t tmptable m;
  '(total_len, page_table_len, m) ← create_dyn_page pml4t map DYNMEM_START_VIRT m;
  Ok (KernelMemory.mkData total_len page_table_len (KernelMemory.buddy_len d) (KernelMemory.buddyblock d), m).

Context `{NumInteger, NumEnum, SortUnstable}.

Definition BUFSIZE : N := 1024.
(** [&buffer[0..len]] of the static [DYNMEM_MAP]; [e820] is [get_e820_map()]. *)
Definition DYNMEM_MAP (e820 : list MemoryMapEntry) : result (list MemoryMapEntry) :=
  '(len, buffer) ← create_dynmem_map e820 (replicate (N.to_nat BUFSIZE) entry_zero);
  if (len <=? vlen buffer)%N then Ok (take (N.to_nat len) buffer) else Panic OutOfBounds.

Definition get_memory_map (e820 : list MemoryMapEntry) : result (list MemoryMapEntry) := DYNMEM_MAP e820.

Definition init_memory (e820 : list MemoryMapEntry) (tmptable : N)
    (d : KernelMemory.MemoryData) (m : phys_mem) : result (KernelMemory.MemoryData * phys_mem) :=
  map ← get_memory_map e820;
  '(d, m) ← init_dyn_page map tmptable d m;
  d ← KernelMemory.init_dyn_alloc d;
  Ok (d, m).
End machine.

End PageTable.
