(* ===== verification/PageTableWalk.v ===== *)
(** * The page-table walker: its invariant

    Between two calls of [PageInitWalker::next_set] the tables map exactly
    the pages handed in so far, in their order, and every table lies in a
    page that is mapped itself; so the walker can always reach the tables it
    writes and the page it makes its next table of. *)
From stdpp Require Import functions.
From S2P Require Import Prelude MemoryMap MemoryMapSpec PageTable.
Import MemoryMap MemoryMapSpec PageTable.
Local Open Scope N_scope.

Module PageTableWalk.

(** ** Walks *)
Section walks.
Context `{X86Paging} (cr3 : N).
Implicit Types (m : phys_mem).

(** The entry leads to the table or page at [a]. *)
Definition link m (f i a : N) : Prop :=
  entry_addr (m f i) = a ∧ contains (entry_flags (m f i)) PRESENT = true ∧
  contains (entry_flags (m f i)) HUGE_PAGE = false.

(** The tables of three levels and the page that the walk of [va] meets. *)
Definition path m (va p1 p2 p3 f : N) : Prop :=
  link m cr3 (table_index 3 va) p1 ∧ link m p1 (table_index 2 va) p2 ∧
  link m p2 (table_index 1 va) p3 ∧ link m p3 (table_index 0 va) f.

Lemma path_translate m va p1 p2 p3 f :
  canonical va = true → path m va p1 p2 p3 f → translate cr3 m va = Some (f + va mod 4096).
Proof.
  intros Hc ((E1 & P1 & H1) & (E2 & P2 & H2) & (E3 & P3 & H3) & (E4 & P4 & _)).
  unfold translate. rewrite Hc. simpl.
  by rewrite P1, H1, E1, P2, H2, E2, P3, H3, E3, P4, E4.
Qed.

Lemma link_upd_ne m f i e f' i' a :
  ¬ (f' = f ∧ i' = i) → link m f' i' a → link (upd m f i e) f' i' a.
Proof.
  intros Hne. unfold link, upd. destruct (N.eqb_spec f' f), (N.eqb_spec i' i); simpl; naive_solver.
Qed.

Lemma table_upd_eq m f i e : upd m f i e f i = e.
Proof. unfold upd. by rewrite !N.eqb_refl. Qed.
Lemma table_upd_ne m f i e f' i' : ¬ (f' = f ∧ i' = i) → upd m f i e f' i' = m f' i'.
Proof. unfold upd. destruct (N.eqb_spec f' f), (N.eqb_spec i' i); simpl; naive_solver. Qed.
Lemma upd_frame_eq m f e i : upd_frame m f e f i = e.
Proof. unfold upd_frame. by rewrite N.eqb_refl. Qed.
Lemma upd_frame_ne m f e f' i : f' ≠ f → upd_frame m f e f' i = m f' i.
Proof. unfold upd_frame. by destruct (N.eqb_spec f' f). Qed.

Lemma link_upd_eq m f i e a :
  entry_addr e = a → entry_flags e = bitor WRITABLE PRESENT → link (upd m f i e) f i a.
Proof.
  intros Ha Hf. unfold link. rewrite table_upd_eq, Ha, Hf, contains_bitor_r, table_flags_not_huge. done.
Qed.

Lemma link_upd_frame_ne m f e f' i a : f' ≠ f → link m f' i a → link (upd_frame m f e) f' i a.
Proof. intros Hne. unfold link. by rewrite upd_frame_ne. Qed.

Lemma link_eq m m' f i a : link m f i a → m' f i = m f i → link m' f i a.
Proof. unfold link. by intros ? ->. Qed.

Lemma path_eq m m' va p1 p2 p3 f :
  path m va p1 p2 p3 f →
  (∀ t i, t = cr3 ∨ t = p1 ∨ t = p2 ∨ t = p3 → m' t i = m t i) → path m' va p1 p2 p3 f.
Proof. intros (L0 & L1 & L2 & L3) Heq. split_and!; (eapply link_eq; [done|]); apply Heq; auto. Qed.

(** The indices of an address by its page number. *)
Lemma table_index_page n v o :
  o < 4096 → table_index n (4096 * v + o) = v / 512 ^ N.of_nat n mod 512.
Proof.
  intros Ho. unfold table_index. rewrite N.pow_add_r, N.pow_mul_r.
  change (2 ^ 12) with 4096. change (2 ^ 9) with 512.
  rewrite <-N.Div0.div_div. do 2 f_equal. lia.
Qed.

Lemma table_frame_path m va p1 p2 p3 f :
  canonical va = true → va mod 4096 = 0 → path m va p1 p2 p3 f → table_frame cr3 m va = Ok f.
Proof.
  intros Hc Ha Hp. unfold table_frame. rewrite Ha. simpl.
  by rewrite (path_translate _ _ _ _ _ _ Hc Hp), Ha, N.add_0_r.
Qed.
End walks.

(** ** The walker

    The tables are numbered level by level: slot [v] of level [l] is the
    entry [v mod 512] of table [v / 512] of that level, and leads to table
    [v] of the next level.  A slot of level 3 leads to a page and its number
    is the page number of the virtual addresses it maps. *)
Section walker.
Context `{X86Paging, X86Addr}.
(** The frames of the top table and of the temporary table. *)
Context (cr3 tmp : N) (map : list MemoryMapEntry).
(** The frames of dynamic memory, in the order of their virtual addresses. *)
Context (pg : N → N) (np : N).
Context (pg_virt : ∀ i, i < np → virt_to_phys_dynmem (4096 * (512 + i)) map DYNMEM_START_VIRT = Ok (pg i)).
Context (pg_ok : ∀ i, i < np → pg i mod 4096 = 0 ∧ pg i < 2 ^ 52 ∧ pg i ≠ cr3).
Context (pg_inj : ∀ i j, i < np → j < np → pg i = pg j → i = j).
Context (np_bound : 512 + np ≤ 2 ^ 35).
Implicit Types (m : phys_mem) (w : PageInitWalker).

(** Frames that no step writes. *)
Definition spared (f : N) : Prop := f ≠ cr3 ∧ f ≠ tmp ∧ ∀ j, j < np → f ≠ pg j.

(** These frames and the upper half of the top table are as they were. *)
Definition agree m0 m : Prop :=
  (∀ f i, spared f → m f i = m0 f i) ∧
  (∀ i, 256 ≤ i → m cr3 i = m0 cr3 i).

(** An address of the kernel's half, mapped through tables of its own. *)
Definition kernel_path m (va f : N) : Prop :=
  KERNEL_START_VIRT ≤ va ∧ va mod 4096 = 0 ∧ 256 ≤ table_index 3 va ∧ ∃ p1 p2 p3, path cr3 m va p1 p2 p3 f ∧
    spared p1 ∧ spared p2 ∧ spared p3.

Lemma kernel_path_agree m0 m va f : agree m0 m → kernel_path m0 va f → kernel_path m va f.
Proof.
  intros [Ha Hc] (Hk & Hal & H3 & p1 & p2 & p3 & Hp & Hne). split_and!; [done|done|done|].
  exists p1, p2, p3. split; [|done]. destruct Hp as (L0 & L1 & L2 & L3), Hne as (S1 & S2 & S3).
  unfold path, link in *. by rewrite Hc, !Ha.
Qed.

Lemma kernel_path_frame m va f : kernel_path m va f → table_frame cr3 m va = Ok f.
Proof.
  intros (Hk & Hal & _ & p1 & p2 & p3 & Hp & _). eapply table_frame_path; [|done|done].
  unfold canonical. rewrite (proj2 (N.leb_le _ _) Hk). apply orb_true_r.
Qed.

(** Slots used and tables made on each level, the page that holds each
    table, and the number of these pages. *)
Record ghost := mkGhost { gx : nat → N; gy : nat → N; gK : nat → N → N; gc : N }.

Definition lo (l : nat) : N := match l with 0%nat | 1%nat => 0 | 2%nat => 1 | _ => 512 end.
Definition made g (l : nat) (j : N) : Prop := (1 ≤ l ≤ 3)%nat ∧ lo (l - 1) ≤ j < gy g l.
Definition tab g (l : nat) (j : N) : N := match l with O => cr3 | _ => pg (gK g l j) end.

(** The tables in use. *)
Definition valid g (l : nat) (j : N) : Prop := (l = 0%nat ∧ j = 0) ∨ made g l j.
Definition empty_slot m (f i : N) : Prop := contains (entry_flags (m f i)) PRESENT = false.

Context (m0 : phys_mem) (pml4t : N) (pml4t_path : kernel_path m0 pml4t cr3).

(** Memory in which nothing is found where the first tables will be. *)
Record blank_start : Prop := {
  bs_top i : 2 ≤ i < 256 → empty_slot m0 cr3 i;
  bs_page j i : j < 3 → i < 512 → empty_slot m0 (pg j) i;
}.

Record winv w m g : Prop := {
  wi_len : length (tables w) = 4%nat ∧ length (indices w) = 4%nat;
  wi_idx l : (l ≤ 3)%nat → indices w !! l = Some (gx g l - 512 * (gy g l - 1));
  wi_rng l : (l ≤ 3)%nat → 512 * (gy g l - 1) ≤ gx g l ≤ 512 * gy g l;
  wi_y0 : gy g 0%nat = 1;
  wi_t0 : tables w !! 0%nat = Some pml4t;
  wi_tab l : (1 ≤ l ≤ 3)%nat → tables w !! l = Some (4096 * (512 + gK g l (gy g l - 1)));
  wi_start : start_table w = DYNMEM_START_VIRT;
  wi_next : next_table w = 4096 * (512 + gc g);
  wi_skip : skip w = 0;
  wi_count : gc g + 1 = gy g 1%nat + gy g 2%nat + gy g 3%nat;
  wi_cx : gc g + 512 ≤ gx g 3%nat ≤ 512 + np;
  wi_K4 v : gK g 4 v = v - 512;
  wi_lt l j : made g l j → gK g l j < gc g;
  wi_inj l j l' j' : made g l j → made g l' j' → gK g l j = gK g l' j' → l = l' ∧ j = j';
  wi_chain l : (1 ≤ l ≤ 3)%nat → gx g l ≤ 512 * gx g (l - 1);
  wi_yx l : (1 ≤ l ≤ 3)%nat → gx g (l - 1) ≤ gy g l;
  wi_lo l : (l ≤ 3)%nat → lo l < gx g l;
  wi_slots l v : (l ≤ 3)%nat → lo l ≤ v < gx g l →
    link m (tab g l (v / 512)) (v mod 512) (pg (gK g (S l) v));
  wi_agree : agree m0 m;
  wi_frames f i : f ≠ cr3 → f ≠ tmp → (∀ j, j < gc g → f ≠ pg j) → m f i = m0 f i;
  wi_clean l j i : blank_start → valid g l j → i < 512 → (l = 0%nat → i < 256) → ¬ (lo l ≤ 512 * j + i < gx g l) →
    empty_slot m (tab g l j) i;
}.

Lemma canonical_low v o : v < 512 + np → o < 4096 → canonical (4096 * v + o) = true.
Proof.
  intros Hv Ho. unfold canonical. change (2 ^ 35) with 34359738368 in np_bound.
  change (2 ^ 47) with 140737488355328.
  by rewrite (proj2 (N.ltb_lt (4096 * v + o) _)) by lia.
Qed.

(** Every page below the slots of level 3 is mapped. *)
Lemma winv_path w m g v o :
  winv w m g → 512 ≤ v < gx g 3%nat → o < 4096 →
  path cr3 m (4096 * v + o) (tab g 1 (v / 512 ^ 3)) (tab g 2 (v / 512 ^ 2)) (tab g 3 (v / 512)) (pg (v - 512)).
Proof.
  intros HW Hv Ho. change (512 ^ 3) with (512 * 512 * 512). change (512 ^ 2) with (512 * 512).
  pose proof (wi_chain _ _ _ HW 3%nat ltac:(lia)) as C3. pose proof (wi_chain _ _ _ HW 2%nat ltac:(lia)) as C2.
  pose proof (wi_chain _ _ _ HW 1%nat ltac:(lia)) as C1. cbn [Nat.sub] in *.
  unfold path. rewrite !table_index_page by done. cbn [N.of_nat Pos.of_succ_nat Pos.succ].
  change (512 ^ 3) with (512 * 512 * 512). change (512 ^ 2) with (512 * 512).
  change (512 ^ 1) with 512. change (512 ^ 0) with 1. rewrite N.div_1_r.
  assert (v / (512 * 512 * 512) < 512) as H3.
  { change (2 ^ 35) with 34359738368 in np_bound. destruct (wi_cx _ _ _ HW). lia. }
  assert (1 ≤ v / 512) as Hlo by lia.
  pose proof (wi_slots _ _ _ HW 0%nat (v / (512 * 512 * 512)) ltac:(lia)) as S0.
  pose proof (wi_slots _ _ _ HW 1%nat (v / (512 * 512)) ltac:(lia)) as S1.
  pose proof (wi_slots _ _ _ HW 2%nat (v / 512) ltac:(lia)) as S2.
  pose proof (wi_slots _ _ _ HW 3%nat v ltac:(lia)) as S3.
  rewrite !N.Div0.div_div in S1, S2. rewrite (wi_K4 _ _ _ HW) in S3. cbn [lo tab] in *.
  split_and!; [apply S0|apply S1|apply S2|apply S3]; lia.
Qed.

Lemma winv_frame w m g v :
  winv w m g → 512 ≤ v < gx g 3%nat → table_frame cr3 m (4096 * v) = Ok (pg (v - 512)).
Proof.
  intros HW Hv. replace (4096 * v) with (4096 * v + 0) by lia. destruct (wi_cx _ _ _ HW).
  eapply table_frame_path; [apply canonical_low; lia|lia|by eapply winv_path].
Qed.

(** The table that the walker fills on a level. *)
Lemma winv_table w m g l :
  winv w m g → (l ≤ 3)%nat → ∃ ptr, tables w !! l = Some ptr ∧
    table_frame cr3 m ptr = Ok (tab g l (gy g l - 1)).
Proof.
  intros HW Hl. destruct l as [|l].
  - exists pml4t. split; [apply HW|]. simpl. apply kernel_path_frame.
    eapply kernel_path_agree; [apply HW|done].
  - eexists. split; [apply HW; lia|]. assert (made g (S l) (gy g (S l) - 1)) as Hm.
    { split; [lia|]. pose proof (wi_yx _ _ _ HW (S l) ltac:(lia)). pose proof (wi_lo _ _ _ HW (S l - 1) ltac:(lia)). lia. }
    apply (wi_lt _ _ _ HW) in Hm as Hk. destruct (wi_cx _ _ _ HW). rewrite (winv_frame _ _ _ _ HW) by lia.
    simpl. do 2 f_equal. lia.
Qed.

(** Tables in use lie in different frames. *)
Lemma made_page w m g l j : winv w m g → made g l j → gK g l j < np.
Proof. intros HW Hm%(wi_lt _ _ _ HW). pose proof (wi_cx _ _ _ HW). lia. Qed.

Lemma tab_inj w m g l j l' j' :
  winv w m g → valid g l j → valid g l' j' → tab g l j = tab g l' j' → l = l' ∧ j = j'.
Proof.
  intros HW [[-> ->]|Hm] [[-> ->]|Hm'] He; [done| | |].
  - destruct l' as [|l']; [destruct Hm'; lia|]. destruct (pg_ok _ (made_page _ _ _ _ _ HW Hm')) as (_ & _ & []). done.
  - destruct l as [|l]; [destruct Hm; lia|]. destruct (pg_ok _ (made_page _ _ _ _ _ HW Hm)) as (_ & _ & []). done.
  - destruct l as [|l]; [destruct Hm; lia|]. destruct l' as [|l']; [destruct Hm'; lia|].
    apply (wi_inj _ _ _ HW); [done|done|]. apply pg_inj; [by eapply made_page..|done].
Qed.

Lemma slot_valid w m g l v :
  winv w m g → (l ≤ 3)%nat → lo l ≤ v < 512 * gy g l → valid g l (v / 512).
Proof.
  intros HW Hl Hv. destruct l as [|l].
  - left. rewrite (wi_y0 _ _ _ HW) in Hv. split; [done|lia].
  - right. split; [lia|]. replace (S l - 1)%nat with l by lia.
    assert (lo l ≤ v / 512); [|lia]. destruct l as [|[|[|]]]; simpl in *; lia.
Qed.

Lemma table_slot_inj w m g l v l' v' :
  winv w m g → (l ≤ 3)%nat → lo l ≤ v < 512 * gy g l → (l' ≤ 3)%nat → lo l' ≤ v' < 512 * gy g l' →
  tab g l (v / 512) = tab g l' (v' / 512) → v mod 512 = v' mod 512 → l = l' ∧ v = v'.
Proof.
  intros HW Hl Hv Hl' Hv' He Hm.
  destruct (tab_inj w m g l (v / 512) l' (v' / 512)) as [-> Hd]; [done|by eapply slot_valid..|done|]. lia.
Qed.

Lemma slot_below w m g l v : winv w m g → (l ≤ 3)%nat → lo l ≤ v < gx g l → lo l ≤ v < 512 * gy g l.
Proof. intros HW Hl Hv. pose proof (wi_rng _ _ _ HW l Hl). lia. Qed.

(** The walker and the ghost state after a step on level [l]. *)
Definition grow_x g l : ghost := mkGhost (<[l := gx g l + 1]> (gx g)) (gy g) (gK g) (gc g).
Definition grow_y g l : ghost :=
  mkGhost (gx g) (<[l := gy g l + 1]> (gy g))
    (<[l := (λ j, if j =? gy g l then gc g else gK g l j)]> (gK g)) (gc g + 1).

(** What writing the next slot of level [l] does to the tables. *)
Section slot_write.
Context w m g l (HW : winv w m g) (Hl : (l ≤ 3)%nat) (Hx : gx g l < 512 * gy g l).
Local Abbreviation written e := (upd m (tab g l (gx g l / 512)) (gx g l mod 512) e).

Lemma slot_write_table : valid g l (gx g l / 512).
Proof. pose proof (wi_lo _ _ _ HW l Hl). eapply slot_valid; [exact HW|done|lia]. Qed.

Lemma slot_write_slots e k v :
  entry_addr e = pg (gK g (S l) (gx g l)) → entry_flags e = bitor WRITABLE PRESENT →
  (k ≤ 3)%nat → lo k ≤ v < gx (grow_x g l) k → link (written e) (tab g k (v / 512)) (v mod 512) (pg (gK g (S k) v)).
Proof.
  intros Hea Hef Hk Hv. destruct (decide (k = l ∧ v = gx g l)) as [[-> ->]|Hne]; [apply link_upd_eq; congruence|].
  cbn [gx grow_x] in Hv. pose proof (wi_lo _ _ _ HW l Hl). assert (lo k ≤ v < gx g k) as Hv'.
  { destruct (decide (k = l)) as [->|Hkl]; [rewrite fn_lookup_insert in Hv|rewrite fn_lookup_insert_ne in Hv by done]; [|done].
    assert (v ≠ gx g l) by naive_solver. lia. }
  apply link_upd_ne; [|by apply (wi_slots _ _ _ HW)]. intros [Ht Hmod]. apply Hne.
  eapply (table_slot_inj w m g k v l (gx g l)); try done; [by eapply slot_below|lia].
Qed.

Lemma slot_write_agree e : (l = 0%nat → gx g l < 256) → agree m0 (written e).
Proof.
  intros Hx0. destruct (wi_agree _ _ _ HW) as [Ha1 Ha2]. pose proof slot_write_table as Hval. split.
  - intros f i Hsp. pose proof Hsp as (Hfc & _ & Hfp). rewrite table_upd_ne; [by apply Ha1|]. intros [-> _].
    destruct Hval as [[-> _]|Hm]; [done|]. destruct l as [|l']; [done|]. by eapply (Hfp _ (made_page _ _ _ _ _ HW Hm)).
  - intros i Hi256. rewrite table_upd_ne; [by apply Ha2|]. intros [Hc ->]. destruct Hval as [[-> _]|Hm].
    + specialize (Hx0 eq_refl). lia.
    + destruct l as [|l']; [destruct Hm; lia|]. by destruct (pg_ok _ (made_page _ _ _ _ _ HW Hm)) as (_ & _ & []).
Qed.

Lemma slot_write_frames e f i :
  f ≠ cr3 → f ≠ tmp → (∀ j, j < gc g → f ≠ pg j) → written e f i = m0 f i.
Proof.
  intros Hc Ht Hp. rewrite table_upd_ne; [by apply (wi_frames _ _ _ HW)|]. intros [-> _].
  destruct slot_write_table as [[-> _]|Hm]; [done|]. destruct l as [|l']; [done|].
  by apply (Hp _ (wi_lt _ _ _ HW _ _ Hm)).
Qed.

Lemma slot_write_clean e k j i :
  blank_start → valid g k j → i < 512 → (k = 0%nat → i < 256) → ¬ (lo k ≤ 512 * j + i < gx (grow_x g l) k) →
  empty_slot (written e) (tab g k j) i.
Proof.
  intros Hbs Hval Hi512 Htop Hout. cbn [gx grow_x] in Hout. pose proof (wi_lo _ _ _ HW l Hl).
  assert (¬ (lo k ≤ 512 * j + i < gx g k)) as Hold.
  { destruct (decide (k = l)) as [->|Hkl]; [rewrite fn_lookup_insert in Hout|rewrite fn_lookup_insert_ne in Hout by done]; lia. }
  unfold empty_slot. rewrite table_upd_ne; [by apply (wi_clean _ _ _ HW)|]. intros [Ht ->].
  destruct (tab_inj w m g k j l (gx g l / 512) HW Hval slot_write_table Ht) as [-> ->].
  rewrite fn_lookup_insert in Hout. lia.
Qed.
End slot_write.

(** The invariant with one more slot. *)
Lemma winv_grow_x w m g l e :
  winv w m g → (l ≤ 3)%nat → gx g l < 512 * gy g l →
  entry_addr e = pg (gK g (S l) (gx g l)) → entry_flags e = bitor WRITABLE PRESENT →
  (l = 0%nat → gx g l < 256) → ((1 ≤ l)%nat → gx g l + 1 ≤ 512 * gx g (l - 1)) →
  ((l < 3)%nat → gx g l + 1 ≤ gy g (S l)) → (l = 3%nat → gx g l < 512 + np) →
  winv (mkWalker (start_table w) (next_table w) (tables w) (<[l := gx g l mod 512 + 1]> (indices w)) (skip w))
    (upd m (tab g l (gx g l / 512)) (gx g l mod 512) e) (grow_x g l).
Proof.
  intros HW Hl Hx Hea Hef Hx0 Hch Hy Hx3. pose proof (wi_rng _ _ _ HW l Hl) as Hr. destruct (wi_len _ _ _ HW) as [Hlt Hli].
  pose proof (wi_lo _ _ _ HW l Hl) as Hlo. pose proof (wi_yx _ _ _ HW) as Hyx. pose proof (wi_cx _ _ _ HW) as Hcx.
  pose proof (wi_chain _ _ _ HW) as Hchain.
  split; cbn [tables indices start_table next_table skip gx gy gK gc grow_x]; try apply HW.
  - by rewrite length_insert.
  - intros k Hk. destruct (decide (k = l)) as [->|Hne].
    + rewrite list_lookup_insert_eq, fn_lookup_insert by lia. f_equal. lia.
    + rewrite list_lookup_insert_ne, fn_lookup_insert_ne by done. by apply HW.
  - intros k Hk. destruct (decide (k = l)) as [->|Hne]; [rewrite fn_lookup_insert; lia|].
    rewrite fn_lookup_insert_ne by done. by apply HW.
  - destruct (decide (l = 3%nat)) as [->|Hne]; [rewrite fn_lookup_insert; specialize (Hx3 eq_refl); lia|].
    by rewrite fn_lookup_insert_ne.
  - intros k Hk. specialize (Hchain k Hk). destruct (decide (k = l)) as [->|Hne].
    + rewrite fn_lookup_insert, fn_lookup_insert_ne by lia. apply Hch. lia.
    + rewrite fn_lookup_insert_ne by done. destruct (decide (k - 1 = l)%nat) as [Hkl|Hkl].
      * rewrite Hkl in *. rewrite fn_lookup_insert. lia.
      * by rewrite fn_lookup_insert_ne.
  - intros k Hk. specialize (Hyx k Hk). destruct (decide (k - 1 = l)%nat) as [Hkl|Hkl].
    + rewrite Hkl in *. rewrite fn_lookup_insert. replace k with (S l) by lia. apply Hy. lia.
    + by rewrite fn_lookup_insert_ne.
  - intros k Hk. destruct (decide (k = l)) as [->|Hne]; [rewrite fn_lookup_insert; lia|].
    rewrite fn_lookup_insert_ne by done. by apply HW.
  - intros k v Hk Hv. by apply (slot_write_slots w m g l).
  - by apply (slot_write_agree w m g l).
  - intros f i. by apply (slot_write_frames w m g l).
  - intros k j i. by apply (slot_write_clean w m g l).
Qed.

Lemma fill_slot_run w m g l addr :
  winv w m g → (l ≤ 3)%nat → gx g l < 512 * gy g l → addr = pg (gK g (S l) (gx g l)) →
  (l = 0%nat → gx g l < 256) → ((1 ≤ l)%nat → gx g l + 1 ≤ 512 * gx g (l - 1)) →
  ((l < 3)%nat → gx g l + 1 ≤ gy g (S l)) → (l = 3%nat → gx g l < 512 + np) →
  ∃ w' m', fill_slot cr3 l addr (bitor WRITABLE PRESENT) w m = Ok (w', m') ∧
    winv w' m' (grow_x g l).
Proof.
  intros HW Hl Hx Ha Hx0 Hch Hy Hx3.
  destruct (winv_table w m g l HW Hl) as (ptr & Hptr & Hf).
  pose proof (wi_rng _ _ _ HW l Hl) as Hr. destruct (wi_len _ _ _ HW) as [Hlt Hli].
  assert (gK g (S l) (gx g l) < np) as Hnp.
  { destruct (decide (l = 3%nat)) as [->|Hl3].
    - rewrite (wi_K4 _ _ _ HW). pose proof (wi_lo _ _ _ HW 3%nat ltac:(lia)). simpl in *. specialize (Hx3 eq_refl). lia.
    - assert (made g (S l) (gx g l)) as Hm%(wi_lt _ _ _ HW).
      { split; [lia|]. replace (S l - 1)%nat with l by lia. pose proof (wi_lo _ _ _ HW l Hl). lia. }
      pose proof (wi_cx _ _ _ HW). lia. }
  destruct (pg_ok _ Hnp) as (Hpa & Hpl & _).
  destruct (set_addr_ok addr (bitor WRITABLE PRESENT)) as (e & He & Hea & Hef); [by subst..|].
  unfold fill_slot. rewrite (vget_Some (tables w) _ ptr) by by rewrite Nat2N.id. mred.
  rewrite (vget_Some (indices w) _ (gx g l - 512 * (gy g l - 1))) by (rewrite Nat2N.id; by apply HW). mred.
  unfold set_entry, write_entry. rewrite He. mred.
  rewrite (proj2 (N.leb_gt _ _)) by lia. rewrite Hf. mred. rewrite checked_add_Ok by lia. mred.
  rewrite vset_Ok by (unfold vlen; lia). mred. rewrite Nat2N.id. eexists _, _. split; [done|].
  assert (gx g l - 512 * (gy g l - 1) = gx g l mod 512 ∧ gy g l - 1 = gx g l / 512) as [-> ->] by lia.
  apply winv_grow_x; congruence || done.
Qed.

Lemma grow_y_K g l k j : (k ≠ l ∨ j < gy g l) → gK (grow_y g l) k j = gK g k j.
Proof.
  intros Hd. simpl. destruct (decide (k = l)) as [->|Hne].
  - rewrite fn_lookup_insert. destruct (N.eqb_spec j (gy g l)); [|done]. destruct Hd; [done|lia].
  - by rewrite fn_lookup_insert_ne.
Qed.
Lemma grow_y_new g l : gK (grow_y g l) l (gy g l) = gc g.
Proof. simpl. by rewrite fn_lookup_insert, N.eqb_refl. Qed.

Lemma made_grow_y g l k j : made (grow_y g l) k j → made g k j ∨ (k = l ∧ j = gy g l).
Proof.
  intros [Hk Hj]. simpl in Hj. destruct (decide (k = l)) as [->|Hne].
  - rewrite fn_lookup_insert in Hj. destruct (decide (j = gy g l)); [by right|]. left. split; [done|lia].
  - rewrite fn_lookup_insert_ne in Hj by done. by left.
Qed.

Lemma grow_y_inj w m g l : winv w m g → ∀ k j k' j', made (grow_y g l) k j → made (grow_y g l) k' j' →
  gK (grow_y g l) k j = gK (grow_y g l) k' j' → k = k' ∧ j = j'.
Proof.
  intros HW. assert (∀ k j, made g k j → gK (grow_y g l) k j = gK g k j) as HK.
  { intros k j [_ Hj]. apply grow_y_K. destruct (decide (k = l)) as [->|]; [right; lia|by left]. }
  intros k j k' j' [Hm|[-> ->]]%made_grow_y [Hm'|[-> ->]]%made_grow_y;
    rewrite ?grow_y_new, ?(HK _ _ Hm), ?(HK _ _ Hm'); intros He.
  - by apply (wi_inj _ _ _ HW).
  - apply (wi_lt _ _ _ HW) in Hm. lia.
  - apply (wi_lt _ _ _ HW) in Hm'. lia.
  - done.
Qed.

(** The page of the next table is none of the tables in use. *)
Lemma tab_fresh w m g k j : winv w m g → valid g k j → gc g < np → tab g k j ≠ pg (gc g).
Proof.
  intros HW Hval Hc. destruct (pg_ok (gc g)) as (_ & _ & Hpc); [done|].
  destruct Hval as [[-> _]|Hm]; [simpl; congruence|]. destruct k as [|k]; [simpl; congruence|]. simpl. intros He.
  apply pg_inj in He; [apply (wi_lt _ _ _ HW) in Hm; lia|by eapply made_page|done].
Qed.

(** The invariant with one more table, zeroed. *)
Section new_table.
Context w m g l (HW : winv w m g) (Hl : (1 ≤ l ≤ 3)%nat) (Hx : gx g l = 512 * gy g l) (Hc : gc g + 513 ≤ gx g 3%nat).
Local Abbreviation zeroed := (upd_frame m (pg (gc g)) unused).

Lemma new_table_K k j : made g k j → gK (grow_y g l) k j = gK g k j.
Proof. intros [_ Hj]. apply grow_y_K. destruct (decide (k = l)) as [->|]; [right; lia|by left]. Qed.

Lemma new_table_tab k j : valid g k j → tab (grow_y g l) k j = tab g k j.
Proof. intros [[-> _]|Hm]; [done|]. destruct k; [done|]. unfold tab. by rewrite new_table_K. Qed.

Lemma new_table_slots k v :
  (k ≤ 3)%nat → lo k ≤ v < gx g k → link zeroed (tab (grow_y g l) k (v / 512)) (v mod 512) (pg (gK (grow_y g l) (S k) v)).
Proof.
  intros Hk Hv. pose proof (wi_cx _ _ _ HW). pose proof (slot_below _ _ _ _ _ HW Hk Hv) as Hb.
  pose proof (slot_valid _ _ _ _ _ HW Hk Hb) as Hval. rewrite new_table_tab by done.
  assert (gK (grow_y g l) (S k) v = gK g (S k) v) as ->.
  { apply grow_y_K. destruct (decide (S k = l)) as [<-|]; [right|by left].
    pose proof (wi_yx _ _ _ HW (S k) ltac:(lia)) as Hyx. replace (S k - 1)%nat with k in Hyx by lia. lia. }
  apply link_upd_frame_ne; [|by apply (wi_slots _ _ _ HW)]. apply (tab_fresh w m); [done|done|lia].
Qed.

Lemma new_table_clean k j i :
  blank_start → valid (grow_y g l) k j → i < 512 → (k = 0%nat → i < 256) → ¬ (lo k ≤ 512 * j + i < gx g k) →
  empty_slot zeroed (tab (grow_y g l) k j) i.
Proof.
  intros Hbs Hval Hi512 Htop Hout. unfold empty_slot. pose proof (wi_cx _ _ _ HW).
  assert (valid g k j ∨ (k = l ∧ j = gy g l)) as [Hold|[-> ->]].
  { destruct Hval as [Hz|Hm]; [left; by left|]. apply made_grow_y in Hm as [Hm|Hm]; [left; by right|by right]. }
  - rewrite new_table_tab by done. rewrite upd_frame_ne; [by apply (wi_clean _ _ _ HW)|]. apply (tab_fresh w m); [done|done|lia].
  - destruct l as [|l']; [lia|]. cbn [tab]. rewrite grow_y_new, upd_frame_eq. apply unused_not_present.
Qed.

Lemma new_table_agree : agree m0 zeroed.
Proof.
  pose proof (wi_cx _ _ _ HW). destruct (pg_ok (gc g)) as (_ & _ & Hpc); [lia|]. destruct (wi_agree _ _ _ HW) as [Ha1 Ha2]. split.
  - intros f i Hsp. rewrite upd_frame_ne; [by apply Ha1|]. apply Hsp. lia.
  - intros i Hi. rewrite upd_frame_ne by done. by apply Ha2.
Qed.

Lemma new_table_frames f i :
  f ≠ cr3 → f ≠ tmp → (∀ j, j < gc g + 1 → f ≠ pg j) → zeroed f i = m0 f i.
Proof.
  intros Hf Ht Hp. rewrite upd_frame_ne by (apply Hp; lia). apply (wi_frames _ _ _ HW); [done|done|].
  intros j Hj. apply Hp. lia.
Qed.

Lemma winv_grow_y :
  winv (mkWalker (start_table w) (4096 * (512 + gc g) + 4096) (<[l := 4096 * (512 + gc g)]> (tables w)) (<[l := 0]> (indices w)) (skip w))
    zeroed (grow_y g l).
Proof.
  pose proof (wi_cx _ _ _ HW) as Hcx. destruct (wi_len _ _ _ HW) as [Hlt Hli].
  pose proof (wi_yx _ _ _ HW) as Hyx. pose proof (wi_count _ _ _ HW) as Hcnt.
  split; try apply HW; try (cbn [tables indices start_table next_table skip gx gy gc grow_y]).
  - by rewrite !length_insert.
  - intros k Hk. destruct (decide (k = l)) as [->|Hne].
    + rewrite list_lookup_insert_eq, fn_lookup_insert by lia. f_equal. lia.
    + rewrite list_lookup_insert_ne, fn_lookup_insert_ne by done. by apply HW.
  - intros k Hk. pose proof (wi_rng _ _ _ HW k Hk). destruct (decide (k = l)) as [->|Hne]; [rewrite fn_lookup_insert; lia|].
    by rewrite fn_lookup_insert_ne.
  - rewrite fn_lookup_insert_ne by lia. apply HW.
  - rewrite list_lookup_insert_ne by lia. apply HW.
  - intros k Hk. destruct (decide (k = l)) as [->|Hne].
    + rewrite list_lookup_insert_eq by lia. rewrite fn_lookup_insert.
      replace (gy g l + 1 - 1) with (gy g l) by lia. by rewrite <-(grow_y_new g l).
    + rewrite list_lookup_insert_ne, fn_lookup_insert_ne by done. rewrite grow_y_K by by left. by apply HW.
  - lia.
  - destruct (decide (l = 1%nat)) as [->|]; [rewrite fn_lookup_insert, !fn_lookup_insert_ne by done; lia|].
    destruct (decide (l = 2%nat)) as [->|]; [rewrite fn_lookup_insert, !fn_lookup_insert_ne by done; lia|].
    assert (l = 3%nat) as -> by lia. rewrite fn_lookup_insert, !fn_lookup_insert_ne by done. lia.
  - lia.
  - intros v. rewrite grow_y_K by (left; lia). apply HW.
  - intros k j [Hm|[-> ->]]%made_grow_y.
    + rewrite (new_table_K _ _ Hm). apply (wi_lt _ _ _ HW) in Hm. lia.
    + rewrite grow_y_new. lia.
  - by eapply grow_y_inj.
  - intros k Hk. specialize (Hyx k Hk). destruct (decide (k = l)) as [->|Hne]; [rewrite fn_lookup_insert; lia|].
    by rewrite fn_lookup_insert_ne.
  - apply new_table_slots.
  - apply new_table_agree.
  - intros f i. apply new_table_frames.
  - apply new_table_clean.
Qed.
End new_table.

Lemma new_table_run w m g l :
  winv w m g → (1 ≤ l ≤ 3)%nat → gx g l = 512 * gy g l → gc g + 513 ≤ gx g 3%nat →
  ∃ w' m', new_table cr3 l map DYNMEM_START_VIRT w m = Ok (pg (gc g), w', m') ∧
    winv w' m' (grow_y g l).
Proof.
  intros HW Hl Hx Hc. pose proof (wi_cx _ _ _ HW) as Hcx. destruct (wi_len _ _ _ HW) as [Hlt Hli].
  change (2 ^ 35) with 34359738368 in np_bound.
  unfold new_table, zero_table. rewrite (wi_next _ _ _ HW).
  rewrite (winv_frame w m g (512 + gc g)) by (done || lia). mred.
  rewrite (vset_Ok (tables w)) by (unfold vlen; lia). mred.
  rewrite (vset_Ok (indices w)) by (unfold vlen; lia). mred.
  unfold table_add, PAGE_SIZE. rewrite checked_add_Ok by lia. mred.
  rewrite VirtAddr_new_ok by (change (2 ^ 47) with 140737488355328; lia). mred.
  rewrite pg_virt by lia. mred. rewrite !Nat2N.id. eexists _, _. split; [done|].
  replace (512 + gc g - 512) with (gc g) by lia. by apply winv_grow_y.
Qed.

(** Between two calls every table made on the levels up to [l] is linked
    and in use. *)
Definition rest g (l : nat) : Prop :=
  ∀ k, (1 ≤ k ≤ l)%nat → gy g k = gx g (k - 1) ∧ 512 * (gy g k - 1) < gx g k.

Lemma rest_le g l l' : (l' ≤ l)%nat → rest g l → rest g l'.
Proof. intros Hl Hr k Hk. apply Hr. lia. Qed.

Lemma rest_grow_x g l :
  rest g (l - 1) → ((1 ≤ l)%nat → gy g l = gx g (l - 1) ∧ 512 * (gy g l - 1) ≤ gx g l) → rest (grow_x g l) l.
Proof.
  intros Hr Hl k Hk. simpl. destruct (decide (k = l)) as [->|Hne].
  - rewrite fn_lookup_insert, fn_lookup_insert_ne by lia. destruct Hl; [lia|]. split; [done|lia].
  - rewrite !fn_lookup_insert_ne by lia. apply Hr. lia.
Qed.

(** The shape of the table of level [l] when a slot is due there: full
    levels below make the slot's number divide the page's. *)
Definition due g (l : nat) : Prop :=
  gx g l * 512 ^ (3 - N.of_nat l) ≤ gx g 3%nat < 512 + np ∧
  (gx g l = 512 * gy g l → gc g + 512 + N.of_nat l ≤ gx g 3%nat) ∧
  ((l < 3)%nat → gx g l + 1 ≤ gy g (S l)).

Lemma due_top g : due g 0 → gx g 0%nat < 256.
Proof.
  intros ((H1 & H2) & _). change (512 ^ (3 - N.of_nat 0)) with 134217728 in H1.
  change (2 ^ 35) with 34359738368 in np_bound. lia.
Qed.

Lemma due_below g l :
  due g (S l) → (S l ≤ 3)%nat → gx g (S l) = 512 * gy g (S l) → gy g (S l) = gx g l → due (grow_y g (S l)) l.
Proof.
  intros ((H1 & H2) & H3 & _) Hl Hx Hy. specialize (H3 Hx). unfold due. cbn [gx gy gc grow_y].
  split_and!; [|done|lia|].
  - replace (512 ^ (3 - N.of_nat l)) with (512 * 512 ^ (3 - N.of_nat (S l))); [nia|].
    by destruct l as [|[|[|]]]; [..|lia].
  - intros _. rewrite fn_lookup_insert. lia.
Qed.

(** One more slot on level [l], and nothing new on the levels below it. *)
Record stepped (g g' : ghost) (l : nat) : Prop := {
  sd_rest : rest g' l;
  sd_slot : gx g' l = gx g l + 1;
  sd_below k : (l < k)%nat → gx g' k = gx g k ∧ gy g' k = gy g k;
  sd_page k j : (l < k)%nat → gK g' k j = gK g k j;
}.

Local Abbreviation fill l g w m := (fill_slot cr3 l (pg (gK g (S l) (gx g l))) (bitor WRITABLE PRESENT) w m).
Local Abbreviation recur l g w m :=
  (next_set_recur cr3 l (pg (gK g (S l) (gx g l))) (bitor WRITABLE PRESENT) map DYNMEM_START_VIRT w m).

(** A slot in a table with room. *)
Lemma recur_room l w m g :
  winv w m g → (l ≤ 3)%nat → rest g l → due g l → gx g l < 512 * gy g l →
  ∃ w' m' g', fill l g w m = Ok (w', m') ∧ winv w' m' g' ∧ stepped g g' l.
Proof.
  intros HW Hl Hr Hd Hroom. pose proof (wi_rng _ _ _ HW _ Hl) as Hrng.
  assert ((1 ≤ l)%nat → gy g l = gx g (l - 1)) as Hy by (intros Hl1; apply Hr; lia).
  destruct (fill_slot_run w m g l (pg (gK g (S l) (gx g l)))) as (w' & m' & -> & HW'); [done..| | | | |].
  - intros ->. by apply due_top.
  - intros Hl1. specialize (Hy Hl1). lia.
  - apply Hd.
  - intros ->. by destruct Hd as ((_ & ?) & _).
  - exists w', m', (grow_x g l). split; [done|]. split; [done|]. split.
    + apply rest_grow_x; [apply (rest_le g l); [lia|done]|]. intros Hl1. split; [by apply Hy|lia].
    + simpl. by rewrite fn_lookup_insert.
    + intros k Hk. simpl. by rewrite fn_lookup_insert_ne by lia.
    + done.
Qed.

(** A full table: a new one is linked on the level above, then the slot is the
    new table's first. *)
Lemma recur_full l w m g w1 m1 w2 m2 g2 :
  winv w m g → (S l ≤ 3)%nat → rest g (S l) → due g (S l) → gx g (S l) = 512 * gy g (S l) →
  winv w1 m1 (grow_y g (S l)) → winv w2 m2 g2 → stepped (grow_y g (S l)) g2 l →
  ∃ w' m' g', fill (S l) g w2 m2 = Ok (w', m') ∧ winv w' m' g' ∧ stepped g g' (S l).
Proof.
  intros HW Hl Hr Hd Hx HW1 HW2 [Hr2 Hx2 Hk2 HK2]. destruct (Hr (S l) ltac:(lia)) as [Hy Hlt]. replace (S l - 1)%nat with l in Hy by lia.
  destruct (Hk2 (S l) ltac:(lia)) as [Ex Ey]. cbn [gx gy grow_y] in Ex, Ey, Hx2. rewrite fn_lookup_insert in Ey.
  assert (gK g2 (S (S l)) (gx g (S l)) = gK g (S (S l)) (gx g (S l))) as EK.
  { rewrite HK2 by lia. apply grow_y_K. left. lia. }
  destruct (fill_slot_run w2 m2 g2 (S l) (pg (gK g (S (S l)) (gx g (S l))))) as (w' & m' & -> & HW');
    [done|done|rewrite Ex, Ey; lia|by rewrite Ex, EK|done| | | |].
  - intros _. replace (S l - 1)%nat with l by lia. rewrite Ex, Hx2. lia.
  - intros Hl3. rewrite Ex. destruct (Hk2 (S (S l)) ltac:(lia)) as [_ ->]. cbn [gy grow_y].
    rewrite fn_lookup_insert_ne by lia. by apply Hd.
  - intros Hl3. rewrite Ex, Hl3. by destruct Hd as ((_ & ?) & _).
  - exists w', m', (grow_x g2 (S l)). split; [done|]. split; [done|]. split.
    + apply rest_grow_x; replace (S l - 1)%nat with l by lia; [done|]. intros _. rewrite Ex, Ey, Hx2. split; [lia|lia].
    + simpl. by rewrite fn_lookup_insert, Ex.
    + intros k Hk. simpl. rewrite fn_lookup_insert_ne by lia. destruct (Hk2 k ltac:(lia)) as [-> ->]. simpl.
      by rewrite fn_lookup_insert_ne by lia.
    + intros k j Hk. cbn [gK grow_x]. rewrite HK2 by lia. apply grow_y_K. left. lia.
Qed.

Lemma recur_run l w m g :
  winv w m g → (l ≤ 3)%nat → rest g l → due g l →
  ∃ w' m' g', recur l g w m = Ok (w', m') ∧ winv w' m' g' ∧ stepped g g' l.
Proof.
  revert w m g. induction l as [|l IH]; intros w m g HW Hl Hr Hd;
    pose proof (wi_rng _ _ _ HW _ Hl) as Hrng; cbn [next_set_recur];
    rewrite (vget_Some (indices w) _ _ ltac:(rewrite Nat2N.id; by apply HW)); mred.
  - pose proof (due_top g Hd) as Htop. pose proof (wi_y0 _ _ _ HW) as Hy0. rewrite Hy0.
    rewrite assert_true by (apply negb_true_iff, andb_false_iff; right; apply N.leb_gt; lia). mred.
    rewrite (proj2 (N.leb_gt _ _)) by lia. mred. apply recur_room; [done..|lia].
  - rewrite assert_true by done. mred. destruct (Hr (S l) ltac:(lia)) as [Hy _]. replace (S l - 1)%nat with l in Hy by lia.
    pose proof (wi_lo _ _ _ HW l ltac:(lia)).
    destruct (N.leb_spec 512 (gx g (S l) - 512 * (gy g (S l) - 1))) as [Hfull|Hroom]; [|mred; apply recur_room; [done..|lia]].
    assert (gx g (S l) = 512 * gy g (S l)) as Hx by lia.
    destruct (new_table_run w m g (S l) HW) as (w1 & m1 & -> & HW1);
      [lia|done|destruct Hd as (_ & Hd & _); specialize (Hd Hx); lia|]. mred.
    destruct (IH w1 m1 (grow_y g (S l)) HW1) as (w2 & m2 & g2 & Hrun & HW2 & Hs2); [lia| |by apply due_below|].
    { intros k Hk. simpl. rewrite fn_lookup_insert_ne by lia. apply Hr. lia. }
    assert (gK (grow_y g (S l)) (S l) (gx (grow_y g (S l)) l) = gc g) as Hc.
    { cbn [gx grow_y]. rewrite <-Hy. apply grow_y_new. }
    rewrite Hc in Hrun. rewrite Hrun. mred. by eapply recur_full.
Qed.

Lemma rest_due w m g : winv w m g → rest g 3 → gx g 3%nat < 512 + np → due g 3.
Proof.
  intros HW Hr Hx. destruct (Hr 1%nat ltac:(lia)) as [E1 L1]. destruct (Hr 2%nat ltac:(lia)) as [E2 L2].
  destruct (Hr 3%nat ltac:(lia)) as [E3 L3]. pose proof (wi_count _ _ _ HW). pose proof (wi_lo _ _ _ HW 3%nat ltac:(lia)) as Hlo.
  cbn [Nat.sub lo] in *. split_and!; [change (512 ^ (3 - N.of_nat 3)) with 1; lia|done| |lia].
  intros Hf. lia.
Qed.

(** After [n] pages, of which the first three were mapped before. *)
Definition mapped (n : N) w m : Prop := ∃ g, winv w m g ∧ rest g 3 ∧ gx g 3%nat = 512 + n.

Lemma next_set_run n w m :
  mapped n w m → n < np →
  ∃ w' m', next_set cr3 (pg n) (bitor WRITABLE PRESENT) map DYNMEM_START_VIRT w m = Ok (w', m') ∧
    mapped (n + 1) w' m'.
Proof.
  intros (g & HW & Hr & Hx) Hn. unfold next_set. rewrite (wi_skip _ _ _ HW). cbn [N.eqb].
  destruct (recur_run 3 w m g HW) as (w' & m' & g' & Hrun & HW' & [Hr' Hx' _ _]);
    [lia|done|apply (rest_due w m); [done|done|lia]|].
  rewrite (wi_K4 _ _ _ HW), Hx in Hrun. replace (512 + n - 512) with n in Hrun by lia. rewrite Hrun.
  exists w', m'. split; [done|]. exists g'. split_and!; [done|done|lia].
Qed.

(** The tables that any mapping of [n] pages from page 512 on needs: on each
    level one for every range of pages that is touched. *)
Definition ranges_touched (span n : N) : N := (512 + n - 1) / span + 1 - 512 / span.
Definition tables_needed (n : N) : N :=
  ranges_touched 512 n + ranges_touched (512 * 512) n + ranges_touched (512 * 512 * 512) n.

Lemma mapped_count n w m : mapped n w m → next_table w = 4096 * (512 + tables_needed n).
Proof.
  intros (g & HW & Hr & Hx). rewrite (wi_next _ _ _ HW). do 2 f_equal.
  destruct (Hr 1%nat ltac:(lia)) as [E1 L1]. destruct (Hr 2%nat ltac:(lia)) as [E2 L2].
  destruct (Hr 3%nat ltac:(lia)) as [E3 L3]. pose proof (wi_count _ _ _ HW). cbn [Nat.sub] in *.
  pose proof (wi_rng _ _ _ HW 3%nat ltac:(lia)). pose proof (wi_rng _ _ _ HW 2%nat ltac:(lia)).
  pose proof (wi_rng _ _ _ HW 1%nat ltac:(lia)).
  pose proof (wi_lo _ _ _ HW 3%nat ltac:(lia)) as Hlo. cbn [lo] in Hlo.
  unfold tables_needed, ranges_touched. change (512 / 512) with 1. change (512 / (512 * 512)) with 0.
  change (512 / (512 * 512 * 512)) with 0.
  assert ((512 + n - 1) / 512 + 1 = gy g 3%nat) as Hy3 by lia.
  assert ((512 + n - 1) / (512 * 512) + 1 = gy g 2%nat) as Hy2 by lia.
  assert ((512 + n - 1) / (512 * 512 * 512) + 1 = gy g 1%nat) as Hy1 by lia. lia.
Qed.

(** The tables hold every page translation they are made for. *)
Lemma mapped_translate n w m off :
  mapped n w m → off < 4096 * n → translate cr3 m (DYNMEM_START_VIRT + off) = Some (pg (off / 4096) + off mod 4096).
Proof.
  intros (g & HW & Hr & Hx) Ho. assert (DYNMEM_START_VIRT + off = 4096 * (512 + off / 4096) + off mod 4096) as ->
    by (unfold DYNMEM_START_VIRT; lia).
  pose proof (wi_cx _ _ _ HW).
  pose proof (canonical_low (512 + off / 4096) (off mod 4096) ltac:(lia) ltac:(lia)) as Hcan.
  rewrite (path_translate _ _ _ _ _ _ _ Hcan (winv_path _ _ _ (512 + off / 4096) (off mod 4096) HW ltac:(lia) ltac:(lia))).
  f_equal. f_equal; [f_equal; lia|lia].
Qed.

(** Nothing but the top table and the first pages takes part in it. *)
Lemma mapped_isolated n w m m' off :
  mapped n w m → off < 4096 * n →
  (∀ f i, f = cr3 ∨ (∃ j, j < tables_needed n ∧ f = pg j) → m' f i = m f i) →
  translate cr3 m' (DYNMEM_START_VIRT + off) = translate cr3 m (DYNMEM_START_VIRT + off).
Proof.
  intros Hm Ho Heq. rewrite (mapped_translate n w m off Hm Ho). pose proof (mapped_count n w m Hm) as Hcnt.
  destruct Hm as (g & HW & Hr & Hx). rewrite (wi_next _ _ _ HW) in Hcnt. pose proof (wi_cx _ _ _ HW).
  assert (DYNMEM_START_VIRT + off = 4096 * (512 + off / 4096) + off mod 4096) as ->
    by (unfold DYNMEM_START_VIRT; lia).
  set (v := 512 + off / 4096). assert (512 ≤ v < gx g 3%nat) as Hv by (unfold v; lia).
  pose proof (winv_path _ _ _ v (off mod 4096) HW Hv ltac:(lia)) as Hp.
  assert (∀ l u, (l < 3)%nat → lo l ≤ u < gx g l → ∃ j, j < tables_needed n ∧ tab g (S l) u = pg j) as Ht.
  { intros l u Hl Hu. exists (gK g (S l) u). split; [|done]. cut (gK g (S l) u < gc g); [lia|].
    apply (wi_lt _ _ _ HW). split; [lia|]. pose proof (wi_yx _ _ _ HW (S l) ltac:(lia)) as Hyx.
    replace (S l - 1)%nat with l in * by lia. lia. }
  pose proof (wi_chain _ _ _ HW 3%nat ltac:(lia)) as C3. pose proof (wi_chain _ _ _ HW 2%nat ltac:(lia)) as C2.
  pose proof (wi_chain _ _ _ HW 1%nat ltac:(lia)) as C1. cbn [Nat.sub] in *.
  change (512 ^ 3) with (512 * 512 * 512) in Hp. change (512 ^ 2) with (512 * 512) in Hp.
  pose proof (Ht 0%nat (v / (512 * 512 * 512)) ltac:(lia) ltac:(simpl; lia)) as T1.
  pose proof (Ht 1%nat (v / (512 * 512)) ltac:(lia) ltac:(simpl; lia)) as T2.
  pose proof (Ht 2%nat (v / 512) ltac:(lia) ltac:(simpl; lia)) as T3.
  rewrite (path_translate cr3 m' _ _ _ _ (pg (v - 512)) (canonical_low v (off mod 4096) ltac:(lia) ltac:(lia))
    (path_eq cr3 m m' _ _ _ _ _ Hp ltac:(naive_solver))).
  f_equal. f_equal; [f_equal; lia|lia].
Qed.

(** The walker starts with the mapping of three pages by three tables. *)
Definition first_ghost : ghost :=
  mkGhost (λ l, match l with 0%nat | 1%nat => 1 | 2%nat => 2 | _ => 515 end)
    (λ l, match l with 3%nat => 2 | _ => 1 end)
    (λ l v, match l with 0%nat | 1%nat => 0 | 2%nat => 1 | 3%nat => 2 | _ => v - 512 end) 3.

Record first_pages m : Prop := {
  fp_pml4 : link m cr3 0 (pg 0);
  fp_pdpt : link m (pg 0) 0 (pg 1);
  fp_pdt : link m (pg 1) 1 (pg 2);
  fp_pt i : i < 3 → link m (pg 2) i (pg i);
  fp_agree : agree m0 m;
  fp_frames f i : f ≠ cr3 → f ≠ tmp → (∀ j, j < 3 → f ≠ pg j) → m f i = m0 f i;
  fp_clean j i : blank_start → j < 4 → i < 512 →
    match j with 0 => 0 < i < 256 | 1 => i ≠ 0 | 2 => i ≠ 1 | _ => 3 ≤ i end →
    empty_slot m (match j with 0 => cr3 | j => pg (j - 1) end) i;
}.

Lemma first_winv m ptr1 ptr2 ptr3 next :
  3 ≤ np → first_pages m →
  ptr1 = 4096 * 512 → ptr2 = 4096 * 513 → ptr3 = 4096 * 514 → next = 4096 * 515 →
  mapped 3 (mkWalker DYNMEM_START_VIRT next [pml4t; ptr1; ptr2; ptr3] [1; 1; 2; 3] 0) m.
Proof.
  intros Hnp HF -> -> -> ->. exists first_ghost. split_and!; [|intros [|[|[|[|]]]] Hk; [lia|done|done|done|lia]|done].
  assert (∀ l j, made first_ghost l j → (l = 1%nat ∧ j = 0) ∨ (l = 2%nat ∧ j = 0) ∨ (l = 3%nat ∧ j = 1)) as Hmade.
  { intros l j [Hl Hj]. destruct l as [|[|[|[|]]]]; simpl in Hj; lia. }
  split; cbn [tables indices start_table next_table skip gc first_ghost]; try done.
  - by intros [|[|[|[|]]]] Hl; [..|lia].
  - by intros [|[|[|[|]]]] Hl; [..|lia].
  - by intros [|[|[|[|]]]] Hl; [lia|..|lia].
  - split; [done|]. simpl. lia.
  - by intros l j [[-> ->]|[[-> ->]|[-> ->]]]%Hmade.
  - by intros l j l' j' [[-> ->]|[[-> ->]|[-> ->]]]%Hmade [[-> ->]|[[-> ->]|[-> ->]]]%Hmade.
  - by intros [|[|[|[|]]]] Hl; [lia|..|lia].
  - by intros [|[|[|[|]]]] Hl; [lia|..|lia].
  - by intros [|[|[|[|]]]] Hl; [..|lia].
  - intros [|[|[|[|]]]] v Hl Hv; [..|lia]; simpl in Hv; cbn [tab gK first_ghost].
    + assert (v = 0) as -> by lia. apply HF.
    + assert (v = 0) as -> by lia. apply HF.
    + assert (v = 1) as -> by lia. apply HF.
    + replace (v mod 512) with (v - 512) by lia. apply HF. lia.
  - apply HF.
  - intros f i. apply HF.
  - intros l j i Hbs [[-> ->]|[[-> ->]|[[-> ->]|[-> ->]]]%Hmade] Hi Htop Hout; cbn [tab gK gx first_ghost lo] in *.
    + apply (fp_clean _ HF 0); [done|lia|done|]. specialize (Htop eq_refl). lia.
    + apply (fp_clean _ HF 1); [done|lia|done|lia].
    + apply (fp_clean _ HF 2); [done|lia|done|lia].
    + apply (fp_clean _ HF 3); [done|lia|done|lia].
Qed.
End walker.

End PageTableWalk.
