(* ===== verification/PageTableSpec.v ===== *)
(** * The page tables: correctness

    From the state the boot code leaves, [create_tmp_page] and
    [create_dyn_page] map the dynamic memory: the processor then translates
    the addresses from [DYNMEM_START_VIRT] on as [virt_to_phys_dynmem] does,
    through tables that lie in the first pages of that memory; nothing else is
    written. *)
From S2P Require Import Prelude MemoryMap MemoryMapSpec KernelMemory PageTable PageTableWalk.
Import MemoryMap MemoryMapSpec PageTable PageTableWalk.
Local Open Scope N_scope.

Module PageTableSpec.

(** ** The pages of a memory map, in the order of their virtual addresses *)
Definition entry_pages (e : MemoryMapEntry) : list N := (λ i, base e + i * 4096) <$> range 0 (size e / 4096).
Definition page_list (map : list MemoryMapEntry) : list N := concat (entry_pages <$> map).
Definition page (map : list MemoryMapEntry) (i : N) : N := default 0 (page_list map !! N.to_nat i).
Definition page_count (map : list MemoryMapEntry) : N := total_size map / 4096.

Lemma length_entry_pages e : vlen (entry_pages e) = size e / 4096.
Proof. unfold vlen, entry_pages. rewrite length_fmap, length_range. lia. Qed.

Lemma total_size_mod lo map : regions lo map → total_size map mod 4096 = 0.
Proof.
  revert lo. induction map as [|e map IH]; intros lo Hr; [done|]. destruct Hr as ([_ Hs _ _ _] & _ & Hr).
  specialize (IH _ Hr). simpl. fold (total_size map). lia.
Qed.

Lemma length_page_list lo map : regions lo map → vlen (page_list map) = page_count map.
Proof.
  unfold page_count. revert lo. induction map as [|e map IH]; intros lo Hr; [done|].
  pose proof Hr as (Hok & _ & Hr'). destruct Hok as [_ Hs _ _ _].
  cbn [page_list fmap list_fmap concat]. fold (page_list map). rewrite vlen_app, length_entry_pages, (IH _ Hr').
  simpl. fold (total_size map). pose proof (total_size_mod _ _ Hr'). lia.
Qed.

Section pages.
Context `{X86Addr}.

Lemma page_list_virt lo map sum i o a :
  regions lo map → phys_limit map → sum + total_size map < W64 → o < 4096 → page_list map !! N.to_nat i = Some a →
  virt_to_phys_loop map (sum + 4096 * i + o) sum = Ok (a + o) ∧ a mod 4096 = 0.
Proof.
  revert lo sum i. induction map as [|e map IH]; intros lo sum i Hr Hlim Hw Ho Hi; [done|].
  destruct Hr as ([Hb Hs Hpos He _] & Hlo & Hr). inversion_clear Hlim as [|? ? Hle Hlim'].
  simpl total_size in Hw. fold (total_size map) in Hw. cbn [page_list fmap list_fmap concat] in Hi. fold (page_list map) in Hi.
  change (2 ^ 52) with 4503599627370496 in Hle. cbn [virt_to_phys_loop]. rewrite checked_add_Ok by lia. mred.
  pose proof (length_entry_pages e) as Hlen. destruct (N.ltb_spec (sum + 4096 * i + o) (sum + size e)) as [Hlt|Hge].
  - rewrite lookup_app_l in Hi by (unfold vlen in Hlen; lia). unfold entry_pages in Hi.
    rewrite list_lookup_fmap, lookup_range in Hi by lia. simpl in Hi. injection Hi as <-.
    rewrite checked_sub_Ok by lia. mred. rewrite checked_add_Ok by lia. mred.
    rewrite PhysAddr_new_ok by (change (2 ^ 52) with 4503599627370496; lia). split; [f_equal; lia|lia].
  - rewrite lookup_app_r in Hi by (unfold vlen in Hlen; lia).
    replace (N.to_nat i - length (entry_pages e))%nat with (N.to_nat (i - size e / 4096)) in Hi by (unfold vlen in Hlen; lia).
    replace (sum + 4096 * i + o) with (sum + size e + 4096 * (i - size e / 4096) + o) by lia.
    apply (IH _ (sum + size e) _ Hr Hlim' ltac:(lia) Ho Hi).
Qed.

Lemma page_lookup lo map i :
  regions lo map → i < page_count map → page_list map !! N.to_nat i = Some (page map i).
Proof.
  intros Hr Hi. rewrite <-(length_page_list _ _ Hr) in Hi. unfold vlen in Hi. unfold page.
  by destruct (lookup_lt_is_Some_2 (page_list map) (N.to_nat i) ltac:(lia)) as [a ->].
Qed.

Lemma page_facts lo map i :
  regions lo map → phys_limit map → DYNMEM_START_VIRT + total_size map < 2 ^ 47 → i < page_count map →
  virt_to_phys_dynmem (4096 * (512 + i)) map DYNMEM_START_VIRT = Ok (page map i) ∧
  page map i mod 4096 = 0 ∧ phys_in map (page map i) ∧ lo ≤ page map i ∧
  phys_to_virt_dynmem (page map i) map DYNMEM_START_VIRT = Ok (4096 * (512 + i)).
Proof.
  intros Hr Hlim Hw Hi. change (2 ^ 47) with 140737488355328 in Hw. unfold DYNMEM_START_VIRT in *.
  pose proof (page_lookup _ _ _ Hr Hi) as Hl. unfold page_count in Hi.
  destruct (page_list_virt lo map 0 i 0 _ Hr Hlim ltac:(lia) ltac:(lia) Hl) as [Hv Ha].
  destruct (virt_phys_loop 2097152 map lo (4096 * i) 0) as (p & Hp & Hin & Hlo & Hpv);
    [done|done|lia|change (2 ^ 47) with 140737488355328; lia|].
  rewrite N.add_0_l, !N.add_0_r in Hv. assert (p = page map i) as -> by congruence.
  unfold virt_to_phys_dynmem, phys_to_virt_dynmem. rewrite checked_sub_Ok by lia. mred.
  replace (4096 * (512 + i) - 2097152) with (4096 * i) by lia. split_and!; [done..|].
  rewrite Hpv. f_equal. lia.
Qed.

Lemma phys_in_limit map a : phys_limit map → phys_in map a → a < 2 ^ 52.
Proof. intros Hlim (e & He & Ha). unfold phys_limit in Hlim. rewrite list.Forall_forall in Hlim. specialize (Hlim e He). simpl in Hlim. lia. Qed.

(** Within a page the translation adds the offset. *)
Lemma page_offset lo map off :
  regions lo map → phys_limit map → DYNMEM_START_VIRT + total_size map < 2 ^ 47 → off < total_size map →
  virt_to_phys_dynmem (DYNMEM_START_VIRT + off) map DYNMEM_START_VIRT = Ok (page map (off / 4096) + off mod 4096).
Proof.
  intros Hr Hlim Hw Ho. change (2 ^ 47) with 140737488355328 in Hw. unfold DYNMEM_START_VIRT, virt_to_phys_dynmem in *.
  pose proof (total_size_mod _ _ Hr) as Hm.
  assert (off / 4096 < page_count map) as Hi by (unfold page_count; lia).
  destruct (page_list_virt lo map 0 (off / 4096) (off mod 4096) _ Hr Hlim ltac:(lia) ltac:(lia)
    (page_lookup _ _ _ Hr Hi)) as [Hv _].
  rewrite checked_sub_Ok by lia. mred. rewrite <-Hv. f_equal. lia.
Qed.

Lemma page_inj lo map i j :
  regions lo map → phys_limit map → DYNMEM_START_VIRT + total_size map < 2 ^ 47 →
  i < page_count map → j < page_count map → page map i = page map j → i = j.
Proof.
  intros Hr Hlim Hw Hi Hj He. destruct (page_facts lo map i) as (_ & _ & _ & _ & Hpi); [done..|].
  destruct (page_facts lo map j) as (_ & _ & _ & _ & Hpj); [done..|]. rewrite He in Hpi.
  rewrite Hpi in Hpj. injection Hpj as ?. lia.
Qed.
End pages.

(** ** The boot state *)
Section boot.
Context `{X86Paging, X86Addr, NumIter}.
Context (cr3 tmptable : N) (map : list MemoryMapEntry) (m0 : phys_mem).

(** The frame of the temporary table, as [stk_phys] computes it. *)
Definition tmp_frame : N := tmptable - KSTACK_START_VIRT + KSTACK_START_PHYS.

(** The memory map starts with three pages at [DYNMEM_START_PHYS]; the top
    table and the kernel's stack lie below it, and the kernel's half of the
    address space maps them through other tables. *)
Record boot_ok : Prop := {
  bo_regions : regions DYNMEM_START_PHYS map;
  bo_limit : phys_limit map;
  bo_virt : DYNMEM_START_VIRT + total_size map < 2 ^ 47;
  bo_first : ∃ e rest, map = e :: rest ∧ base e = DYNMEM_START_PHYS ∧ 12288 ≤ size e;
  bo_cr3 : cr3 < DYNMEM_START_PHYS;
  bo_stack : KSTACK_START_VIRT ≤ tmptable ∧ tmp_frame < DYNMEM_START_PHYS ∧ tmp_frame ≠ cr3;
  bo_pml4 : kernel_path cr3 tmp_frame (page map) (page_count map) m0 PAGE_TABLE_ADDR cr3;
  bo_tmp : kernel_path cr3 tmp_frame (page map) (page_count map) m0 tmptable tmp_frame;
}.

Context (HB : boot_ok).

Lemma first_page i : i < 3 → page map i = DYNMEM_START_PHYS + i * 4096 ∧ i < page_count map.
Proof.
  intros Hi. destruct (bo_first HB) as (e & rest & He & Hb & Hs). pose proof (bo_regions HB) as Hr.
  assert (page_list map !! N.to_nat i = Some (DYNMEM_START_PHYS + i * 4096)) as Hp.
  { rewrite He. cbn [page_list fmap list_fmap concat]. rewrite lookup_app_l.
    - unfold entry_pages. rewrite list_lookup_fmap, lookup_range by lia. simpl. f_equal. lia.
    - pose proof (length_entry_pages e). unfold vlen in *. lia. }
  unfold page. rewrite Hp. split; [done|]. rewrite <-(length_page_list _ _ Hr).
  apply lookup_lt_Some in Hp. unfold vlen. lia.
Qed.

(** ** [create_tmp_page] *)
Abbreviation agrees := (agree cr3 tmp_frame (page map) (page_count map) m0).
Abbreviation table_flags := (bitor WRITABLE PRESENT).

Definition ent (a : N) : PageTableEntry :=
  match set_addr a table_flags with Ok e => e | Panic _ => unused end.

Lemma link_ent m f i a : a mod 4096 = 0 → a < 2 ^ 52 → link (upd m f i (ent a)) f i a.
Proof.
  intros Ha Hl. unfold ent. destruct (set_addr_ok a table_flags Ha Hl) as (e & -> & He & Hf).
  by apply link_upd_eq.
Qed.

Lemma set_entry_run m ptr f i a :
  table_frame cr3 m ptr = Ok f → i < 512 → a mod 4096 = 0 → a < 2 ^ 52 →
  set_entry cr3 m ptr i a table_flags = Ok (upd m f i (ent a)).
Proof.
  intros Hf Hi Ha Hl. unfold set_entry, write_entry, ent.
  destruct (set_addr_ok a table_flags Ha Hl) as (e & -> & He & _). mred.
  by rewrite (proj2 (N.leb_gt _ _)), Hf.
Qed.

Lemma stk_phys_run p :
  KSTACK_START_VIRT ≤ p → p - KSTACK_START_VIRT + KSTACK_START_PHYS < DYNMEM_START_PHYS →
  stk_phys p = Ok (p - KSTACK_START_VIRT + KSTACK_START_PHYS).
Proof.
  intros Hp Hd. unfold stk_phys. rewrite checked_sub_Ok by exact Hp. mred.
  rewrite checked_add_Ok by (apply (N.lt_trans _ _ _ Hd); reflexivity). mred.
  apply PhysAddr_new_ok. apply (N.lt_trans _ _ _ Hd). reflexivity.
Qed.

Lemma mod_sub_add a b c : a mod 4096 = 0 → b mod 4096 = 0 → c mod 4096 = 0 → (a - b + c) mod 4096 = 0.
Proof. lia. Qed.

Lemma tmp_frame_ok : tmp_frame mod 4096 = 0 ∧ tmp_frame < 2 ^ 52 ∧ stk_phys tmptable = Ok tmp_frame.
Proof.
  destruct (bo_stack HB) as (Hs & Hd & _). destruct (bo_tmp HB) as (_ & Hal & _). split_and!.
  - apply mod_sub_add; [exact Hal|reflexivity|reflexivity].
  - apply (N.lt_trans _ _ _ Hd). reflexivity.
  - exact (stk_phys_run tmptable Hs Hd).
Qed.

Lemma dyn_phys_ok i : i < 3 →
  DYNMEM_START_PHYS + i * 4096 = page map i ∧ page map i mod 4096 = 0 ∧ page map i < 2 ^ 52 ∧
  page map i ≠ cr3 ∧ page map i ≠ tmp_frame ∧ i < page_count map.
Proof.
  intros Hi. destruct (first_page i Hi) as [-> Hc]. pose proof (bo_cr3 HB). destruct (bo_stack HB) as (_ & ? & _).
  unfold DYNMEM_START_PHYS in *. change (2 ^ 52) with 4503599627370496. split_and!; try done; lia.
Qed.

Lemma agrees_upd m f i e :
  agrees m → ¬ spared cr3 tmp_frame (page map) (page_count map) f → (f = cr3 → i < 256) → agrees (upd m f i e).
Proof.
  intros [Hs1 Hs2] Hf Hi. split.
  - intros f' i' Hs. rewrite table_upd_ne; [by apply Hs1|]. by intros [-> _].
  - intros i' Hi'. rewrite table_upd_ne; [by apply Hs2|]. intros [<- ->]. specialize (Hi eq_refl). lia.
Qed.

Lemma not_spared_cr3 : ¬ spared cr3 tmp_frame (page map) (page_count map) cr3.
Proof. by intros (? & _). Qed.
Lemma not_spared_tmp : ¬ spared cr3 tmp_frame (page map) (page_count map) tmp_frame.
Proof. by intros (_ & ? & _). Qed.
Lemma not_spared_page i : i < 3 → ¬ spared cr3 tmp_frame (page map) (page_count map) (page map i).
Proof. intros Hi (_ & _ & Hn). destruct (dyn_phys_ok i Hi) as (_ & _ & _ & _ & _ & Hc). by apply (Hn i Hc). Qed.

Lemma kernel_access m va f :
  agrees m → kernel_path cr3 tmp_frame (page map) (page_count map) m0 va f → table_frame cr3 m va = Ok f.
Proof. intros Ha Hk. eapply kernel_path_frame. by eapply kernel_path_agree. Qed.

(** While the temporary table is in place, the three pages are mapped
    behind [PML4:1, PDP:0, PD:1]. *)
Record tmp_mapped m : Prop := {
  tm_agree : agrees m;
  tm_frames f i : f ≠ cr3 → f ≠ tmp_frame → (∀ j, j < 3 → f ≠ page map j) → m f i = m0 f i;
  tm_pml4 : link m cr3 1 tmp_frame;
  tm_self i : i < 2 → link m tmp_frame i tmp_frame;
  tm_page i : i < 3 → link m tmp_frame (2 + i) (page map i);
}.

Definition tmp_ptr (i : N) : N := 549757919232 + i * 4096.

Lemma tmp_ptr_frame m i : tmp_mapped m → i < 3 → table_frame cr3 m (tmp_ptr i) = Ok (page map i).
Proof.
  intros [_ _ Hp Hs Hg] Hi. unfold tmp_ptr. eapply (table_frame_path cr3 m _ tmp_frame tmp_frame tmp_frame); [|lia|].
  - unfold canonical. change (2 ^ 47) with 140737488355328. by rewrite (proj2 (N.ltb_lt _ _)) by lia.
  - replace (549757919232 + i * 4096) with (4096 * (134218242 + i) + 0) by lia.
    unfold path. rewrite !table_index_page by done. 
    change (512 ^ N.of_nat 3) with 134217728. change (512 ^ N.of_nat 2) with 262144.
    change (512 ^ N.of_nat 1) with 512. change (512 ^ N.of_nat 0) with 1.
    replace ((134218242 + i) / 134217728 mod 512) with 1 by lia.
    replace ((134218242 + i) / 262144 mod 512) with 0 by lia.
    replace ((134218242 + i) / 512 mod 512) with 1 by lia.
    replace ((134218242 + i) / 1 mod 512) with (2 + i) by lia.
    split_and!; [done|by apply Hs..|by apply Hg].
Qed.

Lemma tmp_mapped_upd m f i e :
  tmp_mapped m → (f = cr3 ∧ i = 0) ∨ (∃ j, j < 3 ∧ f = page map j) → tmp_mapped (upd m f i e).
Proof.
  intros [Ha Hfr Hp Hs Hg] Hf. destruct (bo_stack HB) as (_ & _ & Htc).
  assert (f ≠ tmp_frame ∧ ¬ (f = cr3 ∧ i = 1)) as [Hft Hfc].
  { destruct Hf as [[-> ->]|(j & Hj & ->)]; [split; [done|lia]|].
    destruct (dyn_phys_ok j Hj) as (_ & _ & _ & ? & ? & _). naive_solver. }
  split.
  - apply agrees_upd; [done| |].
    + destruct Hf as [[-> _]|(j & Hj & ->)]; [apply not_spared_cr3|by apply not_spared_page].
    + intros ->. destruct Hf as [[_ ->]|(j & Hj & He)]; [lia|].
      by destruct (dyn_phys_ok j Hj) as (_ & _ & _ & [] & _).
  - intros f' i' Hc' Ht' Hp'. rewrite table_upd_ne; [by apply Hfr|]. intros [-> _].
    destruct Hf as [[-> _]|(j & Hj & ->)]; [done|by apply (Hp' j)].
  - apply link_upd_ne; [naive_solver|done].
  - intros j Hj. apply link_upd_ne; [naive_solver|by apply Hs].
  - intros j Hj. apply link_upd_ne; [naive_solver|by apply Hg].
Qed.

Lemma set_dyn_pages_run m table f first (I : phys_mem → Prop) :
  I m → (∀ m i, I m → i < 3 → table_frame cr3 m table = Ok f ∧ I (upd m f (first + i) (ent (page map i)))) →
  first ≤ 2 →
  set_dyn_pages cr3 table first table_flags m =
    Ok (upd (upd (upd m f first (ent (page map 0))) f (first + 1) (ent (page map 1))) f (first + 2) (ent (page map 2))).
Proof.
  intros HI Hstep Hf. unfold set_dyn_pages. change (range 0 3) with [0; 1; 2].
  assert (∀ m i, I m → i < 3 →
    (o ← checked_mul W64 i PAGE_SIZE; addr ← checked_add W64 DYNMEM_START_PHYS o; addr ← PhysAddr_new addr;
     i ← checked_add W64 first i; set_entry cr3 m table i addr table_flags) =
    Ok (upd m f (first + i) (ent (page map i)))) as Hone.
  { intros m1 i HI1 Hi. destruct (dyn_phys_ok i Hi) as (He & Ha & Hl & _). destruct (Hstep m1 i HI1 Hi) as [Hfr _].
    unfold PAGE_SIZE, DYNMEM_START_PHYS in *. change (2 ^ 52) with 4503599627370496 in *.
    rewrite checked_mul_Ok by lia. mred. rewrite (checked_add_Ok _ 8388608) by lia. mred. rewrite He.
    rewrite PhysAddr_new_ok by done. mred. rewrite checked_add_Ok by lia. mred.
    apply set_entry_run; [done|lia|done|done]. }
  cbn [for_each]. rewrite (Hone m 0 HI) by lia. mred. destruct (Hstep m 0 HI) as [_ HI1]; [lia|].
  rewrite (Hone _ 1 HI1) by lia. mred. destruct (Hstep _ 1 HI1) as [_ HI2]; [lia|].
  rewrite (Hone _ 2 HI2) by lia. mred. by rewrite N.add_0_r.
Qed.

(** The first half: the temporary table is in place. *)
Definition tmp_table_mem : phys_mem :=
  let m := upd_frame m0 tmp_frame unused in
  let m := upd m cr3 1 (ent tmp_frame) in
  let m := upd (upd m tmp_frame 0 (ent tmp_frame)) tmp_frame 1 (ent tmp_frame) in
  upd (upd (upd m tmp_frame 2 (ent (page map 0))) tmp_frame (2 + 1) (ent (page map 1)))
    tmp_frame (2 + 2) (ent (page map 2)).

Lemma tmp_table_mapped : tmp_mapped tmp_table_mem.
Proof.
  destruct (bo_stack HB) as (_ & _ & Htc). destruct tmp_frame_ok as (Ha & Hl & _). split.
  - do 5 (apply agrees_upd; [|apply not_spared_tmp|done]). apply agrees_upd; [|apply not_spared_cr3|done].
    split; [|intros i Hi; by apply upd_frame_ne]. intros f i (_ & Hf & _). by apply upd_frame_ne.
  - intros f i Hc Ht _. unfold tmp_table_mem. rewrite !table_upd_ne by (intros [? _]; congruence). by rewrite upd_frame_ne.
  - do 5 (apply link_upd_ne; [naive_solver|]). by apply link_ent.
  - intros i Hi. do 3 (apply link_upd_ne; [lia|]).
    destruct (decide (i = 1)) as [->|Hne]; [by apply link_ent|].
    assert (i = 0) as -> by lia. apply link_upd_ne; [lia|]. by apply link_ent.
  - intros i Hi. destruct (dyn_phys_ok i Hi) as (_ & Hia & Hil & _).
    destruct (decide (i = 2)) as [->|]; [by apply link_ent|]. apply link_upd_ne; [lia|].
    destruct (decide (i = 1)) as [->|]; [by apply link_ent|]. apply link_upd_ne; [lia|].
    assert (i = 0) as -> by lia. by apply link_ent.
Qed.

(** The second half: the tables of the first three pages. *)
Definition first_tables_mem (m : phys_mem) : phys_mem :=
  let m := upd m cr3 0 (ent (page map 0)) in
  let m := upd m (page map 0) 0 (ent (page map 1)) in
  let m := upd m (page map 1) 1 (ent (page map 2)) in
  let m := upd (upd (upd m (page map 2) 0 (ent (page map 0))) (page map 2) (0 + 1) (ent (page map 1)))
    (page map 2) (0 + 2) (ent (page map 2)) in
  upd m cr3 1 unused.

(** The temporary table leaves the rest as it was. *)
Lemma tmp_table_rest :
  (∀ i, 2 ≤ i → tmp_table_mem cr3 i = m0 cr3 i) ∧ ∀ j i, j < 3 → tmp_table_mem (page map j) i = m0 (page map j) i.
Proof.
  destruct (bo_stack HB) as (_ & _ & Htc). split.
  - intros i Hi. unfold tmp_table_mem. rewrite !table_upd_ne by (intros []; (done || lia)). by rewrite upd_frame_ne.
  - intros j i Hj. destruct (dyn_phys_ok j Hj) as (_ & _ & _ & ? & ? & _). unfold tmp_table_mem.
    rewrite !table_upd_ne by by intros []. by rewrite upd_frame_ne.
Qed.

Lemma first_tables_clean m j i :
  (∀ i, 2 ≤ i → m cr3 i = m0 cr3 i) → (∀ j i, j < 3 → m (page map j) i = m0 (page map j) i) →
  blank_start cr3 (page map) m0 → j < 4 → i < 512 →
  match j with 0 => 0 < i < 256 | 1 => i ≠ 0 | 2 => i ≠ 1 | _ => 3 ≤ i end →
  empty_slot (first_tables_mem m) (match j with 0 => cr3 | j => page map (j - 1) end) i.
Proof.
  intros Hc Hp [Bt Bp] Hj Hi Hx. destruct (dyn_phys_ok 0 ltac:(lia)) as (E0 & _ & _ & C0 & _).
  destruct (dyn_phys_ok 1 ltac:(lia)) as (E1 & _ & _ & C1 & _). destruct (dyn_phys_ok 2 ltac:(lia)) as (E2 & _ & _ & C2 & _).
  assert (page map 0 ≠ page map 1 ∧ page map 0 ≠ page map 2 ∧ page map 1 ≠ page map 2) as (N01 & N02 & N12)
    by (rewrite <-E0, <-E1, <-E2; done).
  assert (j = 0 ∨ j = 1 ∨ j = 2 ∨ j = 3) as Hjs by lia. unfold empty_slot, first_tables_mem.
  destruct Hjs as [->|[->|[->| ->]]].
  - destruct (decide (i = 1)) as [->|]; [rewrite table_upd_eq; apply unused_not_present|].
    rewrite !table_upd_ne by (intros []; (done || lia)). rewrite Hc by lia. apply Bt. lia.
  - change (1 - 1) with 0. rewrite !table_upd_ne by (intros []; (done || lia)). rewrite Hp by done. by apply Bp.
  - change (2 - 1) with 1. rewrite !table_upd_ne by (intros []; (done || lia)). rewrite Hp by done. by apply Bp.
  - change (3 - 1) with 2. rewrite !table_upd_ne by (intros []; (done || lia)). rewrite Hp by done. by apply Bp.
Qed.

Lemma first_tables_ok m :
  tmp_mapped m →
  (∀ i, 2 ≤ i → m cr3 i = m0 cr3 i) → (∀ j i, j < 3 → m (page map j) i = m0 (page map j) i) →
  first_pages cr3 tmp_frame (page map) (page_count map) m0 (first_tables_mem m).
Proof.
  intros HT Hm Hmp. destruct (dyn_phys_ok 0 ltac:(lia)) as (E0 & A0 & L0 & C0 & T0 & _).
  destruct (dyn_phys_ok 1 ltac:(lia)) as (E1 & A1 & L1 & C1 & T1 & _).
  destruct (dyn_phys_ok 2 ltac:(lia)) as (E2 & A2 & L2 & C2 & T2 & _).
  assert (page map 0 ≠ page map 1 ∧ page map 0 ≠ page map 2 ∧ page map 1 ≠ page map 2) as (N01 & N02 & N12).
  { rewrite <-E0, <-E1, <-E2. done. }
  split.
  - do 6 (apply link_upd_ne; [naive_solver|]). by apply link_ent.
  - do 5 (apply link_upd_ne; [naive_solver|]). by apply link_ent.
  - do 4 (apply link_upd_ne; [naive_solver|]). by apply link_ent.
  - intros i Hi. destruct (dyn_phys_ok i Hi) as (_ & Hia & Hil & _). apply link_upd_ne; [naive_solver|].
    destruct (decide (i = 2)) as [->|]; [by apply link_ent|]. apply link_upd_ne; [lia|].
    destruct (decide (i = 1)) as [->|]; [by apply link_ent|]. apply link_upd_ne; [lia|].
    assert (i = 0) as -> by lia. by apply link_ent.
  - apply agrees_upd; [|apply not_spared_cr3|done].
    do 3 (apply agrees_upd; [|by apply not_spared_page|done]).
    apply agrees_upd; [|by apply not_spared_page|done]. apply agrees_upd; [|by apply not_spared_page|done].
    apply agrees_upd; [|apply not_spared_cr3|done]. apply HT.
  - intros f i Hc Ht Hp. unfold first_tables_mem.
    pose proof (Hp 0 ltac:(lia)). pose proof (Hp 1 ltac:(lia)). pose proof (Hp 2 ltac:(lia)).
    rewrite !table_upd_ne by (intros [? _]; congruence). by apply (tm_frames _ HT).
  - intros j i. by apply first_tables_clean.
Qed.

Lemma dyn_phys_run i : i < 3 → dyn_phys i = Ok (page map i).
Proof.
  intros Hi. destruct (dyn_phys_ok i Hi) as (He & _ & Hl & _). unfold dyn_phys.
  rewrite checked_mul_Ok by (unfold PAGE_SIZE; lia). mred.
  rewrite checked_add_Ok by (unfold PAGE_SIZE, DYNMEM_START_PHYS; lia). mred. unfold PAGE_SIZE.
  rewrite He. by apply PhysAddr_new_ok.
Qed.

Lemma create_tmp_page_run :
  create_tmp_page cr3 PAGE_TABLE_ADDR tmptable m0 = Ok (first_tables_mem tmp_table_mem).
Proof.
  destruct tmp_frame_ok as (Ta & Tl & Ts). destruct (bo_stack HB) as (_ & _ & Htc).
  assert (agrees m0) as Ha0 by done.
  assert (agrees (upd_frame m0 tmp_frame unused)) as Ha1.
  { split; [|intros i Hi; by apply upd_frame_ne]. intros f i (_ & Hf & _). by apply upd_frame_ne. }
  unfold create_tmp_page, zero_table. rewrite (kernel_access m0 tmptable tmp_frame Ha0 (bo_tmp HB)). mred.
  rewrite Ts. mred.
  rewrite (set_entry_run _ _ cr3) by (done || by apply kernel_access, (bo_pml4 HB)). mred.
  assert (agrees (upd (upd_frame m0 tmp_frame unused) cr3 1 (ent tmp_frame))) as Ha2
    by (apply agrees_upd; [done|apply not_spared_cr3|done]).
  rewrite (set_entry_run _ _ tmp_frame) by (done || by apply kernel_access, (bo_tmp HB)). mred.
  assert (∀ m i e, agrees m → agrees (upd m tmp_frame i e)) as Hat
    by (intros m i e Hm; apply agrees_upd; [done|apply not_spared_tmp|done]).
  rewrite (set_entry_run _ _ tmp_frame) by (done || by apply kernel_access, (bo_tmp HB); apply Hat). mred.
  rewrite (set_dyn_pages_run _ tmptable tmp_frame 2 agrees);
    [|by do 2 apply Hat|intros m i Hm Hi; split; [by apply kernel_access, (bo_tmp HB)|by apply Hat]|done].
  mred. fold tmp_table_mem. pose proof tmp_table_mapped as HT.
  change (table_add (N.lor _ _) 1) with (Ok (tmp_ptr 1)). mred.
  change (table_add (tmp_ptr 1) 1) with (Ok (tmp_ptr 2)). mred.
  change (N.lor _ _) with (tmp_ptr 0).
  destruct (dyn_phys_ok 0 ltac:(lia)) as (_ & A0 & L0 & _). destruct (dyn_phys_ok 1 ltac:(lia)) as (_ & A1 & L1 & _).
  destruct (dyn_phys_ok 2 ltac:(lia)) as (_ & A2 & L2 & _).
  assert (∀ j, j < 3 → ∃ j', j' < 3 ∧ page map j = page map j') as Hpg by eauto.
  rewrite (dyn_phys_run 0) by done. mred.
  rewrite (set_entry_run _ _ cr3) by (done || (apply kernel_access; [apply HT|apply (bo_pml4 HB)])). mred.
  apply (tmp_mapped_upd _ cr3 0 (ent (page map 0))) in HT as HT1; [|by left].
  rewrite (dyn_phys_run 1) by done. mred.
  rewrite (set_entry_run _ _ (page map 0)) by (done || by apply tmp_ptr_frame). mred.
  apply (tmp_mapped_upd _ (page map 0) 0 (ent (page map 1))) in HT1 as HT2; [|right; by apply Hpg].
  rewrite (dyn_phys_run 2) by done. mred.
  rewrite (set_entry_run _ _ (page map 1)) by (done || by apply tmp_ptr_frame). mred.
  apply (tmp_mapped_upd _ (page map 1) 1 (ent (page map 2))) in HT2 as HT3; [|right; by apply Hpg].
  assert (∀ m i e, tmp_mapped m → tmp_mapped (upd m (page map 2) i e)) as Hup
    by (intros m i e Hm; apply tmp_mapped_upd; [done|right; by apply Hpg]).
  rewrite (set_dyn_pages_run _ (tmp_ptr 2) (page map 2) 0 tmp_mapped);
    [|done|intros m i Hm Hi; split; [by apply tmp_ptr_frame|by apply Hup]|done].
  mred. unfold write_entry. change (512 <=? 1) with false. cbv iota.
  rewrite (kernel_access _ PAGE_TABLE_ADDR cr3); [done| |apply (bo_pml4 HB)]. by do 3 apply Hup.
Qed.

(** ** [create_dyn_page] *)
Lemma entry_loop {S} (f : N → S → result S) e st :
  region_ok e →
  (stop ← checked_add W64 (base e) (size e); for_each (range_step (base e) stop PAGE_SIZE) f st) =
  for_each (entry_pages e) f st.
Proof.
  intros [_ Hs _ He _]. rewrite checked_add_Ok by done. mred. unfold PAGE_SIZE, entry_pages.
  rewrite <-range_step_exact by done. do 2 f_equal. lia.
Qed.

Lemma pages_loop {S} (f : N → S → result S) lo' es st :
  regions lo' es →
  for_each es (λ e st, stop ← checked_add W64 (base e) (size e); for_each (range_step (base e) stop PAGE_SIZE) f st) st =
  for_each (page_list es) f st.
Proof.
  revert lo' st. induction es as [|e es IH]; intros lo' st Hr; [done|]. destruct Hr as (Hok & _ & Hr).
  cbn [page_list fmap list_fmap concat for_each]. fold (page_list es). rewrite entry_loop by done.
  rewrite for_each_app. destruct (for_each (entry_pages e) f st); mred; [|done]. by eapply IH.
Qed.

Abbreviation mapped_pages := (mapped cr3 tmp_frame (page map) (page_count map) m0 PAGE_TABLE_ADDR).

Definition walker_at (k : N) : PageInitWalker :=
  mkWalker DYNMEM_START_VIRT (4096 * 515) [PAGE_TABLE_ADDR; 4096 * 512; 4096 * 513; 4096 * 514] [1; 1; 2; 3] k.

(** After [n] iterations of the loop over the pages. *)
Definition loop_inv (n : N) (st : N * PageInitWalker * phys_mem) : Prop :=
  st.1.1 = n ∧
  if decide (n < 3) then st.1.2 = walker_at (3 - n) ∧ st.2 = first_tables_mem tmp_table_mem
  else mapped_pages n st.1.2 st.2.

Lemma page_bound : 512 + page_count map ≤ 2 ^ 35.
Proof.
  pose proof (bo_virt HB) as Hv. unfold page_count, DYNMEM_START_VIRT in *.
  change (2 ^ 47) with 140737488355328 in Hv. change (2 ^ 35) with 34359738368. lia.
Qed.

Lemma page_ok i : i < page_count map →
  virt_to_phys_dynmem (4096 * (512 + i)) map DYNMEM_START_VIRT = Ok (page map i) ∧
  page map i mod 4096 = 0 ∧ page map i < 2 ^ 52 ∧ page map i ≠ cr3.
Proof.
  intros Hi. destruct (page_facts _ map i (bo_regions HB) (bo_limit HB) (bo_virt HB) Hi) as (Hv & Ha & Hin & Hlo & _).
  split_and!; [done|done|by eapply phys_in_limit, Hin; apply HB|]. pose proof (bo_cr3 HB). lia.
Qed.

Lemma map_page_step n st :
  loop_inv n st → n < page_count map →
  ∃ st', map_page cr3 table_flags map DYNMEM_START_VIRT (page map n) st = Ok st' ∧ loop_inv (n + 1) st'.
Proof.
  destruct st as [[pc w] m]. intros [Hpc Hst] Hn. simpl in Hpc, Hst. subst pc. pose proof page_bound as Hb.
  change (2 ^ 35) with 34359738368 in Hb.
  destruct (page_ok n Hn) as (_ & _ & Hl & _). unfold map_page. rewrite checked_add_Ok by lia. mred.
  rewrite PhysAddr_new_ok by done. mred. unfold loop_inv. case_decide as H3.
  - destruct Hst as [-> ->]. unfold next_set. cbn [skip walker_at].
    rewrite (proj2 (N.eqb_neq _ _)) by lia. rewrite checked_sub_Ok by lia. mred.
    eexists. split; [done|]. split; [done|]. simpl. case_decide as H3'.
    + split; [|done]. unfold walker_at. f_equal. lia.
    + assert (n = 2) as -> by lia. apply first_winv; try done.
      * destruct (first_page 2 ltac:(lia)) as [_ ?]. lia.
      * by apply first_tables_ok; [apply tmp_table_mapped|apply tmp_table_rest..].
  - destruct (next_set_run cr3 tmp_frame map (page map) (page_count map)) with (m0 := m0) (pml4t := PAGE_TABLE_ADDR)
      (n := n) (w := w) (m := m) as (w' & m' & -> & Hm'); try done.
    + intros i Hi. by destruct (page_ok i Hi).
    + intros i Hi. by destruct (page_ok i Hi) as (_ & ? & ? & ?).
    + intros i j Hi Hj. eapply page_inj; [apply HB..|done|done].
    + apply HB.
    + mred. eexists. split; [done|]. split; [done|]. simpl. by rewrite decide_False by lia.
Qed.

Lemma create_dyn_page_run :
  ∃ w m, create_dyn_page cr3 PAGE_TABLE_ADDR map DYNMEM_START_VIRT (first_tables_mem tmp_table_mem) =
      Ok (total_size map, tables_needed (page_count map) * 4096, m) ∧
    mapped_pages (page_count map) w m.
Proof.
  pose proof page_bound as Hb. change (2 ^ 35) with 34359738368 in Hb. pose proof (bo_regions HB) as Hr.
  pose proof (total_size_mod _ _ Hr) as Hts. pose proof (length_page_list _ _ Hr) as Hlen.
  unfold create_dyn_page. change (walker_new _ _ _) with (Ok (walker_at 3)). mred.
  rewrite (pages_loop _ _ _ _ Hr).
  destruct (for_each_inv (map_page cr3 table_flags map DYNMEM_START_VIRT) (λ l, loop_inv (vlen l)) (page_list map)
    (0, walker_at 3, first_tables_mem tmp_table_mem)) as ([[pc w] m] & -> & Hinv).
  - done.
  - intros l1 a l2 st Hl HI. assert (vlen l1 < page_count map) as Hn.
    { rewrite <-Hlen, Hl, vlen_app, vlen_cons. lia. }
    assert (a = page map (vlen l1)) as ->.
    { pose proof (page_lookup _ _ _ Hr Hn) as Hp. rewrite Hl, to_nat_vlen, list_lookup_middle in Hp by done. congruence. }
    rewrite vlen_app. by apply map_page_step.
  - mred. destruct Hinv as [Hpc Hm]. simpl in Hpc, Hm. subst pc. rewrite Hlen in Hm |- *.
    destruct (first_page 2 ltac:(lia)) as [_ H2]. rewrite decide_False in Hm by lia.
    pose proof Hm as (g & HW & _). apply mapped_count in Hm as Hcnt; [|apply page_bound].
    assert (page_count map * 4096 = total_size map) as Htot by (unfold page_count; lia).
    unfold PAGE_SIZE. rewrite checked_mul_Ok by lia. mred. rewrite Htot. unfold count.
    apply wi_next in HW as Hnx. apply wi_cx in HW as Hcx. apply wi_start in HW as Hst.
    rewrite Hst, Hcnt. unfold DYNMEM_START_VIRT.
    rewrite checked_sub_Ok by lia. mred. unfold PAGE_SIZE.
    replace ((4096 * (512 + tables_needed (page_count map)) - 2097152) / 4096) with (tables_needed (page_count map)) by lia.
    rewrite checked_mul_Ok by lia. mred. by exists w, m.
Qed.

(** The state [init_dyn_page] leaves. *)
Record dyn_mapped (d d' : KernelMemory.MemoryData) (m : phys_mem) : Prop := {
  dm_total : KernelMemory.data_total_len d' = total_size map;
  dm_tables : KernelMemory.page_table_len d' = tables_needed (page_count map) * 4096;
  dm_room : KernelMemory.page_table_len d' ≤ KernelMemory.data_total_len d';
  dm_data : KernelMemory.buddyblock d' = KernelMemory.buddyblock d;
  dm_translate off : off < total_size map →
    translate cr3 m (DYNMEM_START_VIRT + off) = Some (page map (off / 4096) + off mod 4096);
  dm_agree : agrees m;
  dm_isolated m' off : off < total_size map →
    (∀ f i, f = cr3 ∨ (∃ j, j < tables_needed (page_count map) ∧ f = page map j) → m' f i = m f i) →
    translate cr3 m' (DYNMEM_START_VIRT + off) = translate cr3 m (DYNMEM_START_VIRT + off);
  dm_walked : ∃ w, mapped_pages (page_count map) w m;
  dm_frames f i : f ≠ cr3 → f ≠ tmp_frame → (∀ j, j < tables_needed (page_count map) → f ≠ page map j) →
    m f i = m0 f i;
}.

Lemma init_dyn_page_run d :
  ∃ d' m, init_dyn_page cr3 map tmptable d m0 = Ok (d', m) ∧ dyn_mapped d d' m.
Proof.
  unfold init_dyn_page, get_table_mut. rewrite create_tmp_page_run. mred. destruct create_dyn_page_run as (w & m & -> & Hm). mred.
  eexists _, _. split; [done|]. pose proof (bo_regions HB) as Hr. pose proof (total_size_mod _ _ Hr) as Hts.
  assert (total_size map = 4096 * page_count map) as Htot by (unfold page_count; lia).
  split; simpl; try done.
  - apply mapped_count in Hm as Hcnt; [|apply page_bound]. destruct Hm as (g & HW & _).
    apply wi_next in HW as Hnx. apply wi_cx in HW as Hcx. lia.
  - intros off Ho. eapply mapped_translate; [apply page_bound|exact Hm|lia].
  - destruct Hm as (g & HW & _). by apply wi_agree in HW.
  - intros m' off Ho Heq. eapply mapped_isolated; [|apply page_bound|exact Hm|lia|done].
    intros i Hi. by destruct (page_ok i Hi) as (_ & ? & ? & ?).
  - by exists w.
  - intros f i Hc Ht Hp. apply mapped_count in Hm as Hcnt; [|apply page_bound]. destruct Hm as (g & HW & _).
    apply wi_next in HW as Hnx. apply (wi_frames _ _ _ _ _ _ _ _ _ HW); [done|done|]. intros j Hj. apply Hp. lia.
Qed.

(** Page and offset of an address of dynamic memory. *)
Lemma dyn_mapped_page d d' m v :
  dyn_mapped d d' m → DYNMEM_START_VIRT ≤ v < DYNMEM_START_VIRT + total_size map →
  ∃ i, i < page_count map ∧ v = DYNMEM_START_VIRT + 4096 * i + v mod 4096 ∧
    translate cr3 m v = Some (page map i + v mod 4096) ∧ page map i mod 4096 = 0.
Proof.
  intros HD Hv. exists ((v - DYNMEM_START_VIRT) / 4096). pose proof (total_size_mod _ _ (bo_regions HB)).
  assert ((v - DYNMEM_START_VIRT) / 4096 < page_count map) as Hi by (unfold page_count; lia).
  split_and!; [done|unfold DYNMEM_START_VIRT in *; lia| |by destruct (page_ok _ Hi) as (_ & ? & _)].
  replace v with (DYNMEM_START_VIRT + (v - DYNMEM_START_VIRT)) at 1 by lia.
  erewrite dm_translate by (done || lia). do 2 f_equal. unfold DYNMEM_START_VIRT in *. lia.
Qed.

Lemma dyn_mapped_inj d d' m x y :
  dyn_mapped d d' m → DYNMEM_START_VIRT ≤ x < DYNMEM_START_VIRT + total_size map →
  DYNMEM_START_VIRT ≤ y < DYNMEM_START_VIRT + total_size map → translate cr3 m x = translate cr3 m y → x = y.
Proof.
  intros HD Hx Hy. destruct (dyn_mapped_page _ _ _ x HD Hx) as (i & Hi & Hxi & -> & Hai).
  destruct (dyn_mapped_page _ _ _ y HD Hy) as (j & Hj & Hyj & -> & Haj). intros [= He].
  assert (page map i = page map j) as Hpe by lia.
  rewrite (page_inj _ _ _ _ (bo_regions HB) (bo_limit HB) (bo_virt HB) Hi Hj Hpe) in Hxi. lia.
Qed.
End boot.

Section theorems.
Context `{X86Paging, X86Addr, NumIter}.

(** C7: from the boot state the page tables get built without a panic; the
    processor then translates every address of dynamic memory as
    [virt_to_phys_dynmem] does, the tables take the first
    [page_table_len] bytes of it, and nothing else is written: every frame
    but that of the top table, the one of the temporary table and those of
    these tables is left alone, in dynamic memory, below it and outside of
    the map, and so are the kernel's half of the top table and with it of the
    address space. *)
Theorem init_dyn_page_maps cr3 tmptable map m0 d :
  boot_ok cr3 tmptable map m0 →
  ∃ d' m, init_dyn_page cr3 map tmptable d m0 = Ok (d', m) ∧
    KernelMemory.data_total_len d' = total_size map ∧
    KernelMemory.page_table_len d' = tables_needed (page_count map) * 4096 ∧
    KernelMemory.page_table_len d' ≤ KernelMemory.data_total_len d' ∧
    (∀ v, DYNMEM_START_VIRT ≤ v < DYNMEM_START_VIRT + total_size map →
      ∃ p, translate cr3 m v = Some p ∧ virt_to_phys_dynmem v map DYNMEM_START_VIRT = Ok p) ∧
    (∀ v f, kernel_path cr3 (tmp_frame tmptable) (page map) (page_count map) m0 v f → translate cr3 m v = Some f) ∧
    (∀ f i, f ≠ cr3 → f ≠ tmp_frame tmptable →
      (∀ j, j < tables_needed (page_count map) → f ≠ page map j) → m f i = m0 f i) ∧
    (∀ i, 256 ≤ i → m cr3 i = m0 cr3 i).
Proof.
  intros HB. destruct (init_dyn_page_run cr3 tmptable map m0 HB d) as (d' & m & Hrun & [Ht Hp Hl _ Htr Ha _ _ Hfr]).
  exists d', m. split_and!; try done; [| |apply Ha].
  - intros v Hv. replace v with (DYNMEM_START_VIRT + (v - DYNMEM_START_VIRT)) by lia. rewrite Htr by lia.
    eexists. split; [done|]. eapply page_offset; [apply HB..|lia].
  - intros v f Hk. apply (kernel_path_agree _ _ _ _ _ _ _ _ Ha) in Hk as (Hv & Hal & _ & p1 & p2 & p3 & Hpath & _).
    rewrite (path_translate cr3 m v p1 p2 p3 f); [by rewrite Hal, N.add_0_r| |done].
    unfold canonical. rewrite (proj2 (N.leb_le _ _) Hv). apply orb_true_r.
Qed.

(** C9: no change of memory outside the top table and the first
    [page_table_len] bytes of dynamic memory changes the translation of an
    address of dynamic memory: the allocator behind the tables cannot
    disturb them. *)
Theorem page_tables_isolated cr3 tmptable map m0 d d' m m' :
  boot_ok cr3 tmptable map m0 → init_dyn_page cr3 map tmptable d m0 = Ok (d', m) →
  (∀ f i, f = cr3 ∨ (∃ v, DYNMEM_START_VIRT ≤ v < DYNMEM_START_VIRT + KernelMemory.page_table_len d' ∧
      v mod 4096 = 0 ∧ translate cr3 m v = Some f) → m' f i = m f i) →
  ∀ v, DYNMEM_START_VIRT ≤ v < DYNMEM_START_VIRT + KernelMemory.data_total_len d' →
    translate cr3 m' v = translate cr3 m v.
Proof.
  intros HB Hrun Hout v Hv. destruct (init_dyn_page_run cr3 tmptable map m0 HB d) as (d1 & m1 & Hrun1 & HD).
  rewrite Hrun in Hrun1. injection Hrun1 as <- <-. apply dm_room in HD as Hroom.
  apply dm_total in HD as Ht. apply dm_tables in HD as Hp. rewrite Ht in Hv, Hroom. rewrite Hp in Hout, Hroom.
  replace v with (DYNMEM_START_VIRT + (v - DYNMEM_START_VIRT)) by lia.
  eapply dm_isolated; [exact HD|lia|]. intros f i Hf. apply Hout.
  destruct Hf as [->|(j & Hj & ->)]; [by left|right]. exists (DYNMEM_START_VIRT + j * 4096).
  split_and!; [lia|lia|unfold DYNMEM_START_VIRT; lia|]. erewrite dm_translate; [|exact HD|lia].
  rewrite N.div_mul by done. by rewrite N.Div0.mod_mul, N.add_0_r.
Qed.
End theorems.

(** ** An example

    Entries as pairs, flags as bits, the tables of the boot code
    ([startup.S]) and twenty pages of dynamic memory. *)
#[export, refine] Instance x86_paging_example : X86Paging := {
  PageTableEntry := N * N;
  PageTableFlags := N;
  PRESENT := 1;
  WRITABLE := 2;
  HUGE_PAGE := 128;
  bitor := N.lor;
  contains a b := N.land a b =? b;
  unused := (0, 0);
  set_addr a fl := if a mod 4096 =? 0 then Ok (a, fl) else Panic Assertion;
  entry_addr := fst;
  entry_flags := snd;
}.
Proof.
  - intros a b. apply N.eqb_eq. apply N.bits_inj. intros n. rewrite N.land_spec, N.lor_spec.
    by destruct (N.testbit a n), (N.testbit b n).
  - done.
  - done.
  - intros a fl -> _. by exists (a, fl).
Defined.

#[export, refine] Instance num_iter_example : NumIter := {
  range_step start stop step := (λ i, start + i * step) <$> range 0 ((stop - start + step - 1) / step);
}.
Proof.
  intros start n step Hs. do 2 f_equal. replace (start + n * step - start) with (n * step) by lia.
  replace (n * step + step - 1) with (n * step + (step - 1)) by lia.
  rewrite N.div_add_l by lia. rewrite (N.div_small (step - 1)) by lia. lia.
Defined.

Definition boot_tables : phys_mem := λ f i,
  if (f =? 0x5f0000) && (i =? 256) then (0x5f1000, 3)
  else if (f =? 0x5f1000) && (i =? 0) then (0x5f2000, 3)
  else if (f =? 0x5f2000) && (i =? 0) then (0x5f3000, 3)
  else if (f =? 0x5f2000) && (i =? 1) then (0x5f4000, 3)
  else if (f =? 0x5f2000) && (i =? 0x78) then (0x5f5000, 3)
  else if (f =? 0x5f2000) && (i =? 0xff) then (0x5f6000, 3)
  else if f =? 0x5f3000 then (0x200000 + i * 4096, 3)
  else if f =? 0x5f4000 then (0x400000 + i * 4096, 3)
  else if f =? 0x5f5000 then (0x600000 + i * 4096, 3)
  else if f =? 0x5f6000 then (i * 4096, 3)
  else (0, 0).

Definition demo_map : list MemoryMapEntry :=
  [mkEntry 0x800000 0x8000 1 0; mkEntry 0x900000 0xc000 1 0].

Lemma demo_regions : regions DYNMEM_START_PHYS demo_map ∧ phys_limit demo_map.
Proof. split; [split_and!; try done; split; done|]. repeat constructor; done. Qed.

Lemma demo_spared f :
  f < DYNMEM_START_PHYS → f ≠ 0x5f0000 → f ≠ 0x7fe000 →
  spared 0x5f0000 0x7fe000 (page demo_map) (page_count demo_map) f.
Proof.
  intros Hf Hc Ht. split_and!; [done|done|]. intros j Hj ->. destruct demo_regions as [Hr Hl].
  destruct (page_facts DYNMEM_START_PHYS demo_map j Hr Hl ltac:(done) Hj) as (_ & _ & _ & ? & _). lia.
Qed.

Definition demo_tmptable : N := 0xffff80000f1fe000.

Lemma demo_tmp_frame : tmp_frame demo_tmptable = 0x7fe000.
Proof. vm_compute. reflexivity. Qed.

(** The walks of the boot tables, checked by evaluation. *)
Definition demo_walk (va p3 f : N) : bool :=
  (KERNEL_START_VIRT <=? va) && (va mod 4096 =? 0) && (table_index 3 va =? 256) && (table_index 2 va =? 0) &&
  bool_decide (boot_tables 0x5f2000 (table_index 1 va) = (p3, 3)) &&
  bool_decide (boot_tables p3 (table_index 0 va) = (f, 3)) &&
  (0x5f2000 <=? p3) && (p3 <=? 0x5ff000).

Lemma demo_link f i a : boot_tables f i = (a, 3) → link boot_tables f i a.
Proof. unfold link. by intros ->. Qed.

Lemma demo_path va p3 f :
  demo_walk va p3 f = true →
  kernel_path 0x5f0000 0x7fe000 (page demo_map) (page_count demo_map) boot_tables va f.
Proof.
  unfold demo_walk. rewrite !andb_true_iff, !bool_decide_eq_true, !N.leb_le, !N.eqb_eq.
  intros (((((((Hv & Ha) & H3) & H2) & H1) & H0) & Hlo) & Hhi).
  split; [exact Hv|]. split; [exact Ha|]. split; [lia|]. exists 0x5f1000, 0x5f2000, p3. split.
  - unfold path. rewrite H3, H2. split_and!; by apply demo_link.
  - split_and!; apply demo_spared; unfold DYNMEM_START_PHYS; lia.
Qed.

Lemma demo_boot : boot_ok 0x5f0000 demo_tmptable demo_map boot_tables.
Proof.
  destruct demo_regions as [Hr Hl]. split; rewrite ?demo_tmp_frame.
  - exact Hr.
  - exact Hl.
  - vm_compute. reflexivity.
  - eexists _, _. split; [reflexivity|]. split; [reflexivity|]. vm_compute. discriminate.
  - vm_compute. reflexivity.
  - split; [vm_compute; discriminate|]. split; [vm_compute; reflexivity|]. discriminate.
  - apply (demo_path _ 0x5f4000). vm_compute. reflexivity.
  - apply (demo_path _ 0x5f5000). vm_compute. reflexivity.
Qed.

Lemma init_dyn_page_maps_witness :
  ∃ d' m, init_dyn_page 0x5f0000 demo_map demo_tmptable KernelMemory.MEMORY_DATA boot_tables = Ok (d', m) ∧
    KernelMemory.page_table_len d' = 12288 ∧ translate 0x5f0000 m 0x208123 = Some 0x900123 ∧
    translate 0x5f0000 m 0xffff800000001000 = Some 0x201000.
Proof.
  destruct (init_dyn_page_maps 0x5f0000 demo_tmptable demo_map boot_tables KernelMemory.MEMORY_DATA demo_boot)
    as (d' & m & Hrun & _ & Hp & _ & Htr & Hk & _).
  exists d', m. split; [exact Hrun|]. split; [rewrite Hp; vm_compute; reflexivity|]. split.
  - destruct (Htr 0x208123) as (p & Hp1 & Hp2); [vm_compute; by split|]. rewrite Hp1. vm_compute in Hp2. congruence.
  - apply Hk. rewrite demo_tmp_frame. apply (demo_path _ 0x5f3000). vm_compute. reflexivity.
Defined.

Lemma page_tables_isolated_witness :
  ∃ d' m, init_dyn_page 0x5f0000 demo_map demo_tmptable KernelMemory.MEMORY_DATA boot_tables = Ok (d', m) ∧
    translate 0x5f0000 (upd m 0x900000 5 (7, 7)) 0x208000 = translate 0x5f0000 m 0x208000.
Proof.
  destruct (init_dyn_page_run 0x5f0000 demo_tmptable demo_map boot_tables demo_boot KernelMemory.MEMORY_DATA)
    as (d' & m & Hrun & HD).
  exists d', m. split; [exact Hrun|]. apply dm_total in HD as Ht. apply dm_tables in HD as Hp.
  eapply (page_tables_isolated 0x5f0000 demo_tmptable demo_map boot_tables _ d' m _ demo_boot Hrun).
  - intros f i Hf. apply table_upd_ne. intros [-> _]. destruct Hf as [Hf|(v & Hv & Hal & Hf)]; [discriminate Hf|].
    rewrite Hp in Hv. change (tables_needed (page_count demo_map) * 4096) with 12288 in Hv.
    change DYNMEM_START_VIRT with 2097152 in Hv.
    replace v with (DYNMEM_START_VIRT + (v - 2097152)) in Hf by (change DYNMEM_START_VIRT with 2097152; lia).
    erewrite dm_translate in Hf; [|exact HD|change (total_size demo_map) with 81920; lia].
    assert (v = 2097152 ∨ v = 2101248 ∨ v = 2105344) as [->|[->| ->]] by lia; vm_compute in Hf; discriminate Hf.
  - rewrite Ht. split; [vm_compute; discriminate|vm_compute; reflexivity].
Defined.

End PageTableSpec.
