(* ===== verification/E820.v ===== *)
(** * The BIOS map in memory: [get_e820_map] of [kernel/src/memory.rs]

    The boot code leaves the number of entries and, eight bytes further, the
    entries as the BIOS wrote them: little-endian, without padding. *)
From S2P Require Import Prelude MemoryMap.
Import MemoryMap.
Local Open Scope N_scope.

Module E820.

Definition MEMORY_MAP_ADDR : N := 0xffff80001fe06000.

(** A little-endian number of [n] bytes. *)
Fixpoint read_le (n : nat) (m : N → N) (a : N) : N :=
  match n with O => 0 | S n => m a + 256 * read_le n m (a + 1) end.

(** [MemoryMapEntry] is [repr(C)]. *)
Definition ENTRY_SIZE : N := 24.
Definition read_entry (m : N → N) (a : N) : MemoryMapEntry :=
  mkEntry (read_le 8 m a) (read_le 8 m (a + 8)) (read_le 4 m (a + 16)) (read_le 4 m (a + 20)).

Definition get_e820_map (m : N → N) : list MemoryMapEntry :=
  let len := read_le 2 m MEMORY_MAP_ADDR in
  (λ i, read_entry m (MEMORY_MAP_ADDR + 8 + ENTRY_SIZE * i)) <$> range 0 len.

(** ** What is written is read *)
Definition le_byte (v k : N) : N := (v / 256 ^ k) mod 256.

Definition entry_byte (e : MemoryMapEntry) (k : N) : N :=
  if k <? 8 then le_byte (base e) k
  else if k <? 16 then le_byte (size e) (k - 8)
  else if k <? 20 then le_byte (mem_type e) (k - 16)
  else le_byte (attrib e) (k - 20).

Record entry_typed (e : MemoryMapEntry) : Prop := {
  et_base : base e < W64; et_size : size e < W64; et_type : mem_type e < W32; et_attrib : attrib e < W32;
}.

(** The bytes of a map in memory. *)
Record in_memory (l : list MemoryMapEntry) (m : N → N) : Prop := {
  im_len k : k < 2 → m (MEMORY_MAP_ADDR + k) = le_byte (vlen l) k;
  im_entry i e k : l !! N.to_nat i = Some e → k < ENTRY_SIZE →
    m (MEMORY_MAP_ADDR + 8 + ENTRY_SIZE * i + k) = entry_byte e k;
}.

Lemma read_le_bytes n v m a :
  v < 256 ^ N.of_nat n → (∀ k, k < N.of_nat n → m (a + k) = le_byte v k) → read_le n m a = v.
Proof.
  revert v a. induction n as [|n IH]; intros v a Hv Hm; cbn [read_le].
  { change (256 ^ N.of_nat 0) with 1 in Hv. lia. }
  rewrite Nat2N.inj_succ, N.pow_succ_r' in Hv. rewrite (IH (v / 256)).
  - pose proof (Hm 0 ltac:(lia)) as H0. unfold le_byte in H0. rewrite N.add_0_r, N.pow_0_r, N.div_1_r in H0. rewrite H0. lia.
  - apply N.Div0.div_lt_upper_bound. lia.
  - intros k Hk. replace (a + 1 + k) with (a + (k + 1)) by lia. rewrite Hm by lia. unfold le_byte.
    by rewrite N.add_1_r, N.pow_succ_r', N.Div0.div_div.
Qed.

Lemma le_byte_read_le n m a k :
  (∀ k, k < N.of_nat n → m (a + k) < 256) → k < N.of_nat n → le_byte (read_le n m a) k = m (a + k).
Proof.
  revert a k. induction n as [|n IH]; intros a k Hm Hk; [lia|]. cbn [read_le]. pose proof (Hm 0 ltac:(lia)) as H0. rewrite N.add_0_r in H0.
  destruct (decide (k = 0)) as [->|Hne].
  - unfold le_byte. rewrite N.pow_0_r, N.div_1_r, N.add_0_r. lia.
  - replace k with (N.succ (k - 1)) at 1 by lia. unfold le_byte. rewrite N.pow_succ_r', <-N.Div0.div_div.
    replace ((m a + 256 * read_le n m (a + 1)) / 256) with (read_le n m (a + 1)) by lia.
    specialize (IH (a + 1) (k - 1)). unfold le_byte in IH. rewrite IH; [f_equal; lia| |lia].
    intros j Hj. replace (a + 1 + j) with (a + (j + 1)) by lia. apply Hm. lia.
Qed.

Lemma le_byte_lt v k : le_byte v k < 256.
Proof. by apply N.mod_lt. Qed.

Lemma entry_byte_lt e k : entry_byte e k < 256.
Proof. unfold entry_byte. destruct (k <? 8), (k <? 16), (k <? 20); apply le_byte_lt. Qed.

Lemma read_entry_bytes e m a :
  entry_typed e → (∀ k, k < ENTRY_SIZE → m (a + k) = entry_byte e k) → read_entry m a = e.
Proof.
  unfold ENTRY_SIZE. intros [Hb Hs Ht Ha] Hm. unfold read_entry. destruct e as [b s t x]. cbn in *. unfold entry_byte in Hm. cbn in Hm.
  assert (∀ (n : nat) v o, v < 256 ^ N.of_nat n → o + N.of_nat n ≤ 24 →
    (∀ k, k < N.of_nat n → m (a + (o + k)) = le_byte v k) → read_le n m (a + o) = v) as Hread.
  { intros n v o Hv Ho Hk. apply read_le_bytes; [done|]. intros k Hkn. rewrite <-N.add_assoc. by apply Hk. }
  f_equal.
  - rewrite <-(N.add_0_r a). apply (Hread 8%nat); [done|lia|]. intros k Hk. rewrite Hm by lia.
    by rewrite N.add_0_l, (proj2 (N.ltb_lt k 8)) by lia.
  - apply (Hread 8%nat); [done|lia|]. intros k Hk. rewrite Hm by lia.
    rewrite (proj2 (N.ltb_ge _ 8)), (proj2 (N.ltb_lt _ 16)) by lia. f_equal. lia.
  - apply (Hread 4%nat); [done|lia|]. intros k Hk. rewrite Hm by lia.
    rewrite (proj2 (N.ltb_ge _ 8)), (proj2 (N.ltb_ge _ 16)), (proj2 (N.ltb_lt _ 20)) by lia. f_equal. lia.
  - apply (Hread 4%nat); [done|lia|]. intros k Hk. rewrite Hm by lia.
    rewrite (proj2 (N.ltb_ge _ 8)), (proj2 (N.ltb_ge _ 16)), (proj2 (N.ltb_ge _ 20)) by lia. f_equal. lia.
Qed.

(** The map that the boot code wrote is the map that the kernel sees. *)
Lemma get_e820_map_run l m :
  vlen l < W16 → Forall entry_typed l → in_memory l m → get_e820_map m = l.
Proof.
  intros Hl Ht [Hlen He]. unfold get_e820_map. rewrite (read_le_bytes 2 (vlen l)) by (done || (intros; by apply Hlen)).
  apply list_eq. intros i. rewrite list_lookup_fmap. destruct (l !! i) as [e|] eqn:Hi.
  - pose proof (lookup_lt_Some _ _ _ Hi) as Hlt. rewrite lookup_range by (unfold vlen; lia). simpl. f_equal.
    apply read_entry_bytes; [by eapply Forall_lookup_1|]. intros k Hk. apply He; [|done].
    by replace (N.to_nat (0 + N.of_nat i)) with i by lia.
  - apply lookup_ge_None in Hi. rewrite lookup_ge_None_2; [done|]. rewrite length_range. unfold vlen. lia.
Qed.

(** Memory with just a map, to run the kernel on examples. *)
Definition map_memory (l : list MemoryMapEntry) (a : N) : N :=
  let o := a - MEMORY_MAP_ADDR in
  if o <? 8 then le_byte (vlen l) o
  else match l !! N.to_nat ((o - 8) / ENTRY_SIZE) with Some e => entry_byte e ((o - 8) mod ENTRY_SIZE) | None => 0 end.

Lemma map_memory_holds l : in_memory l (map_memory l).
Proof.
  split.
  - intros k Hk. unfold map_memory. replace (MEMORY_MAP_ADDR + k - MEMORY_MAP_ADDR) with k by lia.
    by rewrite (proj2 (N.ltb_lt k 8)) by lia.
  - intros i e k Hi Hk. unfold map_memory, ENTRY_SIZE in *.
    replace (MEMORY_MAP_ADDR + 8 + 24 * i + k - MEMORY_MAP_ADDR) with (8 + 24 * i + k) by lia.
    rewrite (proj2 (N.ltb_ge _ 8)) by lia. replace ((8 + 24 * i + k - 8) / 24) with i by lia.
    replace ((8 + 24 * i + k - 8) mod 24) with k by lia. by rewrite Hi.
Qed.

End E820.
