(* ===== verification/Detect.v ===== *)
(** * Real mode: [kernel/src/startup.S]

    The A20 gate, and the loop that asks the BIOS for the memory map, entry by
    entry, and leaves it where [get_e820_map] finds it.  The BIOS is a parameter:
    what it answers to the functions 2401h and E820h is the documented behaviour
    of those calls. *)
From stdpp Require Import strings.
From S2P Require Import Prelude MemoryMap E820.
Import MemoryMap E820.
Local Open Scope N_scope.

Module Detect.

(** ** The code *)
Definition bytes_mem := N → N.

(** A store of [n] bytes, little-endian. *)
Definition store (n v a : N) (m : bytes_mem) : bytes_mem := λ x, if (a <=? x) && (x <? a + n) then le_byte v (x - a) else m x.

Definition MEMORY_MAP : N := 0x6000.
Definition SMAP : N := 0x534d4150.

(** The offset of an operand [%es:o(%di)]; [es] is zero. *)
Definition es_di (di o : N) : N := (di + o) mod W16.

(** The registers and the flag that [int $0x15] returns. *)
Record answer := mkAnswer { carry : bool; out_eax : N; out_ebx : N; out_ecx : N }.

(** The function 2401h opens the gate: it is given the gate, and returns the
    carry flag, [ax] and the gate. *)
Class Bios (B : Type) := {
  int15 : N → N → N → N → N → B → bytes_mem → answer * B * bytes_mem;
  int15_a20 : bool → B → bool * N * bool * B;
}.

(** While the gate is closed, line 20 of the address bus is zero. *)
Definition line (gate : bool) (a : N) : N := if gate then a else N.clearbit a 20.

(** The result is in [ax]. *)
Definition a20_check (gate : bool) (m : bytes_mem) : N * bytes_mem :=
  let di := line gate (0 * 16 + 0x0500) in
  let si := line gate (0xffff * 16 + 0x0510) in
  let dh := m di in
  let dl := m si in
  let m := store 1 0x00 di m in
  let m := store 1 0xff si m in
  let zf := m di =? 0xff in
  let m := store 1 dh di m in
  let m := store 1 dl si m in
  (if zf then 0 else 1, m).

Section detect.
Context `{Bios B}.

(** An answer is ignored: no bytes, or the entry's attribute says so, or it is
    empty. *)
Definition ignored (a : answer) (di : N) (m : bytes_mem) : bool :=
  (out_ecx a mod W16 =? 0) ||
  (negb (out_ecx a mod 256 <=? 20) && negb (N.testbit (m (es_di di 20)) 0)) ||
  (N.lor (read_le 4 m (es_di di 8)) (read_le 4 m (es_di di 12)) =? 0).

(** From the label [0] on; [Panic Explicit] is [panic16]. *)
Fixpoint detect (fuel : nat) (bp ebx di : N) (b : B) (m : bytes_mem) : result bytes_mem :=
  match fuel with
  | O => Panic OutOfFuel
  | S fuel =>
      let m := store 4 1 (es_di di 20) m in
      let '(a, b, m) := int15 0xe820 ebx 24 SMAP di b m in
      if carry a then Panic Explicit
      else if negb (out_eax a =? SMAP) then Panic Explicit
      else
        let '(bp, di) := if ignored a di m then (bp, di) else ((bp + 1) mod W16, (di + 24) mod W16) in
        if negb (out_ebx a =? 0) then detect fuel bp (out_ebx a) di b m
        else Ok (store 2 bp MEMORY_MAP m)
  end.

Definition detect_memory (fuel : nat) (b : B) (m : bytes_mem) : result bytes_mem := detect fuel 0 0 (MEMORY_MAP + 8) b m.

(** The start of [startup], with the comparison of [ax] and zero bits as it is. *)
Definition enable_a20 (gate : bool) (b : B) (m : bytes_mem) : result (bool * B * bytes_mem) :=
  let '(ax, m) := a20_check gate m in
  if negb (N.land ax ax =? 0) then Ok (gate, b, m)
  else
    let '(cf, ax, gate, b) := int15_a20 gate b in
    if cf then Panic Explicit
    else if negb (N.land ax 0 =? 0) then Panic Explicit
    else
      let '(ax, m) := a20_check gate m in
      if negb (N.land ax ax =? 0) then Ok (gate, b, m) else Panic Explicit.

(** [startup] up to the change of mode. *)
Definition real_mode (fuel : nat) (gate : bool) (b : B) (m : bytes_mem) : result (bool * bytes_mem) :=
  '(gate, b, m) ← enable_a20 gate b m;
  m ← detect_memory fuel b m;
  Ok (gate, m).

(** [panic16] prints the message at [si] and stops: the calls of [int $0x10],
    with [ax] and [bx]. *)
Definition asciz (s : string) : list N := (Ascii.N_of_ascii <$> String.list_ascii_of_string s) ++ [0].

Fixpoint panic16 (si : list N) : list (N * N) :=
  match si with
  | [] => []
  | al :: si => if al =? 0 then [] else (0x0e00 + al, 0x07) :: panic16 si
  end.

(** ** What the BIOS answers

    An answer is an entry and the number of its bytes that were stored. *)
Definition stores (e : MemoryMapEntry) (n di : N) (m : bytes_mem) : bytes_mem :=
  λ x, if (di <=? x) && (x <? di + n) then entry_byte e (x - di) else m x.

Definition sizes : list N := [0; 20; 24].

(** With continuation value [ebx] the BIOS goes on to list [rs]. *)
Inductive lists : B → N → list (MemoryMapEntry * N) → Prop :=
  | lists_last b b' ebx e n :
      n ∈ sizes → (∀ di m, int15 0xe820 ebx 24 SMAP di b m = (mkAnswer false SMAP 0 n, b', stores e n di m)) →
      lists b ebx [(e, n)]
  | lists_more b b' ebx ebx' e n rs :
      n ∈ sizes → ebx' ≠ 0 →
      (∀ di m, int15 0xe820 ebx 24 SMAP di b m = (mkAnswer false SMAP ebx' n, b', stores e n di m)) →
      lists b' ebx' rs → lists b ebx ((e, n) :: rs).

(** The entries that are kept, as they are stored: without an attribute of its
    own an entry gets 1. *)
Definition kept (r : MemoryMapEntry * N) : bool :=
  let '(e, n) := r in negb (n =? 0) && ((n <=? 20) || N.testbit (attrib e) 0) && negb (size e =? 0).
Definition stored (r : MemoryMapEntry * N) : MemoryMapEntry :=
  let '(e, n) := r in if n <=? 20 then mkEntry (base e) (size e) (mem_type e) 1 else e.
Definition detected (rs : list (MemoryMapEntry * N)) : list MemoryMapEntry := stored <$> List.filter kept rs.

(** ** What the loop leaves *)
Record so_far (l : list MemoryMapEntry) (bp di : N) (m : bytes_mem) : Prop := {
  sf_bp : bp = vlen l;
  sf_di : di = MEMORY_MAP + 8 + 24 * vlen l;
  sf_entry i e k : l !! N.to_nat i = Some e → k < 24 → m (MEMORY_MAP + 8 + 24 * i + k) = entry_byte e k;
}.

(** The bytes at [di] after a call of the BIOS. *)
Lemma answered_byte e n di m k : di + 24 < W16 → n ∈ sizes → n ≠ 0 → k < 24 →
  stores e n di (store 4 1 (es_di di 20) m) (di + k) = entry_byte (stored (e, n)) k.
Proof.
  intros Hd Hn Hne Hk. unfold sizes in Hn. rewrite !elem_of_cons, elem_of_nil in Hn.
  unfold stores, store, es_di. rewrite (N.mod_small (di + 20)) by lia. rewrite (proj2 (N.leb_le di _)) by lia. cbn [andb].
  replace (di + k - di) with k by lia. destruct Hn as [->|[->|[->|[]]]]; [done| |].
  - cbn [stored]. change (20 <=? 20) with true. cbv iota. destruct (N.ltb_spec (di + k) (di + 20)) as [Hlt|Hge].
    + unfold entry_byte. cbn [base size mem_type attrib]. by rewrite (proj2 (N.ltb_lt k 20)) by lia.
    + rewrite (proj2 (N.leb_le _ _)), (proj2 (N.ltb_lt _ _)) by lia. cbn [andb]. unfold entry_byte. cbn [attrib].
      rewrite (proj2 (N.ltb_ge k 8)), (proj2 (N.ltb_ge k 16)), (proj2 (N.ltb_ge k 20)) by lia. f_equal. lia.
  - rewrite (proj2 (N.ltb_lt _ _)) by lia. done.
Qed.

Lemma store_frame n v x m a : ¬ (x ≤ a < x + n) → store n v x m a = m a.
Proof. intros Ha. unfold store. destruct (N.leb_spec x a), (N.ltb_spec a (x + n)); cbn [andb]; done || lia. Qed.

Lemma answered_frame e n di m a : di + 24 < W16 → n ∈ sizes → ¬ (di ≤ a < di + 24) → stores e n di (store 4 1 (es_di di 20) m) a = m a.
Proof.
  intros Hd Hn Ha. unfold sizes in Hn. rewrite !elem_of_cons, elem_of_nil in Hn. assert (n ≤ 24) by (destruct Hn as [->|[->|[->|[]]]]; done).
  unfold stores, store, es_di. rewrite (N.mod_small (di + 20)) by lia.
  destruct (N.leb_spec di a), (N.ltb_spec a (di + n)), (N.leb_spec (di + 20) a), (N.ltb_spec a (di + 20 + 4)); cbn [andb]; done || lia.
Qed.

Lemma size_words e n di m : di + 24 < W16 → n ∈ sizes → n ≠ 0 → size e < W64 →
  let m' := stores e n di (store 4 1 (es_di di 20) m) in
  N.lor (read_le 4 m' (es_di di 8)) (read_le 4 m' (es_di di 12)) = 0 ↔ size e = 0.
Proof.
  intros Hd Hn Hne Hs m'. unfold es_di at 1 2. rewrite !N.mod_small by lia.
  assert (size (stored (e, n)) = size e) as Hse by (unfold stored; by destruct (n <=? 20)).
  assert (∀ k, k < 8 → m' (di + (8 + k)) = le_byte (size e) k) as Hb.
  { intros k Hk. unfold m'. rewrite answered_byte by (done || lia). unfold entry_byte.
    rewrite (proj2 (N.ltb_ge _ 8)), (proj2 (N.ltb_lt _ 16)), Hse by lia. f_equal. lia. }
  rewrite (read_le_bytes 4 (size e mod 4294967296)), (read_le_bytes 4 (size e / 4294967296)).
  - rewrite N.lor_eq_0_iff. lia.
  - change (256 ^ N.of_nat 4) with 4294967296. lia.
  - intros k Hk. replace (di + 12 + k) with (di + (8 + (4 + k))) by lia. rewrite Hb by lia. unfold le_byte.
    rewrite N.pow_add_r, <-N.Div0.div_div. done.
  - change (256 ^ N.of_nat 4) with 4294967296. lia.
  - intros k Hk. replace (di + 8 + k) with (di + (8 + k)) by lia. rewrite Hb by lia. unfold le_byte.
    assert (k = 0 ∨ k = 1 ∨ k = 2 ∨ k = 3) as [->|[->|[->| ->]]] by lia.
    + change (256 ^ 0) with 1. lia.
    + change (256 ^ 1) with 256. lia.
    + change (256 ^ 2) with 65536. lia.
    + change (256 ^ 3) with 16777216. lia.
Qed.

Lemma ignored_kept e n ebx di m : di + 24 < W16 → n ∈ sizes → size e < W64 →
  ignored (mkAnswer false SMAP ebx n) di (stores e n di (store 4 1 (es_di di 20) m)) = negb (kept (e, n)).
Proof.
  intros Hd Hn Hs. unfold ignored, kept. cbn [out_ecx]. pose proof (size_words e n di m Hd Hn) as Hz.
  pose proof (answered_byte e n di m 20 Hd Hn) as Ht. set (m' := stores _ _ _ _) in *.
  assert (es_di di 20 = di + 20) as -> by (apply N.mod_small; lia). clearbody m'.
  unfold sizes in Hn. rewrite !elem_of_cons, elem_of_nil in Hn. destruct Hn as [->|[->|[->|[]]]]; [done| |].
  - cbn [orb andb negb]. change (20 mod W16 =? 0) with false. change (20 mod 256 <=? 20) with true. change (20 <=? 20) with true.
    change (20 =? 0) with false. cbn [orb andb negb]. rewrite negb_involutive.
    apply eq_true_iff_eq. rewrite !N.eqb_eq. by apply Hz.
  - change (24 mod W16 =? 0) with false. change (24 mod 256 <=? 20) with false. change (24 <=? 20) with false.
    change (24 =? 0) with false. cbn [orb andb negb]. rewrite Ht by done. cbn [stored]. change (24 <=? 20) with false. cbv iota.
    rewrite negb_andb, negb_involutive. f_equal.
    + f_equal. unfold entry_byte, le_byte. cbn [N.ltb N.compare Pos.compare Pos.compare_cont N.sub Pos.sub_mask].
      rewrite !N.testbit_eqb. change (256 ^ (20 - 20)) with 1. change (2 ^ 0) with 1. f_equal. lia.
    + apply eq_true_iff_eq. rewrite !N.eqb_eq. by apply Hz.
Qed.

(** One round of the loop. *)
Lemma so_far_answer l bp di m e n :
  so_far l bp di m → di + 24 < W16 → n ∈ sizes →
  let m' := stores e n di (store 4 1 (es_di di 20) m) in
  so_far l bp di m' ∧ (kept (e, n) = true → so_far (l ++ [stored (e, n)]) ((bp + 1) mod W16) ((di + 24) mod W16) m').
Proof.
  intros [Hbp Hdi Hm] Hd Hn m'. assert (∀ x, x < di → m' x = m x) as Hold by (intros x Hx; apply answered_frame; done || lia).
  assert (∀ i e k, l !! N.to_nat i = Some e → k < 24 → m' (MEMORY_MAP + 8 + 24 * i + k) = entry_byte e k) as Hl.
  { intros i e' k Hi Hk. apply lookup_lt_Some in Hi as Hlt. rewrite Hold by (unfold vlen in Hdi; lia). by apply Hm. }
  split; [by split|]. intros Hk. assert (n ≠ 0) as Hne by (by intros ->). unfold MEMORY_MAP in *.
  assert (vlen (l ++ [stored (e, n)]) = vlen l + 1) as Hv by by rewrite vlen_app.
  split; [rewrite Hv, N.mod_small; lia|rewrite Hv, N.mod_small; unfold MEMORY_MAP; lia|].
  intros i e' k Hi Hk24. destruct (decide (N.to_nat i < length l)%nat) as [Hlt|Hge].
  - rewrite lookup_app_l in Hi by done. by apply Hl.
  - apply lookup_lt_Some in Hi as Hil. rewrite length_app in Hil. cbn [length] in Hil.
    rewrite lookup_app_r in Hi by lia. replace (N.to_nat i - length l)%nat with O in Hi by lia. injection Hi as <-.
    unfold MEMORY_MAP. replace (0x6000 + 8 + 24 * i + k) with (di + k) by (unfold vlen in *; lia). by apply answered_byte.
Qed.

Definition holds (l : list MemoryMapEntry) (m : bytes_mem) : Prop :=
  (∀ k, k < 2 → m (MEMORY_MAP + k) = le_byte (vlen l) k) ∧
  ∀ i e k, l !! N.to_nat i = Some e → k < 24 → m (MEMORY_MAP + 8 + 24 * i + k) = entry_byte e k.

Lemma so_far_done l bp di m : so_far l bp di m → holds l (store 2 bp MEMORY_MAP m).
Proof.
  intros [-> _ Hm]. unfold store. split.
  - intros k Hk. rewrite (proj2 (N.leb_le _ _)), (proj2 (N.ltb_lt _ _)) by lia. cbn [andb]. f_equal. lia.
  - intros i e k Hi Hk. rewrite (proj2 (N.ltb_ge _ (MEMORY_MAP + 2))) by lia. rewrite andb_false_r. by apply Hm.
Qed.

(** The bytes that the loop may write. *)
Definition elsewhere (n : N) (m m' : bytes_mem) : Prop := ∀ a, ¬ (MEMORY_MAP ≤ a < MEMORY_MAP + 8 + 24 * n + 24) → m' a = m a.

Lemma detect_run rs b ebx l bp di m fuel :
  lists b ebx rs → Forall (λ r, size r.1 < W64) rs → so_far l bp di m → (length rs ≤ fuel)%nat →
  MEMORY_MAP + 8 + 24 * (vlen l + vlen (detected rs)) + 24 < W16 →
  ∃ m', detect fuel bp ebx di b m = Ok m' ∧ holds (l ++ detected rs) m' ∧ elsewhere (vlen l + vlen (detected rs)) m m'.
Proof.
  intros HL. revert l bp di m fuel. assert (∀ r rs, detected (r :: rs) = (if kept r then [stored r] else []) ++ detected rs) as Hd
    by (intros r rs'; unfold detected; cbn [List.filter]; by destruct (kept r)).
  induction HL as [b b' ebx e n Hn Hint|b b' ebx ebx' e n rs Hn Hne Hint HL IH]; intros l bp di m fuel Ht HS Hf Hroom;
    inversion_clear Ht as [|? ? Hs Ht']; cbn [length fst] in *; (destruct fuel as [|fuel]; [lia|]); rewrite Hd, app_assoc; rewrite Hd, vlen_app in Hroom;
    rewrite vlen_app; cbn [detect]; rewrite Hint; cbn [carry out_eax]; rewrite N.eqb_refl; cbn [negb];
    pose proof (sf_di _ _ _ _ HS) as Hdi; rewrite ignored_kept by (done || lia);
    destruct (so_far_answer l bp di m e n HS ltac:(lia) Hn) as [H1 H2]; pose proof (λ a, answered_frame e n di m a ltac:(lia) Hn) as Hfr;
    set (m1 := stores _ _ _ _) in *; clearbody m1; destruct (kept (e, n)); cbn [negb out_ebx].
  - eexists. split; [done|]. rewrite app_nil_r. split; [eapply so_far_done; by apply H2|]. unfold elsewhere.
    intros a Ha. rewrite store_frame by lia. apply Hfr. lia.
  - eexists. split; [done|]. rewrite !app_nil_r. split; [by eapply so_far_done|]. unfold elsewhere.
    intros a Ha. rewrite store_frame by lia. apply Hfr. lia.
  - rewrite (proj2 (N.eqb_neq _ _) Hne). cbn [negb].
    destruct (IH (l ++ [stored (e, n)]) ((bp + 1) mod W16) ((di + 24) mod W16) m1 fuel) as (m' & Hm & Hh & He); [done|by apply H2|lia|rewrite vlen_app; lia|].
    exists m'. split; [exact Hm|]. split; [exact Hh|]. unfold elsewhere in *. intros a Ha. rewrite vlen_app in He.
    rewrite He by lia. apply Hfr. lia.
  - rewrite (proj2 (N.eqb_neq _ _) Hne). cbn [negb]. rewrite app_nil_r. change (vlen []) with 0 in *.
    destruct (IH l bp di m1 fuel) as (m' & Hm & Hh & He); [done|done|lia|lia|].
    exists m'. split; [exact Hm|]. split; [exact Hh|]. unfold elsewhere in *. intros a Ha. rewrite He by lia. apply Hfr. lia.
Qed.

(** The memory that the kernel finds at [MEMORY_MAP_ADDR]. *)
Definition mapped_low (m : bytes_mem) : bytes_mem := λ a, m (a - MEMORY_MAP_ADDR + MEMORY_MAP).

Lemma detect_memory_run rs b m fuel :
  lists b 0 rs → Forall (λ r, size r.1 < W64) rs → (length rs ≤ fuel)%nat → MEMORY_MAP + 8 + 24 * vlen (detected rs) + 24 < W16 →
  ∃ m', detect_memory fuel b m = Ok m' ∧ in_memory (detected rs) (mapped_low m') ∧ elsewhere (vlen (detected rs)) m m'.
Proof.
  intros HL Ht Hf Hroom. destruct (detect_run rs b 0 [] 0 (MEMORY_MAP + 8) m fuel HL Ht) as (m' & Hm & [Hc He] & Ho); [by split|done|done|].
  exists m'. split; [done|]. split; [|exact Ho]. unfold mapped_low, ENTRY_SIZE. split.
  - intros k Hk. replace (MEMORY_MAP_ADDR + k - MEMORY_MAP_ADDR + MEMORY_MAP) with (MEMORY_MAP + k) by lia. by apply Hc.
  - intros i e k Hi Hk. unfold ENTRY_SIZE in Hk |- *.
    replace (MEMORY_MAP_ADDR + 8 + 24 * i + k - MEMORY_MAP_ADDR + MEMORY_MAP) with (MEMORY_MAP + 8 + 24 * i + k) by lia. by apply He.
Qed.

(** ** The A20 gate *)
Definition bytes (m : bytes_mem) : Prop := ∀ a, m a < 256.

Lemma a20_check_run gate m : bytes m →
  ∃ m', a20_check gate m = (if gate then 1 else 0, m') ∧ ∀ a, m' a = m a.
Proof.
  intros Hm. unfold a20_check. eexists. split; [f_equal; by destruct gate|]. intros a.
  set (di := line gate (0 * 16 + 0x500)). set (si := line gate (0xffff * 16 + 0x510)).
  assert (∀ v x m, store 1 v x m a = if a =? x then v mod 256 else m a) as Hs.
  { intros v x f. unfold store. destruct (N.eqb_spec a x) as [->|Hne].
    - rewrite N.leb_refl, (proj2 (N.ltb_lt _ _)), N.sub_diag by lia. unfold le_byte. change (256 ^ 0) with 1. cbn [andb]. by rewrite N.div_1_r.
    - destruct (N.leb_spec x a), (N.ltb_spec a (x + 1)); cbn [andb]; done || lia. }
  rewrite !Hs. destruct (N.eqb_spec a si) as [->|]; [by apply N.mod_small|]. destruct (N.eqb_spec a di) as [->|]; [by apply N.mod_small|done].
Qed.

(** The BIOS finds the gate open, or opens it. *)
Definition opens (gate : bool) (b b' : B) : Prop := if gate then b' = b else ∃ ax, int15_a20 false b = (false, ax, true, b').

Lemma enable_a20_run gate b b' m : bytes m → opens gate b b' → ∃ m', enable_a20 gate b m = Ok (true, b', m') ∧ ∀ a, m' a = m a.
Proof.
  intros Hm Ho. unfold enable_a20. destruct (a20_check_run gate m Hm) as (m1 & -> & H1). destruct gate; cbn [opens] in Ho.
  - rewrite Ho. by exists m1.
  - change (negb (N.land 0 0 =? 0)) with false. cbv iota. destruct Ho as (ax & ->). rewrite N.land_0_r. change (negb (0 =? 0)) with false. cbv iota.
    destruct (a20_check_run true m1) as (m2 & -> & H2); [intros a; by rewrite H1|]. exists m2. split; [done|]. intros a. by rewrite H2, H1.
Qed.

(** Whatever the BIOS does, the code goes on only with the gate open. *)
Lemma enable_a20_open gate b m gate' b' m' : bytes m → enable_a20 gate b m = Ok (gate', b', m') → gate' = true ∧ ∀ a, m' a = m a.
Proof.
  intros Hm. unfold enable_a20. destruct (a20_check_run gate m Hm) as (m1 & -> & H1). destruct gate.
  - intros [= <- <- <-]. done.
  - change (negb (N.land 0 0 =? 0)) with false. cbv iota. destruct (int15_a20 false b) as [[[[] ax] g] b1]; [done|].
    rewrite N.land_0_r. change (negb (0 =? 0)) with false. cbv iota. destruct (a20_check_run g m1) as (m2 & -> & H2); [intros a; by rewrite H1|].
    destruct g; [|done]. intros [= <- <- <-]. split; [done|]. intros a. by rewrite H2, H1.
Qed.

Lemma real_mode_run gate rs b b' m fuel :
  bytes m → opens gate b b' → lists b' 0 rs → Forall (λ r, size r.1 < W64) rs → (length rs ≤ fuel)%nat →
  MEMORY_MAP + 8 + 24 * vlen (detected rs) + 24 < W16 →
  ∃ m', real_mode fuel gate b m = Ok (true, m') ∧ in_memory (detected rs) (mapped_low m') ∧ elsewhere (vlen (detected rs)) m m'.
Proof.
  intros Hm Ho HL Ht Hf Hroom. unfold real_mode. destruct (enable_a20_run gate b b' m Hm Ho) as (m1 & -> & H1). mred.
  destruct (detect_memory_run rs b' m1 fuel HL Ht Hf Hroom) as (m2 & -> & Hi & He). exists m2. split; [done|]. split; [done|].
  intros a Ha. by rewrite He, H1.
Qed.

Lemma real_mode_open fuel gate b m gate' m' : bytes m → real_mode fuel gate b m = Ok (gate', m') → gate' = true.
Proof.
  intros Hm. unfold real_mode. destruct (enable_a20 gate b m) as [[[g b1] m1]|] eqn:Ha; [|done]. cbn [result_bind mbind].
  destruct (enable_a20_open _ _ _ _ _ _ Hm Ha) as [-> _]. mred. destruct (detect_memory fuel b1 m1); [|done]. by intros [= <- <-].
Qed.

Lemma detected_typed rs : Forall (λ r, entry_typed r.1) rs → Forall entry_typed (detected rs).
Proof.
  unfold detected. induction 1 as [|[e n] rs He Hrs IH]; [constructor|]. cbn [List.filter]. destruct (kept (e, n)); [|done].
  cbn [fmap list_fmap]. constructor; [|done]. destruct He. unfold stored. destruct (n <=? 20); by split.
Qed.
End detect.

(** The map is found in every memory that agrees on its bytes. *)
Lemma in_memory_agree l f g :
  (∀ a, MEMORY_MAP_ADDR ≤ a < MEMORY_MAP_ADDR + 8 + ENTRY_SIZE * vlen l → g a = f a) → in_memory l f → in_memory l g.
Proof.
  unfold ENTRY_SIZE. intros Heq [Hl He]. split.
  - intros k Hk. rewrite Heq by lia. by apply Hl.
  - intros i e k Hi Hk. unfold ENTRY_SIZE in *. rewrite Heq; [by apply He|]. apply lookup_lt_Some in Hi. unfold vlen. lia.
Qed.

(** ** An example: a BIOS with a list *)
#[export] Instance list_bios : Bios (list (MemoryMapEntry * N)) := {
  int15 _ _ _ _ di b m :=
    match b with
    | [] => (mkAnswer true 0 0 0, [], m)
    | (e, n) :: rs => (mkAnswer false SMAP (match rs with [] => 0 | _ => 1 end) n, rs, stores e n di m)
    end;
  int15_a20 _ b := (false, 0, true, b);
}.

Lemma list_bios_lists r rs ebx : Forall (λ r, r.2 ∈ sizes) (r :: rs) → lists (r :: rs) ebx (r :: rs).
Proof.
  revert r ebx. induction rs as [|r' rs IH]; intros [e n] ebx Hs; inversion_clear Hs as [|? ? Hn Hrs].
  - by eapply lists_last.
  - eapply (lists_more _ _ _ 1); [done|done|done|by apply IH].
Qed.

End Detect.
