(* ===== verification/Bootloader.v ===== *)
(** * The boot sector: [bootloader/src/boot.S]

    The boot sector reads the stage, [startup.S] and the kernel, from disk to
    0x8000 and jumps there: in one go where the BIOS knows linear block addresses,
    and else sector by sector, by cylinder, head and sector.  The disk is a
    parameter: what the functions of [int $0x13] answer is their documented
    behaviour. *)
From stdpp Require Import strings.
From S2P Require Import Prelude E820 Detect.
Import Detect.
Local Open Scope N_scope.

Module Bootloader.

(** ** The code *)
Definition stage_start : N := 0x8000.
Definition STACK : N := 0x7c00.

Definition chs_sectors : N := 16.
Definition chs_heads : N := 1.
Definition chs_cylinders : N := 0.
Definition stage_lba : N := 33.

(** The functions of [int $0x13] for a drive, by [ah]: 41h (carry, [bx] and [cl]),
    42h with the packet at its address, 08h (carry, [ch], [cl] and [dh]), 02h with
    [ch], [cl], [dh] and the address of the buffer, and 00h. *)
Class Disk (D : Type) := {
  int13_check : N → D → bool * N * N * D;
  int13_lba : N → N → D → bytes_mem → bool * D * bytes_mem;
  int13_params : N → D → bool * N * N * N * D;
  int13_read : N → N → N → N → N → D → bytes_mem → bool * D * bytes_mem;
  int13_reset : N → D → D;
}.

(** The two words on the stack: [-2(%bp)], [-3(%bp)] and [-4(%bp)] hold the last
    cylinder, the last head, and the sectors of a track with the upper bits of the
    last cylinder. *)
Record geometry := mkGeometry { max_cylinder : N; max_head : N; max_sector : N }.

(** [push] of a word and of a double word. *)
Definition push (n v : N) (st : N * bytes_mem) : N * bytes_mem :=
  let '(sp, m) := st in
  let sp := (sp + W16 - n) mod W16 in
  (sp, store n v sp m).

(** A word is positive. *)
Definition positive (x : N) : bool := (0 <? x) && (x <? 0x8000).

Section code.
Context `{Disk D} (stage_sectors drive : N).

(** The label [0] after the check for linear addresses: [dx] is not used, and the
    counter [si] is overwritten.  [Panic Explicit] is [panic]. *)
Fixpoint lba_loop (fuel : nat) (sp : N) (d : D) (m : bytes_mem) : result (D * bytes_mem) :=
  match fuel with
  | O => Panic OutOfFuel
  | S fuel =>
      let '(sp, m) := push 2 16 (push 2 stage_sectors (push 2 stage_start (push 2 0 (push 4 stage_lba (push 4 0 (sp, m)))))) in
      let si := sp in
      let '(cf, d, m) := int13_lba drive si d m in
      if cf then Panic Explicit
      else if positive si then lba_loop fuel sp d m else Ok (d, m)
  end.

(** [nolba] and [floppy] *)
Definition drive_geometry (d : D) : result (geometry * D) :=
  let '(cf, ch, cl, dh, d) := int13_params drive d in
  if cf then
    if negb (N.land drive 0xfe =? 0) then Panic Explicit else Ok (mkGeometry 79 0x01 0x12, d)
  else Ok (mkGeometry ch dh cl, d).

(** The label [1]: [si] tries. *)
Fixpoint read_try (si : nat) (ch cl dh es : N) (d : D) (m : bytes_mem) : result (D * bytes_mem) :=
  match si with
  | O => Panic Explicit
  | S si =>
      let '(cf, d, m) := int13_read ch cl dh drive (es * 16 + stage_start) d m in
      if negb cf then Ok (d, m)
      else match si with O => Panic Explicit | _ => read_try si ch cl dh es (int13_reset drive d) m end
  end.

(** From the label [2] to [4]: the next sector. *)
Definition advance (g : geometry) (ch cl dh : N) : result (N * N * N) :=
  let cl := (cl + 1) mod 256 in
  let si := max_sector g in
  if N.land cl 0x3f <=? N.land (max_sector g) 0x3f then Ok (ch, cl, dh)
  else
    let cl := N.land cl 0xc0 in
    let cx := (256 * ch + cl + 1) mod W16 in
    let '(ch, cl) := (cx / 256, cx mod 256) in
    let dh := (dh + 1) mod 256 in
    if dh <=? max_head g then Ok (ch, cl, dh)
    else
      let dh := 0 in
      let cl := if ch + 1 <? 256 then cl else (cl + 0x40) mod 256 in
      let ch := (ch + 1) mod 256 in
      let ax := N.shiftl si 2 mod W16 in
      let si := ax / 256 * 256 + max_cylinder g in
      let ax := N.shiftr cl 6 * 256 + ch in
      if si <? ax then Panic Explicit else Ok (ch, cl, dh).

(** The label [0]; [di] is at least one. *)
Fixpoint chs_loop (g : geometry) (di : nat) (ch cl dh es : N) (d : D) (m : bytes_mem) : result (D * bytes_mem) :=
  match di with
  | O => Panic OutOfFuel
  | S di =>
      '(d, m) ← read_try 5 ch cl dh es d m;
      let es := (es + 0x20) mod W16 in
      '(ch, cl, dh) ← advance g ch cl dh;
      match di with O => Ok (d, m) | _ => chs_loop g di ch cl dh es d m end
  end.

(** From [start] to the jump to the stage; a counter that starts at zero wraps. *)
Definition boot_sector (fuel : nat) (d : D) (m : bytes_mem) : result (D * bytes_mem) :=
  let '(cf, bx, cl, d) := int13_check drive d in
  if cf || negb (bx =? 0xaa55) || negb (N.testbit cl 0) then
    '(g, d) ← drive_geometry d;
    chs_loop g (N.to_nat ((stage_sectors + (W16 - 1)) mod W16 + 1)) chs_cylinders chs_sectors chs_heads 0 d m
  else lba_loop fuel STACK d m.

(** [panic] prints this and stops. *)
Definition boot_panic : list (N * N) := panic16 (asciz "boot panic").

(** ** What the disk does *)

(** A diskette of 1.44 MB: 80 cylinders, two heads, 18 sectors. *)
Definition diskette : geometry := mkGeometry 79 1 18.
Definition cylinder_of (lba : N) : N := lba / 36.
Definition head_of (lba : N) : N := lba / 18 mod 2.
Definition sector_of (lba : N) : N := lba mod 18 + 1.

(** A diskette with these bytes in a drive without linear addresses: a read may
    fail up to four times before it succeeds, and a failed read leaves anything in
    the buffer only.  [failing] holds of the number of reads that will fail. *)
Record holds_disk (disk : N → N) (failing : nat → D → Prop) : Prop := {
  hd_few k d : failing k d → (k < 5)%nat;
  hd_check k d : failing k d → ∃ bx cl d' k', int13_check drive d = (true, bx, cl, d') ∧ failing k' d';
  hd_params k d : failing k d →
    ∃ cf ch cl dh d' k', int13_params drive d = (cf, ch, cl, dh, d') ∧ failing k' d' ∧
      if cf then drive < 2 else ch = 79 ∧ cl = 18 ∧ dh = 1;
  hd_read d lba buffer m : failing 0%nat d → lba < 2880 →
    ∃ d' m' k', int13_read (cylinder_of lba) (sector_of lba) (head_of lba) drive buffer d m = (false, d', m') ∧ failing k' d' ∧
      ∀ x, m' x = if (buffer <=? x) && (x <? buffer + 512) then disk (512 * lba + (x - buffer)) else m x;
  hd_fail k d lba buffer m : failing (S k) d → lba < 2880 →
    ∃ d' m', int13_read (cylinder_of lba) (sector_of lba) (head_of lba) drive buffer d m = (true, d', m') ∧
      failing k (int13_reset drive d') ∧ ∀ x, ¬ (buffer ≤ x < buffer + 512) → m' x = m x;
}.

(** ** The sectors in their order *)
Lemma land_3f x : N.land x 0x3f = x mod 64.
Proof. change 0x3f with (N.ones 6). apply N.land_ones. Qed.

Lemma land_c0 x : x < 256 → N.land x 0xc0 = x / 64 * 64.
Proof.
  intros Hx. assert (forallb (λ x, N.land x 0xc0 =? x / 64 * 64) (range 0 256) = true) as Hall by (vm_compute; reflexivity).
  rewrite forallb_forall in Hall. apply N.eqb_eq, Hall, list_elem_of_In, elem_of_range. lia.
Qed.

Lemma advance_run lba : lba + 1 < 2880 →
  advance diskette (cylinder_of lba) (sector_of lba) (head_of lba) = Ok (cylinder_of (lba + 1), sector_of (lba + 1), head_of (lba + 1)).
Proof.
  intros Hl. unfold advance. cbn [max_sector max_head max_cylinder diskette]. rewrite !land_3f. change (18 mod 64) with 18.
  assert (sector_of lba ≤ 18) as Hs by (unfold sector_of; lia). rewrite (N.mod_small (sector_of lba + 1) 256), (N.mod_small _ 64) by lia.
  destruct (N.leb_spec (sector_of lba + 1) 18) as [Hle|Hgt].
  - unfold sector_of, cylinder_of, head_of in *. do 3 f_equal; lia.
  - rewrite land_c0 by lia. replace ((sector_of lba + 1) / 64 * 64) with 0 by lia.
    assert (sector_of lba = 18) as Hs18 by lia. unfold sector_of in Hs18. assert (cylinder_of lba < 80) by (unfold cylinder_of; lia).
    rewrite (N.mod_small (256 * _ + 0 + 1)) by lia. replace ((256 * cylinder_of lba + 0 + 1) / 256) with (cylinder_of lba) by lia.
    replace ((256 * cylinder_of lba + 0 + 1) mod 256) with 1 by lia.
    assert (head_of lba < 2) by (unfold head_of; lia). rewrite (N.mod_small (head_of lba + 1)) by lia.
    destruct (N.leb_spec (head_of lba + 1) 1) as [Hh|Hh].
    + unfold sector_of, cylinder_of, head_of in *. do 3 f_equal; lia.
    + assert (cylinder_of lba < 79) by (unfold cylinder_of, head_of in *; lia). rewrite (proj2 (N.ltb_lt _ 256)), (N.mod_small (cylinder_of lba + 1)) by lia.
      change (N.shiftr 1 6 * 256) with 0. change (N.shiftl 18 2 mod W16 / 256 * 256 + 79) with 79. rewrite (proj2 (N.ltb_ge 79 _)) by lia.
      unfold sector_of, cylinder_of, head_of in *. do 3 f_equal; lia.
Qed.

Lemma stage_chs : cylinder_of stage_lba = chs_cylinders ∧ sector_of stage_lba = chs_sectors ∧ head_of stage_lba = chs_heads.
Proof. done. Qed.

Section reads.
Context (disk : N → N) (failing : nat → D → Prop) (HD : holds_disk disk failing).

Lemma read_try_run si k lba es d m : failing k d → (k < si)%nat → lba < 2880 → let buffer := es * 16 + stage_start in
  ∃ d' m' k', read_try si (cylinder_of lba) (sector_of lba) (head_of lba) es d m = Ok (d', m') ∧ failing k' d' ∧
    ∀ x, m' x = if (buffer <=? x) && (x <? buffer + 512) then disk (512 * lba + (x - buffer)) else m x.
Proof.
  intros Hk Hsi Hl buffer. revert k d m Hk Hsi. induction si as [|si IH]; intros k d m Hk Hsi; [lia|]. cbn [read_try]. fold buffer. destruct k as [|k].
  - destruct (hd_read _ _ HD d lba buffer m Hk Hl) as (d' & m' & k' & -> & Hk' & Hm). cbn [negb]. by exists d', m', k'.
  - destruct (hd_fail _ _ HD k d lba buffer m Hk Hl) as (d' & m' & -> & Hk' & Hm). cbn [negb]. destruct si as [|si]; [lia|].
    destruct (IH k (int13_reset drive d') m' Hk' ltac:(lia)) as (d2 & m2 & k2 & -> & Hk2 & Hm2). exists d2, m2, k2. split; [done|]. split; [done|].
    intros x. rewrite Hm2. destruct (N.leb_spec buffer x), (N.ltb_spec x (buffer + 512)); cbn [andb]; try done; apply Hm; lia.
Qed.

Lemma chs_loop_run n lba i d m k : failing k d → lba + N.of_nat n < 2880 → i + N.of_nat n ≤ 1216 → (0 < n)%nat →
  ∃ d' m' k', chs_loop diskette n (cylinder_of lba) (sector_of lba) (head_of lba) (i * 0x20) d m = Ok (d', m') ∧ failing k' d' ∧
    ∀ x, m' x = if (stage_start + 512 * i <=? x) && (x <? stage_start + 512 * (i + N.of_nat n))
      then disk (512 * lba + (x - (stage_start + 512 * i))) else m x.
Proof.
  revert lba i d m k. induction n as [|n IH]; intros lba i d m k Hk Hl Hi Hn; [lia|]. cbn [chs_loop]. unfold stage_start in *.
  destruct (read_try_run 5 k lba (i * 0x20) d m Hk (hd_few _ _ HD _ _ Hk) ltac:(lia)) as (d1 & m1 & k1 & -> & Hk1 & Hm1). unfold stage_start in Hm1. mred.
  rewrite advance_run by lia. mred. replace (i * 0x20 * 16 + 0x8000) with (0x8000 + 512 * i) in Hm1 by lia. destruct n as [|n].
  - exists d1, m1, k1. split; [done|]. split; [done|]. intros x. rewrite Hm1.
    by replace (0x8000 + 512 * (i + N.of_nat 1)) with (0x8000 + 512 * i + 512) by lia.
  - rewrite N.mod_small by lia. replace (i * 0x20 + 0x20) with ((i + 1) * 0x20) by lia.
    destruct (IH (lba + 1) (i + 1) d1 m1 k1 Hk1) as (d2 & m2 & k2 & -> & Hk2 & Hm2); [lia..|]. exists d2, m2, k2. split; [done|]. split; [done|].
    intros x. rewrite Hm2, Hm1. destruct (N.leb_spec (0x8000 + 512 * (i + 1)) x), (N.ltb_spec x (0x8000 + 512 * (i + 1 + N.of_nat (S n)))),
      (N.leb_spec (0x8000 + 512 * i) x), (N.ltb_spec x (0x8000 + 512 * i + 512)), (N.ltb_spec x (0x8000 + 512 * (i + N.of_nat (S (S n)))));
      cbn [andb]; try lia; try done; f_equal; lia.
Qed.

(** The stage is in its place, and nothing else has changed. *)
Definition stage_loaded (m m' : bytes_mem) : Prop :=
  ∀ x, m' x = if (stage_start <=? x) && (x <? stage_start + 512 * stage_sectors) then disk (512 * stage_lba + (x - stage_start)) else m x.

Lemma boot_sector_run fuel k d m : failing k d → 0 < stage_sectors ≤ 1216 →
  ∃ d' m', boot_sector fuel d m = Ok (d', m') ∧ stage_loaded m m'.
Proof.
  intros Hk Hn. unfold boot_sector, drive_geometry. destruct (hd_check _ _ HD k d Hk) as (bx & cl & d1 & k1 & -> & Hk1). cbn [orb].
  destruct (hd_params _ _ HD k1 d1 Hk1) as (cf & ch & cl' & dh & d2 & k2 & -> & Hk2 & Hg).
  replace ((stage_sectors + (W16 - 1)) mod W16 + 1) with stage_sectors by lia.
  destruct (chs_loop_run (N.to_nat stage_sectors) stage_lba 0 d2 m k2 Hk2) as (d3 & m3 & k3 & Hrun & _ & Hm); [unfold stage_lba; lia|lia..|].
  destruct stage_chs as (E1 & E2 & E3). rewrite E1, E2, E3, N.mul_0_l in Hrun.
  assert (drive < 2 → negb (N.land drive 0xfe =? 0) = false) as Hdr by (intros Hd; assert (drive = 0 ∨ drive = 1) as [-> | ->] by lia; done).
  exists d3, m3. split.
  - destruct cf; [rewrite Hdr by done; mred; exact Hrun|]. destruct Hg as (-> & -> & ->). mred. exact Hrun.
  - intros x. rewrite Hm, N2Nat.id, N.mul_0_r, N.add_0_r, N.add_0_l. done.
Qed.
End reads.

(** ** What goes wrong *)

(** Drives with linear addresses: a read succeeds, and writes from the stage's
    place on. *)
Definition linear : Prop :=
  ∀ a d m, ∃ d' m', int13_lba drive a d m = (false, d', m') ∧ ∀ x, x < stage_start → m' x = m x.

(** The vector of [int $0x13]. *)
Definition vector_zero (m : bytes_mem) : Prop := ∀ a, 0x4c ≤ a < 0x50 → m a = 0.

Lemma push_small n v sp m : n ≤ sp < W16 → push n v (sp, m) = (sp - n, store n v (sp - n) m).
Proof. intros Hs. unfold push. by replace ((sp + W16 - n) mod W16) with (sp - n) by lia. Qed.

(** [si] is the stack pointer when it is tested, so the loop goes on until the
    stack has reached address zero: the same sectors are read 1984 times, and the
    packets have then overwritten the interrupt vectors. *)
Lemma lba_loop_run k fuel d m : linear → (0 < k ≤ 1984)%nat → (4 < k)%nat ∨ vector_zero m →
  if decide (fuel < k)%nat then lba_loop fuel (16 * N.of_nat k) d m = Panic OutOfFuel
  else ∃ d' m', lba_loop fuel (16 * N.of_nat k) d m = Ok (d', m') ∧ vector_zero m'.
Proof.
  intros HL. revert fuel d m. induction k as [|k IH]; intros fuel d m Hk Hz; [lia|]. destruct fuel as [|fuel].
  { by rewrite decide_True by lia. }
  cbn [lba_loop]. rewrite !push_small by lia. set (sp := 16 * N.of_nat (S k) - 4 - 4 - 2 - 2 - 2 - 2). assert (sp = 16 * N.of_nat k) as Hsp by lia.
  set (m1 := store 2 16 _ _). assert ((4 < k)%nat ∨ vector_zero m1) as Hz1.
  { destruct (decide (4 < k)%nat); [by left|]. right. intros a Ha. unfold m1. rewrite !store_frame by lia. destruct (decide (k = 4)%nat) as [->|].
    - unfold store. rewrite (proj2 (N.leb_le _ a)), (proj2 (N.ltb_lt a _)) by lia. reflexivity.
    - rewrite store_frame by lia. destruct Hz as [?|Hz]; [lia|]. by apply Hz. }
  clearbody m1. destruct (HL sp d m1) as (d2 & m2 & -> & Hm2).
  assert ((4 < k)%nat ∨ vector_zero m2) as Hz2 by (destruct Hz1 as [?|Hz1]; [by left|right; intros a Ha; rewrite Hm2 by (unfold stage_start; lia); by apply Hz1]).
  unfold positive. destruct k as [|k].
  - rewrite decide_False by lia. change (N.of_nat 0) with 0 in Hsp. rewrite Hsp. exists d2, m2. split; [done|]. destruct Hz2; [lia|done].
  - rewrite (proj2 (N.ltb_lt 0 sp)), (proj2 (N.ltb_lt sp 0x8000)) by lia. cbn [andb]. rewrite Hsp.
    specialize (IH fuel d2 m2 ltac:(lia) ltac:(destruct Hz2; [left; lia|by right])). destruct (decide (fuel < S k)%nat); [rewrite decide_True by lia|rewrite decide_False by lia]; exact IH.
Qed.

Lemma linear_defect fuel cl d1 d m : int13_check drive d = (false, 0xaa55, cl, d1) → N.testbit cl 0 = true → linear →
  if decide (fuel < 1984)%nat then boot_sector fuel d m = Panic OutOfFuel
  else ∃ d' m', boot_sector fuel d m = Ok (d', m') ∧ vector_zero m'.
Proof.
  intros Hc Ht HL. unfold boot_sector. rewrite Hc, Ht. change (false || negb (0xaa55 =? 0xaa55) || negb true) with false. cbv iota.
  apply (lba_loop_run 1984 fuel d1 m HL); lia.
Qed.
End code.

(** With 63 sectors in a track the sector behind the last is sector 0 of the same
    track; and behind the last sector of a disk the code panics even when no
    sector is left to read. *)
Lemma track_of_63 c h ch dh : advance (mkGeometry c h 63) ch 63 dh = Ok (ch, 64, dh) ∧ 64 mod 64 = 0.
Proof. done. Qed.

Lemma last_sector : advance diskette (cylinder_of 2879) (sector_of 2879) (head_of 2879) = Panic Explicit.
Proof. reflexivity. Qed.

(** ** An example: a diskette on which a number of reads fail *)
Definition demo_disk (x : N) : N := x / 512 mod 256.

#[export] Instance demo_drive : Disk nat := {
  int13_check _ d := (true, 0, 0, d);
  int13_lba _ _ d m := (true, d, m);
  int13_params _ d := (true, 0, 0, 0, d);
  int13_read ch cl dh _ buffer d m :=
    match d with
    | O => (false, O, λ x, if (buffer <=? x) && (x <? buffer + 512) then demo_disk (512 * ((ch * 2 + dh) * 18 + cl - 1) + (x - buffer)) else m x)
    | S d => (true, S d, m)
    end;
  int13_reset _ d := pred d;
}.

Lemma demo_holds : holds_disk 0 demo_disk (λ k d, k = d ∧ (d < 5)%nat).
Proof.
  split.
  - by intros k d [-> ?].
  - intros k d Hk. by exists 0, 0, d, k.
  - intros k d Hk. by exists true, 0, 0, 0, d, k.
  - intros d lba buffer m [<- _] Hl. eexists _, _, O. split; [reflexivity|]. split; [lia|]. intros x.
    replace ((cylinder_of lba * 2 + head_of lba) * 18 + sector_of lba - 1) with lba by (unfold cylinder_of, head_of, sector_of; lia). done.
  - intros k d lba buffer m [<- ?] Hl. eexists _, _. split; [reflexivity|]. split; [split; [done|cbn; lia]|done].
Qed.

End Bootloader.
