(* ===== verification/MemoryInit.v ===== *)
(** * Memory from the BIOS map to the allocator

    The composition of the parts of [kernel/src/memory.rs]: the e820 map is
    turned into the memory map, the page tables are built over it, and the
    rest of the pages goes to the buddy allocator.  What [alloc_zero] hands
    out is then backed by memory that the BIOS declared usable, page by page
    a frame of its own, and never by a page table. *)
From stdpp Require Import gmap.
From S2P Require Import Prelude Buddy BuddyNew BuddySpec MemoryMap MemoryMapSpec KernelMemory KernelMemorySpec.
From S2P Require Import PageTable PageTableWalk PageTableSpec.
Import MemoryMap MemoryMapSpec KernelMemory KernelMemorySpec PageTable PageTableWalk PageTableSpec.
Local Open Scope N_scope.

Module MemoryInit.

Section init.
Context `{X86Paging, X86Addr, NumIter, NumInteger, NumEnum, SortUnstable}.

(** The static memory map holds the usable pages. *)
Lemma dynmem_map_run e820 :
  vlen e820 ≤ BUFSIZE → Forall entry_fits e820 →
  ∃ map, DYNMEM_MAP e820 = Ok map ∧ regions DYNMEM_START_PHYS map ∧
    ∀ q, q mod 4096 = 0 →
      page_in map q ↔ DYNMEM_START_PHYS ≤ q ∧ page_in (List.filter is_usable e820) q.
Proof.
  intros Hlen Hfits. unfold DYNMEM_MAP.
  assert (vlen (replicate (N.to_nat BUFSIZE) entry_zero) = BUFSIZE) as Hv
    by (unfold vlen; rewrite length_replicate; lia).
  destruct (create_dynmem_map_run e820 (replicate (N.to_nat BUFSIZE) entry_zero))
    as (n & buffer & -> & Hb & Hn & Hr & Hp); [by rewrite Hv|rewrite Hv; reflexivity|done|].
  mred. assert (n ≤ vlen buffer) as Hle.
  { rewrite <-Hn. unfold vlen. rewrite length_take. lia. }
  rewrite (proj2 (N.leb_le _ _) Hle). by exists (take (N.to_nat n) buffer).
Qed.

(** The physical address [p] is in a page that the BIOS declared usable, above
    the kernel, and not in a page table. *)
Definition usable_frame cr3 e820 (d : MemoryData) (m : phys_mem) (p : N) : Prop :=
  DYNMEM_START_PHYS ≤ p / 4096 * 4096 ∧ page_in (List.filter is_usable e820) (p / 4096 * 4096) ∧
  ∀ v, DYNMEM_START_VIRT ≤ v < DYNMEM_START_VIRT + page_table_len d → translate cr3 m v ≠ Some p.

(** A page of the memory map is a page of one of its regions. *)
Lemma page_of_map map i :
  regions DYNMEM_START_PHYS map → phys_limit map → DYNMEM_START_VIRT + total_size map < 2 ^ 47 →
  i < page_count map → page_in map (page map i).
Proof.
  intros Hr Hl Hv Hi. destruct (page_facts _ _ _ Hr Hl Hv Hi) as (_ & Ha & (e & He & Hb) & _ & _).
  exists e. split; [done|]. split; [lia|]. assert (region_ok e) as [Hba Hsa _ _ _]; [|lia].
  revert He Hr. generalize DYNMEM_START_PHYS. clear. induction map as [|x map IH]; intros lo He Hr; [by apply not_elem_of_nil in He|].
  destruct Hr as (Hok & _ & Hr). apply elem_of_cons in He as [->|He]; [done|by eapply IH].
Qed.

Lemma init_memory_booted cr3 e820 map tmptable m0 d d' m :
  DYNMEM_MAP e820 = Ok map → boot_ok cr3 tmptable map m0 →
  init_memory cr3 e820 tmptable d m0 = Ok (d', m) →
  ∃ d1, init_dyn_page cr3 map tmptable d m0 = Ok (d1, m) ∧ dyn_mapped cr3 tmptable map m0 d d1 m ∧ booted d1 d'.
Proof.
  intros Hmap HB. unfold init_memory, get_memory_map. rewrite Hmap. mred.
  destruct (init_dyn_page_run cr3 tmptable map m0 HB d) as (d1 & m1 & Hrun & HD). rewrite Hrun. mred.
  destruct (init_dyn_alloc d1) as [d2|] eqn:Ha; [|done]. mred. intros [= <- <-]. exists d1.
  split; [done|]. split; [done|]. pose proof (bo_virt _ _ _ _ HB) as Hv. pose proof (bo_regions _ _ _ _ HB) as Hr.
  pose proof (total_size_mod _ _ Hr). change (2 ^ 47) with 140737488355328 in Hv. unfold DYNMEM_START_VIRT in Hv.
  apply dm_total in HD as Ht. apply dm_tables in HD as Hp. apply dm_room in HD as Hro.
  unfold booted, DYNMEM_START_VIRT. rewrite Ht in *. split_and!; [rewrite Hp; lia|lia|lia|lia|done].
Qed.

(** The layout of the allocator's chunk, the dynamic memory behind its page tables. *)
Definition dyn_layout (map : list MemoryMapEntry) : result Buddy.BuddyBlockInfo :=
  let tables := tables_needed (page_count map) * 4096 in
  BuddyNew.layout (DYNMEM_START_VIRT + tables) (total_size map - tables).

(** [init_memory] fails only in the layout of the allocator. *)
Lemma init_memory_run cr3 e820 map tmptable m0 d :
  DYNMEM_MAP e820 = Ok map → boot_ok cr3 tmptable map m0 →
  ∃ m, init_memory cr3 e820 tmptable d m0 =
    i ← dyn_layout map;
    Ok (mkData (total_size map) (tables_needed (page_count map) * 4096) (Buddy.data_offset i) (BuddyNew.initial i), m).
Proof.
  intros Hmap HB. unfold init_memory, get_memory_map. rewrite Hmap. mred.
  destruct (init_dyn_page_run cr3 tmptable map m0 HB d) as (d1 & m1 & -> & HD). mred. exists m1.
  pose proof (bo_virt _ _ _ _ HB) as Hv. change (2 ^ 47) with 140737488355328 in Hv. unfold DYNMEM_START_VIRT in Hv.
  apply dm_room in HD as Hro. unfold init_dyn_alloc, dyn_layout, DYNMEM_START_VIRT.
  rewrite (dm_total _ _ _ _ _ _ _ HD), (dm_tables _ _ _ _ _ _ _ HD) in *.
  rewrite checked_add_Ok by lia. mred. rewrite checked_sub_Ok by lia. mred.
  rewrite BuddyNew.buddy_new_run by lia. by destruct (BuddyNew.layout _ _).
Qed.

(** C8: a byte of memory handed out by [alloc_zero], on a kernel whose memory
    was set up from the BIOS map, is translated by the processor into a
    usable page of that map, above [DYNMEM_START_PHYS], which holds no page
    table; different bytes get different physical addresses.  The map has at
    most [BUFSIZE] entries, none of which ends behind the address space, and
    its usable memory from [DYNMEM_START_PHYS] on starts there with three
    pages ([boot_ok]), which [init_dyn_page] takes without looking. *)
Theorem allocated_memory_backed cr3 e820 map tmptable m0 d d' m kn kn' live len addr :
  vlen e820 ≤ BUFSIZE → Forall entry_fits e820 → DYNMEM_MAP e820 = Ok map →
  boot_ok cr3 tmptable map m0 → init_memory cr3 e820 tmptable d m0 = Ok (d', m) →
  BuddySpec.reachable (buddyblock d') (buddyblock (data kn)) live → BuddySpec.request_ok len →
  alloc_zero len kn = Ok (Some addr, kn') →
  (∀ x, addr ≤ x < addr + len → ∃ p, translate cr3 m x = Some p ∧ usable_frame cr3 e820 d' m p) ∧
  (∀ x y, addr ≤ x < addr + len → addr ≤ y < addr + len → translate cr3 m x = translate cr3 m y → x = y).
Proof.
  intros Hlen Hfits Hmap HB Hinit Hreach Hreq Hal.
  destruct (init_memory_booted _ _ _ _ _ _ _ _ Hmap HB Hinit) as (d1 & _ & HD & Hbt).
  destruct (dynmem_map_run e820 Hlen Hfits) as (map' & Hmap' & Hr & Hpg).
  rewrite Hmap in Hmap'. injection Hmap' as <-.
  destruct (alloc_zero_run d1 d' kn live len Hbt Hreach Hreq) as (r & kn1 & Hal1 & Hr1).
  rewrite Hal in Hal1. injection Hal1 as <- <-. destruct Hr1 as (Hlo & Hhi & _).
  apply dm_total in HD as Ht. rewrite Ht in Hhi.
  assert (page_table_len d' = page_table_len d1) as Hpt.
  { by apply init_dyn_alloc_keeps, Hbt. }
  split; [|intros x y Hx Hy; eapply dyn_mapped_inj; [done|exact HD|lia|lia]].
  intros x Hx. destruct (dyn_mapped_page _ _ _ _ HB _ _ _ x HD ltac:(lia)) as (i & Hi & Hxi & Hti & Hai). eexists. split; [exact Hti|]. unfold usable_frame.
  replace ((page map i + x mod 4096) / 4096 * 4096) with (page map i) by lia.
  destruct (proj1 (Hpg _ Hai) (page_of_map map i Hr (bo_limit _ _ _ _ HB) (bo_virt _ _ _ _ HB) Hi)) as [Hge Hin]. split; [done|]. split; [done|].
  intros w Hw. rewrite <-Hti. intros He.
  eapply dyn_mapped_inj in He; [|done|exact HD|apply dm_room in HD; lia|lia]. lia.
Qed.
End init.

(** ** An example *)
Definition demo_e820 : list MemoryMapEntry :=
  [mkEntry 0x900000 0xc000 1 0; mkEntry 0 0x808000 1 0; mkEntry 0xf0000 0x10000 2 0].

Lemma demo_dynmem_map : DYNMEM_MAP demo_e820 = Ok demo_map.
Proof. vm_compute. reflexivity. Qed.

Lemma demo_fits : Forall entry_fits demo_e820.
Proof. repeat constructor; intros _; vm_compute; discriminate. Qed.

Lemma demo_init :
  ∃ d' m, init_memory 0x5f0000 demo_e820 demo_tmptable MEMORY_DATA boot_tables = Ok (d', m) ∧
    buddyblock d' = match Buddy.buddy_new 0x203000 0x11000 with Ok b => b | Panic _ => Buddy.buddy_empty end.
Proof.
  destruct (init_dyn_page_run 0x5f0000 demo_tmptable demo_map boot_tables demo_boot MEMORY_DATA)
    as (d1 & m & Hrun & HD).
  unfold init_memory, get_memory_map. rewrite demo_dynmem_map. mred. rewrite Hrun. mred.
  apply dm_total in HD as Ht. apply dm_tables in HD as Hp. destruct d1 as [t p bl bb].
  cbn [data_total_len page_table_len] in Ht, Hp. subst t p.
  change (total_size demo_map) with 81920. change (tables_needed (page_count demo_map) * 4096) with 12288.
  unfold init_dyn_alloc. cbn [page_table_len data_total_len].
  change (checked_add W64 DYNMEM_START_VIRT 12288) with (@Ok N 0x203000). mred.
  change (checked_sub 81920 12288) with (@Ok N 0x11000). mred.
  destruct (Buddy.buddy_new 0x203000 0x11000) as [b|] eqn:Hb; [|vm_compute in Hb; discriminate Hb].
  mred. eexists _, _. split; [reflexivity|]. reflexivity.
Qed.

Lemma allocated_memory_backed_witness :
  ∃ d' m addr p, init_memory 0x5f0000 demo_e820 demo_tmptable MEMORY_DATA boot_tables = Ok (d', m) ∧
    translate 0x5f0000 m addr = Some p ∧ page_in (List.filter is_usable demo_e820) (p / 4096 * 4096).
Proof.
  destruct demo_init as (d' & m & Hinit & Hb).
  assert (∃ addr kn', alloc_zero 4096 (mkKernel d' (λ _, 0)) = Ok (Some addr, kn')) as (addr & kn' & Hal).
  { unfold alloc_zero. cbn [data]. rewrite Hb.
    destruct (Buddy.alloc _ _) as [[[a|] b]|] eqn:Ha; [eexists _, _; reflexivity|vm_compute in Ha; discriminate Ha|vm_compute in Ha; discriminate Ha]. }
  destruct (allocated_memory_backed 0x5f0000 demo_e820 demo_map demo_tmptable boot_tables MEMORY_DATA d' m
    (mkKernel d' (λ _, 0)) kn' ∅ 4096 addr) as [Hb1 _].
  - vm_compute. discriminate.
  - exact demo_fits.
  - exact demo_dynmem_map.
  - exact demo_boot.
  - exact Hinit.
  - constructor.
  - split; [reflexivity|vm_compute; discriminate].
  - exact Hal.
  - destruct (Hb1 addr ltac:(lia)) as (p & Hp & _ & Hin & _). exists d', m, addr, p. auto.
Defined.

End MemoryInit.
