(* ===== verification/PagePrint.v ===== *)
(** * Printing the page tables and memory maps: [kernel/src/memory.rs]

    [print_page] walks the tables through the addresses [phys_to_virt] gives
    and prints runs of pages that are contiguous in both address spaces as
    one range.  The lines are kept as data, before they are formatted. *)
From S2P Require Import Prelude MemoryMap PageTable.
Import MemoryMap PageTable.
Local Open Scope checked_scope.

Module PagePrint.

(** ** Memory maps *)
Section print_memory.
Context `{NumEnum}.

(** One line per region: its bounds and the name of its type, if known. *)
Definition print_memory (map : list MemoryMapEntry) : result (list (N * N * option MemoryEntryType)) :=
  for_each map (λ entry out,
    e ← base entry +! size entry;
    Ok (out ++ [(base entry, e, try_from (mem_type entry))])) [].
End print_memory.

(** ** Page tables *)
Section print_page.
Context `{X86Paging, X86Addr} (cr3 : N) (map : list MemoryMapEntry) (m : phys_mem).

Inductive line :=
  | TableLine (depth idx addr : N) (flags : PageTableFlags)
  | RangeLine (v v_end p p_end : N).

(** The upper half of the address space is sign extended. *)
Definition sign_extend (v_raw : N) : N :=
  let flag := 0xffff800000000000%N in
  if (N.land v_raw flag =? 0)%N then v_raw else N.lor v_raw flag.

(** The line for the pages [first .. idx). *)
Definition range_line (table : N → PageTableEntry) (virt first idx : N) : result line :=
  len ← idx -! first;
  s ← virt <<! 9;
  v_raw ← N.lor s first <<! 12;
  v ← VirtAddr_new (sign_extend v_raw);
  let p := entry_addr (table first) in
  n ← len *! PAGE_SIZE;
  v_end ← v +! n;
  p_end ← p +! n;
  Ok (RangeLine v v_end p p_end).

(** The body of the loop of [print_pages]; the state is [found]. *)
Definition print_pages_step (table : N → PageTableEntry) (virt idx : N)
    (st : option N * list line) : result (option N * list line) :=
  let '(found, out) := st in
  let present := ((idx <? 512)%N && contains (entry_flags (table idx)) PRESENT) in
  match found with
  | None => Ok (if present then Some idx else None, out)
  | Some first =>
      ends ←
        (if negb present then Ok true
         else
           i ← idx -! 1;
           a ← entry_addr (table i) +! 0x1000;
           Ok (negb (a =? entry_addr (table idx))%N));
      if (ends : bool) then
        l ← range_line table virt first idx;
        Ok (if present then Some idx else None, out ++ [l])
      else Ok (Some first, out)
  end.

Definition print_pages (table : N → PageTableEntry) (virt : N) : result (list line) :=
  '(_, out) ← for_each (range 0 513) (print_pages_step table virt) (None, []);
  Ok out.

(** The body of the loop of [print_table_r]; [sub] prints the table behind an
    entry, at an address and for the indices that led there. *)
Definition print_entry (sub : N → N → result (list line)) (f depth virt idx : N) (out : list line)
    : result (list line) :=
  let entry := m f idx in
  if contains (entry_flags entry) PRESENT then
    let l := TableLine depth idx (entry_addr entry) (entry_flags entry) in
    if negb (contains (entry_flags entry) HUGE_PAGE) then
      addr ← phys_to_virt map (entry_addr entry);
      s ← virt <<! 9;
      lines ← sub addr (N.lor s idx);
      Ok (out ++ l :: lines)
    else Ok (out ++ [l])
  else Ok out.

(** [rest] names follow the one of this depth. *)
Fixpoint print_table_r (rest : nat) (depth ptr virt : N) : result (list line) :=
  f ← table_frame cr3 m ptr;
  let sub :=
    match rest with
    | S rest => print_table_r rest (depth + 1)
    | O => λ addr v, f ← table_frame cr3 m addr; print_pages (m f) v
    end in
  for_each (range 0 512) (print_entry sub f depth virt) [].

Definition print_page : result (list line) := print_table_r 2 0 get_table 0.
End print_page.
Arguments line {_}.

End PagePrint.
