(* ===== verification/PagePrintSpec.v ===== *)
(** * Printing the page tables: correctness

    The ranges printed for a table are the maximal runs of its pages, and
    the ranges printed for all tables are the pages the processor maps. *)
From S2P Require Import Prelude MemoryMap MemoryMapSpec PageTable PageTableWalk PageTableSpec PagePrint.
Import MemoryMap PageTable PageTableWalk PagePrint.
Local Open Scope N_scope.

Module PagePrintSpec.

(** ** Addresses *)
Lemma lor_low a b n : b < 2 ^ n → N.lor (a * 2 ^ n) b = a * 2 ^ n + b.
Proof.
  intros Hb. assert (N.land (a * 2 ^ n) b = 0) as H0.
  { apply N.bits_inj. intros k. rewrite N.land_spec, N.bits_0, <-N.shiftl_mul_pow2.
    destruct (N.lt_ge_cases k n) as [Hk|Hk]; [by rewrite N.shiftl_spec_low|].
    destruct (N.eq_dec b 0) as [->|Hb0]; [by rewrite N.bits_0, andb_false_r|].
    rewrite (N.bits_above_log2 b k), andb_false_r; [done|].
    apply N.log2_lt_pow2 in Hb; lia. }
  by rewrite N.add_nocarry_lxor, N.lxor_lor.
Qed.

Lemma elem_of_concat {A} (x : A) (ls : list (list A)) : x ∈ concat ls ↔ ∃ l, x ∈ l ∧ l ∈ ls.
Proof.
  rewrite list_elem_of_In, in_concat. setoid_rewrite <-list_elem_of_In. naive_solver.
Qed.

Definition half : N := 2 ^ 47.

Lemma flag_land v : v < 2 ^ 48 → N.land v 0xffff800000000000 = v / half * half.
Proof.
  intros Hv. change 0xffff800000000000 with (N.shiftl (N.ones 17) 47).
  apply N.bits_inj. intros k. unfold half. rewrite N.land_spec, <-N.shiftl_mul_pow2, <-N.shiftr_div_pow2.
  destruct (N.lt_ge_cases k 47) as [Hk|Hk]; [by rewrite !N.shiftl_spec_low, andb_false_r|].
  rewrite !N.shiftl_spec_high' by done. rewrite N.shiftr_spec'. replace (k - 47 + 47) with k by lia.
  destruct (N.lt_ge_cases k 64) as [Hk'|Hk'].
  - rewrite N.ones_spec_low by lia. apply andb_true_r.
  - rewrite N.ones_spec_high by lia. rewrite andb_false_r. symmetry.
    destruct (N.eq_dec v 0) as [->|Hv0]; [apply N.bits_0|]. apply N.bits_above_log2.
    apply N.log2_lt_pow2 in Hv; lia.
Qed.

Lemma flag_lor v : half ≤ v < 2 ^ 48 → N.lor v 0xffff800000000000 = v + 0xffff000000000000.
Proof.
  unfold half. change (2 ^ 47) with 140737488355328. change (2 ^ 48) with 281474976710656. intros Hv.
  change 0xffff800000000000 with (N.lor (65535 * 2 ^ 48) 140737488355328).
  rewrite N.lor_comm, <-N.lor_assoc.
  assert (N.lor 140737488355328 v = v) as ->.
  { replace v with (1 * 2 ^ 47 + (v - 140737488355328)) by (change (2 ^ 47) with 140737488355328; lia).
    rewrite <-lor_low by (change (2 ^ 47) with 140737488355328; lia).
    rewrite N.lor_assoc. by rewrite N.lor_diag. }
  rewrite lor_low by (change (2 ^ 48) with 281474976710656; lia).
  change (65535 * 2 ^ 48) with 0xffff000000000000. lia.
Qed.

(** The address of page number [w] of the 48-bit address space. *)
Definition page_addr (w : N) : N := if w <? 2 ^ 35 then w * 4096 else w * 4096 + 0xffff000000000000.

Lemma sign_extend_page w : w < 2 ^ 36 → sign_extend (w * 4096) = page_addr w.
Proof.
  change (2 ^ 36) with 68719476736. intros Hw. unfold sign_extend, page_addr.
  rewrite flag_land by (change (2 ^ 48) with 281474976710656; lia).
  assert (half = 140737488355328) as -> by done. change (2 ^ 35) with 34359738368.
  destruct (N.ltb_spec w 34359738368) as [Hl|Hl].
  - by replace (w * 4096 / 140737488355328) with 0 by lia.
  - replace (w * 4096 / 140737488355328) with 1 by lia. simpl.
    apply flag_lor. unfold half. change (2 ^ 47) with 140737488355328. change (2 ^ 48) with 281474976710656. lia.
Qed.

Lemma page_addr_add virt i k :
  virt < 2 ^ 27 → i + k < 512 → page_addr (virt * 512 + (i + k)) = page_addr (virt * 512 + i) + k * 4096.
Proof.
  change (2 ^ 27) with 134217728. intros Hv Hi. unfold page_addr. change (2 ^ 35) with 34359738368.
  destruct (N.ltb_spec (virt * 512 + (i + k)) 34359738368), (N.ltb_spec (virt * 512 + i) 34359738368); lia.
Qed.

Section print.
Context `{X86Paging, X86Addr}.
Implicit Types (table : N → PageTableEntry).

(** What a range stands for: pairs of a virtual and a physical page. *)
Definition expand (l : line) : list (N * N) :=
  match l with
  | TableLine _ _ _ _ => []
  | RangeLine v v_end p _ => (λ k, (v + k * 4096, p + k * 4096)) <$> range 0 ((v_end - v) / 4096)
  end.
Definition expand_all (ls : list line) : list (N * N) := concat (expand <$> ls).

Definition page_present table (i : N) : bool := contains (entry_flags (table i)) PRESENT.

(** The pages of a table among its entries [a .. b). *)
Definition pages_from table (virt a b : N) : list (N * N) :=
  concat ((λ i, if page_present table i then [(page_addr (virt * 512 + i), entry_addr (table i))] else []) <$> range a b).
Definition present_pages table (virt : N) : list (N * N) := pages_from table virt 0 512.

Lemma expand_all_snoc ls l : expand_all (ls ++ [l]) = expand_all ls ++ expand l.
Proof. unfold expand_all. rewrite fmap_app, concat_app. simpl. by rewrite app_nil_r. Qed.

Lemma pages_snoc table virt a b : a ≤ b →
  pages_from table virt a (b + 1) = pages_from table virt a b ++
    if page_present table b then [(page_addr (virt * 512 + b), entry_addr (table b))] else [].
Proof. intros Hab. unfold pages_from. rewrite range_snoc, fmap_app, concat_app by done. simpl. by rewrite app_nil_r. Qed.

(** A run: present pages at consecutive addresses. *)
Definition run table (first idx : N) : Prop :=
  first < idx ∧ ∀ k, first ≤ k < idx → page_present table k = true ∧
    entry_addr (table k) = entry_addr (table first) + (k - first) * 4096.

Lemma run_pages table virt first idx :
  virt < 2 ^ 27 → run table first idx → idx ≤ 512 →
  pages_from table virt 0 idx = pages_from table virt 0 first ++
    ((λ k, (page_addr (virt * 512 + first) + k * 4096, entry_addr (table first) + k * 4096)) <$> range 0 (idx - first)).
Proof.
  intros Hv [Hlt Hrun] Hi. replace idx with (first + (idx - first)) at 1 by lia.
  assert (idx - first ≤ idx - first) as Hn by lia. revert Hn. generalize (idx - first) at 1 3 4 as n.
  induction n as [|n IH] using N.peano_ind; intros Hn.
  - by rewrite N.add_0_r, range_nil, app_nil_r.
  - replace (first + N.succ n) with (first + n + 1) by lia. rewrite pages_snoc by lia.
    rewrite IH by lia. rewrite <-app_assoc. f_equal. rewrite <-N.add_1_r, range_snoc, fmap_app by lia. f_equal.
    destruct (Hrun (first + n) ltac:(lia)) as [-> ->]. simpl. rewrite page_addr_add by (done || lia).
    do 3 f_equal. lia.
Qed.

(** Bounds under which no sum of the printing overflows. *)
Definition printable table (virt : N) : Prop :=
  virt + 1 < 2 ^ 27 ∧ ∀ i, i < 512 → page_present table i = true → entry_addr (table i) < 2 ^ 52.

Lemma page_addr_bound w : w + 512 < 2 ^ 36 → page_addr w + 2097152 < W64.
Proof.
  change (2 ^ 36) with 68719476736. intros Hw. unfold page_addr. change (2 ^ 35) with 34359738368.
  destruct (N.ltb_spec w 34359738368); lia.
Qed.

Lemma virt_page_addr w : w < 2 ^ 36 → VirtAddr_new (page_addr w) = Ok (page_addr w).
Proof.
  change (2 ^ 36) with 68719476736. intros Hw. unfold page_addr. change (2 ^ 35) with 34359738368.
  destruct (N.ltb_spec w 34359738368).
  - apply VirtAddr_new_ok. change (2 ^ 47) with 140737488355328. lia.
  - apply VirtAddr_new_high. unfold KERNEL_START_VIRT. lia.
Qed.

Lemma range_line_run table virt first idx :
  printable table virt → run table first idx → idx ≤ 512 →
  range_line table virt first idx =
    Ok (RangeLine (page_addr (virt * 512 + first)) (page_addr (virt * 512 + first) + (idx - first) * 4096)
          (entry_addr (table first)) (entry_addr (table first) + (idx - first) * 4096)).
Proof.
  intros [Hv Ha] [Hlt Hr] Hi. change (2 ^ 27) with 134217728 in Hv. unfold range_line, PAGE_SIZE.
  rewrite checked_sub_Ok by lia. mred. rewrite checked_shl_Ok by (change (2 ^ 9) with 512; lia). mred.
  rewrite lor_low by (change (2 ^ 9) with 512; lia). change (2 ^ 9) with 512.
  rewrite checked_shl_Ok by (change (2 ^ 12) with 4096; lia). mred. change (2 ^ 12) with 4096.
  rewrite sign_extend_page by (change (2 ^ 36) with 68719476736; lia).
  rewrite virt_page_addr by (change (2 ^ 36) with 68719476736; lia). mred.
  pose proof (page_addr_bound (virt * 512 + first) ltac:(change (2 ^ 36) with 68719476736; lia)).
  specialize (Ha first ltac:(lia) (proj1 (Hr first ltac:(lia)))). change (2 ^ 52) with 4503599627370496 in Ha.
  rewrite checked_mul_Ok by lia. mred. rewrite checked_add_Ok by lia. mred. rewrite checked_add_Ok by lia. done.
Qed.

(** Two ranges that could have been printed as one. *)
Definition adjoin (l l' : line) : Prop :=
  match l, l' with
  | RangeLine _ v_end _ p_end, RangeLine v _ p _ => v_end = v ∧ p_end = p
  | _, _ => False
  end.
Definition separate (ls : list line) : Prop :=
  ∀ i l l', ls !! i = Some l → ls !! S i = Some l' → ¬ adjoin l l'.

Lemma separate_snoc ls l :
  separate ls → (∀ l', list.last ls = Some l' → ¬ adjoin l' l) → separate (ls ++ [l]).
Proof.
  intros Hs Hl i l1 l2 H1 H2. apply lookup_lt_Some in H2 as Hlt. rewrite length_app in Hlt. simpl in Hlt.
  rewrite lookup_app_l in H1 by lia. destruct (decide (S i < length ls)%nat) as [Hi|Hi].
  - rewrite lookup_app_l in H2 by done. by eapply Hs.
  - assert (length ls = S i) as He by lia. rewrite list_lookup_middle in H2 by done. injection H2 as <-.
    apply Hl. rewrite last_lookup, He. done.
Qed.

(** The state after the entries below [idx]. *)
Definition print_inv table (virt idx : N) (st : option N * list line) : Prop :=
  separate st.2 ∧
  match st.1 with
  | None => expand_all st.2 = pages_from table virt 0 idx ∧
      ∀ v ve p pe, list.last st.2 = Some (RangeLine v ve p pe) → ve < page_addr (virt * 512) + idx * 4096
  | Some first => run table first idx ∧ expand_all st.2 = pages_from table virt 0 first ∧
      ∀ v ve p pe, list.last st.2 = Some (RangeLine v ve p pe) →
        ve < page_addr (virt * 512) + first * 4096 ∨ pe ≠ entry_addr (table first)
  end.

Lemma page_addr_base virt i : virt < 2 ^ 27 → i < 512 → page_addr (virt * 512 + i) = page_addr (virt * 512) + i * 4096.
Proof. intros Hv Hi. replace i with (0 + i) at 1 by lia. rewrite page_addr_add by (done || lia). by rewrite N.add_0_r. Qed.

Lemma run_start table i : page_present table i = true → run table i (i + 1).
Proof. intros Hp. split; [lia|]. intros k Hk. assert (k = i) as -> by lia. split; [done|lia]. Qed.

(** Printing the run that ends before [idx]. *)
Lemma print_run_line table virt first idx out :
  printable table virt → print_inv table virt idx (Some first, out) → idx ≤ 512 →
  ∃ v ve p pe, range_line table virt first idx = Ok (RangeLine v ve p pe) ∧
    separate (out ++ [RangeLine v ve p pe]) ∧
    expand_all (out ++ [RangeLine v ve p pe]) = pages_from table virt 0 idx ∧
    ve = page_addr (virt * 512) + idx * 4096 ∧ pe = entry_addr (table (idx - 1)) + 4096.
Proof.
  intros HP (Hsep & Hrun & Hex & Hcut) Hi. simpl in *. pose proof HP as [Hv _]. pose proof Hrun as [Hlt Hr].
  rewrite (range_line_run table virt first idx HP Hrun Hi). eexists _, _, _, _. split; [done|].
  rewrite page_addr_base by lia. split_and!.
  - apply separate_snoc; [done|]. intros [|v ve p pe] Hl; [by intros []|]. intros [-> ->].
    destruct (Hcut _ _ _ _ Hl); [lia|done].
  - rewrite expand_all_snoc, Hex, (run_pages table virt first idx) by (done || lia). f_equal. simpl.
    rewrite page_addr_base by lia. do 2 f_equal. lia.
  - lia.
  - destruct (Hr (idx - 1) ltac:(lia)) as [_ ->]. lia.
Qed.

Lemma print_pages_step_run table virt idx st :
  printable table virt → print_inv table virt idx st → idx < 512 →
  ∃ st', print_pages_step table virt idx st = Ok st' ∧ print_inv table virt (idx + 1) st'.
Proof.
  intros HP HI Hi. destruct st as [found out]. unfold print_pages_step.
  rewrite (proj2 (N.ltb_lt _ _) Hi). cbn [andb]. fold (page_present table idx). pose proof HP as [Hv Ha].
  change (2 ^ 27) with 134217728 in Hv. destruct found as [first|].
  - destruct (print_run_line table virt first idx out HP HI ltac:(lia)) as (v & ve & p & pe & Hline & Hsep & Hex & Hve & Hpe).
    destruct HI as (Hs & Hrun & Hex0 & Hcut). simpl in Hs, Hex0, Hcut. pose proof Hrun as [Hlt Hr].
    destruct (page_present table idx) eqn:Hpr; cbn [negb].
    + rewrite checked_sub_Ok by lia. mred. pose proof (Ha (idx - 1) ltac:(lia) (proj1 (Hr (idx - 1) ltac:(lia)))) as Hl.
      change (2 ^ 52) with 4503599627370496 in Hl. rewrite checked_add_Ok by lia. mred.
      destruct (N.eqb_spec (entry_addr (table (idx - 1)) + 4096) (entry_addr (table idx))) as [He|Hne]; cbn [negb].
      * eexists. split; [done|]. split; [done|]. split; [|done]. split; [lia|]. intros k Hk.
        destruct (decide (k = idx)) as [->|]; [|apply Hr; lia]. split; [done|].
        destruct (Hr (idx - 1) ltac:(lia)) as [_ Hd]. lia.
      * rewrite Hline. mred. eexists. split; [done|]. split; [done|]. split; [by apply run_start|]. split; [done|].
        intros v' ve' p' pe'. simpl. rewrite last_snoc. intros [= <- <- <- <-]. right. by rewrite Hpe.
    + mred. rewrite Hline. mred. eexists. split; [done|]. split; [done|]. split.
      * simpl. rewrite Hex, pages_snoc, Hpr, app_nil_r by lia. done.
      * intros v' ve' p' pe'. simpl. rewrite last_snoc. intros [= <- <- <- <-]. lia.
  - destruct HI as (Hs & Hex & Hlast). simpl in Hs, Hex, Hlast. eexists. split; [done|]. split; [done|].
    destruct (page_present table idx) eqn:Hpr; simpl.
    + split; [by apply run_start|]. split; [done|]. intros v ve p pe Hl. left. by eapply Hlast.
    + rewrite Hex, pages_snoc, Hpr, app_nil_r by lia. split; [done|]. intros v ve p pe Hl. apply Hlast in Hl. lia.
Qed.

Lemma print_pages_run table virt :
  printable table virt →
  ∃ out, print_pages table virt = Ok out ∧ expand_all out = present_pages table virt ∧ separate out.
Proof.
  intros HP. unfold print_pages. change (range 0 513) with (range 0 (512 + 1)). rewrite range_snoc, for_each_app by lia.
  destruct (for_each_inv (print_pages_step table virt) (λ l st, print_inv table virt (vlen l) st) (range 0 512) (None, []))
    as ([found out] & -> & HI).
  - by split.
  - intros l1 x l2 st Hl HI. assert (x = vlen l1 ∧ x < 512) as [-> Hx].
    { pose proof (f_equal (lookup (length l1)) Hl) as Hlk. rewrite list_lookup_middle in Hlk by done.
      apply lookup_lt_Some in Hlk as Hlt. rewrite length_range in Hlt.
      rewrite lookup_range in Hlk by lia. injection Hlk as <-. unfold vlen. lia. }
    rewrite vlen_app. by apply print_pages_step_run.
  - assert (vlen (range 0 512) = 512) as Hlen by (unfold vlen; by rewrite length_range). rewrite Hlen in HI.
    mred. cbn [for_each]. unfold print_pages_step. cbn [N.ltb N.compare Pos.compare Pos.compare_cont andb negb].
    destruct found as [first|].
    + mred. destruct (print_run_line table virt first 512 out HP HI ltac:(lia)) as (v & ve & p & pe & -> & Hsep & Hex & _).
      mred. by eexists.
    + mred. destruct HI as (Hs & Hex & _). by eexists.
Qed.

(** ** All tables *)
Section tables.
Context (cr3 : N) (map : list MemoryMapEntry) (m : phys_mem).

(** The pages below a table that [n] levels follow. *)
Fixpoint mapped_list (n : nat) (f virt : N) : list (N * N) :=
  match n with
  | O => present_pages (m f) virt
  | S n => concat ((λ i, if page_present (m f) i then mapped_list n (entry_addr (m f i)) (virt * 512 + i) else [])
             <$> range 0 512)
  end.

(** Every table can be read through [phys_to_virt], and there are no huge
    pages. *)
Fixpoint readable (n : nat) (f virt : N) : Prop :=
  match n with
  | O => printable (m f) virt
  | S n => ∀ i, i < 512 → page_present (m f) i = true →
      contains (entry_flags (m f i)) HUGE_PAGE = false ∧
      (∃ va, phys_to_virt map (entry_addr (m f i)) = Ok va ∧ table_frame cr3 m va = Ok (entry_addr (m f i))) ∧
      readable n (entry_addr (m f i)) (virt * 512 + i)
  end.

Lemma print_entries_run n sub f depth virt :
  readable (S n) f virt → virt < 512 ^ 2 →
  (∀ va g i, i < 512 → table_frame cr3 m va = Ok g → readable n g (virt * 512 + i) →
    ∃ out, sub va (virt * 512 + i) = Ok out ∧ expand_all out = mapped_list n g (virt * 512 + i)) →
  ∃ out, for_each (range 0 512) (print_entry map m sub f depth virt) [] = Ok out ∧
    expand_all out = mapped_list (S n) f virt.
Proof.
  intros Hrd Hv Hsub. change (512 ^ 2) with 262144 in Hv. cbn [mapped_list].
  apply (for_each_inv (print_entry map m sub f depth virt) (λ l out, expand_all out =
    concat ((λ i, if page_present (m f) i then mapped_list n (entry_addr (m f i)) (virt * 512 + i) else []) <$> l))); [done|].
  intros l1 i l2 out Hl HI. assert (i < 512) as Hi by (apply (elem_of_range 0); rewrite Hl; apply elem_of_app; right; left).
  rewrite fmap_app, concat_app. cbn [fmap list_fmap concat]. rewrite app_nil_r, <-HI.
  unfold print_entry. fold (page_present (m f) i).
  destruct (page_present (m f) i) eqn:Hp; [|rewrite app_nil_r; by eexists].
  destruct (Hrd i Hi Hp) as (-> & (va & Hva & Htf) & Hpr). cbn [negb]. rewrite Hva. mred.
  rewrite checked_shl_Ok by (change (2 ^ 9) with 512; lia). mred. rewrite lor_low by done. change (2 ^ 9) with 512.
  destruct (Hsub va _ i Hi Htf Hpr) as (lines & -> & <-). mred. eexists. split; [done|].
  unfold expand_all. by rewrite fmap_app, concat_app.
Qed.

Lemma print_table_run rest ptr f depth virt :
  (rest ≤ 2)%nat → table_frame cr3 m ptr = Ok f → virt < 512 ^ (2 - N.of_nat rest) → readable (S rest) f virt →
  ∃ out, print_table_r cr3 map m rest depth ptr virt = Ok out ∧ expand_all out = mapped_list (S rest) f virt.
Proof.
  revert ptr f depth virt. induction rest as [|rest IH]; intros ptr f depth virt Hrest Hf Hv Hrd;
    cbn [print_table_r]; rewrite Hf; mred.
  - apply print_entries_run; [done|done|]. intros va g i Hi Hg Hpr. rewrite Hg. mred.
    destruct (print_pages_run (m g) (virt * 512 + i) Hpr) as (out & -> & Hex & _). by exists out.
  - assert (virt < 512 ^ 2 ∧ ∀ i, i < 512 → virt * 512 + i < 512 ^ (2 - N.of_nat rest)) as [Hv2 Hvi].
    { destruct rest as [|[|]]; [| |lia].
      - change (512 ^ (2 - N.of_nat 1)) with 512 in Hv. change (512 ^ (2 - N.of_nat 0)) with 262144.
        change (512 ^ 2) with 262144. split; [lia|intros; lia].
      - change (512 ^ (2 - N.of_nat 2)) with 1 in Hv. change (512 ^ (2 - N.of_nat 1)) with 512.
        change (512 ^ 2) with 262144. split; [lia|intros; lia]. }
    apply print_entries_run; [done|done|]. intros va g i Hi Hg Hpr. apply IH; [lia|done|auto|done].
Qed.

(** ** The printed pages and the processor *)
Lemma page_addr_index w n : w < 2 ^ 36 → (n ≤ 3)%nat → table_index n (page_addr w) = w / 512 ^ N.of_nat n mod 512.
Proof.
  change (2 ^ 36) with 68719476736. intros Hw Hn. unfold page_addr. change (2 ^ 35) with 34359738368.
  destruct (N.ltb_spec w 34359738368).
  - replace (w * 4096) with (4096 * w + 0) by lia. by apply table_index_page.
  - replace (w * 4096 + 18446462598732840960) with (4096 * (w + 65535 * 68719476736) + 0) by lia.
    rewrite table_index_page by done. destruct n as [|[|[|[|]]]]; [..|lia].
    + change (512 ^ N.of_nat 0) with 1. lia.
    + change (512 ^ N.of_nat 1) with 512. lia.
    + change (512 ^ N.of_nat 2) with 262144. lia.
    + change (512 ^ N.of_nat 3) with 134217728. lia.
Qed.

Lemma page_addr_aligned w : page_addr w mod 4096 = 0.
Proof. unfold page_addr. destruct (w <? 2 ^ 35); lia. Qed.

Lemma elem_pages table virt v p :
  (v, p) ∈ present_pages table virt ↔
  ∃ i, i < 512 ∧ page_present table i = true ∧ v = page_addr (virt * 512 + i) ∧ p = entry_addr (table i).
Proof.
  unfold present_pages, pages_from. rewrite elem_of_concat. setoid_rewrite list_elem_of_fmap. split.
  - intros (l & Hvp & i & -> & Hi%elem_of_range). exists i. destruct (page_present table i); [|by apply not_elem_of_nil in Hvp].
    apply list_elem_of_singleton in Hvp as [= -> ->]. split_and!; try done. lia.
  - intros (i & Hi & Hp & -> & ->). eexists. split; [|exists i; split; [done|apply elem_of_range; lia]].
    rewrite Hp. by apply list_elem_of_singleton.
Qed.

Lemma page_addr_inj w w' : w < 2 ^ 36 → w' < 2 ^ 36 → page_addr w = page_addr w' → w = w'.
Proof.
  change (2 ^ 36) with 68719476736. intros Hw Hw'. unfold page_addr. change (2 ^ 35) with 34359738368.
  destruct (N.ltb_spec w 34359738368), (N.ltb_spec w' 34359738368); lia.
Qed.

(** The pages listed below a table are those the walk from it reaches. *)
Lemma elem_mapped n f virt w p :
  (n ≤ 3)%nat → w < 2 ^ 36 → readable n f virt →
  (page_addr w, p) ∈ mapped_list n f virt ↔ w / 512 ^ (N.of_nat n + 1) = virt ∧ walk n m f (page_addr w) = Some p.
Proof.
  revert f virt. induction n as [|n IH]; intros f virt Hn Hw Hrd.
  - cbn [mapped_list walk]. rewrite elem_pages. rewrite (page_addr_index w 0 Hw) by lia. rewrite page_addr_aligned.
    change (512 ^ N.of_nat 0) with 1. rewrite N.div_1_r, N.add_0_r. change (512 ^ (N.of_nat 0 + 1)) with 512. split.
    + intros (i & Hi & Hp & Hv & ->). destruct Hrd as [Hvirt _]. change (2 ^ 27) with 134217728 in Hvirt.
      change (2 ^ 36) with 68719476736 in Hw.
      apply page_addr_inj in Hv as ->; [|done|change (2 ^ 36) with 68719476736; lia].
      replace ((virt * 512 + i) mod 512) with i by lia. unfold page_present in Hp. rewrite Hp.
      split; [lia|done].
    + intros [Hd Hwk]. destruct (contains (entry_flags (m f (w mod 512))) PRESENT) eqn:Hp; [|done]. injection Hwk as <-.
      exists (w mod 512). split_and!; [lia|done| |done]. f_equal. lia.
  - cbn [mapped_list walk]. rewrite (page_addr_index w (S n) Hw) by lia. rewrite elem_of_concat. setoid_rewrite list_elem_of_fmap.
    set (q := w / 512 ^ N.of_nat (S n)). assert (w / 512 ^ (N.of_nat (S n) + 1) = q / 512) as ->.
    { unfold q. rewrite N.pow_add_r, N.pow_1_r. by rewrite N.Div0.div_div. }
    assert (w / 512 ^ (N.of_nat n + 1) = q) as Hq by (unfold q; do 2 f_equal; lia). split.
    + intros (l & Hl & i & -> & Hi%elem_of_range). destruct (page_present (m f) i) eqn:Hp; [|by apply not_elem_of_nil in Hl].
      destruct (Hrd i ltac:(lia) Hp) as (Hh & _ & Hr). apply IH in Hl as [Hd Hwk]; [|lia|done|done].
      rewrite Hq in Hd. assert (q mod 512 = i ∧ q / 512 = virt) as [-> ->] by lia.
      unfold page_present in Hp. by rewrite Hp, Hh.
    + intros [Hd Hwk]. destruct (contains (entry_flags (m f (q mod 512))) PRESENT) eqn:Hp; [|done].
      destruct (Hrd (q mod 512) ltac:(lia) Hp) as (Hh & _ & Hr). rewrite Hh in Hwk.
      eexists. split; [|exists (q mod 512); split; [done|apply elem_of_range; lia]].
      unfold page_present at 1. rewrite Hp. apply IH; [lia|done|done|]. split; [rewrite Hq; lia|done].
Qed.

Lemma mapped_list_addr n f virt v p :
  (v, p) ∈ mapped_list n f virt → virt < 512 ^ (3 - N.of_nat n) → (n ≤ 3)%nat → ∃ w, w < 2 ^ 36 ∧ v = page_addr w.
Proof.
  revert f virt. induction n as [|n IH]; intros f virt Hvp Hv Hn; cbn [mapped_list] in Hvp.
  - apply elem_pages in Hvp as (i & Hi & _ & -> & _). eexists. split; [|done].
    change (512 ^ (3 - N.of_nat 0)) with 134217728 in Hv. change (2 ^ 36) with 68719476736. lia.
  - apply elem_of_concat in Hvp as (l & Hl & Hf). apply list_elem_of_fmap in Hf as (i & -> & Hi%elem_of_range).
    destruct (page_present (m f) i); [|by apply not_elem_of_nil in Hl]. apply (IH _ _ Hl); [|lia].
    replace (512 ^ (3 - N.of_nat n)) with (512 * 512 ^ (3 - N.of_nat (S n))); [lia|].
    by destruct n as [|[|[|]]]; [..|lia].
Qed.
End tables.

(** Where the tables can be read and have no huge pages, [print_page] prints,
    run by run, exactly the pages that the processor maps, with the frames it
    maps them to. *)
Lemma print_page_run cr3 map (m : phys_mem) :
  table_frame cr3 m PAGE_TABLE_ADDR = Ok cr3 → readable cr3 map m 3 cr3 0 →
  ∃ out, print_page cr3 map m = Ok out ∧
    ∀ v p, (v, p) ∈ expand_all out ↔ v < W64 ∧ v mod 4096 = 0 ∧ translate cr3 m v = Some p.
Proof.
  intros Hf Hrd. destruct (print_table_run cr3 map m 2 PAGE_TABLE_ADDR cr3 0 0) as (out & Hrun & Hex); [lia|done|done|done|].
  exists out. split; [done|]. intros v p. rewrite Hex. unfold translate, canonical.
  change (2 ^ 47) with 140737488355328. unfold KERNEL_START_VIRT. split.
  - intros Hvp. destruct (mapped_list_addr _ _ _ _ _ _ Hvp) as (w & Hw & ->); [done|lia|].
    apply (elem_mapped cr3 map m 3 cr3 0 w p ltac:(lia) Hw Hrd) in Hvp as [_ Hwk]. change (2 ^ 36) with 68719476736 in Hw.
    split_and!; [|apply page_addr_aligned|rewrite Hwk]; unfold page_addr; change (2 ^ 35) with 34359738368;
      destruct (N.ltb_spec w 34359738368); try lia.
    + by rewrite (proj2 (N.ltb_lt _ _)) by lia.
    + by rewrite (proj2 (N.leb_le _ _)), orb_true_r by lia.
  - intros (Hv & Hal & Htr).
    assert (∃ w, w < 2 ^ 36 ∧ v = page_addr w) as (w & Hw & ->).
    { change (2 ^ 36) with 68719476736. unfold page_addr. change (2 ^ 35) with 34359738368.
      destruct (N.ltb_spec v 140737488355328).
      - exists (v / 4096). split; [lia|]. rewrite (proj2 (N.ltb_lt _ _)) by lia. lia.
      - destruct (N.leb_spec 18446603336221196288 v); [|done].
        exists ((v - 18446462598732840960) / 4096). split; [lia|]. rewrite (proj2 (N.ltb_ge _ _)) by lia. lia. }
    apply (elem_mapped cr3 map m 3 cr3 0 w p ltac:(lia) Hw Hrd). split.
    + change (512 ^ (N.of_nat 3 + 1)) with 68719476736. change (2 ^ 36) with 68719476736 in Hw. lia.
    + by destruct (_ || _) in Htr.
Qed.

End print.

(** ** An example: the tables of the boot code *)
Import MemoryMapSpec PageTableSpec.

Definition pt_frame (i : N) : N :=
  if i =? 0 then 0x5f3000 else if i =? 1 then 0x5f4000 else if i =? 0x78 then 0x5f5000 else 0x5f6000.

Lemma boot_present f i :
  page_present (boot_tables f) i = true →
  (f = 0x5f0000 → i = 256 ∧ boot_tables f i = (0x5f1000, 3)) ∧
  (f = 0x5f1000 → i = 0 ∧ boot_tables f i = (0x5f2000, 3)) ∧
  (f = 0x5f2000 → (i = 0 ∨ i = 1 ∨ i = 0x78 ∨ i = 0xff) ∧ boot_tables f i = (pt_frame i, 3)).
Proof.
  intros Hp. split_and!; intros ->; unfold page_present, boot_tables in *; simpl in *.
  - destruct (N.eqb_spec i 256); [done|]. simpl in Hp. done.
  - destruct (N.eqb_spec i 0); [done|]. simpl in Hp. done.
  - unfold pt_frame. destruct (N.eqb_spec i 0); [by auto|]. destruct (N.eqb_spec i 1); [by auto|].
    destruct (N.eqb_spec i 120); [by auto|]. destruct (N.eqb_spec i 255); [by auto 6|]. done.
Qed.

Lemma boot_pt_printable i virt :
  i = 0 ∨ i = 1 ∨ i = 0x78 ∨ i = 0xff → virt + 1 < 2 ^ 27 → printable (boot_tables (pt_frame i)) virt.
Proof.
  intros Hi Hv. split; [done|]. change (2 ^ 52) with 4503599627370496. intros k Hk _.
  destruct Hi as [->|[->|[->| ->]]]; unfold boot_tables; simpl; lia.
Qed.

Lemma boot_readable : readable 0x5f0000 [] boot_tables 3 0x5f0000 0.
Proof.
  intros i _ Hp. destruct (boot_present _ _ Hp) as (H0 & _ & _). destruct (H0 eq_refl) as [-> ->]. split; [reflexivity|].
  split; [exists 0xffff8000003f1000; split; vm_compute; reflexivity|]. clear Hp H0.
  intros i _ Hp. destruct (boot_present _ _ Hp) as (_ & H1 & _). destruct (H1 eq_refl) as [-> ->]. split; [reflexivity|].
  split; [exists 0xffff8000003f2000; split; vm_compute; reflexivity|]. clear Hp H1.
  intros i _ Hp. destruct (boot_present _ _ Hp) as (_ & _ & H2). destruct (H2 eq_refl) as [Hi ->]. split; [reflexivity|].
  split; [|apply boot_pt_printable; [exact Hi|change (2 ^ 27) with 134217728; cbn [N.mul N.add]; lia]].
  exists (pt_frame i - 0x5f3000 + 0xffff8000003f3000).
  destruct Hi as [->|[->|[->| ->]]]; split; vm_compute; reflexivity.
Qed.

End PagePrintSpec.
