(* ===== verification/BootTables.v ===== *)
(** * The address space after boot

    [PageTableSpec] shows that dynamic memory is mapped.  Here nothing else is:
    if the boot code leaves the kernel's half in order and nothing where the
    first tables will be, then the tables after [init_dyn_page] map dynamic
    memory and what the boot code mapped for the kernel, and no other page; and
    all of them can be read by [print_page]. *)
From S2P Require Import Prelude MemoryMap MemoryMapSpec KernelMemory PageTable PageTableWalk PageTableSpec PagePrint PagePrintSpec.
Import MemoryMap MemoryMapSpec PageTable PageTableWalk PageTableSpec PagePrint PagePrintSpec.
Local Open Scope N_scope.

Module BootTables.

Section boot_tables.
Context `{X86Paging, X86Addr, NumIter}.
Context (cr3 tmptable : N) (map : list MemoryMapEntry) (m0 : phys_mem).

Abbreviation untouched := (spared cr3 (tmp_frame tmptable) (page map) (page_count map)).
Abbreviation kernel_maps := (kernel_path cr3 (tmp_frame tmptable) (page map) (page_count map) m0).

(** A table of the kernel's half, and all below it: they lie apart from the
    frames that are written, and are mapped where [phys_to_virt] says. *)
Fixpoint kernel_tables (n : nat) (f virt : N) : Prop :=
  untouched f ∧
  match n with
  | O => printable (m0 f) virt
  | S n => ∀ i, i < 512 → page_present (m0 f) i = true →
      contains (entry_flags (m0 f i)) HUGE_PAGE = false ∧
      (∃ va, phys_to_virt map (entry_addr (m0 f i)) = Ok va ∧ kernel_maps va (entry_addr (m0 f i))) ∧
      kernel_tables n (entry_addr (m0 f i)) (virt * 512 + i)
  end.

Record boot_complete : Prop := {
  bc_ok : boot_ok cr3 tmptable map m0;
  bc_blank : blank_start cr3 (page map) m0;
  bc_kernel i : 256 ≤ i < 512 → page_present (m0 cr3) i = true →
    contains (entry_flags (m0 cr3 i)) HUGE_PAGE = false ∧
    (∃ va, phys_to_virt map (entry_addr (m0 cr3 i)) = Ok va ∧ kernel_maps va (entry_addr (m0 cr3 i))) ∧
    kernel_tables 2 (entry_addr (m0 cr3 i)) i;
}.

Context (HC : boot_complete).
Local Abbreviation agrees := (agree cr3 (tmp_frame tmptable) (page map) (page_count map) m0).
Local Abbreviation walker_inv := (winv cr3 (tmp_frame tmptable) (page map) (page_count map) m0 PAGE_TABLE_ADDR).
Local Abbreviation table_of := (tab cr3 (page map)).

(** ** The kernel's half *)
Lemma kernel_tables_readable m n f virt : agrees m → kernel_tables n f virt → readable cr3 map m n f virt.
Proof.
  intros Ha. revert f virt. induction n as [|n IH]; intros f virt [Hs Hk].
  - cbn [readable]. destruct Hk as [Hv Hp]. split; [done|]. unfold page_present in *. intros i Hi. rewrite (proj1 Ha f i Hs). by apply Hp.
  - cbn [readable]. intros i Hi. unfold page_present. rewrite (proj1 Ha f i Hs). intros Hp.
    destruct (Hk i Hi Hp) as (Hh & (va & Hva & Hpath) & Hrec). split_and!; [done| |by apply IH].
    exists va. split; [done|]. by eapply kernel_access.
Qed.

Lemma kernel_tables_walk m n f virt va : agrees m → kernel_tables n f virt → walk n m f va = walk n m0 f va.
Proof.
  intros Ha. assert (∀ n : nat, table_index n va < 512) as Hti by (intros k; unfold table_index; by apply N.mod_lt).
  revert f virt. induction n as [|n IH]; intros f virt [Hs Hk]; cbn [walk]; rewrite (proj1 Ha _ _ Hs); [done|].
  destruct (contains (entry_flags (m0 f (table_index (S n) va))) PRESENT) eqn:Hp; [|done].
  destruct (Hk (table_index (S n) va) (Hti _) Hp) as (-> & _ & Hrec). by eapply IH.
Qed.

(** ** Dynamic memory *)
Section walked.
Context (w : PageInitWalker) (m : phys_mem) (g : ghost).
Context (HW : walker_inv w m g) (HR : rest g 3) (HX : gx g 3%nat = 512 + page_count map).

(** The entries in use of a table are those that the walker filled. *)
Lemma slot_used l j i :
  (l ≤ 3)%nat → valid g l j → i < 512 → (l = 0%nat → i < 256) → page_present (m (table_of g l j)) i = true →
  lo l ≤ 512 * j + i < gx g l ∧ link m (table_of g l j) i (page map (gK g (S l) (512 * j + i))) ∧
  ((l < 3)%nat → valid g (S l) (512 * j + i)).
Proof.
  intros Hl Hv Hi Ht Hp. assert (lo l ≤ 512 * j + i < gx g l) as Hs.
  { destruct (decide (lo l ≤ 512 * j + i < gx g l)) as [|Hn]; [done|].
    pose proof (wi_clean _ _ _ _ _ _ _ _ _ HW l j i (bc_blank HC) Hv Hi Ht Hn) as He. unfold empty_slot in He.
    unfold page_present in Hp. congruence. }
  split; [done|]. split.
  - pose proof (wi_slots _ _ _ _ _ _ _ _ _ HW l _ Hl Hs) as Hlink.
    replace ((512 * j + i) / 512) with j in Hlink by lia. by replace ((512 * j + i) mod 512) with i in Hlink by lia.
  - intros Hl3. right. split; [lia|]. replace (S l - 1)%nat with l by lia.
    pose proof (wi_yx _ _ _ _ _ _ _ _ _ HW (S l) ltac:(lia)) as Hyx. replace (S l - 1)%nat with l in Hyx by lia. lia.
Qed.

Lemma page_addr_ok i : i < page_count map →
  phys_to_virt map (page map i) = Ok (4096 * (512 + i)) ∧ page map i < 2 ^ 52.
Proof.
  intros Hi. pose proof (bc_ok HC) as HB.
  destruct (page_facts _ map i (bo_regions _ _ _ _ HB) (bo_limit _ _ _ _ HB) (bo_virt _ _ _ _ HB) Hi) as (_ & _ & Hin & Hlo & Hv).
  split; [|by eapply phys_in_limit; [apply HB|]]. unfold phys_to_virt. by rewrite (proj2 (N.leb_le _ _) Hlo).
Qed.

Lemma table_read l j : valid g (S l) j → (l < 3)%nat →
  ∃ va, phys_to_virt map (table_of g (S l) j) = Ok va ∧ table_frame cr3 m va = Ok (table_of g (S l) j).
Proof.
  intros [[? _]|Hm] Hl; [done|]. pose proof (wi_lt _ _ _ _ _ _ _ _ _ HW _ _ Hm) as Hk.
  pose proof (wi_cx _ _ _ _ _ _ _ _ _ HW) as Hcx. cbn [tab].
  destruct (page_addr_ok (gK g (S l) j)) as [Hv _]; [lia|]. eexists. split; [exact Hv|].
  rewrite (winv_frame _ _ _ _ (page_bound _ _ _ _ (bc_ok HC)) _ _ _ _ _ _ HW) by lia. do 2 f_equal. lia.
Qed.

Lemma dyn_tables_readable n : (n ≤ 2)%nat → ∀ j, valid g (3 - n) j → readable cr3 map m n (table_of g (3 - n) j) j.
Proof.
  induction n as [|n IH]; intros Hn j Hv.
  - change (3 - 0)%nat with 3%nat in *. cbn [readable]. split.
    + destruct Hv as [[? _]|[_ Hj]]; [done|]. destruct (HR 3%nat ltac:(lia)) as [_ Hlt].
      pose proof (page_bound _ _ _ _ (bc_ok HC)) as Hb. change (2 ^ 35) with 34359738368 in Hb. change (2 ^ 27) with 134217728. lia.
    + intros i Hi Hp. destruct (slot_used 3 j i ltac:(lia) Hv Hi ltac:(done) Hp) as (Hs & (-> & _) & _).
      rewrite (wi_K4 _ _ _ _ _ _ _ _ _ HW). apply page_addr_ok. cbn [lo] in Hs. lia.
  - cbn [readable]. intros i Hi Hp.
    destruct (slot_used (3 - S n) j i ltac:(lia) Hv Hi ltac:(lia) Hp) as (_ & (-> & _ & Hh) & Hv'). split; [done|].
    specialize (Hv' ltac:(lia)). replace (S (3 - S n)) with (3 - n)%nat in * by lia.
    replace (j * 512 + i) with (512 * j + i) by lia.
    replace (page map (gK g (3 - n) (512 * j + i))) with (table_of g (3 - n) (512 * j + i)) by by destruct (3 - n)%nat eqn:E; [lia|].
    split; [|apply IH; [lia|done]]. destruct (3 - n)%nat as [|l] eqn:E; [lia|]. apply table_read; [done|lia].
Qed.

Lemma top_readable : readable cr3 map m 3 cr3 0.
Proof.
  intros i Hi Hp. rewrite N.mul_0_l, N.add_0_l. pose proof (wi_agree _ _ _ _ _ _ _ _ _ HW) as Ha.
  destruct (N.lt_ge_cases i 256) as [Hlow|Hhigh].
  - destruct (slot_used 0 0 i ltac:(lia) ltac:(by left) Hi ltac:(done) Hp) as (_ & (He & _ & Hh) & Hv').
    cbn [tab] in He, Hh. rewrite N.mul_0_r, N.add_0_l in *. specialize (Hv' ltac:(lia)).
    change (page map (gK g 1 i)) with (table_of g 1 i) in He. rewrite He. split; [done|].
    split; [apply table_read; [done|lia]|]. by apply (dyn_tables_readable 2).
  - unfold page_present in Hp. rewrite (proj2 Ha i Hhigh) in Hp |- *.
    destruct (bc_kernel HC i ltac:(lia) Hp) as (Hh & (va & Hva & Hpath) & Hk). split; [done|].
    split; [|by apply kernel_tables_readable]. exists va. split; [done|]. by eapply kernel_access.
Qed.

(** A walk through the tables of dynamic memory ends at one of its pages. *)
Lemma dyn_walk n v o p :
  (n ≤ 2)%nat → o < 4096 → valid g (3 - n) (v / 512 ^ (N.of_nat n + 1)) →
  walk n m (table_of g (3 - n) (v / 512 ^ (N.of_nat n + 1))) (4096 * v + o) = Some p → 512 ≤ v < gx g 3%nat.
Proof.
  intros Hn Ho. revert p. induction n as [|n IH]; intros p Hv Hw; cbn [walk] in Hw; rewrite table_index_page in Hw by done.
  - change (512 ^ (N.of_nat 0 + 1)) with 512 in *. change (512 ^ N.of_nat 0) with 1 in Hw. rewrite N.div_1_r in Hw.
    destruct (contains _ _) eqn:Hp in Hw; [|done].
    destruct (slot_used 3 (v / 512) (v mod 512) ltac:(lia) Hv ltac:(lia) ltac:(done) Hp) as (Hs & _). cbn [lo] in Hs. lia.
  - destruct (contains _ PRESENT) eqn:Hp in Hw; [|done].
    set (q := v / 512 ^ N.of_nat (S n)) in *.
    assert (v / 512 ^ (N.of_nat (S n) + 1) = q / 512) as Hq.
    { unfold q. rewrite N.add_1_r, N.pow_succ_r', (N.mul_comm 512). by rewrite N.Div0.div_div. }
    rewrite Hq in *. destruct (slot_used (3 - S n) (q / 512) (q mod 512) ltac:(lia) Hv ltac:(lia) ltac:(lia) Hp) as (_ & (He & _ & Hh) & Hv').
    replace (512 * (q / 512) + q mod 512) with q in * by lia. specialize (Hv' ltac:(lia)). rewrite Hh, He in Hw.
    replace (S (3 - S n)) with (3 - n)%nat in * by lia.
    replace (page map (gK g (3 - n) q)) with (table_of g (3 - n) q) in Hw by by destruct (3 - n)%nat eqn:E; [lia|].
    assert (q = v / 512 ^ (N.of_nat n + 1)) as Eq by (unfold q; do 2 f_equal; lia). rewrite Eq in *. by eapply IH; [lia|..].
Qed.
End walked.

Lemma top_walk_low w m g v o p :
  walker_inv w m g → rest g 3 → gx g 3%nat = 512 + page_count map →
  v < 2 ^ 35 → o < 4096 → walk 3 m cr3 (4096 * v + o) = Some p → 512 ≤ v < 512 + page_count map.
Proof.
  intros HW HR HX Hv Ho Hw. change (2 ^ 35) with 34359738368 in Hv. unfold walk in Hw; fold walk in Hw. rewrite table_index_page in Hw by done.
  change (512 ^ N.of_nat 3) with 134217728 in Hw. replace (v / 134217728 mod 512) with (v / 134217728) in Hw by lia.
  destruct (contains _ PRESENT) eqn:Hp in Hw; [|done].
  destruct (slot_used w m g HW HX 0 0 (v / 134217728) ltac:(lia) ltac:(by left) ltac:(lia) ltac:(lia) Hp) as (_ & (He & _ & Hh) & Hv').
  cbn [tab] in He, Hh. rewrite N.mul_0_r, N.add_0_l in *. rewrite Hh, He in Hw. rewrite <-HX.
  apply (dyn_walk w m g HW HX 2 v o p); [done|done|by apply Hv'; lia|done].
Qed.

(** ** The address space *)
Record address_space (m : phys_mem) : Prop := {
  as_top : table_frame cr3 m PAGE_TABLE_ADDR = Ok cr3;
  as_readable : readable cr3 map m 3 cr3 0;
  as_dyn v : DYNMEM_START_VIRT ≤ v < DYNMEM_START_VIRT + total_size map →
    ∃ p, translate cr3 m v = Some p ∧ virt_to_phys_dynmem v map DYNMEM_START_VIRT = Ok p;
  as_kernel v : KERNEL_START_VIRT ≤ v < W64 → translate cr3 m v = translate cr3 m0 v;
  as_rest v : v < KERNEL_START_VIRT → ¬ (DYNMEM_START_VIRT ≤ v < DYNMEM_START_VIRT + total_size map) → translate cr3 m v = None;
}.

Lemma dyn_mapped_space d d' m : dyn_mapped cr3 tmptable map m0 d d' m → address_space m.
Proof.
  intros HD. pose proof (bc_ok HC) as HB. pose proof (total_size_mod _ _ (bo_regions _ _ _ _ HB)) as Hts.
  assert (page_count map * 4096 = total_size map) as Hpc by (unfold page_count; lia).
  destruct (dm_walked _ _ _ _ _ _ _ HD) as (w & g & HW & HR & HX). pose proof (wi_agree _ _ _ _ _ _ _ _ _ HW) as Ha. split.
  - eapply kernel_access; [exact Ha|apply HB].
  - by apply (top_readable w m g).
  - intros v Hv. replace v with (DYNMEM_START_VIRT + (v - DYNMEM_START_VIRT)) by lia. eexists. split.
    + apply (dm_translate _ _ _ _ _ _ _ HD). lia.
    + apply (page_offset DYNMEM_START_PHYS); [apply HB..|lia].
  - intros v Hv. unfold translate, canonical. rewrite (proj2 (N.leb_le KERNEL_START_VIRT v)), orb_true_r by lia.
    assert (256 ≤ table_index 3 v < 512) as Hi.
    { unfold table_index. change (2 ^ (12 + 9 * N.of_nat 3)) with 549755813888. unfold KERNEL_START_VIRT in Hv. lia. }
    unfold walk; fold walk. rewrite (proj2 Ha _ (proj1 Hi)). destruct (contains _ PRESENT) eqn:Hp; [|done].
    destruct (bc_kernel HC _ Hi Hp) as (-> & _ & Hk). exact (kernel_tables_walk m 2 _ _ v Ha Hk).
  - intros v Hv Hout. unfold translate. destruct (canonical v) eqn:Hcan; [|done]. unfold canonical in Hcan.
    rewrite (proj2 (N.leb_gt KERNEL_START_VIRT v)), orb_false_r in Hcan by done. apply N.ltb_lt in Hcan.
    change (2 ^ 47) with 140737488355328 in Hcan. destruct (walk 3 m cr3 v) as [p|] eqn:Hwk; [|done].
    replace v with (4096 * (v / 4096) + v mod 4096) in Hwk by lia.
    pose proof (top_walk_low w m g (v / 4096) (v mod 4096) p HW HR HX ltac:(change (2 ^ 35) with 34359738368; lia) ltac:(lia) Hwk).
    unfold DYNMEM_START_VIRT in *. lia.
Qed.
End boot_tables.
End BootTables.
