(* ===== verification/Startup.v ===== *)
(** * The boot code's page tables: [kernel/src/startup.S] and [entry.S]

    The part of [startup.S] that sets up paging, and the first instructions of
    [_entry], as programs on physical memory.  They leave the page tables on
    which [kmain] relies, whatever memory held before. *)
From S2P Require Import Prelude MemoryMap MemoryMapSpec KernelMemory PageTable PageTableWalk PageTableSpec PagePrint PagePrintSpec BootTables E820 Detect.
Import MemoryMap MemoryMapSpec PageTable PageTableWalk PageTableSpec PagePrint PagePrintSpec BootTables.
Local Open Scope N_scope.

Module Startup.

(** ** Memory in double words *)
Definition dwords := N → N.
Definition movl (v a : N) (m : dwords) : dwords := λ x, if x =? a then v mod W32 else m x.
Definition qword (m : dwords) (a : N) : N := m a + W32 * m (a + 4).

(** [add] on a 32-bit register. *)
Definition addl (x y : N) : N := (x + y) mod W32.

(** [rep stosl] *)
Fixpoint rep_stosl (ecx : nat) (eax edi : N) (m : dwords) : dwords :=
  match ecx with
  | O => m
  | S ecx => rep_stosl ecx eax (addl edi 4) (movl eax edi m)
  end.

(** The label [1] of [page_init]: entries up to the end of the table. *)
Fixpoint page_entries (fuel : nat) (edi eax : N) (m : dwords) : result (N * N * dwords) :=
  match fuel with
  | O => Panic OutOfFuel
  | S fuel =>
      let edx := N.lor eax 3 in
      let m := movl edx edi m in
      let m := movl 0 (addl edi 4) m in
      let eax := addl eax 0x1000 in
      let edi := addl edi 8 in
      if N.land edi 0xfff =? 0 then Ok (edi, eax, m) else page_entries fuel edi eax m
  end.

(** The label [0]: [ecx] tables, at least one, and their entries in the
    directory. *)
Fixpoint directory_entries (ecx : nat) (ebx edi eax : N) (m : dwords) : result dwords :=
  let edx := N.lor edi 3 in
  let m := movl edx ebx m in
  let m := movl 0 (addl ebx 4) m in
  '(edi, eax, m) ← page_entries 512 edi eax m;
  let ebx := addl ebx 8 in
  match ecx with
  | O => Panic OutOfFuel
  | S O => Ok m
  | S ecx => directory_entries ecx ebx edi eax m
  end.

(** Registers are restored at the end. *)
Definition page_init (ebx edi : N) (ecx : nat) (eax : N) (m : dwords) : result dwords := directory_entries ecx ebx edi eax m.

Definition PAGE_TABLE : N := 0x005f0000.
(** The address at which [terminal.rs] finds video memory. *)
Definition VIDEO_MEMORY : N := 0xffff80001feb8000.

Definition set_up_paging (m : dwords) : result dwords :=
  let ebx := PAGE_TABLE in
  let m := rep_stosl (N.to_nat 0x4000) 0 ebx m in
  let m := movl 0x1003 ebx m in
  let ebx := addl ebx 0x800 in
  let m := movl 0x005f1003 ebx m in
  let ebx := addl ebx 0x800 in
  let m := movl 0x005f2003 ebx m in
  let ebx := addl ebx 0x1000 in
  let edi := addl ebx 0x1000 in
  m ← page_init ebx edi 2 0x00200000 m;
  let edi := addl edi 0x2000 in
  let ebx := addl ebx (0x78 * 8) in
  m ← page_init ebx edi 1 0x00600000 m;
  let edi := addl edi 0x1000 in
  let ebx := addl ebx (0x87 * 8) in
  m ← page_init ebx edi 1 0 m;
  let m := movl 0x2003 0x1000 m in
  page_init 0x2000 0x3000 1 0 m.

(** [_entry]: the mapping of the lower half is taken away. *)
Definition clear_lower (m : dwords) : dwords := movl 0 (PAGE_TABLE + 4) (movl 0 PAGE_TABLE m).

(** ** What the instructions write *)
Lemma movl_eq v a m : v < W32 → movl v a m a = v.
Proof. intros Hv. unfold movl. rewrite N.eqb_refl. by apply N.mod_small. Qed.
Lemma movl_ne v a m x : x ≠ a → movl v a m x = m x.
Proof. intros Hne. unfold movl. by rewrite (proj2 (N.eqb_neq _ _) Hne). Qed.

Lemma addl_small x y : x + y < W32 → addl x y = x + y.
Proof. apply N.mod_small. Qed.

Lemma qword_same m m' a : m' a = m a → m' (a + 4) = m (a + 4) → qword m' a = qword m a.
Proof. unfold qword. by intros -> ->. Qed.
Lemma qword_low m a v : m a = v → m (a + 4) = 0 → qword m a = v.
Proof. unfold qword. intros -> ->. lia. Qed.

Lemma rep_stosl_run n eax edi m : edi + 4 * N.of_nat n < W32 → eax < W32 →
  (∀ k, k < N.of_nat n → rep_stosl n eax edi m (edi + 4 * k) = eax) ∧
  ∀ a, ¬ (edi ≤ a < edi + 4 * N.of_nat n) → rep_stosl n eax edi m a = m a.
Proof.
  revert edi m. induction n as [|n IH]; intros edi m Hlt Hx; [split; [lia|done]|].
  cbn [rep_stosl]. rewrite addl_small by lia. destruct (IH (edi + 4) (movl eax edi m)) as [H1 H2]; [lia|done|]. split.
  - intros k Hk. destruct (decide (k = 0)) as [->|].
    + rewrite H2 by lia. rewrite N.mul_0_r, N.add_0_r. by apply movl_eq.
    + replace (edi + 4 * k) with (edi + 4 + 4 * (k - 1)) by lia. apply H1. lia.
  - intros a Ha. rewrite H2 by lia. apply movl_ne. lia.
Qed.

Lemma lor_3 a : a mod 4096 = 0 → N.lor a 3 = a + 3.
Proof.
  intros Ha. replace a with (a / 4096 * 1024 * 2 ^ 2) by (change (2 ^ 2) with 4; lia). by apply lor_low.
Qed.

Lemma land_fff a : N.land a 0xfff = a mod 4096.
Proof. change 0xfff with (N.ones 12). apply N.land_ones. Qed.

(** [n] entries from the one at [edi] on complete the table. *)
Lemma page_entries_run n edi eax m fuel :
  edi mod 8 = 0 → eax mod 4096 = 0 → (edi + 8 * N.of_nat (S n)) mod 4096 = 0 → (S n ≤ 512)%nat → (S n ≤ fuel)%nat →
  edi + 8 * N.of_nat (S n) < W32 → eax + 4096 * N.of_nat (S n) < W32 →
  ∃ m', page_entries fuel edi eax m = Ok (edi + 8 * N.of_nat (S n), eax + 4096 * N.of_nat (S n), m') ∧
    (∀ k, k < N.of_nat (S n) → m' (edi + 8 * k) = eax + 4096 * k + 3 ∧ m' (edi + 8 * k + 4) = 0) ∧
    ∀ a, ¬ (edi ≤ a < edi + 8 * N.of_nat (S n)) → m' a = m a.
Proof.
  revert edi eax m fuel. induction n as [|n IH]; intros edi eax m fuel He Hx Hend H512 Hf Hlt Hlx;
    (destruct fuel as [|fuel]; [lia|]); cbn [page_entries]; rewrite land_fff, !addl_small by lia; rewrite lor_3 by done.
  - change (8 * N.of_nat 1) with 8 in *. rewrite Hend. change (0 =? 0) with true. cbv iota. eexists. split; [do 3 f_equal; lia|]. split.
    + intros k Hk. assert (k = 0) as -> by lia. rewrite N.mul_0_r, !N.add_0_r, movl_ne, !movl_eq by lia. split; [lia|done].
    + intros a Ha. by rewrite !movl_ne by lia.
  - rewrite (proj2 (N.eqb_neq _ _)) by lia.
    destruct (IH (edi + 8) (eax + 4096) (movl 0 (edi + 4) (movl (eax + 3) edi m)) fuel) as (m' & -> & H1 & H2); [lia..|].
    exists m'. split; [do 3 f_equal; lia|]. split.
    + intros k Hk. destruct (decide (k = 0)) as [->|].
      * rewrite N.mul_0_r, !N.add_0_r, !H2, movl_ne, !movl_eq by lia. split; [lia|done].
      * replace (edi + 8 * k) with (edi + 8 + 8 * (k - 1)) by lia. destruct (H1 (k - 1) ltac:(lia)) as [-> ->]. split; [lia|done].
    + intros a Ha. rewrite H2, !movl_ne by lia. done.
Qed.

Lemma page_init_loop_run ecx ebx edi eax m :
  (1 ≤ ecx)%nat → ebx mod 8 = 0 → edi mod 4096 = 0 → eax mod 4096 = 0 →
  ebx + 8 * N.of_nat ecx < W32 → edi + 4096 * N.of_nat ecx < W32 → eax + 2097152 * N.of_nat ecx < W32 →
  ebx + 8 * N.of_nat ecx ≤ edi ∨ edi + 4096 * N.of_nat ecx ≤ ebx →
  ∃ m', page_init ebx edi ecx eax m = Ok m' ∧
    (∀ j, j < N.of_nat ecx → qword m' (ebx + 8 * j) = edi + 4096 * j + 3) ∧
    (∀ k, k < 512 * N.of_nat ecx → qword m' (edi + 8 * k) = eax + 4096 * k + 3) ∧
    ∀ a, ¬ (ebx ≤ a < ebx + 8 * N.of_nat ecx) → ¬ (edi ≤ a < edi + 4096 * N.of_nat ecx) → m' a = m a.
Proof.
  unfold page_init. revert ebx edi eax m. induction ecx as [|ecx IH]; intros ebx edi eax m Hn Hb Hd Hx Lb Ld Lx Hdis; [lia|].
  cbn [directory_entries]. rewrite !addl_small by lia. rewrite lor_3 by done.
  destruct (page_entries_run 511 edi eax (movl 0 (ebx + 4) (movl (edi + 3) ebx m)) 512) as (m1 & -> & H1 & H2); [lia..|].
  change (8 * N.of_nat 512) with 4096 in *. change (4096 * N.of_nat 512) with 2097152 in *. change (N.of_nat 512) with 512 in *. mred.
  assert (qword m1 ebx = edi + 3) as Hq0.
  { unfold qword. rewrite !H2, movl_ne, !movl_eq by lia. lia. }
  assert (∀ k, k < 512 → qword m1 (edi + 8 * k) = eax + 4096 * k + 3) as Hq1.
  { intros k Hk. unfold qword. destruct (H1 k Hk) as [-> ->]. lia. }
  assert (∀ a, ¬ (ebx ≤ a < ebx + 8) → ¬ (edi ≤ a < edi + 4096) → m1 a = m a) as Hq2.
  { intros a Ha Ha'. by rewrite H2, !movl_ne by lia. }
  destruct ecx as [|ecx].
  - exists m1. split; [done|]. change (N.of_nat 1) with 1. split_and!.
    + intros j Hj. assert (j = 0) as -> by lia. rewrite !N.mul_0_r, !N.add_0_r. done.
    + intros k Hk. apply Hq1. lia.
    + intros a Ha Ha'. apply Hq2; lia.
  - destruct (IH (ebx + 8) (edi + 4096) (eax + 2097152) m1) as (m' & -> & J1 & J2 & J3); [lia..|].
    exists m'. split; [done|]. split_and!.
    + intros j Hj. destruct (decide (j = 0)) as [->|].
      * rewrite !N.mul_0_r, !N.add_0_r. rewrite <-Hq0. unfold qword. by rewrite !J3 by lia.
      * replace (ebx + 8 * j) with (ebx + 8 + 8 * (j - 1)) by lia. rewrite J1 by lia. lia.
    + intros k Hk. destruct (N.lt_ge_cases k 512).
      * rewrite <-Hq1 by done. unfold qword. by rewrite !J3 by lia.
      * replace (edi + 8 * k) with (edi + 4096 + 8 * (k - 512)) by lia. rewrite J2 by lia. lia.
    + intros a Ha Ha'. rewrite J3 by lia. apply Hq2; lia.
Qed.

(** The state that [set_up_paging] leaves, call by call of [page_init]. *)
Record paged (m m' : dwords) : Prop := {
  pd_code j : j < 2 → qword m' (0x5f2000 + 8 * j) = 0x5f3000 + 4096 * j + 3;
  pd_stack : qword m' 0x5f23c0 = 0x5f5003;
  pd_low : qword m' 0x5f27f8 = 0x5f6003;
  pt_code k : k < 1024 → qword m' (0x5f3000 + 8 * k) = 0x200000 + 4096 * k + 3;
  pt_stack k : k < 512 → qword m' (0x5f5000 + 8 * k) = 0x600000 + 4096 * k + 3;
  pt_low k : k < 512 → qword m' (0x5f6000 + 8 * k) = 4096 * k + 3;
  pd_top : qword m' 0x5f0800 = 0x5f1003;
  pd_second : qword m' 0x5f1000 = 0x5f2003;
  pd_zero i : 0 < i < 1536 → i ∉ [256; 512; 1024; 1025; 1144; 1279] → qword m' (0x5f0000 + 8 * i) = 0;
  pd_above a : 0x600000 ≤ a → m' a = m a;
  pd_between a : 0x4000 ≤ a < 0x200000 → m' a = m a;
  (** The temporary tables; the upper half of their first entry is not written. *)
  pd_lower : qword m' 0x5f0000 = 0x1003;
  pd_tmp : m' 0x1000 = 0x2003 ∧ m' 0x1004 = m 0x1004;
  pd_tmp_dir : qword m' 0x2000 = 0x3003;
  pt_tmp k : k < 512 → qword m' (0x3000 + 8 * k) = 4096 * k + 3;
}.

(** Zeroes, and the three entries written one by one. *)
Lemma cleared_run m :
  let s := movl 0x005f2003 0x5f1000 (movl 0x005f1003 0x5f0800 (movl 0x1003 0x5f0000 (rep_stosl (N.to_nat 0x4000) 0 0x5f0000 m))) in
  (∀ i, 0 < i < 8192 → i ≠ 256 → i ≠ 512 → qword s (0x5f0000 + 8 * i) = 0) ∧
  qword s 0x5f0000 = 0x1003 ∧ qword s 0x5f0800 = 0x5f1003 ∧ qword s 0x5f1000 = 0x5f2003 ∧
  ∀ a, a < 0x5f0000 ∨ 0x600000 ≤ a → s a = m a.
Proof.
  intros s. pose proof (rep_stosl_run (N.to_nat 0x4000) 0 0x5f0000 m ltac:(rewrite N2Nat.id; lia) eq_refl) as [Z1 Z2].
  rewrite N2Nat.id in Z1, Z2. unfold s. clear s. set (s0 := rep_stosl _ _ _ _) in *. clearbody s0. split_and!.
  - intros i Hi H1 H2. replace (0x5f0000 + 8 * i) with (0x5f0000 + 4 * (2 * i)) by lia.
    apply qword_low; rewrite !movl_ne by lia; [apply Z1; lia|].
    replace (0x5f0000 + 4 * (2 * i) + 4) with (0x5f0000 + 4 * (2 * i + 1)) by lia. apply Z1. lia.
  - apply qword_low; [by rewrite !movl_ne, movl_eq by lia|]. rewrite !movl_ne by lia. apply (Z1 1). lia.
  - apply qword_low; [by rewrite movl_ne, movl_eq by lia|]. rewrite !movl_ne by lia. apply (Z1 513). lia.
  - apply qword_low; [by rewrite movl_eq by lia|]. rewrite !movl_ne by lia. apply (Z1 1025). lia.
  - intros a Ha. rewrite !movl_ne by lia. apply Z2. lia.
Qed.

Lemma set_up_paging_run m : ∃ m', set_up_paging m = Ok m' ∧ paged m m'.
Proof.
  destruct (cleared_run m) as (Z0 & Zl & Z1 & Z2 & Z3). unfold set_up_paging, PAGE_TABLE. cbv zeta.
  repeat match goal with |- context [addl ?x ?y] => let v := eval vm_compute in (addl x y) in change (addl x y) with v end.
  set (s3 := movl 0x5f2003 _ _) in *. clearbody s3.
  destruct (page_init_loop_run 2 0x5f2000 0x5f3000 0x200000 s3) as (p1 & -> & A1 & B1 & C1); [lia..|]. mred.
  destruct (page_init_loop_run 1 0x5f23c0 0x5f5000 0x600000 p1) as (p2 & -> & A2 & B2 & C2); [lia..|]. mred.
  destruct (page_init_loop_run 1 0x5f27f8 0x5f6000 0 p2) as (p3 & -> & A3 & B3 & C3); [lia..|]. mred.
  destruct (page_init_loop_run 1 0x2000 0x3000 0 (movl 0x2003 0x1000 p3)) as (p4 & -> & A4 & B4 & C4); [lia..|].
  change (8 * N.of_nat 2) with 16 in *. change (8 * N.of_nat 1) with 8 in *. change (512 * N.of_nat 2) with 1024 in *.
  change (4096 * N.of_nat 2) with 8192 in *. change (4096 * N.of_nat 1) with 4096 in *. change (512 * N.of_nat 1) with 512 in *.
  exists p4. split; [done|].
  assert (∀ a, 0x5f0000 ≤ a → p4 a = p3 a) as E4 by (intros a Ha; by rewrite C4, movl_ne by lia).
  assert (∀ a, 0x5f0000 ≤ a → ¬ (0x5f2000 ≤ a < 0x5f2010) → ¬ (0x5f23c0 ≤ a < 0x5f23c8) → ¬ (0x5f27f8 ≤ a < 0x5f2800) →
    ¬ (0x5f3000 ≤ a < 0x5f7000) → p4 a = s3 a) as E3 by (intros a ?????; rewrite E4, C3, C2, C1 by lia; done).
  split.
  - intros j Hj. rewrite <-A1 by lia. apply qword_same; by rewrite E4, C3, C2 by lia.
  - etransitivity; [|exact (A2 0 ltac:(lia))]. apply qword_same; by rewrite E4, C3 by lia.
  - etransitivity; [|exact (A3 0 ltac:(lia))]. apply qword_same; by rewrite E4 by lia.
  - intros k Hk. rewrite <-B1 by lia. apply qword_same; by rewrite E4, C3, C2 by lia.
  - intros k Hk. rewrite <-B2 by lia. apply qword_same; by rewrite E4, C3 by lia.
  - intros k Hk. rewrite <-(N.add_0_l (4096 * k)), <-B3 by lia. apply qword_same; by rewrite E4 by lia.
  - rewrite <-Z1. apply qword_same; by rewrite E3 by lia.
  - rewrite <-Z2. apply qword_same; by rewrite E3 by lia.
  - intros i Hi Hn. rewrite !not_elem_of_cons in Hn. destruct Hn as (? & ? & ? & ? & ? & ? & _).
    rewrite <-(Z0 i) by lia. apply qword_same; apply E3; lia.
  - intros a Ha. rewrite E3 by lia. apply Z3. lia.
  - intros a Ha. rewrite C4, movl_ne, C3, C2, C1 by lia. apply Z3. lia.
  - rewrite <-Zl. apply qword_same; by rewrite E3 by lia.
  - rewrite !C4 by lia. split; [by apply movl_eq|]. rewrite movl_ne, C3, C2, C1 by lia. apply Z3. lia.
  - exact (A4 0 ltac:(lia)).
  - intros k Hk. by rewrite B4.
Qed.

(** The entries of the tables at [PAGE_TABLE]: the kernel's code and data, its
    stack, and the lowest 2 MB, from the address [KERNEL_START_VIRT] on. *)
Definition boot_raw (f i : N) : N :=
  if f =? 0x5f0000 then if i =? 256 then 0x5f1003 else 0
  else if f =? 0x5f1000 then if i =? 0 then 0x5f2003 else 0
  else if f =? 0x5f2000 then
    if i =? 0 then 0x5f3003 else if i =? 1 then 0x5f4003 else if i =? 0x78 then 0x5f5003 else if i =? 0xff then 0x5f6003 else 0
  else if f =? 0x5f3000 then 0x200000 + 4096 * i + 3
  else if f =? 0x5f4000 then 0x400000 + 4096 * i + 3
  else if f =? 0x5f5000 then 0x600000 + 4096 * i + 3
  else 4096 * i + 3.

Definition boot_frames : list N := [0x5f0000; 0x5f1000; 0x5f2000; 0x5f3000; 0x5f4000; 0x5f5000; 0x5f6000].

Lemma paged_entries m m' f i :
  paged m m' → f ∈ boot_frames → i < 512 → qword (clear_lower m') (f + 8 * i) = boot_raw f i.
Proof.
  intros HP Hf Hi. unfold boot_frames in Hf. rewrite !elem_of_cons, elem_of_nil in Hf.
  assert (∀ a, 0x5f0008 ≤ a → qword (clear_lower m') a = qword m' a) as Q
    by (intros a Ha; apply qword_same; unfold clear_lower, PAGE_TABLE; by rewrite !movl_ne by lia).
  assert (∀ k, 0 < k < 1536 → k ∉ [256; 512; 1024; 1025; 1144; 1279] → qword (clear_lower m') (0x5f0000 + 8 * k) = 0) as Q0
    by (intros k Hk Hn; rewrite Q by lia; by apply (pd_zero _ _ HP)).
  destruct Hf as [->|[->|[->|[->|[->|[->|[->|[]]]]]]]]; unfold boot_raw; cbn [N.eqb Pos.eqb].
  - destruct (decide (i = 0)) as [->|]; [done|].
    destruct (N.eqb_spec i 256) as [->|]; [by rewrite Q by lia; apply HP|apply Q0; [lia|]].
    rewrite !not_elem_of_cons. split_and!; try lia. apply not_elem_of_nil.
  - replace (0x5f1000 + 8 * i) with (0x5f0000 + 8 * (512 + i)) by lia.
    destruct (N.eqb_spec i 0) as [->|]; [by rewrite Q by lia; apply HP|apply Q0; [lia|]].
    rewrite !not_elem_of_cons. split_and!; try lia. apply not_elem_of_nil.
  - destruct (N.eqb_spec i 0) as [->|]; [rewrite Q by lia; by apply (pd_code _ _ HP 0)|].
    destruct (N.eqb_spec i 1) as [->|]; [rewrite Q by lia; by apply (pd_code _ _ HP 1)|].
    destruct (N.eqb_spec i 0x78) as [->|]; [rewrite Q by lia; apply HP|].
    destruct (N.eqb_spec i 0xff) as [->|]; [rewrite Q by lia; apply HP|].
    replace (0x5f2000 + 8 * i) with (0x5f0000 + 8 * (1024 + i)) by lia. apply Q0; [lia|].
    rewrite !not_elem_of_cons. split_and!; try lia. apply not_elem_of_nil.
  - rewrite Q by lia. apply (pt_code _ _ HP). lia.
  - rewrite Q by lia. replace (0x5f4000 + 8 * i) with (0x5f3000 + 8 * (512 + i)) by lia. rewrite (pt_code _ _ HP) by lia. lia.
  - rewrite Q by lia. by apply (pt_stack _ _ HP).
  - rewrite Q by lia. by apply (pt_low _ _ HP).
Qed.

(** ** The page tables that the processor finds *)
(** The crate [x86_64]: an entry is its 64 bits. *)
Class RawEntry `{X86Paging} := {
  from_raw : N → PageTableEntry;
  from_raw_addr raw : entry_addr (from_raw raw) = raw mod 2 ^ 52 / 4096 * 4096;
  from_raw_present raw : contains (entry_flags (from_raw raw)) PRESENT = N.testbit raw 0;
  from_raw_huge raw : contains (entry_flags (from_raw raw)) HUGE_PAGE = N.testbit raw 7;
}.

Section tables.
Context `{XP : X86Paging, X86Addr, NumIter, RE : !RawEntry}.

Definition tables_in (m : dwords) : phys_mem := λ f i, from_raw (qword m (f + 8 * i)).

(** The same memory in bytes. *)
Definition bytes_of (m : dwords) : Detect.bytes_mem := λ a, E820.le_byte (m (a / 4 * 4)) (a mod 4).

(** Memory is still empty where the first page tables of dynamic memory will be. *)
Definition first_pages_zero (m : dwords) : Prop :=
  ∀ a, DYNMEM_START_PHYS ≤ a < DYNMEM_START_PHYS + 12288 → a mod 4 = 0 → m a = 0.

(** The kernel may change between [KERNEL_START_PHYS] and the page tables. *)
Definition outside_kernel (m1 m2 : dwords) : Prop := ∀ a, a < KERNEL_START_PHYS ∨ PAGE_TABLE ≤ a → m2 a = m1 a.

Lemma paged_outside m m1 m2 : outside_kernel m1 m2 → paged m m1 → paged m m2.
Proof.
  intros Hl [P1 P2 P3 P4 P5 P6 P7 P8 P9 P10 P11 P12 P13 P14 P15]. unfold outside_kernel, PAGE_TABLE, KERNEL_START_PHYS in Hl.
  assert (∀ a, 0x5f0000 ≤ a ∨ a + 4 < 0x200000 → qword m2 a = qword m1 a) as Q by (intros a Ha; apply qword_same; apply Hl; lia).
  split; intros; try (rewrite Q by lia); rewrite ?Hl by lia; auto.
Qed.

Lemma from_raw_link raw a : raw = a + 3 → a mod 4096 = 0 → a < 2 ^ 52 →
  entry_addr (from_raw raw) = a ∧ contains (entry_flags (from_raw raw)) PRESENT = true ∧
  contains (entry_flags (from_raw raw)) HUGE_PAGE = false.
Proof.
  change (2 ^ 52) with 4503599627370496. intros -> Ha Hl. rewrite from_raw_addr, from_raw_present, from_raw_huge, !N.testbit_eqb.
  change (2 ^ 52) with 4503599627370496. change (2 ^ 0) with 1. change (2 ^ 7) with 128.
  split_and!; [lia|apply N.eqb_eq; lia|apply N.eqb_neq; lia].
Qed.

Lemma from_raw_empty : contains (entry_flags (from_raw 0)) PRESENT = false.
Proof. by rewrite from_raw_present. Qed.

Context (m m' : dwords) (HP : paged m m') (tmptable : N) (map : list MemoryMapEntry).
Local Abbreviation T := (tables_in (clear_lower m')).
Local Abbreviation CR3 := 0x5f0000.

Lemma boot_entry f i : f ∈ boot_frames → i < 512 → T f i = from_raw (boot_raw f i).
Proof. intros Hf Hi. unfold tables_in. by rewrite (paged_entries m). Qed.

Lemma boot_link f i a : f ∈ boot_frames → i < 512 → boot_raw f i = a + 3 → a mod 4096 = 0 → a < 2 ^ 52 → link T f i a.
Proof. intros Hf Hi Hr Ha Hl. unfold link. rewrite boot_entry by done. by apply from_raw_link. Qed.

(** The directory of the kernel's half: index, table, first frame. *)
Definition kernel_dir : list (N * N * N) := [(0, 0x5f3000, 0x200000); (1, 0x5f4000, 0x400000); (0x78, 0x5f5000, 0x600000); (0xff, 0x5f6000, 0)].

Lemma kernel_dir_cases q pt b : (q, pt, b) ∈ kernel_dir →
  q < 256 ∧ b < 0x800000 ∧ b mod 4096 = 0 ∧ pt mod 4096 = 0 ∧ 0x5f1000 ≤ pt < 0x600000 ∧ pt ∈ boot_frames ∧
  boot_raw 0x5f2000 q = pt + 3 ∧ ∀ i, boot_raw pt i = b + 4096 * i + 3.
Proof.
  unfold kernel_dir. rewrite !elem_of_cons, elem_of_nil.
  intros [[= -> -> ->]|[[= -> -> ->]|[[= -> -> ->]|[[= -> -> ->]|[]]]]]; split_and!; try done; unfold boot_frames; rewrite !elem_of_cons; tauto.
Qed.

Lemma upper_frames f : f ∈ [0x5f0000; 0x5f1000; 0x5f2000] → f ∈ boot_frames.
Proof. unfold boot_frames. rewrite !elem_of_cons. tauto. Qed.
Local Hint Extern 1 (_ ∈ boot_frames) => (apply upper_frames; rewrite !elem_of_cons; tauto) : core.

Lemma boot_path q pt b i o : (q, pt, b) ∈ kernel_dir → i < 512 → o < 4096 →
  path CR3 T (4096 * (0xffff800000000 + 512 * q + i) + o) 0x5f1000 0x5f2000 pt (b + 4096 * i).
Proof.
  intros Hd Hi Ho. destruct (kernel_dir_cases _ _ _ Hd) as (Hq & Hb & Hba & Hpa & Hpt & Hfr & Hr2 & Hr).
  unfold path. rewrite !table_index_page by done. change (512 ^ N.of_nat 3) with 134217728. change (512 ^ N.of_nat 2) with 262144.
  change (512 ^ N.of_nat 1) with 512. change (512 ^ N.of_nat 0) with 1.
  replace ((0xffff800000000 + 512 * q + i) / 134217728 mod 512) with 256 by lia.
  replace ((0xffff800000000 + 512 * q + i) / 262144 mod 512) with 0 by lia.
  replace ((0xffff800000000 + 512 * q + i) / 512 mod 512) with q by lia.
  replace ((0xffff800000000 + 512 * q + i) / 1 mod 512) with i by lia.
  split_and!; apply boot_link; auto; change (2 ^ 52) with 4503599627370496; lia.
Qed.

(** What is known of the memory map. *)
Record map_fits : Prop := {
  mf_regions : regions DYNMEM_START_PHYS map;
  mf_limit : phys_limit map;
  mf_virt : DYNMEM_START_VIRT + total_size map < 2 ^ 47;
  mf_first : ∃ e rest, map = e :: rest ∧ base e = DYNMEM_START_PHYS ∧ 12288 ≤ size e;
}.
Definition on_stack : Prop := KSTACK_START_VIRT ≤ tmptable < KSTACK_START_VIRT + 0x200000 ∧ tmptable mod 4096 = 0.

Context (HF : map_fits) (HS : on_stack).

Lemma boot_spared f : 0x5f1000 ≤ f < 0x600000 → spared CR3 (tmp_frame tmptable) (page map) (page_count map) f.
Proof.
  intros Hf. unfold on_stack, tmp_frame, KSTACK_START_VIRT, KSTACK_START_PHYS in *. split_and!; [lia|lia|].
  intros j Hj ->. destruct (page_facts _ map j (mf_regions HF) (mf_limit HF) (mf_virt HF) Hj) as (_ & _ & _ & Hlo & _).
  unfold DYNMEM_START_PHYS in Hlo. lia.
Qed.

Lemma boot_kernel_path q pt b i : (q, pt, b) ∈ kernel_dir → i < 512 →
  kernel_path CR3 (tmp_frame tmptable) (page map) (page_count map) T (4096 * (0xffff800000000 + 512 * q + i)) (b + 4096 * i).
Proof.
  intros Hd Hi. destruct (kernel_dir_cases _ _ _ Hd) as (Hq & _ & _ & _ & Hpt & _). split_and!.
  - unfold KERNEL_START_VIRT. lia.
  - lia.
  - rewrite <-(N.add_0_r (4096 * _)), table_index_page by done. change (512 ^ N.of_nat 3) with 134217728. lia.
  - exists 0x5f1000, 0x5f2000, pt. split; [rewrite <-(N.add_0_r (4096 * (_ + i))); by apply boot_path|]. split_and!; apply boot_spared; lia.
Qed.

Lemma boot_is_ok : boot_ok CR3 tmptable map T.
Proof.
  destruct HS as [Hst Hsa]. unfold KSTACK_START_VIRT in Hst. split; try apply HF.
  - done.
  - unfold tmp_frame, KSTACK_START_VIRT, KSTACK_START_PHYS, DYNMEM_START_PHYS. lia.
  - apply (boot_kernel_path 1 0x5f4000 0x400000 0x1f0); [|done]. unfold kernel_dir. rewrite !elem_of_cons. tauto.
  - set (i := (tmptable - KSTACK_START_VIRT) / 4096). unfold KSTACK_START_VIRT in i.
    pose proof (boot_kernel_path 0x78 0x5f5000 0x600000 i) as Hk.
    replace (4096 * (0xffff800000000 + 512 * 0x78 + i)) with tmptable in Hk by (unfold i; lia).
    replace (0x600000 + 4096 * i) with (tmp_frame tmptable) in Hk
      by (unfold i, tmp_frame, KSTACK_START_VIRT, KSTACK_START_PHYS; lia).
    apply Hk; [|unfold i; lia]. unfold kernel_dir. rewrite !elem_of_cons. tauto.
Qed.

(** Which entries of the upper tables are in use. *)
Lemma startup_present f i : i < 512 →
  page_present (T f) i = true →
  (f = CR3 → i = 256 ∧ boot_raw f i = 0x5f1000 + 3) ∧ (f = 0x5f1000 → i = 0 ∧ boot_raw f i = 0x5f2000 + 3) ∧
  (f = 0x5f2000 → ∃ pt b, (i, pt, b) ∈ kernel_dir).
Proof.
  intros Hi Hp. assert (f ∈ boot_frames → boot_raw f i ≠ 0) as Hne.
  { intros Hf Hz. unfold page_present in Hp. rewrite boot_entry, Hz, from_raw_empty in Hp by done. done. }
  split_and!; intros ->; specialize (Hne ltac:(unfold boot_frames; rewrite !elem_of_cons; tauto)); unfold boot_raw in *; cbn [N.eqb Pos.eqb] in *.
  - by destruct (N.eqb_spec i 256).
  - by destruct (N.eqb_spec i 0).
  - unfold kernel_dir. setoid_rewrite elem_of_cons. setoid_rewrite elem_of_cons. setoid_rewrite elem_of_cons. setoid_rewrite elem_of_cons.
    destruct (N.eqb_spec i 0) as [->|]; [eauto|]. destruct (N.eqb_spec i 1) as [->|]; [eauto 6|].
    destruct (N.eqb_spec i 0x78) as [->|]; [eauto 8|]. destruct (N.eqb_spec i 0xff) as [->|]; [eauto 10|done].
Qed.

(** A table is found where [phys_to_virt] says. *)
Lemma boot_table_mapped f : 0x5f1000 ≤ f < 0x600000 → f mod 4096 = 0 →
  ∃ va, phys_to_virt map f = Ok va ∧ kernel_path CR3 (tmp_frame tmptable) (page map) (page_count map) T va f.
Proof.
  intros Hf Hfa. exists (4096 * (0xffff800000000 + 512 * 1 + (f - 0x400000) / 4096)). split.
  - unfold phys_to_virt, phys_to_virt_kernel, DYNMEM_START_PHYS, KSTACK_START_PHYS, KERNEL_START_PHYS, KERNEL_START_VIRT.
    rewrite (proj2 (N.leb_gt _ _)), (proj2 (N.ltb_lt _ _)) by lia. rewrite checked_sub_Ok by lia. mred.
    rewrite checked_add_Ok by lia. mred. rewrite VirtAddr_new_high by (unfold KERNEL_START_VIRT; lia). f_equal. lia.
  - replace f with (0x400000 + 4096 * ((f - 0x400000) / 4096)) at 2 by lia. apply (boot_kernel_path 1 0x5f4000); [|lia].
    unfold kernel_dir. rewrite !elem_of_cons. tauto.
Qed.

Lemma boot_kernel_tables : kernel_tables CR3 tmptable map T 2 0x5f1000 256.
Proof.
  split; [by apply boot_spared|]. intros i Hi Hp. destruct (startup_present _ i Hi Hp) as (_ & (-> & Hr)%(λ H, H eq_refl) & _).
  destruct (boot_link 0x5f1000 0 0x5f2000) as (-> & _ & Hh); [auto|done..|].
  split; [done|]. split; [by apply boot_table_mapped|]. clear Hp Hr Hh Hi.
  split; [by apply boot_spared|]. intros q Hq Hp. destruct (startup_present _ q Hq Hp) as (_ & _ & (pt & b & Hd)%(λ H, H eq_refl)).
  destruct (kernel_dir_cases _ _ _ Hd) as (Hq' & Hb & Hba & Hpa & Hpt & Hfr & Hr2 & Hr).
  destruct (boot_link 0x5f2000 q pt) as (-> & _ & Hh); [auto|done..|change (2 ^ 52) with 4503599627370496; lia|].
  split; [done|]. split; [by apply boot_table_mapped|].
  split; [by apply boot_spared|]. split; [change (2 ^ 27) with 134217728; lia|]. intros i Hi _.
  destruct (boot_link pt i (b + 4096 * i)) as (-> & _); try done; change (2 ^ 52) with 4503599627370496; lia.
Qed.

Lemma boot_is_complete :
  first_pages_zero m → boot_complete CR3 tmptable map T.
Proof.
  intros Hz. unfold first_pages_zero, DYNMEM_START_PHYS in Hz. assert (CR3 ∈ boot_frames) as Hc by (unfold boot_frames; rewrite !elem_of_cons; tauto).
  split; [apply boot_is_ok|split|].
  - intros i Hi. unfold empty_slot. rewrite boot_entry by (done || lia). unfold boot_raw. cbn [N.eqb Pos.eqb].
    rewrite (proj2 (N.eqb_neq _ _)) by lia. apply from_raw_empty.
  - intros j i Hj Hi. destruct (first_page _ _ _ _ boot_is_ok j Hj) as [-> _]. unfold empty_slot, tables_in.
    replace (qword _ _) with 0; [apply from_raw_empty|]. symmetry. unfold DYNMEM_START_PHYS.
    apply qword_low; unfold clear_lower, PAGE_TABLE; rewrite !movl_ne, (pd_above _ _ HP) by lia; apply Hz; lia.
  - intros i [_ Hi] Hp. destruct (startup_present _ i Hi Hp) as ((-> & Hr)%(λ H, H eq_refl) & _).
    destruct (boot_link CR3 256 0x5f1000) as (-> & _ & Hh); [done..|].
    split; [done|]. split; [by apply boot_table_mapped|]. apply boot_kernel_tables.
Qed.

(** The kernel's half of the address space. *)
Definition kernel_maps (v p : N) : Prop :=
  ∃ q pt b o, (q, pt, b) ∈ kernel_dir ∧ o < 0x200000 ∧ v = KERNEL_START_VIRT + 0x200000 * q + o ∧ p = b + o.

(** The addresses that the kernel is compiled with. *)
Lemma fixed_addresses :
  kernel_maps VIDEO_MEMORY 0xb8000 ∧ kernel_maps E820.MEMORY_MAP_ADDR Detect.MEMORY_MAP ∧ kernel_maps PAGE_TABLE_ADDR PAGE_TABLE.
Proof.
  split_and!; [exists 0xff, 0x5f6000, 0, 0xb8000|exists 0xff, 0x5f6000, 0, 0x6000|exists 1, 0x5f4000, 0x400000, 0x1f0000];
    (split; [unfold kernel_dir; rewrite !elem_of_cons; tauto|]); split_and!; done.
Qed.

Lemma boot_walk_index v p : walk 3 T CR3 v = Some p →
  table_index 3 v = 256 ∧ table_index 2 v = 0 ∧ ∃ pt b, (table_index 1 v, pt, b) ∈ kernel_dir.
Proof.
  assert (∀ n : nat, table_index n v < 512) as Hlt by (intros n; unfold table_index; by apply N.mod_lt).
  pose proof (λ f n, startup_present f _ (Hlt n)) as Hpr. unfold page_present in Hpr.
  unfold walk. destruct (contains _ PRESENT) eqn:P3; [|done].
  destruct (Hpr CR3 3%nat P3) as ((E3 & _)%(λ H, H eq_refl) & _). rewrite E3. clear P3.
  destruct (boot_link CR3 256 0x5f1000) as (-> & _ & ->); [auto|done..|].
  destruct (contains _ PRESENT) eqn:P2; [|done].
  destruct (Hpr 0x5f1000 2%nat P2) as (_ & (E2 & _)%(λ H, H eq_refl) & _). rewrite E2. clear P2.
  destruct (boot_link 0x5f1000 0 0x5f2000) as (-> & _ & ->); [auto|done..|].
  destruct (contains _ PRESENT) eqn:P1; [|done].
  destruct (Hpr 0x5f2000 1%nat P1) as (_ & _ & Hd%(λ H, H eq_refl)). done.
Qed.

Lemma boot_translate v p : KERNEL_START_VIRT ≤ v < W64 → translate CR3 T v = Some p ↔ kernel_maps v p.
Proof.
  intros Hv. unfold KERNEL_START_VIRT in Hv. assert (canonical v = true) as Hc.
  { unfold canonical, KERNEL_START_VIRT. by rewrite (proj2 (N.leb_le _ v)), orb_true_r by lia. }
  assert (∀ q pt b i o, (q, pt, b) ∈ kernel_dir → i < 512 → o < 4096 → v = 4096 * (0xffff800000000 + 512 * q + i) + o →
    translate CR3 T v = Some (b + 4096 * i + o)) as Hpath.
  { intros q pt b i o Hd Hi Ho ->. rewrite (path_translate CR3 T _ _ _ _ _ Hc (boot_path q pt b i o Hd Hi Ho)).
    do 2 f_equal. lia. }
  split.
  - intros Ht. pose proof Ht as Hw. unfold translate in Hw. rewrite Hc in Hw.
    destruct (boot_walk_index v p Hw) as (E3 & E2 & pt & b & Hd). set (q := table_index 1 v) in *.
    destruct (kernel_dir_cases _ _ _ Hd) as (Hq & _). unfold table_index in *.
    change (2 ^ (12 + 9 * N.of_nat 3)) with 549755813888 in E3. change (2 ^ (12 + 9 * N.of_nat 2)) with 1073741824 in E2.
    change (2 ^ (12 + 9 * N.of_nat 1)) with 2097152 in q.
    assert (v = 0xffff800000000000 + 0x200000 * q + v mod 2097152) as Hvq by (unfold q; lia).
    exists q, pt, b, (v mod 2097152). split; [done|]. unfold KERNEL_START_VIRT. split; [lia|]. split; [done|].
    rewrite (Hpath q pt b (v mod 2097152 / 4096) (v mod 4096) Hd) in Ht by lia. injection Ht as <-. lia.
  - intros (q & pt & b & o & Hd & Ho & Hvo & ->). unfold KERNEL_START_VIRT in Hvo.
    rewrite (Hpath q pt b (o / 4096) (o mod 4096) Hd) by lia. f_equal. lia.
Qed.

End tables.

(** ** An example *)
Lemma land_bit a n : (N.land a (2 ^ n) =? 2 ^ n) = N.testbit a n.
Proof.
  apply eq_true_iff_eq. rewrite N.eqb_eq. split.
  - intros He. apply (f_equal (λ x, N.testbit x n)) in He. rewrite N.land_spec, N.pow2_bits_true, andb_true_r in He. done.
  - intros Ht. apply N.bits_inj. intros k. rewrite N.land_spec, N.pow2_bits_eqb.
    destruct (N.eqb_spec n k) as [->|]; [by rewrite Ht|apply andb_false_r].
Qed.

#[export, refine] Instance raw_entry_example : RawEntry := { from_raw raw := (raw mod 2 ^ 52 / 4096 * 4096, raw) }.
Proof.
  - done.
  - intros raw. apply (land_bit raw 0).
  - intros raw. apply (land_bit raw 7).
Defined.

End Startup.
