(* ===== verification/LongMode.v ===== *)
(** * From protected mode to [kmain]: [kernel/src/startup.S] and [entry.S]

    The descriptors and control registers with which the boot code changes the
    processor's mode, its checks of the processor, the copy of the kernel to its
    place and [_entry], around the page tables of [Startup].  The processor's
    flags and [cpuid] are parameters. *)
From stdpp Require Import strings.
From S2P Require Import Prelude MemoryMap MemoryMapSpec KernelMemory PageTable PageTableWalk PageTableSpec PagePrint PagePrintSpec BootTables E820 Detect Startup.
Import MemoryMap MemoryMapSpec PageTable PageTableWalk PageTableSpec PagePrint PagePrintSpec BootTables Startup.
Local Open Scope N_scope.

Module LongMode.

(** ** Descriptors *)
Definition word (v : N) : list N := [E820.le_byte v 0; E820.le_byte v 1].
Definition long (v : N) : list N := [E820.le_byte v 0; E820.le_byte v 1; E820.le_byte v 2; E820.le_byte v 3].

Definition gdt : list N :=
  long 0 ++ long 0 ++
  (word 0xffff ++ word 0x0000 ++ [0x00; 0x9a; 0xaf; 0x00]) ++
  (word 0xffff ++ word 0x0000 ++ [0x00; 0x92; 0xaf; 0x00]) ++
  (word 0xffff ++ word 0x0000 ++ [0x00; 0x9a; 0xcf; 0x00]) ++
  (word 0xffff ++ word 0x0000 ++ [0x00; 0x92; 0xcf; 0x00]).

(** The limit that [gdtr] holds. *)
Definition gdt_limit : N := vlen gdt - 1.

(** The width of the code that the processor runs. *)
Inductive width := Bits16 | Bits32 | Bits64.
#[export] Instance width_eq_dec : EqDecision width.
Proof. solve_decision. Defined.

(** The registers that choose the processor's mode. *)
Record cpu := mkCpu { cr0 : N; cr3 : N; cr4 : N; efer : N; code : width }.

Definition PE := 0.
Definition PG := 31.
Definition PAE := 5.
Definition LME := 8.
Definition long_active (c : cpu) : bool := N.testbit (cr0 c) PG && N.testbit (efer c) LME.

(** What the processor finds at a selector: the bytes of access and of flags;
    none at the null selector and behind the limit. *)
Definition descriptor (sel : N) : option (N * N) :=
  if (sel =? 0) || (gdt_limit <? sel + 7) then None
  else
    match gdt !! N.to_nat (sel + 5), gdt !! N.to_nat (sel + 6) with Some access, Some flags => Some (access, flags) | _, _ => None end.

(** A code or data segment that is present. *)
Definition usable (executable : bool) (access : N) : bool :=
  N.testbit access 7 && N.testbit access 4 && Bool.eqb (N.testbit access 3) executable && (executable || N.testbit access 1).

(** [ljmp]; an exception before there is a table for them is a reset. *)
Definition ljmp (sel : N) (c : cpu) : result cpu :=
  match descriptor sel with
  | Some (access, flags) =>
      if usable true access then
        Ok (mkCpu (cr0 c) (cr3 c) (cr4 c) (efer c)
          (if long_active c && N.testbit flags 5 then Bits64 else if N.testbit flags 6 then Bits32 else Bits16))
      else Panic UB
  | None => Panic UB
  end.

(** The five loads of data segments. *)
Definition load_segments (sel : N) : result unit :=
  match descriptor sel with
  | Some (access, _) => if usable false access then Ok tt else Panic UB
  | None => Panic UB
  end.

(** ** Control registers *)

(** A write that the processor refuses is an exception too. *)
Definition mov_cr0 (v : N) (c : cpu) : result cpu :=
  if N.testbit v PG && negb (N.testbit v PE) then Panic UB
  else if N.testbit v PG && N.testbit (efer c) LME && negb (N.testbit (cr4 c) PAE) then Panic UB
  else Ok (mkCpu v (cr3 c) (cr4 c) (efer c) (code c)).
Definition mov_cr3 (v : N) (c : cpu) : cpu := mkCpu (cr0 c) v (cr4 c) (efer c) (code c).
Definition mov_cr4 (v : N) (c : cpu) : cpu := mkCpu (cr0 c) (cr3 c) v (efer c) (code c).
Definition wrmsr_efer (v : N) (c : cpu) : cpu := mkCpu (cr0 c) (cr3 c) (cr4 c) v (code c).

Definition enter_protected (c : cpu) : result cpu :=
  let eax := cr0 c in
  let eax := N.lor eax 0x00000001 in
  let eax := N.land eax 0x7fffffff in
  c ← mov_cr0 eax c;
  ljmp 0x18 c.

Definition enter_long (c : cpu) : result cpu :=
  let c := mov_cr3 PAGE_TABLE c in
  let c := mov_cr4 (N.lor (cr4 c) (N.shiftl 1 5)) c in
  let c := wrmsr_efer (N.lor (efer c) (N.shiftl 1 8)) c in
  c ← mov_cr0 (N.lor (cr0 c) (N.shiftl 1 31)) c;
  ljmp 0x08 c.

(** ** The checks of the processor *)

(** What [popfl] makes of the flags, by the flags before it and its operand,
    and what [cpuid] answers: [eax], [ebx], [ecx] and [edx]. *)
Class Processor := { popfl : N → N → N; cpuid : N → N * N * N * N }.

Section checks.
Context `{Processor}.

(** [Panic Explicit] is [panic32]. *)
Definition check_cpuid (eflags : N) : result N :=
  let eax := eflags in
  let ecx := eax in
  let eax := N.lxor eax (N.shiftl 1 21) in
  let eflags := popfl eflags eax in
  let eax := eflags in
  let eflags := popfl eflags ecx in
  if N.lxor eax ecx =? 0 then Panic Explicit else Ok eflags.

Definition check_long_mode : result unit :=
  let '(eax, _, _, _) := cpuid 0x80000000 in
  if eax <? 0x80000001 then Panic Explicit
  else
    let '(_, _, _, edx) := cpuid 0x80000001 in
    if N.land edx (N.shiftl 1 29) =? 0 then Panic Explicit else Ok tt.

(** A processor with 64 bits: the identification flag can be changed, and
    [cpuid] knows its extended functions and long mode. *)
Record capable (eflags : N) : Prop := {
  ca_flag : popfl eflags (N.lxor eflags (2 ^ 21)) ≠ eflags;
  ca_extended : 0x80000001 ≤ (cpuid 0x80000000).1.1.1;
  ca_long : N.testbit (cpuid 0x80000001).2 29 = true;
}.

(** ** What the changes of mode do *)
Lemma enter_protected_run c :
  ∃ v, enter_protected c = Ok (mkCpu v (cr3 c) (cr4 c) (efer c) Bits32) ∧ N.testbit v PE = true ∧ N.testbit v PG = false.
Proof.
  unfold enter_protected. set (v := N.land _ _).
  assert (N.testbit v PG = false) as Hpg by (unfold v; rewrite N.land_spec; apply andb_false_r).
  assert (N.testbit v PE = true) as Hpe by (unfold v; by rewrite N.land_spec, N.lor_spec, orb_true_r).
  exists v. unfold mov_cr0. rewrite Hpg. cbn [andb]. mred. split; [|done].
  unfold ljmp, long_active. cbn [cr0]. rewrite Hpg. done.
Qed.

Lemma enter_long_run c : N.testbit (cr0 c) PE = true →
  ∃ c', enter_long c = Ok c' ∧ code c' = Bits64 ∧ long_active c' = true ∧ cr3 c' = PAGE_TABLE.
Proof.
  intros Hpe. unfold enter_long, mov_cr0. cbn [mov_cr3 mov_cr4 wrmsr_efer cr0 cr3 cr4 efer code].
  rewrite !N.lor_spec, Hpe. change (N.testbit (N.shiftl 1 31) PG) with true. change (N.testbit (N.shiftl 1 5) PAE) with true.
  change (N.testbit (N.shiftl 1 8) LME) with true. rewrite !orb_true_r. cbn [andb orb negb]. mred.
  assert (long_active (mkCpu (N.lor (cr0 c) (N.shiftl 1 31)) PAGE_TABLE (N.lor (cr4 c) (N.shiftl 1 5)) (N.lor (efer c) (N.shiftl 1 8)) (code c)) = true) as Hl.
  { unfold long_active. cbn [cr0 efer]. rewrite !N.lor_spec.
    change (N.testbit (N.shiftl 1 31) PG) with true. change (N.testbit (N.shiftl 1 8) LME) with true. by rewrite !orb_true_r. }
  unfold ljmp. rewrite Hl. eexists. split; [reflexivity|]. split; [done|]. split; [exact Hl|done].
Qed.

Lemma load_segments_run : load_segments 0x20 = Ok tt ∧ load_segments 0x10 = Ok tt.
Proof. done. Qed.

Lemma checks_run eflags : capable eflags → (∃ eflags', check_cpuid eflags = Ok eflags') ∧ check_long_mode = Ok tt.
Proof.
  intros [Hf He Hl]. split.
  - unfold check_cpuid. change (N.shiftl 1 21) with (2 ^ 21). rewrite (proj2 (N.eqb_neq _ 0)); [by eexists|].
    intros Hx%N.lxor_eq. by apply Hf.
  - unfold check_long_mode. destruct (cpuid 0x80000000) as [[[eax ?] ?] ?], (cpuid 0x80000001) as [[[? ?] ?] edx]. cbn [fst snd] in *.
    rewrite (proj2 (N.ltb_ge _ _) He). change (N.shiftl 1 29) with (2 ^ 29). rewrite (proj2 (N.eqb_neq _ 0)); [done|].
    intros Hz. pose proof (land_bit edx 29) as Hb. rewrite Hz, Hl in Hb. done.
Qed.

(** Without long mode the code stops. *)
Lemma checks_stop eflags :
  (popfl eflags (N.lxor eflags (2 ^ 21)) = eflags → check_cpuid eflags = Panic Explicit) ∧
  ((cpuid 0x80000000).1.1.1 < 0x80000001 ∨ N.testbit (cpuid 0x80000001).2 29 = false → check_long_mode = Panic Explicit).
Proof.
  unfold check_cpuid, check_long_mode. change (N.shiftl 1 21) with (2 ^ 21). split.
  - intros ->. by rewrite N.lxor_nilpotent.
  - destruct (cpuid 0x80000000) as [[[eax ?] ?] ?], (cpuid 0x80000001) as [[[? ?] ?] edx]. cbn [fst snd].
    destruct (N.ltb_spec eax 0x80000001); [done|]. intros [?|Ht]; [lia|]. rewrite (proj2 (N.eqb_eq _ 0)); [done|].
    apply N.bits_inj. intros k. change (N.shiftl 1 29) with (2 ^ 29). rewrite N.land_spec, N.pow2_bits_eqb, N.bits_0.
    destruct (N.eqb_spec 29 k) as [<-|]; [by rewrite Ht|apply andb_false_r].
Qed.
End checks.

(** ** Bytes through the page tables *)

(** A store of a byte to physical memory. *)
Definition movb (v p : N) (m : dwords) : dwords :=
  λ x, if x =? p / 4 * 4 then E820.read_le 4 (λ k, if k =? p mod 4 then v mod 256 else E820.le_byte (m x) k) 0 else m x.

(** The bytes of real mode, seen in double words. *)
Definition dwords_of (low : Detect.bytes_mem) : dwords := λ a, E820.read_le 4 (λ x, low x mod 256) a.

Lemma bytes_of_dwords_of low a : bytes_of (dwords_of low) a = low a mod 256.
Proof.
  unfold bytes_of, dwords_of. rewrite E820.le_byte_read_le; [do 2 f_equal; lia|intros; by apply N.mod_lt|].
  change (N.of_nat 4) with 4. by apply N.mod_lt.
Qed.

Lemma dwords_of_zero low a : low a = 0 → low (a + 1) = 0 → low (a + 2) = 0 → low (a + 3) = 0 → dwords_of low a = 0.
Proof.
  intros H0 H1 H2 H3. unfold dwords_of. cbn [E820.read_le]. replace (a + 1 + 1) with (a + 2) by lia. replace (a + 2 + 1) with (a + 3) by lia.
  by rewrite H0, H1, H2, H3.
Qed.

Lemma bytes_of_movb v p m a : v < 256 → bytes_of (movb v p m) a = if a =? p then v else bytes_of m a.
Proof.
  intros Hv. unfold bytes_of, movb. destruct (N.eqb_spec (a / 4 * 4) (p / 4 * 4)) as [He|Hne].
  - rewrite E820.le_byte_read_le.
    + rewrite N.add_0_l, He. destruct (N.eqb_spec (a mod 4) (p mod 4)), (N.eqb_spec a p); [by apply N.mod_small|lia|lia|done].
    + intros k Hk. rewrite N.add_0_l. destruct (k =? p mod 4); [by apply N.mod_lt|apply E820.le_byte_lt].
    + change (N.of_nat 4) with 4. by apply N.mod_lt.
  - destruct (N.eqb_spec a p) as [->|]; done.
Qed.

(** [add] on a 64-bit register. *)
Definition addq (x y : N) : N := (x + y) mod W64.
Lemma addq_small x y : x + y < W64 → addq x y = x + y.
Proof. apply N.mod_small. Qed.

(** What the linker puts where: where the code lies that was loaded, and the
    sizes of the parts of the kernel. *)
Record image := mkImage { lma_start : N; kernel_size : N; bss_size : N }.
Definition bss_start : N := 0xffff800000100000.

(** The kernel was loaded to conventional memory, and its parts do not reach
    the page tables. *)
Record image_fits (img : image) : Prop := {
  if_loaded : 0x8000 ≤ lma_start img ∧ lma_start img + kernel_size img ≤ 0xa0000;
  if_bss : bss_size img ≤ 0x2f0000;
}.

Section long_mode.
Context `{XP : X86Paging, X86Addr, NumIter, RE : !RawEntry}.

(** An access without a mapping is an exception. *)
Definition phys (table : N) (m : dwords) (v : N) : result N :=
  match translate table (tables_in m) v with Some p => Ok p | None => Panic UB end.
Definition read_byte (table v : N) (m : dwords) : result N := p ← phys table m v; Ok (bytes_of m p).
Definition write_byte (table al v : N) (m : dwords) : result dwords := p ← phys table m v; Ok (movb al p m).

Fixpoint rep_movsb (table : N) (rcx : nat) (rsi rdi : N) (m : dwords) : result dwords :=
  match rcx with
  | O => Ok m
  | S rcx =>
      al ← read_byte table rsi m;
      m ← write_byte table al rdi m;
      rep_movsb table rcx (addq rsi 1) (addq rdi 1) m
  end.

Fixpoint rep_stosb (table : N) (rcx : nat) (al rdi : N) (m : dwords) : result dwords :=
  match rcx with
  | O => Ok m
  | S rcx =>
      m ← write_byte table al rdi m;
      rep_stosb table rcx al (addq rdi 1) m
  end.

Definition lm_start (img : image) (table : N) (m : dwords) : result dwords :=
  m ← rep_movsb table (N.to_nat (kernel_size img)) (lma_start img) KERNEL_START_VIRT m;
  rep_stosb table (N.to_nat (bss_size img)) 0 bss_start m.

(** [_entry] up to the call of [kmain]. *)
Definition entry (table : N) (m : dwords) : result dwords :=
  p ← phys table m PAGE_TABLE_ADDR;
  Ok (movl 0 (p + 4) (movl 0 p m)).

(** ** The whole of [pm_start], [lm_start] and [_entry] *)
Definition clear_screen (m : dwords) : dwords := rep_stosl (N.to_nat 1000) 0x07000700 0xb8000 m.

Definition pm_start `{Processor} (eflags : N) (c : cpu) (m : dwords) : result (cpu * dwords) :=
  _ ← load_segments 0x20;
  let m := clear_screen m in
  _ ← check_cpuid eflags;
  _ ← check_long_mode;
  m ← set_up_paging m;
  c ← enter_long c;
  Ok (c, m).

Definition startup `{Processor} (img : image) (eflags : N) (c : cpu) (m : dwords) : result (cpu * dwords) :=
  c ← enter_protected c;
  '(c, m) ← pm_start eflags c m;
  _ ← load_segments 0x10;
  m ← lm_start img (cr3 c) m;
  m ← entry (cr3 c) m;
  Ok (c, m).

(** ** Addresses before and after [_entry] *)
Section tables.
Context (m0 m1 : dwords) (HP : paged m0 m1).

Lemma boot_path_before q pt b i o : (q, pt, b) ∈ kernel_dir → i < 512 → o < 4096 →
  path PAGE_TABLE (tables_in m1) (4096 * (0xffff800000000 + 512 * q + i) + o) 0x5f1000 0x5f2000 pt (b + 4096 * i).
Proof.
  intros Hd Hi Ho. destruct (boot_path m0 m1 HP q pt b i o Hd Hi Ho) as (L0 & L1 & L2 & L3).
  destruct (kernel_dir_cases _ _ _ Hd) as (Hq & Hb & Hba & Hpa & Hpt & Hfr & Hr2 & Hr).
  assert (∀ f j, 0x5f0008 ≤ f + 8 * j → tables_in m1 f j = tables_in (clear_lower m1) f j) as Heq.
  { intros f j Hf. unfold tables_in. f_equal. symmetry. apply qword_same; unfold clear_lower, PAGE_TABLE; by rewrite !movl_ne by lia. }
  unfold path in *. rewrite !table_index_page in * by done. change (512 ^ N.of_nat 3) with 134217728 in *.
  replace ((0xffff800000000 + 512 * q + i) / 134217728 mod 512) with 256 in * by lia.
  split_and!; (eapply link_eq; [done|]); apply Heq; unfold PAGE_TABLE; lia.
Qed.

Lemma kernel_translate v p : kernel_maps v p → translate PAGE_TABLE (tables_in m1) v = Some p.
Proof.
  intros (q & pt & b & o & Hd & Ho & -> & ->). destruct (kernel_dir_cases _ _ _ Hd) as (Hq & _).
  replace (KERNEL_START_VIRT + 0x200000 * q + o) with (4096 * (0xffff800000000 + 512 * q + o / 4096) + o mod 4096) by (unfold KERNEL_START_VIRT; lia).
  erewrite path_translate; [|unfold canonical, KERNEL_START_VIRT; by rewrite (proj2 (N.leb_le _ (4096 * _ + _))), orb_true_r by lia|apply boot_path_before; [done|lia..]].
  f_equal. lia.
Qed.

(** The kernel's own 4 MB, with its page tables at their end. *)
Lemma kernel_space o : o < 0x400000 → translate PAGE_TABLE (tables_in m1) (KERNEL_START_VIRT + o) = Some (0x200000 + o).
Proof.
  intros Ho. apply kernel_translate. destruct (N.lt_ge_cases o 0x200000).
  - exists 0, 0x5f3000, 0x200000, o. split; [unfold kernel_dir; rewrite !elem_of_cons; tauto|]. split_and!; lia.
  - exists 1, 0x5f4000, 0x400000, (o - 0x200000). split; [unfold kernel_dir; rewrite !elem_of_cons; tauto|]. split_and!; lia.
Qed.

(** The lowest 2 MB are where they were, until [_entry]. *)
Lemma lower_translate v : m0 0x1004 = 0 → v < 0x200000 → translate PAGE_TABLE (tables_in m1) v = Some v.
Proof.
  intros Hz Hv. assert (∀ f i a, qword m1 (f + 8 * i) = a + 3 → a mod 4096 = 0 → a < 2 ^ 52 → link (tables_in m1) f i a) as Hl
    by (intros f i a Hq Ha Hl; unfold link, tables_in; rewrite Hq; by apply from_raw_link).
  destruct (pd_tmp _ _ HP) as [Ht Hu]. rewrite (path_translate PAGE_TABLE _ v 0x1000 0x2000 0x3000 (4096 * (v / 4096))).
  - f_equal. lia.
  - unfold canonical. change (2 ^ 47) with 140737488355328. by rewrite (proj2 (N.ltb_lt v _)) by lia.
  - unfold path, table_index. change (2 ^ (12 + 9 * N.of_nat 3)) with 549755813888. change (2 ^ (12 + 9 * N.of_nat 2)) with 1073741824.
    change (2 ^ (12 + 9 * N.of_nat 1)) with 2097152. change (2 ^ (12 + 9 * N.of_nat 0)) with 4096.
    replace (v / 549755813888 mod 512) with 0 by lia. replace (v / 1073741824 mod 512) with 0 by lia. replace (v / 2097152 mod 512) with 0 by lia.
    split_and!; apply Hl; try done; try (change (2 ^ 52) with 4503599627370496; lia).
    + apply (pd_lower _ _ HP).
    + change (0x1000 + 8 * 0) with 0x1000. unfold qword. change (0x1000 + 4) with 0x1004. rewrite Ht, Hu, Hz. done.
    + apply (pd_tmp_dir _ _ HP).
    + rewrite (pt_tmp _ _ HP) by lia. lia.
Qed.

Lemma write_byte_run al o : al < 256 → o < 0x3f0000 → let m2 := movb al (KERNEL_START_PHYS + o) m1 in
  write_byte PAGE_TABLE al (KERNEL_START_VIRT + o) m1 = Ok m2 ∧ outside_kernel m1 m2 ∧ paged m0 m2 ∧
  ∀ a, bytes_of m2 a = if a =? KERNEL_START_PHYS + o then al else bytes_of m1 a.
Proof.
  intros Hal Ho m2. assert (outside_kernel m1 m2) as Hout.
  { intros a Ha. unfold m2, movb. unfold KERNEL_START_PHYS, PAGE_TABLE in *. by rewrite (proj2 (N.eqb_neq a _)) by lia. }
  split; [unfold write_byte, phys; by rewrite kernel_space by lia|]. split; [exact Hout|]. split; [by apply (paged_outside m0 m1)|].
  intros a. by apply bytes_of_movb.
Qed.
End tables.

Lemma outside_trans m1 m2 m3 : outside_kernel m1 m2 → outside_kernel m2 m3 → outside_kernel m1 m3.
Proof. intros H1 H2 a Ha. by rewrite H2, H1. Qed.

Lemma rep_movsb_run n rsi o m0 m1 : paged m0 m1 → m0 0x1004 = 0 → rsi + N.of_nat n ≤ 0x200000 → o + N.of_nat n ≤ 0x3f0000 →
  ∃ m2, rep_movsb PAGE_TABLE n rsi (KERNEL_START_VIRT + o) m1 = Ok m2 ∧ outside_kernel m1 m2 ∧ paged m0 m2 ∧
    ∀ a, bytes_of m2 a = if (KERNEL_START_PHYS + o <=? a) && (a <? KERNEL_START_PHYS + o + N.of_nat n)
      then bytes_of m1 (rsi + (a - (KERNEL_START_PHYS + o))) else bytes_of m1 a.
Proof.
  revert rsi o m1. induction n as [|n IH]; intros rsi o m1 HP Hz Hs Ho.
  - exists m1. split; [done|]. split; [done|]. split; [done|]. intros a. unfold KERNEL_START_PHYS.
    destruct (N.leb_spec (0x200000 + o) a), (N.ltb_spec a (0x200000 + o + N.of_nat 0)); cbn [andb]; done || lia.
  - cbn [rep_movsb]. unfold read_byte, phys. rewrite (lower_translate m0 m1 HP) by (done || lia). mred.
    destruct (write_byte_run m0 m1 HP (bytes_of m1 rsi) o) as (-> & Hout & HP' & Hb); [apply E820.le_byte_lt|lia|]. mred.
    set (m1' := movb _ _ _) in *. clearbody m1'.
    rewrite !addq_small by (unfold KERNEL_START_VIRT; lia). rewrite <-N.add_assoc.
    destruct (IH (rsi + 1) (o + 1) m1' HP' Hz) as (m2 & -> & Hout2 & HP2 & Hb2); [lia..|]. exists m2. split; [done|].
    split; [by eapply outside_trans|]. split; [done|]. intros a. rewrite Hb2, !Hb. unfold KERNEL_START_PHYS in *.
    destruct (N.leb_spec (0x200000 + (o + 1)) a), (N.ltb_spec a (0x200000 + (o + 1) + N.of_nat n)), (N.leb_spec (0x200000 + o) a),
      (N.ltb_spec a (0x200000 + o + N.of_nat (S n))), (N.eqb_spec a (0x200000 + o)); cbn [andb]; try lia; try done.
    + rewrite (proj2 (N.eqb_neq _ _)) by lia. f_equal. lia.
    + f_equal. lia.
Qed.

Lemma rep_stosb_run n al o m0 m1 : paged m0 m1 → al < 256 → o + N.of_nat n ≤ 0x3f0000 →
  ∃ m2, rep_stosb PAGE_TABLE n al (KERNEL_START_VIRT + o) m1 = Ok m2 ∧ outside_kernel m1 m2 ∧ paged m0 m2 ∧
    ∀ a, bytes_of m2 a = if (KERNEL_START_PHYS + o <=? a) && (a <? KERNEL_START_PHYS + o + N.of_nat n) then al else bytes_of m1 a.
Proof.
  revert o m1. induction n as [|n IH]; intros o m1 HP Hal Ho.
  - exists m1. split; [done|]. split; [done|]. split; [done|]. intros a. unfold KERNEL_START_PHYS.
    destruct (N.leb_spec (0x200000 + o) a), (N.ltb_spec a (0x200000 + o + N.of_nat 0)); cbn [andb]; done || lia.
  - cbn [rep_stosb]. destruct (write_byte_run m0 m1 HP al o) as (-> & Hout & HP' & Hb); [done|lia|]. mred.
    set (m1' := movb _ _ _) in *. clearbody m1'.
    rewrite addq_small by (unfold KERNEL_START_VIRT; lia). rewrite <-N.add_assoc.
    destruct (IH (o + 1) m1' HP' Hal) as (m2 & -> & Hout2 & HP2 & Hb2); [lia|]. exists m2. split; [done|].
    split; [by eapply outside_trans|]. split; [done|]. intros a. rewrite Hb2, !Hb. unfold KERNEL_START_PHYS in *.
    destruct (N.leb_spec (0x200000 + (o + 1)) a), (N.ltb_spec a (0x200000 + (o + 1) + N.of_nat n)), (N.leb_spec (0x200000 + o) a),
      (N.ltb_spec a (0x200000 + o + N.of_nat (S n))), (N.eqb_spec a (0x200000 + o)); cbn [andb]; lia || done.
Qed.

(** The kernel in its place, and its zeroed data. *)
Record loaded (img : image) (m m' : dwords) : Prop := {
  ld_image k : k < kernel_size img → bytes_of m' (KERNEL_START_PHYS + k) = bytes_of m (lma_start img + k);
  ld_bss k : k < bss_size img → bytes_of m' (KERNEL_START_PHYS + 0x100000 + k) = 0;
  ld_low a : 0x4000 ≤ a < 0xb8000 → bytes_of m' a = bytes_of m a;
}.

Lemma lm_start_run img m0 m1 : image_fits img → paged m0 m1 → m0 0x1004 = 0 →
  ∃ m2, lm_start img PAGE_TABLE m1 = Ok m2 ∧ paged m0 m2 ∧ loaded img m1 m2.
Proof.
  intros [[Hlo Hhi] Hbss] HP Hz. unfold lm_start. rewrite <-(N.add_0_r KERNEL_START_VIRT).
  destruct (rep_movsb_run (N.to_nat (kernel_size img)) (lma_start img) 0 m0 m1 HP Hz) as (m2 & -> & _ & HP2 & Hb2); [lia..|]. mred.
  change bss_start with (KERNEL_START_VIRT + 0x100000).
  destruct (rep_stosb_run (N.to_nat (bss_size img)) 0 0x100000 m0 m2 HP2) as (m3 & Hm3 & _ & HP3 & Hb3); [done|lia|].
  exists m3. split; [exact Hm3|]. split; [exact HP3|]. rewrite N2Nat.id in Hb2, Hb3. unfold KERNEL_START_PHYS in *. split.
  - intros k Hk. unfold KERNEL_START_PHYS. rewrite Hb3, (proj2 (N.leb_gt (0x200000 + 0x100000) _)), Hb2 by lia. cbn [andb].
    rewrite (proj2 (N.leb_le _ _)), (proj2 (N.ltb_lt _ _)) by lia. cbn [andb]. f_equal. lia.
  - intros k Hk. unfold KERNEL_START_PHYS. rewrite Hb3, (proj2 (N.leb_le _ _)), (proj2 (N.ltb_lt _ _)) by lia. done.
  - intros a Ha. rewrite Hb3, Hb2, !(proj2 (N.leb_gt _ a)) by lia. done.
Qed.

Lemma clear_screen_frame m a : ¬ (0xb8000 ≤ a < 0xb8fa0) → clear_screen m a = m a.
Proof. intros Ha. apply rep_stosl_run; [by rewrite N2Nat.id|done|]. rewrite N2Nat.id. lia. Qed.

(** 25 rows of 80 blank cells. *)
Lemma clear_screen_run m k : k < 1000 → clear_screen m (0xb8000 + 4 * k) = 0x07000700.
Proof. intros Hk. apply rep_stosl_run; [by rewrite N2Nat.id|done|]. by rewrite N2Nat.id. Qed.

(** Memory as the kernel finds it. *)
Record booted (img : image) (tmptable : N) (map : list MemoryMapEntry) (c : cpu) (m m' : dwords) : Prop := {
  bo_mode : code c = Bits64 ∧ long_active c = true ∧ cr3 c = PAGE_TABLE;
  bo_tables : boot_complete PAGE_TABLE tmptable map (tables_in m');
  bo_space v p : KERNEL_START_VIRT ≤ v < W64 → translate PAGE_TABLE (tables_in m') v = Some p ↔ kernel_maps v p;
  bo_loaded : loaded img m m';
}.

Lemma startup_run `{Processor} img tmptable map eflags c m :
  capable eflags → image_fits img → map_fits map → on_stack tmptable → first_pages_zero m → m 0x1004 = 0 →
  ∃ c' m', startup img eflags c m = Ok (c', m') ∧ booted img tmptable map c' m m'.
Proof.
  intros Hcap Himg HF HS Hz Hu. unfold startup, pm_start. destruct load_segments_run as [-> ->].
  destruct (enter_protected_run c) as (v & -> & Hpe & _). mred. destruct (checks_run eflags Hcap) as ((f & ->) & ->). mred.
  set (ms := clear_screen m). pose proof (clear_screen_frame m) as Hs. fold ms in Hs.
  clearbody ms.
  assert (ms 0x1004 = 0) as Hu' by (rewrite Hs by lia; exact Hu).
  destruct (set_up_paging_run ms) as (m1 & -> & HP). mred.
  destruct (enter_long_run (mkCpu v (cr3 c) (cr4 c) (efer c) Bits32) Hpe) as (c' & -> & Hc & Hl & Hcr). mred. rewrite Hcr.
  destruct (lm_start_run img ms m1 Himg HP Hu') as (m2 & -> & HP2 & [L1 L2 L3]). mred.
  assert (entry PAGE_TABLE m2 = Ok (clear_lower m2)) as ->.
  { unfold entry, phys. change PAGE_TABLE_ADDR with (KERNEL_START_VIRT + 0x3f0000). by rewrite (kernel_space ms m2 HP2) by lia. }
  mred. exists c', (clear_lower m2). split; [done|].
  assert (∀ a, a < 0x5f0000 → bytes_of (clear_lower m2) a = bytes_of m2 a) as Hcl
    by (intros a Ha; unfold bytes_of, clear_lower, PAGE_TABLE; by rewrite !movl_ne by lia).
  assert (∀ a, 0x4000 ≤ a < 0xb8000 → bytes_of m1 a = bytes_of m a) as Hlow
    by (intros a Ha; unfold bytes_of; rewrite (pd_between _ _ HP), Hs by lia; done).
  destruct Himg as [[Hlo Hhi] Hbss]. split.
  - done.
  - apply (boot_is_complete ms m2 HP2); [done|done|]. intros a Ha Ha4. unfold DYNMEM_START_PHYS in Ha. rewrite Hs by lia. by apply Hz.
  - intros w p Hw. by apply (boot_translate ms m2 HP2).
  - unfold KERNEL_START_PHYS in *. split.
    + intros k Hk. unfold KERNEL_START_PHYS. rewrite Hcl, L1 by lia. apply Hlow. lia.
    + intros k Hk. unfold KERNEL_START_PHYS. rewrite Hcl by lia. by apply L2.
    + intros a Ha. rewrite Hcl, L3 by lia. by apply Hlow.
Qed.

(** ** [panic32] *)
Definition lm_failmsg : list N := Detect.asciz "This computer does not support 64bit mode"%string.

Definition stosw (ax edi : N) (m : dwords) : dwords := movb (ax / 256) (edi + 1) (movb (ax mod 256) edi m).

(** The message at [esi] in white on black; then the processor stops. *)
Fixpoint print_message (ah : N) (esi : list N) (edi : N) (m : dwords) : dwords :=
  match esi with
  | [] => m
  | al :: esi => if al =? 0 then m else print_message ah esi (addl edi 2) (stosw (al + 256 * ah) edi m)
  end.
Definition panic32 (m : dwords) : dwords := print_message 0x07 lm_failmsg 0xb8000 m.

Lemma print_message_run ah s edi m : ah < 256 → Forall (λ al, 0 < al < 256) s → edi + 2 * vlen s < W32 →
  let m' := print_message ah (s ++ [0]) edi m in
  (∀ i al, s !! N.to_nat i = Some al → bytes_of m' (edi + 2 * i) = al ∧ bytes_of m' (edi + 2 * i + 1) = ah) ∧
  ∀ a, ¬ (edi ≤ a < edi + 2 * vlen s) → bytes_of m' a = bytes_of m a.
Proof.
  intros Ha Hs. revert edi m. induction Hs as [|al s [Hal Hal'] Hs IH]; intros edi m Hlt; cbn [print_message app]; [split; [done|]|].
  { intros a _. by rewrite N.eqb_refl. }
  rewrite vlen_cons in *. rewrite (proj2 (N.eqb_neq al 0)), addl_small by lia.
  destruct (IH (edi + 2) (stosw (al + 256 * ah) edi m)) as [H1 H2]; [lia|]. set (m' := print_message _ _ _ _) in *. clearbody m'.
  assert (∀ a, bytes_of (stosw (al + 256 * ah) edi m) a = if a =? edi + 1 then ah else if a =? edi then al else bytes_of m a) as Hw.
  { intros a. unfold stosw. replace ((al + 256 * ah) / 256) with ah by lia. replace ((al + 256 * ah) mod 256) with al by lia.
    by rewrite !bytes_of_movb. }
  split.
  - intros i x Hi. destruct (decide (i = 0)) as [->|Hne].
    + injection Hi as <-. rewrite N.mul_0_r, N.add_0_r, !H2, !Hw, !N.eqb_refl by lia. by rewrite (proj2 (N.eqb_neq edi _)) by lia.
    + replace (N.to_nat i) with (S (N.to_nat (i - 1))) in Hi by lia. destruct (H1 _ _ Hi) as [<- <-]. split; f_equal; lia.
  - intros a Hna. rewrite H2, Hw, !(proj2 (N.eqb_neq a _)) by lia. done.
Qed.

(** The screen was blank before. *)
Lemma panic32_screen m i al : lm_failmsg !! N.to_nat i = Some al → al ≠ 0 →
  bytes_of (panic32 (clear_screen m)) (0xb8000 + 2 * i) = al ∧ bytes_of (panic32 (clear_screen m)) (0xb8000 + 2 * i + 1) = 7.
Proof.
  intros Hi Hne. destruct (print_message_run 7 (take 41 lm_failmsg) 0xb8000 (clear_screen m)) as [H1 _].
  - done.
  - vm_compute. repeat constructor.
  - vm_compute. done.
  - change (take 41 lm_failmsg ++ [0]) with lm_failmsg in H1. apply H1. apply lookup_lt_Some in Hi as Hlt. change (length lm_failmsg) with 42%nat in Hlt.
    destruct (decide (N.to_nat i < 41)%nat); [by rewrite lookup_take_lt|].
    replace (N.to_nat i) with 41%nat in Hi by lia. vm_compute in Hi. injection Hi as <-. done.
Qed.

(** C10: from the code of [startup.S] to the end of [init_dyn_page]: on a
    processor with long mode, with an image that fits, a temporary table on the
    stack, a memory map that starts at [DYNMEM_START_PHYS] with three pages
    ([map_fits]), and zeroes in these pages and in the double word at [0x1004],
    which no code writes before they are used; whatever the control registers
    and the rest of memory hold: the boot code enters 64-bit mode and leaves
    the kernel's image, byte for byte, and its zeroed data where the kernel is
    mapped; the address space is then exactly dynamic memory, as the memory map
    orders it, and the kernel's code and data, stack and low memory, where the
    boot code put them; the addresses with which the kernel is compiled are
    those of video memory, the BIOS map and the top table; [print_page] lists
    exactly these pages. *)
Theorem boot_address_space `{Processor} img tmptable map eflags c m d :
  capable eflags → image_fits img → map_fits map → on_stack tmptable → first_pages_zero m → m 0x1004 = 0 →
  ∃ c' m' d' m1, startup img eflags c m = Ok (c', m') ∧ code c' = Bits64 ∧ long_active c' = true ∧ loaded img m m' ∧
    init_dyn_page (cr3 c') map tmptable d (tables_in m') = Ok (d', m1) ∧
    let mapped v p := (DYNMEM_START_VIRT ≤ v < DYNMEM_START_VIRT + total_size map ∧
      virt_to_phys_dynmem v map DYNMEM_START_VIRT = Ok p) ∨ kernel_maps v p in
    (∀ v p, v < W64 → translate (cr3 c') m1 v = Some p ↔ mapped v p) ∧
    mapped VIDEO_MEMORY 0xb8000 ∧ mapped E820.MEMORY_MAP_ADDR Detect.MEMORY_MAP ∧ mapped PAGE_TABLE_ADDR PAGE_TABLE ∧
    (∀ o, o < 0x100000 → mapped (KERNEL_START_VIRT + o) (KERNEL_START_PHYS + o) ∧ mapped (bss_start + o) (KERNEL_START_PHYS + 0x100000 + o)) ∧
    ∃ out, print_page (cr3 c') map m1 = Ok out ∧
      ∀ v p, (v, p) ∈ expand_all out ↔ v < W64 ∧ v mod 4096 = 0 ∧ mapped v p.
Proof.
  intros Hcap Himg HF HS Hz Hu. destruct (startup_run img tmptable map eflags c m Hcap Himg HF HS Hz Hu) as (c' & m0 & Hst & [(Hc & Hl & Hcr) HC Hk Hld]).
  destruct (init_dyn_page_run PAGE_TABLE tmptable map (tables_in m0) (bc_ok _ _ _ _ HC) d) as (d' & m1 & Hrun & HD).
  exists c', m0, d', m1. do 4 (split; [assumption|]). rewrite Hcr. split; [exact Hrun|]. intros mapped.
  destruct (dyn_mapped_space _ _ _ _ HC _ _ _ HD) as [Htop Hread Hdyn Hker Hrest].
  assert (∀ v p, v < W64 → translate PAGE_TABLE m1 v = Some p ↔ mapped v p) as Hmap.
  { intros v p Hv. unfold mapped. pose proof (mf_virt _ HF) as Hvirt. change (2 ^ 47) with 140737488355328 in Hvirt.
    destruct (N.le_gt_cases KERNEL_START_VIRT v) as [Hle|Hgt].
    - rewrite (Hker v (conj Hle Hv)), (Hk v p (conj Hle Hv)). unfold KERNEL_START_VIRT in Hle.
      split; [intros Hp; right; exact Hp|]. intros [[? _]|Hp]; [lia|exact Hp].
    - assert (¬ kernel_maps v p) as Hnk by (intros (q & pt & b & o & _ & _ & -> & _); lia).
      destruct (decide (DYNMEM_START_VIRT ≤ v < DYNMEM_START_VIRT + total_size map)) as [Hin|Hout].
      + destruct (Hdyn v Hin) as (p' & Et & Ep). rewrite Et, Ep.
        split; [intros [= ->]; left; split; [exact Hin|reflexivity]|]. intros [[_ [= ->]]|Hp]; [reflexivity|destruct (Hnk Hp)].
      + rewrite (Hrest v Hgt Hout). split; [intros [=]|]. intros [[Hin _]|Hp]; [destruct (Hout Hin)|destruct (Hnk Hp)]. }
  split; [exact Hmap|]. destruct fixed_addresses as (Hfv & Hfm & Hft). do 3 (split; [right; assumption|]). split.
  - intros o Ho. unfold bss_start, KERNEL_START_VIRT, KERNEL_START_PHYS. split; right; exists 0, 0x5f3000, 0x200000.
    + exists o. split; [unfold kernel_dir; rewrite !elem_of_cons; tauto|]. unfold KERNEL_START_VIRT. split_and!; lia.
    + exists (0x100000 + o). split; [unfold kernel_dir; rewrite !elem_of_cons; tauto|]. unfold KERNEL_START_VIRT. split_and!; lia.
  - destruct (print_page_run PAGE_TABLE map m1 Htop Hread) as (out & Hp & Hex). exists out. split; [exact Hp|].
    intros v p. rewrite Hex. split; intros (Hv & Ha & Hm); (split; [exact Hv|]; split; [exact Ha|]); apply (Hmap v p Hv); exact Hm.
Qed.

(** All of [startup.S], from real mode on. *)
Definition boot_code `{Processor, Detect.Bios B} (fuel : nat) (gate : bool) (b : B) (img : image) (eflags : N) (c : cpu)
    (mem : Detect.bytes_mem) : result (cpu * dwords) :=
  '(_, low) ← Detect.real_mode fuel gate b mem;
  startup img eflags c (dwords_of low).
End long_mode.

(** ** An example *)
#[export] Instance processor_example : Processor := {
  popfl _ v := v;
  cpuid eax := if eax =? 0x80000000 then (0x80000008, 0, 0, 0) else (0, 0, 0, 0x20100800);
}.
Definition demo_image : image := mkImage 0x8400 0x20000 0x4000.
Definition demo_cpu : cpu := mkCpu 0x60000010 0 0 0 Bits16.

Lemma demo_capable : capable 2.
Proof. split; vm_compute; congruence. Qed.
Lemma demo_image_fits : image_fits demo_image.
Proof. split; [split|]; vm_compute; congruence. Qed.

Lemma boot_address_space_witness :
  ∃ c m0 d' m1, startup demo_image 2 demo_cpu (λ _, 0) = Ok (c, m0) ∧ code c = Bits64 ∧ bytes_of m0 0x300000 = 0 ∧
    init_dyn_page (cr3 c) demo_map demo_tmptable KernelMemory.MEMORY_DATA (tables_in m0) = Ok (d', m1) ∧
    translate (cr3 c) m1 0x208123 = Some 0x900123 ∧ translate (cr3 c) m1 0xffff80000f000010 = Some 0x600010 ∧
    translate (cr3 c) m1 0x1000 = None.
Proof.
  destruct demo_regions as [Hr Hlim].
  destruct (boot_address_space demo_image demo_tmptable demo_map 2 demo_cpu (λ _, 0) KernelMemory.MEMORY_DATA)
    as (c & m0 & d' & m1 & Hs & Hc & _ & Hld & Hi & Hm & _).
  - exact demo_capable.
  - exact demo_image_fits.
  - split; [exact Hr|exact Hlim|vm_compute; reflexivity|]. eexists _, _. split; [reflexivity|]. split; [reflexivity|]. vm_compute. discriminate.
  - split; [split; [vm_compute; discriminate|vm_compute; reflexivity]|vm_compute; reflexivity].
  - intros a _ _. reflexivity.
  - reflexivity.
  - exists c, m0, d', m1. split; [exact Hs|]. split; [exact Hc|]. split; [apply (ld_bss _ _ _ Hld 0); vm_compute; reflexivity|].
    split; [exact Hi|]. split; [|split].
    + apply Hm; [vm_compute; reflexivity|]. left. split; [vm_compute; split; [discriminate|reflexivity]|vm_compute; reflexivity].
    + apply Hm; [vm_compute; reflexivity|]. right. exists 0x78, 0x5f5000, 0x600000, 0x10. split; [unfold kernel_dir; rewrite !elem_of_cons; tauto|].
      split; [lia|]. split; reflexivity.
    + destruct (translate (cr3 c) m1 0x1000) as [p|] eqn:Ht; [|reflexivity]. exfalso.
      apply Hm in Ht as [[[Hlo _] _]|(q & pt & b & o & _ & _ & Hv & _)]; [vm_compute in Hlo; by apply Hlo|unfold KERNEL_START_VIRT in Hv; lia|vm_compute; reflexivity].
Defined.

End LongMode.
