(* ===== verification/Context.v ===== *)
(** * The context switch: [kernel/src/context.rs] and [context.S]

    [switch_context(from, to)] saves the registers of its caller, as they
    will be after the call, into [*from] and loads all registers from [*to].
    The instructions of [context.S] run on a machine of registers and 64-bit
    words of memory. *)
From S2P Require Import Prelude.
Local Open Scope N_scope.

Module Context.

Record Context := mkContext {
  gs : N; fs : N; es : N; ds : N;
  r15 : N; r14 : N; r13 : N; r12 : N; r11 : N; r10 : N; r9 : N; r8 : N;
  rsi : N; rdi : N; rdx : N; rcx : N; rbx : N; rax : N; rbp : N;
  rip : N; cs : N; rflags : N; rsp : N; ss : N;
}.

Definition context_new : Context := mkContext 0 0 0 0 0 0 0 0 0 0 0 0 0 0 0 0 0 0 0 0 0 0 0 0.

(** The fields in memory ([repr(C)]). *)
Definition fields (c : Context) : list N :=
  [gs c; fs c; es c; ds c; r15 c; r14 c; r13 c; r12 c; r11 c; r10 c; r9 c; r8 c; rsi c; rdi c; rdx c; rcx c;
   rbx c; rax c; rbp c; rip c; cs c; rflags c; rsp c; ss c].
Definition CONTEXT_SIZE : N := 24 * 8.

(** ** The machine *)
Inductive reg :=
  | GS | FS | ES | DS | R15 | R14 | R13 | R12 | R11 | R10 | R9 | R8 | RSI | RDI | RDX | RCX | RBX | RAX | RBP
  | RIP | CS | RFLAGS | RSP | SS.

Definition get (r : reg) (c : Context) : N :=
  match r with
  | GS => gs c | FS => fs c | ES => es c | DS => ds c | R15 => r15 c | R14 => r14 c | R13 => r13 c | R12 => r12 c
  | R11 => r11 c | R10 => r10 c | R9 => r9 c | R8 => r8 c | RSI => rsi c | RDI => rdi c | RDX => rdx c | RCX => rcx c
  | RBX => rbx c | RAX => rax c | RBP => rbp c | RIP => rip c | CS => cs c | RFLAGS => rflags c | RSP => rsp c | SS => ss c
  end.

Definition set (r : reg) (v : N) (c : Context) : Context :=
  let s r' := match r, r' with
    | GS, GS | FS, FS | ES, ES | DS, DS | R15, R15 | R14, R14 | R13, R13 | R12, R12 | R11, R11 | R10, R10 | R9, R9
    | R8, R8 | RSI, RSI | RDI, RDI | RDX, RDX | RCX, RCX | RBX, RBX | RAX, RAX | RBP, RBP | RIP, RIP | CS, CS
    | RFLAGS, RFLAGS | RSP, RSP | SS, SS => v
    | _, _ => get r' c end in
  mkContext (s GS) (s FS) (s ES) (s DS) (s R15) (s R14) (s R13) (s R12) (s R11) (s R10) (s R9) (s R8) (s RSI) (s RDI)
    (s RDX) (s RCX) (s RBX) (s RAX) (s RBP) (s RIP) (s CS) (s RFLAGS) (s RSP) (s SS).

(** Registers, and memory as the words at the addresses that are multiples of 8. *)
Record machine := mkMachine { regs : Context; words : N → N }.

Definition write (a v : N) (w : N → N) : N → N := λ x, if x =? a then v else w x.

Definition reg_of (s : machine) (r : reg) : N := get r (regs s).
Definition set_reg (r : reg) (v : N) (s : machine) : machine := mkMachine (set r v (regs s)) (words s).
Definition store (a v : N) (s : machine) : machine := mkMachine (regs s) (write a v (words s)).

Inductive instr :=
  | Push (r : reg)            (* push; a segment register is extended with zeroes, [pushfq] for the flags *)
  | Pop (r : reg)
  | PopSeg (r : reg)          (* pop into a segment register *)
  | Cli
  | Clear (r : reg)           (* xor of a register with itself *)
  | Mov (src dst : reg)
  | MovFromSeg (seg r : reg)  (* the low 16 bits of [r] *)
  | MovToSeg (r seg : reg)
  | Store (src : reg) (disp : N) (base : reg)
  | Load (disp : N) (base dst : reg)
  | AddImm (imm : N) (r : reg)
  | Iretq.

Section machine.
(** What an arithmetic instruction makes of the flags, from its result; the
    interrupt flag is none of them. *)
Context (alu_flags : N → N → N).

Definition low16 (v : N) : N := v mod W16.

Definition exec (i : instr) (s : machine) : machine :=
  match i with
  | Push r =>
      let sp := (reg_of s RSP + (W64 - 8)) mod W64 in
      store sp (reg_of s r) (set_reg RSP sp s)
  | Pop r =>
      let v := words s (reg_of s RSP) in
      set_reg r v (set_reg RSP ((reg_of s RSP + 8) mod W64) s)
  | PopSeg r =>
      let v := words s (reg_of s RSP) in
      set_reg r (low16 v) (set_reg RSP ((reg_of s RSP + 8) mod W64) s)
  | Cli => set_reg RFLAGS (N.clearbit (reg_of s RFLAGS) 9) s
  | Clear r => set_reg r 0 (set_reg RFLAGS (alu_flags 0 (reg_of s RFLAGS)) s)
  | Mov src dst => set_reg dst (reg_of s src) s
  | MovFromSeg seg r => set_reg r (reg_of s r / W16 * W16 + low16 (reg_of s seg)) s
  | MovToSeg r seg => set_reg seg (low16 (reg_of s r)) s
  | Store src disp base => store ((reg_of s base + disp) mod W64) (reg_of s src) s
  | Load disp base dst => set_reg dst (words s ((reg_of s base + disp) mod W64)) s
  | AddImm imm r =>
      let v := (reg_of s r + imm) mod W64 in
      set_reg r v (set_reg RFLAGS (alu_flags v (reg_of s RFLAGS)) s)
  | Iretq =>
      let p := reg_of s RSP in
      let w d := words s ((p + d) mod W64) in
      set_reg SS (low16 (w 32)) (set_reg RSP (w 24) (set_reg RFLAGS (w 16)
        (set_reg CS (low16 (w 8)) (set_reg RIP (words s p) s))))
  end.

(** ** [context.S] *)
Definition switch_context_code : list instr :=
  [ Push RBP; Mov RSP RBP;
    Push RAX; Push RFLAGS; Cli;
    Clear RAX; MovFromSeg SS RAX; Store RAX (23 * 8) RDI;
    Mov RBP RAX; AddImm 16 RAX; Store RAX (22 * 8) RDI;
    Pop RAX; Store RAX (21 * 8) RDI;
    Clear RAX; MovFromSeg CS RAX; Store RAX (20 * 8) RDI;
    Load 8 RBP RAX; Store RAX (19 * 8) RDI;
    Pop RAX; Pop RBP;
    Mov RDI RSP; AddImm (19 * 8) RSP;
    Push RBP; Push RAX; Push RBX; Push RCX; Push RDX; Push RDI; Push RSI;
    Push R8; Push R9; Push R10; Push R11; Push R12; Push R13; Push R14; Push R15;
    Clear RAX; MovFromSeg DS RAX; Push RAX; MovFromSeg ES RAX; Push RAX; Push FS; Push GS;
    Mov RSI RSP;
    PopSeg GS; PopSeg FS; Pop RAX; MovToSeg RAX ES; Pop RAX; MovToSeg RAX DS;
    Pop R15; Pop R14; Pop R13; Pop R12; Pop R11; Pop R10; Pop R9; Pop R8; Pop RSI; Pop RDI; Pop RDX; Pop RCX;
    Pop RBX; Pop RAX; Pop RBP;
    Iretq ].

Definition run (code : list instr) (s : machine) : machine := foldl (λ s i, exec i s) s code.
Definition switch_context (s : machine) : machine := run switch_context_code s.
End machine.

End Context.
