(* ===== verification/ContextSpec.v ===== *)
(** * The context switch: correctness

    [switch_context] saves the caller as it is after the call and loads the
    other context ([switch_context_spec]); switching back makes the first
    call return ([switch_returns]); while the stack pointer points into a
    context, interrupts are off ([switch_uninterrupted]). *)
From S2P Require Import Prelude Context.
Import Context.
Local Open Scope N_scope.

Module ContextSpec.

Section switch.
Context (alu_flags : N → N → N).
Abbreviation exec := (exec alu_flags).
Abbreviation run := (run alu_flags).

Lemma run_app c1 c2 s : run (c1 ++ c2) s = run c2 (run c1 s).
Proof. apply foldl_app. Qed.

Lemma push_addr a : 8 ≤ a < W64 → (a + (W64 - 8)) mod W64 = a - 8.
Proof. intros Ha. replace (a + (W64 - 8)) with (a - 8 + 1 * W64) by lia. rewrite N.Div0.mod_add. apply N.mod_small. lia. Qed.

Lemma write_eq a v w : write a v w a = v.
Proof. unfold write. by rewrite N.eqb_refl. Qed.
Lemma write_ne a v w x : x ≠ a → write a v w x = w x.
Proof. unfold write. by destruct (N.eqb_spec x a). Qed.

(** A selector moved into a register that holds at most another selector. *)
Lemma seg_low r x : r < W16 → x < W16 → r / W16 * W16 + x mod W16 = x.
Proof. lia. Qed.

Lemma run_step i l s s' : exec i s = s' → run (i :: l) s = run l s'.
Proof. by intros <-. Qed.
Lemma run_nil s : run [] s = s.
Proof. done. Qed.

(** One instruction on a machine whose registers are given one by one. *)
Ltac machine_step :=
  match goal with
  | |- context [Context.run _ (?i :: ?l) ?s] =>
      let s' := eval cbv beta iota zeta delta [Context.exec reg_of set_reg store get set regs words low16
        gs fs es ds r15 r14 r13 r12 r11 r10 r9 r8 rsi rdi rdx rcx rbx rax rbp rip cs rflags rsp ss] in (exec i s) in
      rewrite (run_step i l s s' eq_refl)
  end;
  repeat match goal with
  | |- context [(?a + (18446744073709551616 - 8)) mod 18446744073709551616] => rewrite (push_addr a) by lia
  | |- context [?a mod 18446744073709551616] => rewrite (N.mod_small a W64) by lia
  | |- context [?p + N.pos ?a + N.pos ?b] =>
      let c := eval vm_compute in (N.pos a + N.pos b) in replace (p + N.pos a + N.pos b) with (p + c) by lia
  | |- context [?p + N.pos ?a - N.pos ?b] =>
      let c := eval vm_compute in (N.pos a - N.pos b) in replace (p + N.pos a - N.pos b) with (p + c) by lia
  | |- context [?p - N.pos ?a - N.pos ?b] =>
      let c := eval vm_compute in (N.pos a + N.pos b) in replace (p - N.pos a - N.pos b) with (p - c) by lia
  | |- context [?p - N.pos ?a + N.pos ?b] =>
      let c := eval vm_compute in (N.pos a - N.pos b) in
      let d := eval vm_compute in (N.pos b - N.pos a) in
      first [ replace (p - N.pos a + N.pos b) with (p - c) by lia | replace (p - N.pos a + N.pos b) with (p + d) by lia ]
  | |- context [?p - 0] => rewrite (N.sub_0_r p)
  | |- context [N.pos ?a * N.pos ?b] =>
      let c := eval vm_compute in (N.pos a * N.pos b) in change (N.pos a * N.pos b) with c
  | |- context [?r / 65536 * 65536 + ?x mod 65536] => rewrite (seg_low r x) by lia
  | |- context [write ?a ?v ?w ?x] =>
      first [ rewrite (write_ne a v w x) by lia | replace x with a by lia; rewrite (write_eq a v w) ]
  end.

(** The words of a context in memory. *)
Definition context_at (w : N → N) (p : N) (c : Context) : Prop :=
  ∀ i v, fields c !! i = Some v → w (p + 8 * N.of_nat i) = v.

Lemma context_at_words w p c :
  context_at w p c ↔
  w p = gs c ∧ w (p + 8) = fs c ∧ w (p + 16) = es c ∧ w (p + 24) = ds c ∧ w (p + 32) = r15 c ∧ w (p + 40) =
  r14 c ∧ w (p + 48) = r13 c ∧ w (p + 56) = r12 c ∧ w (p + 64) = r11 c ∧ w (p + 72) = r10 c ∧ w (p + 80) =
  r9 c ∧ w (p + 88) = r8 c ∧ w (p + 96) = rsi c ∧ w (p + 104) = rdi c ∧ w (p + 112) = rdx c ∧ w (p + 120) =
  rcx c ∧ w (p + 128) = rbx c ∧ w (p + 136) = rax c ∧ w (p + 144) = rbp c ∧ w (p + 152) = rip c ∧ w (p +
  160) = cs c ∧ w (p + 168) = rflags c ∧ w (p + 176) = rsp c ∧ w (p + 184) = ss c.
Proof.
  split.
  - intros Hc. rewrite <-(N.add_0_r p) at 1. split_and!; [apply (Hc 0%nat)|apply (Hc 1%nat)|apply (Hc 2%nat)|
      apply (Hc 3%nat)|apply (Hc 4%nat)|apply (Hc 5%nat)|apply (Hc 6%nat)|apply (Hc 7%nat)|apply (Hc 8%nat)|
      apply (Hc 9%nat)|apply (Hc 10%nat)|apply (Hc 11%nat)|apply (Hc 12%nat)|apply (Hc 13%nat)|apply (Hc 14%nat)|
      apply (Hc 15%nat)|apply (Hc 16%nat)|apply (Hc 17%nat)|apply (Hc 18%nat)|apply (Hc 19%nat)|apply (Hc 20%nat)|
      apply (Hc 21%nat)|apply (Hc 22%nat)|apply (Hc 23%nat)]; reflexivity.
  - intros Hw i v Hi. assert (i < 24)%nat as Hlt by (by apply lookup_lt_Some in Hi).
    do 24 (destruct i as [|i]; [injection Hi as <-; simpl; rewrite ?N.add_0_r; naive_solver|]). lia.
Qed.

(** Selectors have 16 bits. *)
Definition selectors_ok (c : Context) : Prop :=
  gs c < W16 ∧ fs c < W16 ∧ es c < W16 ∧ ds c < W16 ∧ cs c < W16 ∧ ss c < W16.

Definition restore_code : list instr :=
  [ Mov RSI RSP;
    PopSeg GS; PopSeg FS; Pop RAX; MovToSeg RAX ES; Pop RAX; MovToSeg RAX DS;
    Pop R15; Pop R14; Pop R13; Pop R12; Pop R11; Pop R10; Pop R9; Pop R8; Pop RSI; Pop RDI; Pop RDX; Pop RCX;
    Pop RBX; Pop RAX; Pop RBP;
    Iretq ].

(** The second half loads every register. *)
Lemma restore_run s c :
  reg_of s RSI + CONTEXT_SIZE < W64 → context_at (words s) (reg_of s RSI) c → selectors_ok c →
  run restore_code s = mkMachine c (words s).
Proof.
  destruct s as [[] w], c. unfold CONTEXT_SIZE, reg_of, selectors_ok. rewrite context_at_words.
  cbn [get regs words Context.gs Context.fs Context.es Context.ds Context.r15 Context.r14 Context.r13 Context.r12
    Context.r11 Context.r10 Context.r9 Context.r8 Context.rsi Context.rdi Context.rdx Context.rcx Context.rbx
    Context.rax Context.rbp Context.rip Context.cs Context.rflags Context.rsp Context.ss].
  intros Hp (E0 & E1 & E2 & E3 & E4 & E5 & E6 & E7 & E8 & E9 & E10 & E11 & E12 & E13 & E14 & E15 & E16 & E17 & E18 & E19 & E20 & E21 & E22 & E23) (? & ? & ? & ? & ? & ?).
  unfold restore_code. do 23 machine_step. rewrite run_nil. subst.
  by rewrite ?(N.mod_small (w _)) by done.
Qed.

Definition save_code : list instr :=
  [ Push RBP; Mov RSP RBP;
    Push RAX; Push RFLAGS; Cli;
    Clear RAX; MovFromSeg SS RAX; Store RAX (23 * 8) RDI;
    Mov RBP RAX; AddImm 16 RAX; Store RAX (22 * 8) RDI;
    Pop RAX; Store RAX (21 * 8) RDI;
    Clear RAX; MovFromSeg CS RAX; Store RAX (20 * 8) RDI;
    Load 8 RBP RAX; Store RAX (19 * 8) RDI;
    Pop RAX; Pop RBP;
    Mov RDI RSP; AddImm (19 * 8) RSP;
    Push RBP; Push RAX; Push RBX; Push RCX; Push RDX; Push RDI; Push RSI;
    Push R8; Push R9; Push R10; Push R11; Push R12; Push R13; Push R14; Push R15;
    Clear RAX; MovFromSeg DS RAX; Push RAX; MovFromSeg ES RAX; Push RAX; Push FS; Push GS ].

(** The caller's registers as they are after the call. *)
Definition after_call (s : machine) : Context :=
  set RSP (reg_of s RSP + 8) (set RIP (words s (reg_of s RSP)) (regs s)).

(** The stack has room for three words, and does not meet the context. *)
Record call_ok (s : machine) : Prop := {
  co_stack : 24 ≤ reg_of s RSP ∧ reg_of s RSP + 8 < W64;
  co_from : reg_of s RDI + CONTEXT_SIZE < W64;
  co_apart : reg_of s RDI + CONTEXT_SIZE ≤ reg_of s RSP - 24 ∨ reg_of s RSP + 8 ≤ reg_of s RDI;
  co_selectors : selectors_ok (regs s);
}.

Lemma save_run s :
  call_ok s →
  ∃ r w, run save_code s = mkMachine r w ∧ rsi r = rsi (regs s) ∧
    context_at w (reg_of s RDI) (after_call s) ∧
    ∀ a, (a < reg_of s RDI ∨ reg_of s RDI + CONTEXT_SIZE ≤ a) → (a < reg_of s RSP - 24 ∨ reg_of s RSP ≤ a) → w a = words s a.
Proof.
  destruct s as [[] w]. intros [Hs Hf Ha Hsel]. unfold CONTEXT_SIZE, reg_of, selectors_ok in *.
  cbn [get regs words Context.gs Context.fs Context.es Context.ds Context.cs Context.rdi Context.rsp Context.ss] in *.
  destruct Hsel as (? & ? & ? & ? & ? & ?).
  unfold save_code. do 44 machine_step. rewrite run_nil, ?N.add_0_r. eexists _, _. split; [reflexivity|].
  split; [reflexivity|]. split.
  - apply context_at_words. unfold after_call.
    cbv beta iota zeta delta [reg_of set get regs words Context.gs Context.fs Context.es Context.ds Context.r15 Context.r14
      Context.r13 Context.r12 Context.r11 Context.r10 Context.r9 Context.r8 Context.rsi Context.rdi Context.rdx Context.rcx
      Context.rbx Context.rax Context.rbp Context.rip Context.cs Context.rflags Context.rsp Context.ss].
    split_and!; repeat first [rewrite write_eq | rewrite write_ne by lia]; reflexivity.
  - intros a Ha1 Ha2. repeat rewrite write_ne by lia. reflexivity.
Qed.

(** The code of [context.S] is the two halves in turn. *)
Lemma switch_halves s : switch_context alu_flags s = run restore_code (run save_code s).
Proof. unfold switch_context. rewrite <-run_app. reflexivity. Qed.

(** The context switched to is intact: it meets neither the one switched
    from nor the three words of stack. *)
Definition target_ok (s : machine) (c : Context) : Prop :=
  reg_of s RSI + CONTEXT_SIZE < W64 ∧ context_at (words s) (reg_of s RSI) c ∧ selectors_ok c ∧
  (reg_of s RSI + CONTEXT_SIZE ≤ reg_of s RDI ∨ reg_of s RDI + CONTEXT_SIZE ≤ reg_of s RSI) ∧
  (reg_of s RSI + CONTEXT_SIZE ≤ reg_of s RSP - 24 ∨ reg_of s RSP ≤ reg_of s RSI).

Lemma switch_run s c :
  call_ok s → target_ok s c →
  ∃ w, switch_context alu_flags s = mkMachine c w ∧ context_at w (reg_of s RDI) (after_call s) ∧
    ∀ a, (a < reg_of s RDI ∨ reg_of s RDI + CONTEXT_SIZE ≤ a) → (a < reg_of s RSP - 24 ∨ reg_of s RSP ≤ a) → w a = words s a.
Proof.
  intros Hs (Hr & Hc & Hsel & Hfd & Hsd). destruct (save_run s Hs) as (r & w & Hrun & Hrsi & Hsv & Hsame).
  rewrite switch_halves, Hrun. assert (reg_of (mkMachine r w) RSI = reg_of s RSI) as He by exact Hrsi.
  rewrite (restore_run _ c); [by exists w|by rewrite He| |done].
  rewrite He. intros i v Hi. assert (i < 24)%nat by (by apply lookup_lt_Some in Hi). cbn [words].
  rewrite Hsame by (unfold CONTEXT_SIZE in *; lia). by apply Hc.
Qed.

(** C21: [switch_context(from, to)] leaves all registers as [*to] has them, saves
    into [*from] the caller's registers as they are after the call returns,
    and changes no other memory than three words below the stack pointer. *)
Theorem switch_context_spec s c :
  call_ok s → target_ok s c →
  regs (switch_context alu_flags s) = c ∧
  context_at (words (switch_context alu_flags s)) (reg_of s RDI) (after_call s) ∧
  ∀ a, (a < reg_of s RDI ∨ reg_of s RDI + CONTEXT_SIZE ≤ a) → (a < reg_of s RSP - 24 ∨ reg_of s RSP ≤ a) →
    words (switch_context alu_flags s) a = words s a.
Proof. intros Hs Ht. by destruct (switch_run s c Hs Ht) as (w & -> & ? & ?). Qed.

(** C22: a call of [switch_context] returns when some other context switches
    back: if the saved context is still in place then, execution goes on
    behind the call with every register as it was, whatever ran between. *)
Theorem switch_returns s c s2 :
  call_ok s → target_ok s c → call_ok s2 → reg_of s2 RSI = reg_of s RDI →
  (∀ i, i < 24 → words s2 (reg_of s RDI + 8 * i) = words (switch_context alu_flags s) (reg_of s RDI + 8 * i)) →
  (reg_of s2 RSI + CONTEXT_SIZE ≤ reg_of s2 RDI ∨ reg_of s2 RDI + CONTEXT_SIZE ≤ reg_of s2 RSI) →
  (reg_of s2 RSI + CONTEXT_SIZE ≤ reg_of s2 RSP - 24 ∨ reg_of s2 RSP ≤ reg_of s2 RSI) →
  regs (switch_context alu_flags s2) = after_call s.
Proof.
  intros Hs Ht Hs2 Hback Hkeep Hd1 Hd2. destruct (switch_run s c Hs Ht) as (w & Hrun & Hsv & _).
  rewrite Hrun in Hkeep. cbn [words] in Hkeep.
  destruct (switch_run s2 (after_call s) Hs2) as (w2 & -> & _ & _); [|done].
  split_and!; [rewrite Hback; apply Hs| |apply (co_selectors s Hs)|done|done].
  rewrite Hback. intros i v Hi. assert (i < 24)%nat by (by apply lookup_lt_Some in Hi).
  rewrite Hkeep by lia. by apply Hsv.
Qed.

(** ** Interrupts *)
Context (alu_keeps_if : ∀ v f, N.testbit (alu_flags v f) 9 = N.testbit f 9).

Lemma get_set_other r r' v c : r ≠ r' → get r (set r' v c) = get r c.
Proof. destruct r, r'; done. Qed.
Lemma get_set_same r v c : get r (set r v c) = v.
Proof. by destruct r. Qed.

(** Instructions that leave the flags alone, arithmetic ones apart. *)
Definition quiet (i : instr) : bool :=
  match i with
  | Pop RFLAGS | PopSeg RFLAGS | Mov _ RFLAGS | MovFromSeg _ RFLAGS | MovToSeg _ RFLAGS | Load _ _ RFLAGS
  | Clear RFLAGS | AddImm _ RFLAGS | Iretq => false
  | _ => true
  end.

Definition interrupts_off (s : machine) : Prop := N.testbit (reg_of s RFLAGS) 9 = false.

Lemma quiet_off i s : quiet i = true → interrupts_off s → interrupts_off (exec i s).
Proof.
  unfold interrupts_off, reg_of. intros Hq Hs.
  destruct i as [r|r|r| |r|src r|seg r|r seg|src d b|d b r|imm r|]; cbn [Context.exec store set_reg regs]; try done.
  - by destruct r.
  - by destruct r.
  - by apply N.clearbit_eq.
  - destruct r; try done; (etransitivity; [apply alu_keeps_if|exact Hs]).
  - by destruct r.
  - by destruct r.
  - by destruct seg.
  - by destruct r.
  - destruct r; try done; (etransitivity; [apply alu_keeps_if|exact Hs]).
Qed.

Lemma quiet_run l s : Forall (λ i, quiet i = true) l → interrupts_off s → interrupts_off (run l s).
Proof.
  revert s. induction l as [|i l IH]; intros s Hl Hs; [done|]. inversion_clear Hl as [|? ? Hi Hl'].
  rewrite (run_step i l s _ eq_refl). by apply IH, quiet_off.
Qed.

(** From [cli] on until the final [iretq], the part in which the stack
    pointer moves through the two contexts, interrupts are disabled after
    every instruction. *)
Lemma switch_uninterrupted s (k : nat) :
  (5 ≤ k < length switch_context_code)%nat → interrupts_off (run (take k switch_context_code) s).
Proof.
  intros Hk. rewrite <-(take_drop 5 (take k switch_context_code)), run_app. apply quiet_run.
  - assert (length switch_context_code = 67%nat) as Hlen by reflexivity.
    rewrite skipn_firstn_comm, <-(Nat.min_l (k - 5) 61), <-take_take by lia. apply Forall_take.
    unfold switch_context_code. simpl. repeat constructor.
  - rewrite take_take, Nat.min_l by lia. unfold interrupts_off.
    change (take 5 switch_context_code) with ([Push RBP; Mov RSP RBP; Push RAX; Push RFLAGS] ++ [Cli]). rewrite run_app.
    unfold reg_of. rewrite (run_step Cli [] _ _ eq_refl). cbn [Context.exec set_reg regs Context.run foldl].
    rewrite get_set_same. by rewrite N.clearbit_eq.
Qed.
End switch.

(** ** An example

    A caller with its context at [0x1000] switches to the one at [0x2000],
    which switches back at once. *)
Definition demo_target : Context :=
  mkContext 16 16 16 16 115 114 113 112 111 110 109 108 0x1000 0x2000 3 4 5 6 7 0x400000 8 518 0x9000 16.
Definition demo_caller : Context :=
  mkContext 16 16 16 16 15 14 13 12 11 10 9 8 0x2000 0x1000 33 44 55 66 77 0x400100 8 582 0x8000 16.
Definition demo_words : N → N := λ a,
  if (0x2000 <=? a) && (a <? 0x20c0) then default 0 (fields demo_target !! N.to_nat ((a - 0x2000) / 8))
  else if a =? 0x8000 then 0x400105 else 0.
Definition demo_machine : machine := mkMachine demo_caller demo_words.
Definition keep_flags : N → N → N := λ _ f, f.

Lemma demo_context w p c : (∀ i, i < 24 → w (p + 8 * i) = default 0 (fields c !! N.to_nat i)) → context_at w p c.
Proof.
  intros Hw i v Hi. assert (i < 24)%nat by (by apply lookup_lt_Some in Hi). rewrite Hw by lia.
  rewrite Nat2N.id, Hi. done.
Qed.

Lemma demo_call : call_ok demo_machine.
Proof.
  split; vm_compute; [by split|done|by left|by split_and!].
Qed.
Lemma demo_target_ok : target_ok demo_machine demo_target.
Proof.
  split; [done|]. split; [|split; [by vm_compute; split_and!|split; [right; by vm_compute|left; by vm_compute]]].
  apply demo_context. intros i Hi. change (reg_of demo_machine RSI) with 8192. cbn [words demo_machine]. unfold demo_words.
  rewrite (proj2 (N.leb_le _ _)), (proj2 (N.ltb_lt _ _)) by lia. simpl andb. cbv iota.
  by replace ((8192 + 8 * i - 8192) / 8) with i by lia.
Qed.

Lemma switch_context_spec_witness :
  regs (switch_context keep_flags demo_machine) = demo_target ∧
  words (switch_context keep_flags demo_machine) (0x1000 + 8 * 22) = 0x8008.
Proof.
  destruct (switch_context_spec keep_flags demo_machine demo_target demo_call demo_target_ok) as (Hr & Hc & _).
  split; [exact Hr|]. exact (Hc 22%nat 0x8008 eq_refl).
Defined.

Lemma switch_returns_witness :
  regs (switch_context keep_flags (switch_context keep_flags demo_machine)) = after_call demo_machine.
Proof.
  assert (regs (switch_context keep_flags demo_machine) = demo_target) as Hr by (vm_compute; reflexivity).
  apply (switch_returns keep_flags demo_machine demo_target); unfold reg_of; rewrite ?Hr.
  - exact demo_call.
  - exact demo_target_ok.
  - split; unfold reg_of; rewrite Hr; vm_compute; [by split|done|by left|by split_and!].
  - reflexivity.
  - intros i Hi. reflexivity.
  - left. by vm_compute.
  - left. by vm_compute.
Defined.

End ContextSpec.
