(* ===== verification/IrqMutex.v ===== *)
(** * The interrupt-safe mutex of [kernel/src/irq_mutex.rs]

    Taking an [IrqMutex] disables interrupts first and remembers whether they
    were enabled; dropping the guard releases the mutex first and then
    restores them.  The operations are [code], sequences of instructions: an
    interrupt may come between any two of them while the flag is set.  The
    machine is one processor: interrupt handlers run on top of what they
    interrupt, as a stack of contexts, and each context takes, uses and drops
    guards in any order.  The theorems say that two contexts never hold the
    same mutex, that with orderly guards (below) a handler never finds a mutex
    taken by the code it interrupted, that no interrupt comes inside a
    critical section, so that the data of a mutex is what a sequence of
    operations made of it, and that guards leave the interrupt flag as they
    found it; [out_of_order] is what happens when guards are not orderly. *)
From stdpp Require Import gmap.
From S2P Require Import Prelude.

(** ** The crate [spin]

    A mutex with its data.  [acquire] is [None] where [lock] would spin, and
    where [try_lock] fails; a guard gives access to the data. *)
Class SpinMutex (M D : Type) := {
  unlocked : D → M;
  held : M → bool;
  acquire : M → option M;
  release : M → M;
  get : M → D;
  put : D → M → M;
  held_unlocked d : held (unlocked d) = false;
  acquire_free m : held m = false → ∃ m', acquire m = Some m' ∧ held m' = true;
  acquire_held m : held m = true → acquire m = None;
  held_release m : held (release m) = false;
  get_unlocked d : get (unlocked d) = d;
  get_acquire m m' : acquire m = Some m' → get m' = get m;
  get_release m : get (release m) = get m;
  get_put d m : get (put d m) = d;
  held_put d m : held (put d m) = held m;
}.

Module IrqMutex.

Section irq_mutex.
Context `{SpinMutex M D}.

(** The processor's interrupt flag and the mutexes, by name. *)
Record machine := mkMachine { interrupts : bool; mutexes : N → M }.

Definition set_interrupts (b : bool) (s : machine) : machine := mkMachine b (mutexes s).
Definition set_mutex (n : N) (m : M) (s : machine) : machine :=
  mkMachine (interrupts s) (λ k, if (k =? n)%N then m else mutexes s k).

(** ** Code

    The instructions the operations are made of: [are_enabled], [disable] and
    [enable] of the crate [x86_64], [lock] and [try_lock] of [spin::Mutex],
    the drop of its guard, and the reads and writes of its data.  [Acquire]
    spins while the mutex is held.  [Store n f d] stores [f d], where [d] is
    what an earlier [Load] found. *)
Inductive code (A : Type) : Type :=
  | Ret (a : A)
  | AreEnabled (k : bool → code A)
  | Disable (k : code A)
  | Enable (k : code A)
  | Acquire (n : N) (k : code A)
  | TryAcquire (n : N) (k : bool → code A)
  | Release (n : N) (k : code A)
  | Load (n : N) (k : D → code A)
  | Store (n : N) (f : D → D) (d : D) (k : code A).
#[global] Arguments Ret {A} a.
#[global] Arguments AreEnabled {A} k.
#[global] Arguments Disable {A} k.
#[global] Arguments Enable {A} k.
#[global] Arguments Acquire {A} n k.
#[global] Arguments TryAcquire {A} n k.
#[global] Arguments Release {A} n k.
#[global] Arguments Load {A} n k.
#[global] Arguments Store {A} n f d k.

Fixpoint bind {A B} (c : code A) (q : A → code B) : code B :=
  match c with
  | Ret a => q a
  | AreEnabled k => AreEnabled (λ b, bind (k b) q)
  | Disable k => Disable (bind k q)
  | Enable k => Enable (bind k q)
  | Acquire n k => Acquire n (bind k q)
  | TryAcquire n k => TryAcquire n (λ b, bind (k b) q)
  | Release n k => Release n (bind k q)
  | Load n k => Load n (λ d, bind (k d) q)
  | Store n f d k => Store n f d (bind k q)
  end.
#[local] Notation "x <~ c ; q" := (bind c (λ x, q)) (at level 20, c at level 100, q at level 200, right associativity).

(** ** [InterruptGuard] *)
Record InterruptGuard := mkIntr { saved_intpt_flag : bool }.

Definition intr_lock : code InterruptGuard :=
  saved_intpt_flag <~ AreEnabled Ret;
  _ <~ (if saved_intpt_flag : bool then Disable (Ret tt) else Ret tt);
  Ret (mkIntr saved_intpt_flag).

Definition intr_drop (g : InterruptGuard) : code unit :=
  if saved_intpt_flag g then Enable (Ret tt) else Ret tt.

(** ** [IrqMutex] and its guard; [inner] names the mutex. *)
Record IrqMutexGuard := mkGuard { inner : N; intr : InterruptGuard }.

Definition irq_new (inner : D) : M := unlocked inner.

Definition lock (n : N) : code IrqMutexGuard :=
  intr <~ intr_lock;
  _ <~ Acquire n (Ret tt);
  Ret (mkGuard n intr).

(** The interrupt guard is dropped when the mutex is taken. *)
Definition try_lock (n : N) : code (option IrqMutexGuard) :=
  intr <~ intr_lock;
  guard <~ TryAcquire n Ret;
  if guard : bool then Ret (Some (mkGuard n intr)) else (_ <~ intr_drop intr; Ret None).

Definition guard_drop (g : IrqMutexGuard) : code unit :=
  _ <~ Release (inner g) (Ret tt);
  intr_drop (intr g).

Definition deref (g : IrqMutexGuard) : code D := Load (inner g) Ret.
(** [f] is what the code does to the data behind the reference. *)
Definition deref_mut (g : IrqMutexGuard) (f : D → D) : code unit :=
  d <~ deref g;
  Store (inner g) f d (Ret tt).

(** ** Contexts

    A context is the main program or a handler: the guards it has, the last
    one taken first, and the code it is in the middle of, [None] outside of
    the operations of this file.  [holds] is history: the names of the
    mutexes it has taken and not released. *)
Record context := mkContext { guards : list IrqMutexGuard; holds : list N; pending : option (code (option IrqMutexGuard)) }.

(** What happens, in the order in which it happens. *)
Inductive event :=
  | Locked (n : N)
  | Accessed (n : N) (f : D → D)
  | Dropped (n : N)
  | Entered
  | Returned.

Definition forget (n : N) (hs : list N) : list N := filter (λ k, k ≠ n) hs.

(** One instruction; [None] where the processor spins, and at the end. *)
Definition instr {A} (c : code A) (s : machine) (hs : list N) : option (list event * code A * machine * list N) :=
  match c with
  | Ret _ => None
  | AreEnabled k => Some ([], k (interrupts s), s, hs)
  | Disable k => Some ([], k, set_interrupts false s, hs)
  | Enable k => Some ([], k, set_interrupts true s, hs)
  | Acquire n k => m ← acquire (mutexes s n); Some ([Locked n], k, set_mutex n m s, n :: hs)
  | TryAcquire n k =>
      match acquire (mutexes s n) with
      | Some m => Some ([Locked n], k true, set_mutex n m s, n :: hs)
      | None => Some ([], k false, s, hs)
      end
  | Release n k => Some ([Dropped n], k, set_mutex n (release (mutexes s n)) s, forget n hs)
  | Load n k => Some ([], k (get (mutexes s n)), s, hs)
  | Store n f d k => Some ([Accessed n f], k, set_mutex n (put (f d) (mutexes s n)) s, hs)
  end.

(** What the processor does next: the context on top begins an operation, on
    a mutex or on one of its guards by its place, goes on with the operation
    it is in the middle of, or gets its result; an interrupt comes, which
    clears the flag, or the handler returns, which sets it again; or the
    code outside of the operations clears or sets the flag. *)
Inductive action :=
  | ALock (n : N) | ATryLock (n : N) | ADrop (i : nat) | AAccess (i : nat) (f : D → D)
  | AInstr | AResult | AInterrupt | AIret | ADisable | AEnable.

(** Orderly guards: the guard a context took first is dropped after the
    others, which are dropped in any order, and code does not set the flag
    by itself while it has guards. *)
Definition drop_ok (orderly : bool) (i : nat) (gs : list IrqMutexGuard) : bool :=
  if orderly then negb (S i =? length gs)%nat || (i =? 0)%nat else true.

Definition enable_ok (orderly : bool) (gs : list IrqMutexGuard) : bool :=
  if orderly then match gs with [] => true | _ => false end else true.

Definition begin (gs : list IrqMutexGuard) (hs : list N) (c : code (option IrqMutexGuard)) : context :=
  mkContext gs hs (Some c).

(** The context on top outside of the operations. *)
Definition idle_act (orderly : bool) (a : action) (s : machine) (gs : list IrqMutexGuard) (hs : list N)
    : option (machine * context) :=
  match a with
  | ALock n => Some (s, begin gs hs (g <~ lock n; Ret (Some g)))
  | ATryLock n => Some (s, begin gs hs (try_lock n))
  | ADrop i => g ← gs !! i;
      if drop_ok orderly i gs then Some (s, begin (delete i gs) hs (_ <~ guard_drop g; Ret None)) else None
  | AAccess i f => g ← gs !! i; Some (s, begin gs hs (_ <~ deref_mut g f; Ret None))
  | ADisable => Some (set_interrupts false s, mkContext gs hs None)
  | AEnable => if enable_ok orderly gs then Some (set_interrupts true s, mkContext gs hs None) else None
  | _ => None
  end.

(** The context on top in the middle of the operation [p]. *)
Definition busy_act (a : action) (s : machine) (gs : list IrqMutexGuard) (hs : list N) (p : code (option IrqMutexGuard))
    : option (list event * machine * context) :=
  match a, p with
  | AResult, Ret r => Some ([], s, mkContext (option_list r ++ gs) hs None)
  | AInstr, _ => '(tr, p, s, hs) ← instr p s hs; Some (tr, s, mkContext gs hs (Some p))
  | _, _ => None
  end.

Definition state : Type := machine * list context.

Definition interrupt (st : state) : option (list event * state) :=
  if interrupts st.1 then Some ([Entered], (set_interrupts false st.1, mkContext [] [] None :: st.2)) else None.

(** A handler returns when it has dropped its guards. *)
Definition iret (st : state) : option (list event * state) :=
  match st.2 with
  | mkContext [] _ None :: c :: cs => Some ([Returned], (set_interrupts true st.1, c :: cs))
  | _ => None
  end.

(** The context on top goes on. *)
Definition proceed (orderly : bool) (a : action) (st : state) : option (list event * state) :=
  match st.2 with
  | [] => None
  | c :: cs =>
      match pending c with
      | None => '(s, c) ← idle_act orderly a st.1 (guards c) (holds c); Some ([], (s, c :: cs))
      | Some p => '(tr, s, c) ← busy_act a st.1 (guards c) (holds c) p; Some (tr, (s, c :: cs))
      end
  end.

Definition act (orderly : bool) (a : action) (st : state) : option (list event * state) :=
  match a with
  | AInterrupt => interrupt st
  | AIret => iret st
  | _ => proceed orderly a st
  end.

Fixpoint run (orderly : bool) (acts : list action) (st : state) : option (list event * state) :=
  match acts with
  | [] => Some ([], st)
  | a :: acts => '(tr, st) ← act orderly a st; '(tr', st) ← run orderly acts st; Some (tr ++ tr', st)
  end.

(** At the start the mutexes hold [init] and the main program runs. *)
Definition boot (init : N → D) : state := (mkMachine false (λ n, irq_new (init n)), [mkContext [] [] None]).

(** ** What an operation relies on and keeps

    [safe c f hs kn Q]: from a state where the interrupt flag is [f] and the
    context holds [hs], the rest [c] of an operation releases, reads and
    writes only mutexes it holds and, with orderly guards, holds nothing at
    any point where an interrupt can come; its result satisfies [Q].  [kn] is
    the mutex it has just read, with what it found. *)
Section mode.
Context (orderly : bool).

Definition calm (f : bool) (hs : list N) : Prop := orderly = true → f = true → hs = [].

Fixpoint safe {A} (c : code A) (f : bool) (hs : list N) (kn : option (N * D)) (Q : A → bool → list N → Prop) : Prop :=
  calm f hs ∧
  match c with
  | Ret a => Q a f hs
  | AreEnabled k => safe (k f) f hs kn Q
  | Disable k => safe k false hs kn Q
  | Enable k => safe k true hs kn Q
  | Acquire n k => safe k f (n :: hs) kn Q
  | TryAcquire n k => safe (k true) f (n :: hs) kn Q ∧ safe (k false) f hs kn Q
  | Release n k => n ∈ hs ∧ safe k f (forget n hs) None Q
  | Load n k => n ∈ hs ∧ ∀ d, safe (k d) f hs (Some (n, d)) Q
  | Store n _ d k => n ∈ hs ∧ kn = Some (n, d) ∧ safe k f hs None Q
  end.

(** Of the guards of a context only the one taken first may have found
    interrupts enabled. *)
Definition guards_ok (gs : list IrqMutexGuard) : Prop :=
  ∀ i g, gs !! i = Some g → saved_intpt_flag (intr g) = true → S i = length gs.

(** Outside of the operations. *)
Definition rest (gs : list IrqMutexGuard) (f : bool) (hs : list N) : Prop :=
  hs ≡ₚ inner <$> gs ∧ (orderly = true → guards_ok gs) ∧ calm f hs.

Lemma rest_off gs f hs g :
  rest gs f hs → calm false hs → rest (mkGuard g (mkIntr f) :: gs) false (g :: hs).
Proof.
  intros (Hp & Hg & Hc) _. split_and!; [by rewrite Hp| |by intros _ ?].
  intros Ho i x Hi Hs. destruct i as [|i].
  - injection Hi as <-. rewrite (Hc Ho Hs) in Hp. apply Permutation_nil in Hp. by destruct gs.
  - simpl in *. f_equal. by eapply Hg.
Qed.

Lemma rest_calm gs f hs : rest gs f hs → calm f hs.
Proof. by intros (_ & _ & ?). Qed.
Lemma calm_off hs : calm false hs.
Proof. by intros _ ?. Qed.
Lemma calm_nil f : calm f [].
Proof. done. Qed.
Hint Resolve rest_calm calm_off calm_nil : core.

Lemma rest_flag gs f hs : rest gs f hs → rest gs false hs.
Proof. intros (? & ? & _). by split_and!. Qed.

Definition op_result (gs : list IrqMutexGuard) : option IrqMutexGuard → bool → list N → Prop :=
  λ r f hs, rest (option_list r ++ gs) f hs.

Lemma safe_lock gs f hs n : rest gs f hs → safe (g <~ lock n; Ret (Some g)) f hs None (op_result gs).
Proof.
  intros Hr. pose proof (rest_calm _ _ _ Hr) as Hc. destruct f; simpl; split_and!; auto using calm_off.
  all: try (apply (rest_off gs _ hs n Hr); apply calm_off).
Qed.

Lemma safe_try_lock gs f hs n : rest gs f hs → safe (try_lock n) f hs None (op_result gs).
Proof.
  intros Hr. pose proof (rest_calm _ _ _ Hr) as Hc. destruct f; simpl; split_and!; auto using calm_off.
  all: try (apply (rest_off gs _ hs n Hr); apply calm_off). all: done.
Qed.

Lemma forget_cons n hs : n ∉ hs → forget n (n :: hs) = hs.
Proof.
  intros Hn. unfold forget. rewrite filter_cons_False by naive_solver.
  induction hs as [|k hs IH]; [done|]. rewrite elem_of_cons in Hn.
  rewrite filter_cons_True by naive_solver. f_equal. naive_solver.
Qed.

Lemma forget_perm n hs hs' : hs ≡ₚ n :: hs' → NoDup hs → forget n hs ≡ₚ hs'.
Proof.
  intros Hp Hnd. unfold forget. rewrite Hp. rewrite Hp in Hnd. apply list.NoDup_cons in Hnd as [Hn _].
  change (forget n (n :: hs') ≡ₚ hs'). by rewrite forget_cons.
Qed.

Lemma delete_perm i gs g : gs !! i = Some g → inner <$> gs ≡ₚ inner g :: (inner <$> delete i gs).
Proof. intros Hi. by rewrite (delete_Permutation _ _ _ Hi) at 1. Qed.

Lemma guards_ok_delete i gs g :
  guards_ok gs → gs !! i = Some g → drop_ok true i gs = true → guards_ok (delete i gs).
Proof.
  intros Hg Hi Hd j x Hj Hs. pose proof (lookup_lt_Some _ _ _ Hi). rewrite length_delete by eauto.
  destruct (decide (j < i)%nat) as [Hlt|Hge].
  - rewrite list_lookup_delete_lt in Hj by done. pose proof (Hg _ _ Hj Hs). lia.
  - rewrite list_lookup_delete_ge in Hj by lia. pose proof (Hg _ _ Hj Hs). lia.
Qed.

Lemma safe_drop gs f hs i g :
  rest gs f hs → NoDup hs → gs !! i = Some g → drop_ok orderly i gs = true →
  safe (_ <~ guard_drop g; Ret None) f hs None (op_result (delete i gs)).
Proof.
  intros (Hp & Hg & Hc) Hnd Hi Hd. pose proof (delete_perm _ _ _ Hi) as Hdel.
  assert (forget (inner g) hs ≡ₚ inner <$> delete i gs) as Hf.
  { apply forget_perm; [by rewrite Hp|done]. }
  assert (inner g ∈ hs) as Hin by (rewrite Hp, Hdel; left).
  assert (∀ b, (b = true → saved_intpt_flag (intr g) = true ∨ f = true) → calm b (forget (inner g) hs)) as Hcalm.
  { intros b Hb Ho ->. apply Permutation_nil_r. rewrite Hf. destruct (Hb eq_refl) as [Hs| ->].
    - rewrite Ho in Hd. pose proof (Hg Ho _ _ Hi Hs) as Hlen. unfold drop_ok in Hd.
      rewrite Hlen, Nat.eqb_refl in Hd. apply Nat.eqb_eq in Hd as ->.
      destruct gs as [|? [|]]; naive_solver.
    - rewrite (Hc Ho eq_refl) in Hin. by apply not_elem_of_nil in Hin. }
  assert (∀ b, (b = true → saved_intpt_flag (intr g) = true ∨ f = true) → rest (delete i gs) b (forget (inner g) hs)) as Hrest.
  { intros b Hb. split_and!; [done| |by apply Hcalm]. intros Ho. rewrite Ho in Hd. by eapply guards_ok_delete; eauto. }
  unfold guard_drop, intr_drop. cbn [bind safe]. split_and!; [done|done|].
  destruct (saved_intpt_flag (intr g)) eqn:Hs; cbn [bind safe]; split_and!; try (apply Hcalm; auto; fail).
  all: apply Hrest; auto.
Qed.

Lemma safe_access gs hs f fn i g :
  rest gs f hs → gs !! i = Some g → safe (_ <~ deref_mut g fn; Ret None) f hs None (op_result gs).
Proof.
  intros Hr Hi. pose proof (rest_calm _ _ _ Hr) as Hc.
  assert (inner g ∈ hs) as Hin.
  { destruct Hr as (Hp & _). rewrite Hp. apply list_elem_of_fmap. eauto using list_elem_of_lookup_2. }
  unfold deref_mut, deref. cbn [bind safe]. split_and!; [done|done|]. intros d. split_and!; done.
Qed.

(** ** The invariant *)

(** What was read is still there. *)
Definition known (s : machine) (hs : list N) (kn : option (N * D)) : Prop :=
  ∀ n d, kn = Some (n, d) → n ∈ hs ∧ get (mutexes s n) = d.

Definition ctx_ok (s : machine) (f : bool) (c : context) : Prop :=
  match pending c with
  | None => rest (guards c) f (holds c)
  | Some p => ∃ kn, (orderly = true → known s (holds c) kn) ∧ safe p f (holds c) kn (op_result (guards c))
  end.

Definition owned (cs : list context) : list N := concat (holds <$> cs).

(** The names in [os] are the mutexes that are held, each once. *)
Definition accounted (s : machine) (os : list N) : Prop :=
  (∀ n, held (mutexes s n) = true ↔ n ∈ os) ∧ NoDup os.

(** An interrupted context goes on with the flag set. *)
Definition inv (st : state) : Prop :=
  accounted st.1 (owned st.2) ∧
  match st.2 with
  | c :: cs => ctx_ok st.1 (interrupts st.1) c ∧ Forall (ctx_ok st.1 true) cs
  | [] => False
  end.

Lemma safe_calm {A} (c : code A) f hs kn Q : safe c f hs kn Q → calm f hs.
Proof. by destruct c; intros [? _]. Qed.

Lemma ctx_ok_calm s f c : ctx_ok s f c → calm f (holds c).
Proof.
  unfold ctx_ok. destruct (pending c); [|by apply rest_calm]. intros (kn & _ & Hs). by eapply safe_calm.
Qed.

Lemma ctx_ok_any s s' c : ctx_ok s true c → ctx_ok s' true c.
Proof.
  intros Hc. pose proof (ctx_ok_calm _ _ _ Hc) as Hcalm. unfold ctx_ok in *. destruct (pending c); [|done].
  destruct Hc as (kn & Hk & Hs). exists kn. split; [|done]. intros Ho n d Hn.
  destruct (Hk Ho n d Hn) as [Hin _]. rewrite (Hcalm Ho eq_refl) in Hin. by apply not_elem_of_nil in Hin.
Qed.

Lemma acquire_Some m m' : acquire m = Some m' → held m = false ∧ held m' = true.
Proof.
  intros Ha. destruct (held m) eqn:Hm; [by rewrite acquire_held in Ha|].
  destruct (acquire_free m Hm) as (m1 & He & Hh). split; congruence.
Qed.

Lemma accounted_take s hs os n m :
  accounted s (hs ++ os) → acquire (mutexes s n) = Some m → accounted (set_mutex n m s) ((n :: hs) ++ os).
Proof.
  intros [Hh Hnd] [Hf Ht]%acquire_Some. split.
  - intros k. simpl. destruct (N.eqb_spec k n) as [->|Hne]; rewrite elem_of_cons; [naive_solver|].
    rewrite Hh. naive_solver.
  - simpl. apply list.NoDup_cons. split; [|done]. rewrite <-Hh. congruence.
Qed.

Lemma elem_of_forget k n hs : k ∈ forget n hs ↔ k ≠ n ∧ k ∈ hs.
Proof. unfold forget. by rewrite list_elem_of_filter. Qed.

Lemma accounted_give s hs os n :
  accounted s (hs ++ os) → n ∈ hs → accounted (set_mutex n (release (mutexes s n)) s) (forget n hs ++ os).
Proof.
  intros [Hh Hnd] Hin. apply list.NoDup_app in Hnd as (Hnh & Hd & Hno). split.
  - intros k. simpl. rewrite elem_of_app, elem_of_forget. destruct (N.eqb_spec k n) as [->|Hne].
    + rewrite held_release. naive_solver.
    + rewrite Hh, elem_of_app. naive_solver.
  - apply list.NoDup_app. split_and!; [by apply list.NoDup_filter| |done]. intros k [_ Hk]%elem_of_forget. by apply Hd.
Qed.

Lemma accounted_put s os n d : accounted s os → accounted (set_mutex n (put d (mutexes s n)) s) os.
Proof.
  intros [Hh Hnd]. split; [|done]. intros k. rewrite <-Hh. simpl.
  destruct (N.eqb_spec k n) as [->|]; [by rewrite held_put|done].
Qed.

Lemma instr_ok {A} (c : code A) s hs os kn Q tr c' s' hs' :
  instr c s hs = Some (tr, c', s', hs') → safe c (interrupts s) hs kn Q → accounted s (hs ++ os) →
  accounted s' (hs' ++ os) ∧
  ∃ kn', safe c' (interrupts s') hs' kn' Q ∧ (known s hs kn → known s' hs' kn').
Proof.
  intros Hi Hs Hacc. destruct c as [a|k|k|k|n k|n k|n k|n k|n f d k]; simpl in Hi, Hs; simplify_eq.
  - split; [done|]. exists kn. naive_solver.
  - split; [done|]. exists kn. naive_solver.
  - split; [done|]. exists kn. naive_solver.
  - destruct (acquire (mutexes s n)) as [m|] eqn:Ha; simplify_eq/=. split; [by apply accounted_take|].
    exists kn. split; [naive_solver|]. intros Hk j d Hj. destruct (Hk j d Hj) as [Hin Hg]. split; [by right|].
    simpl. destruct (N.eqb_spec j n) as [->|]; [|done]. by rewrite (get_acquire _ _ Ha).
  - destruct (acquire (mutexes s n)) as [m|] eqn:Ha; simplify_eq/=; [|split; [done|]; exists kn; naive_solver].
    split; [by apply accounted_take|].
    exists kn. split; [naive_solver|]. intros Hk j d Hj. destruct (Hk j d Hj) as [Hin Hg]. split; [by right|].
    simpl. destruct (N.eqb_spec j n) as [->|]; [|done]. by rewrite (get_acquire _ _ Ha).
  - split; [apply accounted_give; naive_solver|]. exists None. split; [naive_solver|]. by intros _ ? ?.
  - split; [done|]. exists (Some (n, get (mutexes s' n))). split; [naive_solver|]. intros _ j d [= <- <-]. naive_solver.
  - split; [by apply accounted_put|]. exists None. split; [naive_solver|]. by intros _ ? ?.
Qed.

(** The top context begins an operation, or sets the flag by itself. *)
Lemma idle_ok a s gs hs s' c' :
  idle_act orderly a s gs hs = Some (s', c') → rest gs (interrupts s) hs → NoDup hs →
  holds c' = hs ∧ mutexes s' = mutexes s ∧ ctx_ok s' (interrupts s') c'.
Proof.
  intros Ha Hr Hnd. destruct a as [n|n|i|i f| | | | | |]; simpl in Ha; try done.
  - injection Ha as <- <-. split_and!; [done..|]. exists None. split; [by intros _ ? ?|by apply safe_lock].
  - injection Ha as <- <-. split_and!; [done..|]. exists None. split; [by intros _ ? ?|by apply safe_try_lock].
  - destruct (gs !! i) as [g|] eqn:Hg; [|done]. simpl in Ha. destruct (drop_ok orderly i gs) eqn:Hd; [|done].
    injection Ha as <- <-. split_and!; [done..|]. exists None. split; [by intros _ ? ?|by apply safe_drop].
  - destruct (gs !! i) as [g|] eqn:Hg; [|done]. injection Ha as <- <-. split_and!; [done..|].
    exists None. split; [by intros _ ? ?|by eapply safe_access].
  - injection Ha as <- <-. split_and!; [done..|]. simpl. by eapply rest_flag.
  - destruct (enable_ok orderly gs) eqn:He; [|done]. injection Ha as <- <-. split_and!; [done..|]. simpl.
    destruct Hr as (Hp & Hg & _). split_and!; [done..|]. intros Ho _. unfold enable_ok in He. rewrite Ho in He.
    destruct gs; [|done]. by apply Permutation_nil_r.
Qed.

(** The top context goes on with its operation. *)
Lemma busy_ok a s gs hs p os tr s' c' :
  busy_act a s gs hs p = Some (tr, s', c') → ctx_ok s (interrupts s) (begin gs hs p) → accounted s (hs ++ os) →
  accounted s' (holds c' ++ os) ∧ ctx_ok s' (interrupts s') c'.
Proof.
  intros Ha (kn & Hk & Hs) Hacc. simpl in Hk, Hs. destruct a; try done.
  - simpl in Ha. destruct (instr p s hs) as [[[[tr1 p1] s1] hs1]|] eqn:Hi; [|by destruct p].
    assert (Some (tr1, s1, mkContext gs hs1 (Some p1)) = Some (tr, s', c')) as [= <- <- <-] by by destruct p.
    destruct (instr_ok _ _ _ _ _ _ _ _ _ _ Hi Hs Hacc) as (Hacc' & kn' & Hs' & Hk').
    split; [done|]. exists kn'. split; [auto|done].
  - destruct p; try done. injection Ha as <- <- <-. split; [done|]. by destruct Hs as [_ Hs].
Qed.

Lemma irq_interrupt_inv st tr st' : interrupt st = Some (tr, st') → inv st → inv st'.
Proof.
  destruct st as [s cs]. unfold interrupt. simpl. destruct (interrupts s) eqn:Hi; [|done]. intros [= <- <-] [Hacc Hc].
  split; [done|]. simpl in *. destruct cs as [|c cs]; [done|]. rewrite Hi in Hc. destruct Hc as [Hc Hcs].
  split; [by split_and!|]. constructor; [by eapply ctx_ok_any|]. eapply list.Forall_impl; [exact Hcs|]. eauto using ctx_ok_any.
Qed.

Lemma iret_inv st tr st' : iret st = Some (tr, st') → inv st → inv st'.
Proof.
  destruct st as [s cs]. unfold iret. simpl. destruct cs as [|[[] hs []] [|c cs]]; try done. intros [= <- <-] [Hacc Hc].
  simpl in Hc. destruct Hc as [(Hp & _ & _) [Hc Hcs]%list.Forall_cons]. apply Permutation_nil_r in Hp. simpl in Hp.
  split; simpl in *.
  - unfold owned in Hacc. simpl in Hacc. by rewrite Hp in Hacc.
  - split; [by eapply ctx_ok_any|]. eapply list.Forall_impl; [exact Hcs|]. eauto using ctx_ok_any.
Qed.

Lemma proceed_inv a st tr st' : proceed orderly a st = Some (tr, st') → inv st → inv st'.
Proof.
  destruct st as [s [|c cs]]; [done|]. unfold proceed. intros Ha [Hacc [Hc Hcs]]. simpl in Ha, Hacc, Hc, Hcs.
  assert (∀ s', Forall (ctx_ok s' true) cs) as Hcs'.
  { intros s'. eapply list.Forall_impl; [exact Hcs|]. eauto using ctx_ok_any. }
  unfold owned in Hacc. simpl in Hacc. destruct c as [gs hs [p|]]; simpl in Ha, Hacc.
  - destruct (busy_act a s gs hs p) as [[[tr1 s1] c1]|] eqn:Hb; [|done]. injection Ha as <- <-.
    destruct (busy_ok _ _ _ _ _ _ _ _ _ Hb Hc Hacc). by split_and!.
  - destruct (idle_act orderly a s gs hs) as [[s1 c1]|] eqn:Hb; [|done]. injection Ha as <- <-.
    pose proof Hacc as [_ [Hnd _]%list.NoDup_app].
    destruct (idle_ok _ _ _ _ _ _ Hb Hc Hnd) as (Hh & Hm & Hc1). split_and!; [|done..]. unfold owned. simpl.
    rewrite Hh. destruct Hacc as [Hacc1 Hacc2]. split; [|done]. intros n. by rewrite Hm.
Qed.

Lemma act_cases a st tr st' :
  act orderly a st = Some (tr, st') →
  interrupt st = Some (tr, st') ∨ iret st = Some (tr, st') ∨ proceed orderly a st = Some (tr, st').
Proof. destruct a; auto. Qed.

Lemma act_inv a st tr st' : act orderly a st = Some (tr, st') → inv st → inv st'.
Proof. intros [Ha|[Ha|Ha]]%act_cases; eauto using irq_interrupt_inv, iret_inv, proceed_inv. Qed.

Lemma inv_boot init : inv (boot init).
Proof.
  split; simpl; [split|split].
  - intros n. split; [|by intros ?%not_elem_of_nil]. simpl. unfold irq_new. by rewrite held_unlocked.
  - constructor.
  - split_and!; [done| |done]. by intros _ i g.
  - done.
Qed.

Lemma irq_inv_run acts st tr st' : run orderly acts st = Some (tr, st') → inv st → inv st'.
Proof.
  revert st tr. induction acts as [|a acts IH]; intros st tr Hr HI; simpl in Hr; [by simplify_eq|].
  destruct (act orderly a st) as [[tr1 st1]|] eqn:Ha; [|done]. simpl in Hr.
  destruct (run orderly acts st1) as [[tr2 st2]|] eqn:Hr2; [|done]. simplify_eq/=. eauto using act_inv.
Qed.
End mode.

(** C11: whatever the contexts do and whenever interrupts come, the mutexes
    that are held are those the contexts have taken, no two of them the same
    one.  With orderly guards, dropped in any order but the first one taken,
    which is dropped last, moreover: no mutex is held while interrupts are
    enabled, nor by a context that was interrupted, and the context on top
    can always go on with its operation, unless it takes a mutex it holds
    itself; in particular a handler never waits for the code it
    interrupted. *)
Theorem irq_mutex_safe orderly init acts tr s c cs :
  run orderly acts (boot init) = Some (tr, (s, c :: cs)) →
  NoDup (owned (c :: cs)) ∧
  (∀ n, held (mutexes s n) = true ↔ n ∈ owned (c :: cs)) ∧
  (pending c = None → holds c ≡ₚ inner <$> guards c) ∧
  (orderly = true →
    (interrupts s = true → ∀ n, held (mutexes s n) = false) ∧
    Forall (λ c, holds c = []) cs ∧
    ∀ p, pending c = Some p → instr p s (holds c) = None →
      (∃ r, p = Ret r) ∨ ∃ n k, p = Acquire n k ∧ n ∈ holds c).
Proof.
  intros Hr. destruct (irq_inv_run _ _ _ _ _ Hr (inv_boot _ _)) as [[Hh Hnd] [Hc Hcs]]. simpl in Hh, Hnd, Hc, Hcs.
  split_and!; [done..| |].
  - unfold ctx_ok in Hc. intros Hp. rewrite Hp in Hc. apply Hc.
  - intros Ho. assert (Forall (λ c, holds c = []) cs) as Hnil.
    { eapply list.Forall_impl; [exact Hcs|]. intros c' Hc'. by eapply ctx_ok_calm. }
    assert (owned (c :: cs) = holds c) as Hown.
    { unfold owned. simpl. rewrite <-(app_nil_r (holds c)) at 2. f_equal. clear -Hnil.
      induction Hnil as [|c' cs Hn _ IH]; [done|]. simpl. by rewrite Hn, IH. }
    rewrite Hown in Hh. split_and!; [|done|].
    + intros Hi n. destruct (held (mutexes s n)) eqn:Hn; [|done]. apply Hh in Hn.
      rewrite Hi in Hc. rewrite (ctx_ok_calm _ _ _ _ Hc Ho eq_refl) in Hn. by apply not_elem_of_nil in Hn.
    + intros p _ Hi. destruct p as [r|k|k|k|n k|n k|n k|n k|n f d k]; try done; [by left; eexists| |].
      * right. exists n, k. split; [done|]. apply Hh. destruct (held (mutexes s n)) eqn:Hn; [done|].
        destruct (acquire_free _ Hn) as (m & Ha & _). simpl in Hi. by rewrite Ha in Hi.
      * simpl in Hi. by destruct (acquire (mutexes s n)).
Qed.

(** ** Critical sections

    [sections l depth hs]: the history of a machine where a mutex is taken by
    a context that does not hold it, used and dropped by the one that does,
    and where a handler comes, or returns, only while the context on top
    holds nothing.  [depth] is the number of contexts below the top one and
    [hs] what the top one holds. *)
Inductive sections : list event → nat → list N → Prop :=
  | sections_nil : sections [] 0 []
  | sections_lock l depth hs n : sections l depth hs → n ∉ hs → sections (l ++ [Locked n]) depth (n :: hs)
  | sections_access l depth hs n f : sections l depth hs → n ∈ hs → sections (l ++ [Accessed n f]) depth hs
  | sections_drop l depth hs n : sections l depth hs → n ∈ hs → sections (l ++ [Dropped n]) depth (forget n hs)
  | sections_enter l depth : sections l depth [] → sections (l ++ [Entered]) (S depth) []
  | sections_return l depth : sections l (S depth) [] → sections (l ++ [Returned]) depth [].

(** What the accesses make of the data of the mutex [n]. *)
Definition update (n : N) (d : D) (e : event) : D :=
  match e with Accessed k f => if (k =? n)%N then f d else d | _ => d end.

Definition history (init : N → D) (l : list event) (s : machine) (depth : nat) (hs : list N) : Prop :=
  sections l depth hs ∧ ∀ n, get (mutexes s n) = foldl (update n) (init n) l.

Lemma history_same init l s s' depth hs :
  history init l s depth hs → mutexes s' = mutexes s → history init (l ++ []) s' depth hs.
Proof. intros [H1 H2] Hm. rewrite app_nil_r. split; [done|]. intros n. by rewrite Hm. Qed.

Lemma history_quiet init l s n m e depth hs hs' :
  history init l s depth hs → get m = get (mutexes s n) → (∀ k d, update k d e = d) →
  sections (l ++ [e]) depth hs' → history init (l ++ [e]) (set_mutex n m s) depth hs'.
Proof.
  intros [_ Hd] Hm He Hs. split; [done|]. intros k. rewrite foldl_app. simpl. rewrite He, <-Hd.
  by destruct (N.eqb_spec k n) as [->|].
Qed.

Lemma accounted_fresh s hs os n m :
  accounted s (hs ++ os) → acquire (mutexes s n) = Some m → n ∉ hs.
Proof. intros [Hh _] [Hf _]%acquire_Some Hn. assert (n ∈ hs ++ os) by set_solver. naive_solver congruence. Qed.

Lemma instr_history {A} init l (c : code A) s hs os kn Q tr c' s' hs' depth :
  instr c s hs = Some (tr, c', s', hs') → safe true c (interrupts s) hs kn Q → accounted s (hs ++ os) →
  known s hs kn → history init l s depth hs → history init (l ++ tr) s' depth hs'.
Proof.
  intros Hi Hs Hacc Hk Hh. destruct c as [a|k|k|k|n k|n k|n k|n k|n f d k]; simpl in Hi, Hs; simplify_eq.
  - by eapply history_same.
  - by eapply history_same.
  - by eapply history_same.
  - destruct (acquire (mutexes s n)) as [m|] eqn:Ha; simplify_eq/=.
    eapply history_quiet; [done|by apply get_acquire|done|]. constructor; [apply Hh|by eapply accounted_fresh].
  - destruct (acquire (mutexes s n)) as [m|] eqn:Ha; simplify_eq/=; [|by eapply history_same].
    eapply history_quiet; [done|by apply get_acquire|done|]. constructor; [apply Hh|by eapply accounted_fresh].
  - eapply history_quiet; [done|apply get_release|done|]. constructor; [apply Hh|naive_solver].
  - by eapply history_same.
  - destruct Hh as [Hsec Hd]. destruct Hs as (_ & Hin & -> & _). split; [by constructor|]. intros k'. rewrite foldl_app.
    destruct (Hk n d eq_refl) as [_ <-]. simpl. rewrite (N.eqb_sym n k').
    destruct (N.eqb_spec k' n) as [->|]; [|by rewrite Hd]. by rewrite get_put, Hd.
Qed.

Definition state_history (init : N → D) (l : list event) (st : state) : Prop :=
  match st.2 with c :: cs => history init l st.1 (length cs) (holds c) | [] => False end.

Lemma proceed_history init l a st tr st' :
  proceed true a st = Some (tr, st') → inv true st → state_history init l st → state_history init (l ++ tr) st'.
Proof.
  destruct st as [s [|c cs]]; [done|]. unfold proceed, state_history. intros Ha [Hacc [Hc Hcs]] Hh.
  simpl in Ha, Hacc, Hc, Hh. unfold owned in Hacc. simpl in Hacc. destruct c as [gs hs [p|]]; simpl in Ha, Hacc.
  - destruct (busy_act a s gs hs p) as [[[tr1 s1] c1]|] eqn:Hb; [|done]. injection Ha as <- <-.
    destruct Hc as (kn & Hk & Hs). destruct a; try done; simpl in Hb.
    + destruct (instr p s hs) as [[[[tr2 p2] s2] hs2]|] eqn:Hi; [|by destruct p].
      assert (Some (tr2, s2, mkContext gs hs2 (Some p2)) = Some (tr1, s1, c1)) as [= <- <- <-] by by destruct p.
      eapply instr_history; try done. by apply Hk.
    + destruct p; try done. injection Hb as <- <- <-. by eapply history_same.
  - destruct (idle_act true a s gs hs) as [[s1 c1]|] eqn:Hb; [|done]. injection Ha as <- <-.
    pose proof Hacc as [_ [Hnd _]%list.NoDup_app].
    destruct (idle_ok _ _ _ _ _ _ _ Hb Hc Hnd) as (Hhs & Hm & _). simpl. rewrite Hhs. by eapply history_same.
Qed.

Lemma act_history init l a st tr st' :
  act true a st = Some (tr, st') → inv true st → state_history init l st → state_history init (l ++ tr) st'.
Proof.
  intros [Ha|[Ha|Ha]]%act_cases HI Hh; [..|by eapply proceed_history].
  - destruct st as [s [|c cs]]; [done|]. unfold interrupt in Ha. simpl in Ha.
    destruct (interrupts s) eqn:Hi; [|done]. injection Ha as <- <-. destruct HI as [_ [Hc _]]. simpl in Hc. rewrite Hi in Hc.
    destruct Hh as [Hs Hd]. rewrite (ctx_ok_calm _ _ _ _ Hc eq_refl eq_refl) in Hs.
    split; [by constructor|]. intros n. by rewrite foldl_app, <-Hd.
  - destruct st as [s cs]. unfold iret in Ha. simpl in Ha. destruct cs as [|[[] hs []] [|c cs]]; try done.
    injection Ha as <- <-. destruct HI as [_ [(Hp & _ & _) [Hc Hcs]%list.Forall_cons]]. apply Permutation_nil_r in Hp.
    simpl in Hp, Hc. destruct Hh as [Hs Hd]. simpl in Hs. rewrite Hp in Hs. split.
    + simpl. rewrite (ctx_ok_calm _ _ _ _ Hc eq_refl eq_refl). by constructor.
    + intros n. by rewrite foldl_app, <-Hd.
Qed.

Lemma run_history init l acts st tr st' :
  run true acts st = Some (tr, st') → inv true st → state_history init l st → state_history init (l ++ tr) st'.
Proof.
  revert l st tr. induction acts as [|a acts IH]; intros l st tr Hr HI Hh; simpl in Hr.
  - injection Hr as <- <-. by rewrite app_nil_r.
  - destruct (act true a st) as [[tr1 st1]|] eqn:Ha; [|done]. simpl in Hr.
    destruct (run true acts st1) as [[tr2 st2]|] eqn:Hr2; [|done]. injection Hr as <- <-.
    rewrite (app_assoc l). eauto using act_inv, act_history.
Qed.

(** C12: with orderly guards the uses of the mutexes are critical sections
    that no interrupt cuts: in the whole history of the machine, from when a
    context takes a mutex until it has dropped everything it holds, no
    handler comes or returns, so that everything in between is of that
    context; a mutex is taken only when it is free, used and dropped only by
    the context that holds it.  And the data of every mutex is what the
    accesses made of it, one after the other: no read of an access is ever
    separated from its write by an access of another context. *)
Theorem critical_sections init acts tr s c cs :
  run true acts (boot init) = Some (tr, (s, c :: cs)) →
  sections tr (length cs) (holds c) ∧
  ∀ n, get (mutexes s n) = foldl (update n) (init n) tr.
Proof.
  intros Hr. apply (run_history init [] _ _ _ _ Hr (inv_boot _ _)). split; [constructor|]. intros n. apply get_unlocked.
Qed.

(** ** Scopes

    Code without interruption; [None] where it spins. *)
Fixpoint exec {A} (c : code A) (s : machine) : option (A * machine) :=
  match c with
  | Ret a => Some (a, s)
  | AreEnabled k => exec (k (interrupts s)) s
  | Disable k => exec k (set_interrupts false s)
  | Enable k => exec k (set_interrupts true s)
  | Acquire n k => m ← acquire (mutexes s n); exec k (set_mutex n m s)
  | TryAcquire n k =>
      match acquire (mutexes s n) with
      | Some m => exec (k true) (set_mutex n m s)
      | None => exec (k false) s
      end
  | Release n k => exec k (set_mutex n (release (mutexes s n)) s)
  | Load n k => exec (k (get (mutexes s n))) s
  | Store n f d k => exec k (set_mutex n (put (f d) (mutexes s n)) s)
  end.

(** Guards dropped in the reverse order of their creation, as the scopes of
    the language do. *)
Inductive scoped : machine → machine → Prop :=
  | scoped_nil s : scoped s s
  | scoped_lock n s g s1 s2 s2' s3 :
      exec (lock n) s = Some (g, s1) → scoped s1 s2 → exec (guard_drop g) s2 = Some (tt, s2') → scoped s2' s3 → scoped s s3
  | scoped_fail n s s1 s2 : exec (try_lock n) s = Some (None, s1) → scoped s1 s2 → scoped s s2
  | scoped_access g f s s1 s2 : exec (deref_mut g f) s = Some (tt, s1) → scoped s1 s2 → scoped s s2.

Lemma lock_run n s g s' :
  exec (lock n) s = Some (g, s') →
  inner g = n ∧ saved_intpt_flag (intr g) = interrupts s ∧ interrupts s' = false ∧
  held (mutexes s n) = false ∧ held (mutexes s' n) = true ∧ ∀ k, k ≠ n → mutexes s' k = mutexes s k.
Proof.
  unfold lock, intr_lock. simpl. destruct (interrupts s) eqn:Hi; simpl;
    (destruct (acquire (mutexes s n)) as [m|] eqn:Ha; simpl; [|done]); intros [= <- <-];
    apply acquire_Some in Ha as [H1 H2]; simpl; rewrite N.eqb_refl; split_and!; try done;
    intros k Hk; by apply N.eqb_neq in Hk as ->.
Qed.

(** Code that takes and drops guards in scopes leaves the interrupt flag
    and every mutex as it found them, nested to any depth. *)
Lemma guards_restore s s' :
  scoped s s' → interrupts s' = interrupts s ∧ ∀ n, held (mutexes s' n) = held (mutexes s n).
Proof.
  induction 1 as [s|n s g s1 s2 s2' s3 Hl _ [IHi IHh] Hd _ [IHi' IHh']|n s s1 s2 Hl _ [IHi IHh]
    |g f s s1 s2 Hf _ [IHi IHh]]; [done|..].
  - apply lock_run in Hl as (<- & Hsv & Hi & Hfree & Hheld & Hother).
    assert (interrupts s2' = interrupts s ∧ ∀ k, held (mutexes s2' k) =
      if (k =? inner g)%N then false else held (mutexes s2 k)) as [Hdi Hdh].
    { unfold guard_drop, intr_drop in Hd. simpl in Hd. rewrite Hsv in Hd.
      destruct (interrupts s) eqn:Hint; injection Hd as <-; simpl; (split; [congruence|]); intros k;
        (destruct (k =? inner g)%N; [apply held_release|done]). }
    split; [congruence|]. intros k. rewrite IHh', Hdh. destruct (N.eqb_spec k (inner g)) as [->|Hne]; [done|].
    by rewrite IHh, Hother.
  - assert (interrupts s1 = interrupts s ∧ mutexes s1 = mutexes s) as [Hi Hm].
    { unfold try_lock, intr_lock in Hl. simpl in Hl. destruct (interrupts s) eqn:Hint; simpl in Hl;
        destruct (acquire (mutexes s n)); simpl in Hl; injection Hl; intros; simplify_eq; done. }
    split; [congruence|]. intros k. by rewrite IHh, Hm.
  - injection Hf as <-. split; [done|]. intros k. rewrite IHh. simpl.
    destruct (N.eqb_spec k (inner g)) as [->|]; [by rewrite held_put|done].
Qed.
End irq_mutex.

(** ** An example: the mutex as a flag beside the data *)
#[export, refine] Instance spin_example {D} : SpinMutex (bool * D) D := {
  unlocked d := (false, d); held m := m.1; acquire m := if m.1 then None else Some (true, m.2); release m := (false, m.2);
  get m := m.2; put d m := (m.1, d);
}.
Proof.
  - done.
  - intros [b d] Hm. exists (true, d). cbn in *. by subst b.
  - by intros [[] d].
  - done.
  - done.
  - intros [[] d] m'; [done|]. by intros [= <-].
  - done.
  - done.
  - done.
Defined.

(** The main program enables interrupts, takes the mutexes 0 and 1, adds one
    to the data of the first, drops the second, and takes mutex 0 again. *)
Definition main_acts : list (action (D := N)) :=
  [AEnable; ALock 0; AInstr; AInstr; AInstr; AResult; ALock 1; AInstr; AInstr; AResult;
   AAccess 1 N.succ; AInstr; AInstr; AResult; ADrop 0; AInstr; AResult; ALock 0; AInstr].
Definition main_end : list event * state (M := bool * N) :=
  default ([], boot (λ _, 7%N)) (run true main_acts (boot (λ _, 7%N))).
Definition main_machine : machine (M := bool * N) := main_end.2.1.
Definition main_context : context (D := N) := default (mkContext [] [] None) (head main_end.2.2).
Definition main_trace : list (event (D := N)) := [Locked 0; Locked 1; Accessed 0 N.succ; Dropped 1].

Lemma main_run : run true main_acts (boot (λ _, 7%N)) = Some (main_trace, (main_machine, [main_context])).
Proof. vm_compute. reflexivity. Qed.

Lemma main_holds : holds main_context = [0%N].
Proof. vm_compute. reflexivity. Qed.

Lemma main_owned : owned [main_context] = [0%N].
Proof. vm_compute. reflexivity. Qed.

(** The context spins on the mutex it holds. *)
Lemma irq_mutex_safe_witness :
  match pending main_context with Some p => instr p main_machine (holds main_context) = None | None => False end ∧
  NoDup [0%N] ∧ ∃ k, pending main_context = Some (Acquire 0 k).
Proof.
  destruct (irq_mutex_safe true (λ _, 7%N) main_acts main_trace main_machine main_context [] main_run) as (Hnd & _).
  rewrite main_owned in Hnd.
  split; [vm_compute; reflexivity|]. split; [exact Hnd|]. eexists. vm_compute. reflexivity.
Defined.

Lemma critical_sections_witness : sections main_trace 0 [0%N] ∧ get (mutexes main_machine 0) = 8%N.
Proof.
  destruct (critical_sections (λ _, 7%N) main_acts main_trace main_machine main_context [] main_run) as [Hs Hd].
  rewrite main_holds in Hs. split; [exact Hs|]. etransitivity; [exact (Hd 0%N)|vm_compute; reflexivity].
Defined.

(** Guards dropped in the order in which they were taken: the first one sets
    the flag while the second mutex is still held, and a handler that takes
    that mutex waits for the code it interrupted. *)
Definition overlapping_acts : list (action (D := N)) :=
  [AEnable; ALock 0; AInstr; AInstr; AInstr; AResult; ALock 1; AInstr; AInstr; AResult;
   ADrop 1; AInstr; AInstr; AResult; AInterrupt; ALock 1; AInstr].

Lemma out_of_order :
  ∃ tr s c main k, run false overlapping_acts (boot (M := bool * N) (λ _, 7%N)) = Some (tr, (s, [c; main])) ∧
    pending c = Some (Acquire 1 k) ∧ instr (Acquire 1 k) s (holds c) = None ∧ holds c = [] ∧ holds main = [1%N].
Proof. do 5 eexists. split; [vm_compute; reflexivity|]. split_and!; vm_compute; reflexivity. Qed.

End IrqMutex.
