(* ===== verification/Pic.v ===== *)
(** * The interrupt controllers: [kernel/src/pic.rs]

    The lines of the two chained controllers, the mask that enables them, the
    interrupts they raise and their acknowledgement. *)
From S2P Require Import Prelude.
Local Open Scope N_scope.

Module Pic.

Inductive Irq :=
  | TIMER | KEYBOARD | SLAVE | SERIAL1 | SERIAL2 | PARALLEL1 | FLOPPY | PARALLEL2 | RTC | MOUSE | COPROC | HDD1 | HDD2.

(** The discriminants ([repr(u8)]). *)
Definition irq_code (i : Irq) : N :=
  match i with
  | TIMER => 0 | KEYBOARD => 1 | SLAVE => 2 | SERIAL1 => 3 | SERIAL2 => 4 | PARALLEL1 => 5 | FLOPPY => 6 | PARALLEL2 => 7
  | RTC => 8 | MOUSE => 12 | COPROC => 13 | HDD1 => 14 | HDD2 => 15
  end.

(** [Mask]: a bit per line, in 16 bits. *)
Definition Mask := N.
Definition mask_bit (i : Irq) : Mask := N.shiftl 1 (irq_code i).
Definition mask_or (a b : Mask) : Mask := N.lor a b.

Definition PIC_INT_OFFSET : N := 0x20.

Definition as_intn (i : Irq) : result N := checked_add 256 PIC_INT_OFFSET (irq_code i).

(** The crate [pic8259]: two chained controllers with a mask register each.
    [initialize] makes line [n] raise interrupt [offset + n]; a line whose
    mask bit is set raises none.  [notify_end_of_interrupt] acknowledges the
    interrupts of the two controllers, and ignores others. *)
Class ChainedPics (P : Type) := {
  pics_new : N → N → P;
  initialize : P → P;
  disable : P → P;
  write_masks : N → N → P → P;
  notify_end_of_interrupt : N → P → P;
  offsets : P → option (N * N);
  masks : P → N * N;
  acknowledged : P → list N;
  initialize_offsets a b : offsets (initialize (pics_new a b)) = Some (a, b);
  disable_offsets p : offsets (disable p) = offsets p;
  write_masks_offsets a b p : offsets (write_masks a b p) = offsets p;
  disable_masks p : masks (disable p) = (255, 255);
  write_masks_masks a b p : masks (write_masks a b p) = (a, b);
  notify_masks id p : masks (notify_end_of_interrupt id p) = masks p;
  notify_offsets id p : offsets (notify_end_of_interrupt id p) = offsets p;
  notify_acknowledged a b id p : offsets p = Some (a, b) → a ≤ id < a + 8 ∨ b ≤ id < b + 8 →
    acknowledged (notify_end_of_interrupt id p) = acknowledged p ++ [id];
}.

Section pic.
Context `{ChainedPics P}.

Definition PIC : P := pics_new PIC_INT_OFFSET (PIC_INT_OFFSET + 8).

Definition init_pic (p : P) : P := disable (initialize p).

(** [!mask.bits()] in 16 bits, cut into two bytes. *)
Definition set_mask (mask : Mask) (p : P) : P :=
  let bits := N.lxor mask 0xffff in
  write_masks (bits mod 256) (N.shiftr bits 8 mod 256) p.

Definition send_eoi (irq : Irq) (p : P) : result P :=
  id ← checked_add 256 PIC_INT_OFFSET (irq_code irq);
  Ok (notify_end_of_interrupt id p).

(** ** Lines and interrupts *)

(** Line [n] can raise an interrupt. *)
Definition line_enabled (p : P) (n : N) : bool :=
  let '(m1, m2) := masks p in negb (N.testbit (if n <? 8 then m1 else m2) (n mod 8)).

(** The interrupt that line [n] raises. *)
Definition line_vector (p : P) (n : N) : option N :=
  '(a, b) ← offsets p; Some (if n <? 8 then a + n else b + (n - 8)).

Lemma irq_code_lt i : irq_code i < 16.
Proof. by destruct i. Qed.

(** Exactly the lines of the mask are enabled. *)
Lemma set_mask_lines mask p n :
  n < 16 → line_enabled (set_mask mask p) n = N.testbit mask n.
Proof.
  intros Hn. unfold line_enabled, set_mask. rewrite write_masks_masks.
  assert (∀ k, k < 16 → N.testbit (N.lxor mask 65535) k = negb (N.testbit mask k)) as Hx.
  { intros k Hk. rewrite N.lxor_spec. change 65535 with (N.ones 16). rewrite N.ones_spec_low by done. apply xorb_true_r. }
  change 256 with (2 ^ 8). destruct (N.ltb_spec n 8) as [Hl|Hl].
  - rewrite (N.mod_small n) by done. rewrite N.mod_pow2_bits_low by done. rewrite Hx by done. apply negb_involutive.
  - replace (n mod 8) with (n - 8) by lia. rewrite N.mod_pow2_bits_low, N.shiftr_spec' by lia.
    replace (n - 8 + 8) with n by lia. rewrite Hx by done. apply negb_involutive.
Qed.

Lemma mask_bit_testbit i n : N.testbit (mask_bit i) n = (n =? irq_code i).
Proof. unfold mask_bit. rewrite N.shiftl_1_l, N.pow2_bits_eqb, N.eqb_sym. done. Qed.

(** The controllers after [init_pic]. *)
Definition remapped (p : P) : Prop := offsets p = Some (PIC_INT_OFFSET, PIC_INT_OFFSET + 8).

Lemma init_pic_remapped : remapped (init_pic PIC).
Proof. unfold remapped, init_pic, PIC. by rewrite disable_offsets, initialize_offsets. Qed.
Lemma set_mask_remapped mask p : remapped p → remapped (set_mask mask p).
Proof. unfold remapped, set_mask. by rewrite write_masks_offsets. Qed.

Lemma send_eoi_run i p :
  remapped p → ∃ p', send_eoi i p = Ok p' ∧ remapped p' ∧ masks p' = masks p ∧
    acknowledged p' = acknowledged p ++ [PIC_INT_OFFSET + irq_code i].
Proof.
  intros Hp. pose proof (irq_code_lt i). unfold send_eoi, PIC_INT_OFFSET in *. rewrite checked_add_Ok by lia. mred.
  eexists. split; [done|]. unfold remapped. rewrite notify_offsets, notify_masks. split_and!; try done.
  apply (notify_acknowledged _ _ _ _ Hp). unfold PIC_INT_OFFSET. lia.
Qed.

(** The line of an enumerated device raises the interrupt [as_intn]. *)
Lemma as_intn_vector i p : remapped p → as_intn i = Ok (32 + irq_code i) ∧ line_vector p (irq_code i) = Some (32 + irq_code i).
Proof.
  intros Hp. pose proof (irq_code_lt i). unfold as_intn, line_vector, remapped, PIC_INT_OFFSET in *.
  rewrite checked_add_Ok by lia. rewrite Hp. simpl. split; [done|]. destruct (N.ltb_spec (irq_code i) 8); f_equal; lia.
Qed.
End pic.

(** Two controllers as data, to run the definitions on examples. *)
#[export, refine] Instance pics_example : ChainedPics (option (N * N) * (N * N) * list N * (N * N)) := {
  pics_new a b := (None, (0, 0), [], (a, b));
  initialize '(_, m, l, o) := (Some o, m, l, o);
  disable '(f, _, l, o) := (f, (255, 255), l, o);
  write_masks a b '(f, _, l, o) := (f, (a, b), l, o);
  notify_end_of_interrupt id p :=
    let '(f, m, l, o) := p in
    match f with
    | Some (a, b) => if ((a <=? id) && (id <? a + 8)) || ((b <=? id) && (id <? b + 8)) then (f, m, l ++ [id], o) else p
    | None => p
    end;
  offsets '(f, _, _, _) := f;
  masks '(_, m, _, _) := m;
  acknowledged '(_, _, l, _) := l;
}.
Proof.
  - done.
  - by intros [[[f m] l] o].
  - by intros a b [[[f m] l] o].
  - by intros [[[f m] l] o].
  - by intros a b [[[f m] l] o].
  - intros id [[[[[a b]|] m] l] o]; [|done]. by destruct (_ || _).
  - intros id [[[[[a b]|] m] l] o]; [|done]. by destruct (_ || _).
  - intros a b id [[[f m] l] o] -> [Hid|Hid].
    + by rewrite (proj2 (N.leb_le _ _)), (proj2 (N.ltb_lt _ _)) by lia.
    + by rewrite (proj2 (N.leb_le b _)), (proj2 (N.ltb_lt id (b + 8))), orb_true_r by lia.
Defined.

End Pic.
