(* ===== verification/EventLoop.v ===== *)
(** * The main loop of [kernel/src/lib.rs] and the interrupt handlers

    Handlers only put a message into the interrupt queue and acknowledge the
    interrupt; the main loop takes messages out, with interrupts disabled,
    and handles them, with interrupts enabled; without a message it halts the
    processor.  The machine is a step relation: the main loop's steps, and
    interrupts wherever they are enabled.  What a key does to the terminal,
    and what the shell does with a line, are parameters here; the console
    instantiates them. *)
From stdpp Require Import relations.
From S2P Require Import Prelude RingBuffer InterruptQueue Pic.
Import InterruptQueue Pic.

Module EventLoop.

Section event_loop.
Context {Q : Type} `{BoundedQueue Q InterruptMessage BUFFER_SIZE holds}.
Context `{ChainedPics P}.
(** [keyboard_handler] on the rest of the kernel; and [getline], [input_line]
    and [prompt], at a tick. *)
Context {App : Type} (on_key : N → App → result App) (on_line : N → App → result App).

Record kernel := mkKernel { queue : Q; TICK_COUNTER : N; pics : P; app : App }.

(** ** [pit.rs] and [keyboard.rs] *)
Definition timer_handler (k : kernel) : kernel :=
  mkKernel (queue k) ((TICK_COUNTER k + 1) mod W64)%N (pics k) (app k).
Definition tick (k : kernel) : N := TICK_COUNTER k.
Definition timer_int_handler (k : kernel) : result kernel :=
  q ← intmsg_push (queue k) Timer;
  p ← send_eoi TIMER (pics k);
  Ok (mkKernel q (TICK_COUNTER k) p (app k)).
(** [data] is what the port reads. *)
Definition keyboard_int_handler (data : N) (k : kernel) : result kernel :=
  q ← intmsg_push (queue k) (Keyboard data);
  p ← send_eoi KEYBOARD (pics k);
  Ok (mkKernel q (TICK_COUNTER k) p (app k)).

Definition int_handler (m : InterruptMessage) (k : kernel) : result kernel :=
  match m with Timer => timer_int_handler k | Keyboard data => keyboard_int_handler data k end.

(** The [match] of the main loop and what follows it. *)
Definition handle (m : InterruptMessage) (k : kernel) : result kernel :=
  k ← match m with
      | Timer => Ok (timer_handler k)
      | Keyboard data => a ← on_key data (app k); Ok (mkKernel (queue k) (TICK_COUNTER k) (pics k) a)
      end;
  a ← on_line (tick k) (app k);
  Ok (mkKernel (queue k) (TICK_COUNTER k) (pics k) a).

(** ** The loop

    Where the main program is: before [disable], after it, with a message
    taken, with interrupts enabled again, halted. *)
Inductive place := Top | Masked | Taken (m : InterruptMessage) | Handling (m : InterruptMessage) | Halted.

Definition interrupts_enabled (p : place) : bool :=
  match p with Top | Handling _ | Halted => true | Masked | Taken _ => false end.

(** One step of the main program; a panic has no step.  [enable_and_hlt] is
    one step: an interrupt is taken only once the processor is halted. *)
Definition main_step (st : place * kernel) : result (place * kernel) :=
  let '(p, k) := st in
  match p with
  | Top => Ok (Masked, k)
  | Masked =>
      '(m, q) ← intmsg_pop (queue k);
      let k := mkKernel q (TICK_COUNTER k) (pics k) (app k) in
      match m with Some m => Ok (Taken m, k) | None => Ok (Halted, k) end
  | Taken m => Ok (Handling m, k)
  | Handling m => k ← handle m k; Ok (Top, k)
  | Halted => Ok (Halted, k)
  end.

(** An interrupt: the handler runs, and a halted processor goes on. *)
Definition interrupt (m : InterruptMessage) (st : place * kernel) : result (place * kernel) :=
  let '(p, k) := st in
  k ← int_handler m k;
  Ok (match p with Halted => Top | p => p end, k).

Inductive step : place * kernel → place * kernel → Prop :=
  | step_main st st' : main_step st = Ok st' → step st st'
  | step_interrupt m p k st' :
      interrupts_enabled p = true → interrupt m (p, k) = Ok st' → step (p, k) st'.

(** ** Invariant *)
Definition inv (st : place * kernel) : Prop :=
  remapped (pics st.2) ∧ ∃ l, holds (queue st.2) l ∧ (st.1 = Halted → l = []).

Lemma handle_keeps m k k' : handle m k = Ok k' → queue k' = queue k ∧ pics k' = pics k.
Proof.
  unfold handle. destruct m as [|data]; mred.
  - cbn [timer_handler app]. destruct (on_line _ _); [|done]. mred. by intros [= <-].
  - destruct (on_key _ _); [|done]. mred. cbn [app]. destruct (on_line _ _); [|done]. mred. by intros [= <-].
Qed.

(** A step of the loop panics only where the application does. *)
Lemma main_step_inv st :
  inv st → (∃ st', main_step st = Ok st' ∧ inv st') ∨
    (∃ m p, st.1 = Handling m ∧ handle m st.2 = Panic p ∧ main_step st = Panic p).
Proof.
  destruct st as [p k]. intros (Hp & l & Hq & Hh). destruct p as [| |m|m|]; simpl in *.
  - left. eexists. split; [done|]. split; [done|]. by exists l.
  - left. destruct (intmsg_pop_holds (queue k) l Hq) as (q' & -> & Hq'). mred.
    destruct l as [|m l]; simpl in *; (eexists; split; [done|]; split; [done|]); [by exists []|by exists l].
  - left. eexists. split; [done|]. split; [done|]. by exists l.
  - destruct (handle m k) as [k'|p] eqn:Hk; mred; [left|right; by eexists _, _].
    apply handle_keeps in Hk as [Hk1 Hk2]. eexists. split; [done|]. unfold inv. simpl. rewrite Hk1, Hk2. split; [done|by exists l].
  - left. eexists. split; [done|]. split; [done|]. by exists l.
Qed.

(** The line of a device. *)
Definition irq_of (m : InterruptMessage) : Irq := match m with Timer => TIMER | Keyboard _ => KEYBOARD end.

Lemma int_handler_run m k l :
  remapped (pics k) → holds (queue k) l →
  ∃ k', int_handler m k = Ok k' ∧ remapped (pics k') ∧ app k' = app k ∧ TICK_COUNTER k' = TICK_COUNTER k ∧
    masks (pics k') = masks (pics k) ∧
    acknowledged (pics k') = acknowledged (pics k) ++ [PIC_INT_OFFSET + irq_code (irq_of m)]%N ∧
    holds (queue k') (if (vlen l <? BUFFER_SIZE)%N then l ++ [m] else l).
Proof.
  intros Hp Hq. destruct (intmsg_push_holds (queue k) l m Hq) as (q' & Hpush & Hq').
  destruct (send_eoi_run (irq_of m) (pics k) Hp) as (p' & Heoi & Hp' & Hm & Ha).
  exists (mkKernel q' (TICK_COUNTER k) p' (app k)). split; [|by split_and!].
  destruct m; simpl in *; unfold timer_int_handler, keyboard_int_handler; rewrite Hpush; mred; by rewrite Heoi.
Qed.

Lemma interrupt_inv m st : inv st → ∃ st', interrupt m st = Ok st' ∧ inv st'.
Proof.
  destruct st as [p k]. intros (Hp & l & Hq & Hh). unfold interrupt.
  destruct (int_handler_run m k l Hp Hq) as (k' & -> & Hp' & _ & _ & _ & _ & Hq'). mred. eexists. split; [done|].
  split; [done|]. eexists. split; [exact Hq'|]. simpl. by destruct p.
Qed.

Lemma loop_inv_reachable st st' : inv st → rtc step st st' → inv st'.
Proof.
  intros HI Hr. induction Hr as [|st1 st2 st3 Hst _ IH]; [done|]. apply IH.
  destruct Hst as [st1 st2 Hm|m p k st2 _ Hi].
  - destruct (main_step_inv st1 HI) as [(? & ? & ?)|(? & ? & _ & _ & ?)]; congruence.
  - destruct (interrupt_inv m (p, k) HI) as (? & ? & ?). congruence.
Qed.

(** ** Progress *)

(** Handling messages in order. *)
Definition handle_all (l : list InterruptMessage) (k : kernel) : result kernel := for_each l handle k.

Definition iter_main (n : nat) (st : place * kernel) : result (place * kernel) :=
  Nat.iter n (λ r, r ≫= main_step) (Ok st).

Lemma iter_main_S n st : iter_main (S n) st = main_step st ≫= iter_main n.
Proof.
  unfold iter_main. rewrite Nat.iter_succ_r. simpl. destruct (main_step st) as [st'|]; simpl; [done|].
  induction n as [|n IH]; simpl; [done|]. by rewrite IH.
Qed.

(** The part of the kernel that handling a message reads and writes. *)
Definition same_rest (k k' : kernel) : Prop :=
  TICK_COUNTER k' = TICK_COUNTER k ∧ app k' = app k.

Lemma handle_rest m k1 k2 :
  same_rest k1 k2 →
  match handle m k1 with
  | Ok k1' => ∃ k2', handle m k2 = Ok k2' ∧ same_rest k1' k2'
  | Panic p => handle m k2 = Panic p
  end.
Proof.
  destruct k1 as [q1 t1 p1 a1], k2 as [q2 t2 p2 a2]. intros (Ht & Ha). simpl in *. subst.
  unfold handle. destruct m as [|data]; mred; simpl.
  - destruct (on_line _ _); mred; [by eexists|done].
  - destruct (on_key _ _); mred; simpl; [|done]. destruct (on_line _ _); mred; [by eexists|done].
Qed.

Lemma handle_all_rest l k1 k2 :
  same_rest k1 k2 →
  match handle_all l k1 with
  | Ok k1' => ∃ k2', handle_all l k2 = Ok k2' ∧ same_rest k1' k2'
  | Panic p => handle_all l k2 = Panic p
  end.
Proof.
  revert k1 k2. induction l as [|m l IH]; intros k1 k2 Hs; cbn [handle_all for_each]; [by exists k2|].
  pose proof (handle_rest m k1 k2 Hs) as Hm. destruct (handle m k1) as [k1'|p]; mred.
  - destruct Hm as (k2' & -> & Hs'). mred. by apply IH.
  - by rewrite Hm.
Qed.

(** Without further interrupts, four steps handle a message; then it halts. *)
Lemma drain l k :
  holds (queue k) l →
  match handle_all l k with
  | Ok k1 => ∃ k', iter_main (4 * length l + 2) (Top, k) = Ok (Halted, k') ∧ holds (queue k') [] ∧ same_rest k1 k'
  | Panic p => iter_main (4 * length l + 2) (Top, k) = Panic p
  end.
Proof.
  revert k. induction l as [|m l IH]; intros k Hq.
  - cbn [handle_all for_each length Nat.mul Nat.add]. rewrite iter_main_S. cbn [main_step]. mred.
    rewrite iter_main_S. cbn [main_step].
    destruct (intmsg_pop_holds (queue k) [] Hq) as (q' & -> & Hq'). mred. simpl. by eexists.
  - replace (4 * length (m :: l) + 2)%nat with (S (S (S (S (4 * length l + 2))))) by (simpl; lia).
    rewrite iter_main_S. cbn [main_step]. mred.
    rewrite iter_main_S. cbn [main_step].
    destruct (intmsg_pop_holds (queue k) (m :: l) Hq) as (q' & -> & Hq'). mred. cbn [head]. mred.
    do 2 (rewrite iter_main_S; cbn [main_step]; mred). set (k1 := mkKernel q' _ _ _).
    assert (same_rest k k1) as Hs by done. cbn [handle_all for_each]. pose proof (handle_rest m k k1 Hs) as Hm.
    destruct (handle m k) as [kh|p] eqn:Hkh; mred; [|by rewrite Hm].
    destruct Hm as (k1' & Hk1 & Hs1). rewrite Hk1. mred. apply handle_keeps in Hk1 as [Hk1q _].
    assert (holds (queue k1') l) as Hq1 by by rewrite Hk1q.
    specialize (IH k1' Hq1). pose proof (handle_all_rest l kh k1' Hs1) as Hl. unfold handle_all in *.
    destruct (for_each l handle kh) as [k2|p].
    + destruct Hl as (k2' & Hl & Hs2). rewrite Hl in IH. destruct IH as (k' & Hit & Hq2 & Hs3). exists k'.
      split_and!; [done|done|]. destruct Hs2, Hs3. split; congruence.
    + by rewrite Hl in IH.
Qed.

(** C13: the processor never sleeps over a message: whenever the machine is
    halted the queue is empty, whatever interrupts came and when; the
    interrupt handlers never panic and acknowledge their interrupt, and the
    loop panics at most where it hands a message to terminal and shell. *)
Theorem no_lost_wakeup k0 p k :
  remapped (pics k0) → holds (queue k0) [] → rtc step (Top, k0) (p, k) →
  (p = Halted → holds (queue k) []) ∧
  ((∃ st', main_step (p, k) = Ok st') ∨ ∃ m e, p = Handling m ∧ handle m k = Panic e) ∧
  (∀ m, ∃ p' k', interrupt m (p, k) = Ok (p', k') ∧ p' ≠ Halted ∧
    acknowledged (pics k') = acknowledged (pics k) ++ [PIC_INT_OFFSET + irq_code (irq_of m)]%N).
Proof.
  intros Hp0 Hq Hr.
  assert (inv (p, k)) as HI by (eapply (loop_inv_reachable (Top, k0)); [by split; [|exists []]|done]).
  pose proof HI as (Hp & l & Hl & He). simpl in Hp, Hl, He. split_and!.
  - intros ->. by rewrite (He eq_refl) in Hl.
  - destruct (main_step_inv _ HI) as [(st' & ? & _)|(m & e & ? & ? & _)]; [left|right]; eauto.
  - intros m. destruct (int_handler_run m k l Hp Hl) as (k' & Hi & _ & _ & _ & _ & Ha & _).
    unfold interrupt. rewrite Hi. mred. eexists _, k'. split; [done|]. split; [by destruct p|done].
Qed.

End event_loop.

(** ** The kernel's queue, and a list of keys as the rest of the kernel *)
Definition log_key (d : N) (l : list N) : result (list N) := Ok (l ++ [d]).
Definition no_line (_ : N) (l : list N) : result (list N) := Ok l.
Definition demo_pics : option (N * N) * (N * N) * list N * (N * N) := Eval vm_compute in init_pic PIC.
Definition boot := mkKernel QUEUE 0 demo_pics ([] : list N).

Lemma demo_remapped : remapped (pics boot).
Proof. vm_compute. reflexivity. Qed.

Lemma no_lost_wakeup_witness :
  ∃ k, rtc (step log_key no_line) (Top, boot) (Halted, k) ∧ RingBuffer.repr BUFFER_SIZE (queue k) [].
Proof.
  destruct (intmsg_pop_holds QUEUE [] QUEUE_repr) as (q & Hq & _).
  assert (rtc (step log_key no_line) (Top, boot) (Halted, mkKernel q 0 demo_pics [])) as Hr.
  { eapply rtc_l; [apply step_main; reflexivity|]. eapply rtc_l; [|apply rtc_refl].
    apply step_main. unfold main_step, boot, queue. rewrite Hq. reflexivity. }
  exists (mkKernel q 0 demo_pics []). split; [exact Hr|].
  apply (no_lost_wakeup log_key no_line boot Halted (mkKernel q 0 demo_pics []) demo_remapped QUEUE_repr Hr). reflexivity.
Defined.

End EventLoop.
