(* ===== verification/Schedule.v ===== *)
(** * The main loop under every schedule of interrupts

    An execution is an interleaving of the steps of the main loop with
    interrupts.  What the kernel makes of it does not depend on the moments at
    which the interrupts came: it is as if the messages that the queue took
    had been handled one after the other. *)
From stdpp Require Import relations.
From S2P Require Import Prelude RingBuffer InterruptQueue Pic EventLoop.
Import InterruptQueue Pic EventLoop.

Module Schedule.

Section schedule.
Context {Q : Type} `{BoundedQueue Q InterruptMessage BUFFER_SIZE holds}.
Context `{ChainedPics P}.
Context {App : Type} (on_key : N → App → result App) (on_line : N → App → result App).
Implicit Types (k : kernel (Q := Q) (P := P) (App := App)) (st : place * kernel (Q := Q) (P := P) (App := App)).
Implicit Types (arrived taken l : list InterruptMessage).

Local Abbreviation handle := (handle on_key on_line).
Local Abbreviation handle_all := (handle_all on_key on_line).
Local Abbreviation main_step := (main_step on_key on_line).
Local Abbreviation iter_main := (iter_main on_key on_line).

(** Whether the queue takes another message. *)
Definition accepts k : bool := match q_len (queue k) with Ok n => (n <? BUFFER_SIZE)%N | Panic _ => false end.

(** [exec st arrived taken st']: a run with the interrupts [arrived], of which
    the queue took [taken]. *)
Inductive exec : place * kernel → list InterruptMessage → list InterruptMessage → place * kernel → Prop :=
  | exec_nil st : exec st [] [] st
  | exec_main st st1 arrived taken st' :
      main_step st = Ok st1 → exec st1 arrived taken st' → exec st arrived taken st'
  | exec_interrupt m p k st1 arrived taken st' :
      interrupts_enabled p = true → interrupt m (p, k) = Ok st1 → exec st1 arrived taken st' →
      exec (p, k) (m :: arrived) ((if accepts k then [m] else []) ++ taken) st'.

(** Executions are the runs of the step relation. *)
Lemma exec_steps st st' : rtc (step on_key on_line) st st' ↔ ∃ arrived taken, exec st arrived taken st'.
Proof.
  split.
  - induction 1 as [st|st st1 st' Hs _ (arrived & taken & IH)]; [by eexists _, _; constructor|].
    destruct Hs as [st st1 Hm|m p k st1 Hp Hi]; eexists _, _; by econstructor.
  - intros (arrived & taken & He). induction He as [|? ? ? ? ? Hm _ IH|? ? ? ? ? ? ? Hp Hi _ IH]; [done|..];
      (eapply rtc_l; [|exact IH]); by econstructor.
Qed.

(** ** The messages handled and to be handled *)
Definition in_hand (p : place) : list InterruptMessage :=
  match p with Taken m | Handling m => [m] | _ => [] end.

(** All the messages from [k0] on: those handled, the one in hand, those queued. *)
Definition handling k0 (all : list InterruptMessage) st : Prop :=
  ∃ past k1 l, handle_all past k0 = Ok k1 ∧ same_rest k1 st.2 ∧ holds (queue st.2) l ∧
    all = past ++ in_hand st.1 ++ l ∧ (st.1 = Halted → l = []).

Lemma handle_all_snoc past m k0 k1 k1' :
  handle_all past k0 = Ok k1 → handle m k1 = Ok k1' → handle_all (past ++ [m]) k0 = Ok k1'.
Proof. unfold EventLoop.handle_all. rewrite for_each_app. intros -> Hm. mred. cbn [for_each]. by rewrite Hm. Qed.

Lemma main_step_handling k0 all st st' : handling k0 all st → main_step st = Ok st' → handling k0 all st'.
Proof.
  destruct st as [p k]. intros (past & k1 & l & Hpast & Hs & Hq & -> & Hh). destruct p as [| |m|m|]; simpl in *.
  - intros [= <-]. exists past, k1, l. by split_and!.
  - destruct (intmsg_pop_holds (queue k) l Hq) as (q' & -> & Hq'). mred.
    destruct l as [|m l]; simpl in *; intros [= <-]; eexists past, k1, _; by split_and!.
  - intros [= <-]. exists past, k1, l. by split_and!.
  - destruct (handle m k) as [k'|] eqn:Hk; [|done]. mred. intros [= <-].
    pose proof (handle_rest on_key on_line m k1 k Hs) as Hr.
    destruct (handle m k1) as [k1'|] eqn:Hk1; [|congruence].
    destruct Hr as (k2 & Hk2 & Hs2). rewrite Hk in Hk2. injection Hk2 as <-.
    exists (past ++ [m]), k1', l. split; [by eapply handle_all_snoc|]. split; [done|].
    apply handle_keeps in Hk as [Hkq _]. simpl. rewrite Hkq, <-app_assoc. by split_and!.
  - intros [= <-]. exists past, k1, l. by split_and!.
Qed.

Lemma int_handler_rest m k k' l :
  holds (queue k) l → int_handler m k = Ok k' →
  same_rest k k' ∧ holds (queue k') (l ++ if accepts k then [m] else []).
Proof.
  intros Hq Hi. destruct (intmsg_push_holds (queue k) l m Hq) as (q' & Hpush & Hq').
  unfold accepts. rewrite (q_len_holds _ _ Hq).
  assert (queue k' = q' ∧ same_rest k k') as [-> Hs].
  { destruct m; simpl in Hi; unfold timer_int_handler, keyboard_int_handler in Hi; rewrite Hpush in Hi; revert Hi; mred;
      destruct (send_eoi _ _); mred; [|done| |done]; by intros [= <-]. }
  split; [done|]. destruct (vlen l <? BUFFER_SIZE)%N; [done|by rewrite app_nil_r].
Qed.

Lemma interrupt_handling k0 all m p k st' :
  handling k0 all (p, k) → interrupt m (p, k) = Ok st' →
  handling k0 (all ++ if accepts k then [m] else []) st'.
Proof.
  intros (past & k1 & l & Hpast & Hs & Hq & -> & Hh). simpl in *. destruct (int_handler m k) as [k'|] eqn:Hi; [|done].
  mred. intros [= <-]. destruct (int_handler_rest m k k' l Hq Hi) as [Hs' Hq'].
  eexists past, k1, _. split; [done|]. split; [destruct Hs, Hs'; split; simpl; congruence|]. split; [exact Hq'|].
  rewrite <-!app_assoc. by destruct p.
Qed.

Lemma exec_handling k0 all st arrived taken st' :
  exec st arrived taken st' → handling k0 all st → handling k0 (all ++ taken) st'.
Proof.
  intros He. revert all. induction He as [st|st st1 arrived taken st' Hm _ IH|m p k st1 arrived taken st' _ Hi _ IH]; intros all HH.
  - by rewrite app_nil_r.
  - apply IH. by eapply main_step_handling.
  - rewrite app_assoc. apply IH. by eapply interrupt_handling.
Qed.

(** Only a full queue refuses messages. *)
Lemma exec_taken st arrived taken st' : exec st arrived taken st' → taken `sublist_of` arrived.
Proof.
  induction 1 as [| |m p k st1 arrived taken st' _ _ _ IH]; [done|done|].
  destruct (accepts k); [by apply sublist_skip|by apply sublist_cons].
Qed.

Lemma exec_all_taken k0 all st arrived taken st' :
  exec st arrived taken st' → handling k0 all st → (vlen all + vlen arrived ≤ BUFFER_SIZE)%N → taken = arrived.
Proof.
  intros He. revert all. induction He as [st|st st1 arrived taken st' Hm _ IH|m p k st1 arrived taken st' _ Hi _ IH];
    intros all HH Hb.
  - done.
  - eapply IH; [|done]. by eapply main_step_handling.
  - rewrite vlen_cons in Hb. assert (accepts k = true) as Ha.
    { destruct HH as (past & k1 & l & _ & _ & Hq & -> & _). unfold accepts. rewrite (q_len_holds _ _ Hq).
      apply N.ltb_lt. rewrite !vlen_app in Hb. simpl in *. lia. }
    pose proof (interrupt_handling _ _ _ _ _ _ HH Hi) as HH'. rewrite Ha in HH' |- *. simpl. f_equal.
    eapply IH; [exact HH'|]. rewrite vlen_app. change (vlen [m]) with 1%N. lia.
Qed.

(** ** Completion *)
Lemma iter_main_halted n k : iter_main n (Halted, k) = Ok (Halted, k).
Proof. induction n as [|n IH]; [done|]. rewrite iter_main_S. cbn [EventLoop.main_step]. mred. apply IH. Qed.

(** What the rest of the run must lead to. *)
Definition completes k0 all st : Prop :=
  ∃ n, match handle_all all k0 with
       | Ok k1 => ∃ k', iter_main n st = Ok (Halted, k') ∧ holds (queue k') [] ∧ same_rest k1 k'
       | Panic p => iter_main n st = Panic p
       end.

Lemma same_rest_trans k1 k2 k3 : same_rest k1 k2 → same_rest k2 k3 → same_rest k1 k3.
Proof. intros [] []. split; congruence. Qed.

Lemma top_completes k0 past l k1 k :
  handle_all past k0 = Ok k1 → same_rest k1 k → holds (queue k) l → completes k0 (past ++ l) (Top, k).
Proof.
  intros Hpast Hs Hq. exists (4 * length l + 2)%nat. unfold EventLoop.handle_all. rewrite for_each_app.
  fold (handle_all past k0). rewrite Hpast. mred. fold (handle_all l k1).
  pose proof (handle_all_rest on_key on_line l k1 k Hs) as Hr. pose proof (drain on_key on_line l k Hq) as Hd.
  destruct (handle_all l k1) as [k2|p].
  - destruct Hr as (k2' & Hr & Hs2). rewrite Hr in Hd. destruct Hd as (k' & Hit & Hq' & Hs3). exists k'.
    split_and!; [done|done|by eapply same_rest_trans].
  - by rewrite Hr in Hd.
Qed.

Lemma step_completes k0 all st st1 : main_step st = Ok st1 → completes k0 all st1 → completes k0 all st.
Proof. intros Hm (n & Hn). exists (S n). rewrite iter_main_S, Hm. exact Hn. Qed.

Lemma handling_completes k0 all st : handling k0 all st → completes k0 all st.
Proof.
  assert (∀ m k, handling k0 all (Handling m, k) → completes k0 all (Handling m, k)) as Hhand.
  { intros m k (past & k1 & l & Hpast & Hs & Hq & -> & _). simpl in *.
    pose proof (handle_rest on_key on_line m k1 k Hs) as Hr. destruct (handle m k1) as [k1'|p] eqn:Hk1.
    - destruct Hr as (k' & Hk & Hs'). eapply step_completes; [cbn [EventLoop.main_step]; by rewrite Hk|].
      rewrite (cons_middle m past l), app_assoc. eapply top_completes; [by eapply handle_all_snoc|done|].
      by apply handle_keeps in Hk as [-> _].
    - exists 1%nat. unfold EventLoop.handle_all in *. rewrite for_each_app, Hpast. mred. cbn [for_each]. rewrite Hk1. mred.
      rewrite iter_main_S. cbn [EventLoop.main_step]. by rewrite Hr. }
  intros HH. destruct st as [[| |m|m|] k].
  - destruct HH as (past & k1 & l & Hpast & Hs & Hq & -> & _). by eapply top_completes.
  - destruct HH as (past & k1 & l & Hpast & Hs & Hq & -> & _).
    destruct (top_completes k0 past l k1 k Hpast Hs Hq) as ([|n] & Hn).
    + destruct (handle_all (past ++ l) k0); [|discriminate Hn]. destruct Hn as (? & [=] & _).
    + exists n. rewrite iter_main_S in Hn. exact Hn.
  - eapply step_completes; [done|]. apply Hhand. by eapply main_step_handling.
  - by apply Hhand.
  - destruct HH as (past & k1 & l & Hpast & Hs & Hq & -> & Hl). rewrite (Hl eq_refl) in Hq |- *. simpl. rewrite app_nil_r.
    exists 0%nat. rewrite Hpast. by exists k.
Qed.

Lemma schedule_run k0 l0 arrived taken st :
  holds (queue k0) l0 → exec (Top, k0) arrived taken st → completes k0 (l0 ++ taken) st.
Proof.
  intros Hq He. apply handling_completes. eapply exec_handling; [exact He|]. by exists [], k0, l0.
Qed.

(** C15: the moments at which interrupts come do not matter: after any
    interleaving of main loop and interrupts, and without further ones, the
    loop halts with an empty queue, and tick counter, terminal and shell are
    as if the messages that the queue took had been handled in their order,
    one after the other; if handling them so panics, so does the loop.  The
    queue takes every message unless more than [BUFFER_SIZE] are pending. *)
Theorem schedule_independent k0 l0 arrived taken st :
  holds (queue k0) l0 → exec (Top, k0) arrived taken st →
  taken `sublist_of` arrived ∧ ((vlen l0 + vlen arrived ≤ BUFFER_SIZE)%N → taken = arrived) ∧
  (∃ n, match handle_all (l0 ++ taken) k0 with
        | Ok k1 => ∃ k', iter_main n st = Ok (Halted, k') ∧ holds (queue k') [] ∧
            TICK_COUNTER k' = TICK_COUNTER k1 ∧ app k' = app k1
        | Panic p => iter_main n st = Panic p
        end) ∧
  (st.1 = Halted → ∃ k1, handle_all (l0 ++ taken) k0 = Ok k1 ∧
    TICK_COUNTER st.2 = TICK_COUNTER k1 ∧ app st.2 = app k1).
Proof.
  intros Hq He. assert (handling k0 l0 (Top, k0)) as HH by by exists [], k0, l0.
  split_and!; [by eapply exec_taken|by eapply exec_all_taken|by eapply schedule_run|].
  intros Hp. destruct (schedule_run k0 l0 arrived taken st Hq He) as (n & Hn). destruct st as [p k]. simpl in *. subst p.
  rewrite iter_main_halted in Hn. destruct (handle_all _ _) as [k1|]; [|done]. exists k1. split; [done|].
  destruct Hn as (k' & [= <-] & _ & ? & ?). done.
Qed.
End schedule.

(** ** An example: a key, and a timer interrupt while it is handled *)
Lemma schedule_independent_witness :
  ∃ k, exec log_key no_line (Top, boot) [Keyboard 30; Timer] [Keyboard 30; Timer] (Halted, k) ∧
    TICK_COUNTER k = 1%N ∧ app k = [30%N].
Proof.
  destruct (intmsg_push_holds QUEUE [] (Keyboard 30) QUEUE_repr) as (q1 & Hp1 & H1).
  destruct (intmsg_pop_holds q1 _ H1) as (q2 & Hp2 & H2).
  destruct (intmsg_push_holds q2 [] Timer H2) as (q3 & Hp3 & H3).
  destruct (intmsg_pop_holds q3 _ H3) as (q4 & Hp4 & H4).
  destruct (intmsg_pop_holds q4 _ H4) as (q5 & Hp5 & H5).
  destruct (send_eoi_run KEYBOARD demo_pics demo_remapped) as (pics1 & He1 & Hr1 & _).
  destruct (send_eoi_run TIMER pics1 Hr1) as (pics2 & He2 & _).
  assert (exec log_key no_line (Top, boot) [Keyboard 30; Timer] [Keyboard 30; Timer]
    (Halted, mkKernel q5 1 pics2 [30%N])) as Hr.
  { change [Keyboard 30; Timer] with ((if accepts boot then [Keyboard 30] else []) ++ [Timer]) at 2.
    eapply exec_interrupt; [done|unfold interrupt, int_handler, keyboard_int_handler, boot; cbn [queue pics]; rewrite Hp1; mred; rewrite He1; reflexivity|].
    eapply exec_main; [reflexivity|]. eapply exec_main; [cbn [EventLoop.main_step queue]; rewrite Hp2; reflexivity|].
    eapply exec_main; [reflexivity|]. set (k1 := mkKernel q2 _ _ _).
    assert (accepts k1 = true) as Ha by (unfold accepts; cbn [queue k1]; rewrite (q_len_holds _ _ H2); reflexivity).
    change [Timer] with ((if true then [Timer] else []) ++ []) at 2. rewrite <-Ha.
    eapply exec_interrupt; [done|unfold interrupt, int_handler, timer_int_handler, k1; cbn [queue pics]; rewrite Hp3; mred; rewrite He2; reflexivity|].
    eapply exec_main; [reflexivity|]. eapply exec_main; [reflexivity|].
    eapply exec_main; [cbn [EventLoop.main_step queue]; rewrite Hp4; reflexivity|].
    do 3 (eapply exec_main; [reflexivity|]). eapply exec_main; [cbn [EventLoop.main_step queue timer_handler app pics TICK_COUNTER]; rewrite Hp5; reflexivity|].
    apply exec_nil. }
  destruct (schedule_independent log_key no_line boot [] _ _ _ QUEUE_repr Hr) as (_ & _ & _ & Hh).
  destruct (Hh eq_refl) as (k1 & Hk1 & Ht & Ha). eexists. split; [exact Hr|].
  cbn [snd] in Ht, Ha. split; [rewrite Ht|rewrite Ha]; injection Hk1 as <-; reflexivity.
Defined.

End Schedule.
