(* ===== verification/Terminal.v ===== *)
(** * The terminal of [kernel/src/terminal.rs]: data and operations

    The terminal keeps the last [BUFFER_HEIGHT] rows of text in a ring
    buffer, shows a window of them in video memory between the status lines,
    and edits a line of input at the cursor.  Every operation is a function
    on the [Terminal] structure; the lock around it is the sequence of calls.
    Video memory is a list of rows, and a write outside a row of it is
    [Panic UB].  The ports of the video controller are the list of what was
    written to them, the newest first. *)
From stdpp Require Import pretty.
From S2P Require Import Prelude RingBuffer.
Local Open Scope checked_scope.

(** ** The crate [arrayvec]

    A vector of at most [CAP] bytes.  [av_slice] is its contents; inserting
    into or pushing to a full vector panics, as does an index out of range. *)
Class ArrayVec (V : Type) (CAP : N) := {
  av_new : V;
  av_slice : V → list N;
  av_insert : V → N → N → result V;
  av_remove : V → N → result V;
  av_push : V → N → result V;
  av_drain : V → N → result (list N * V);
  av_collect : list N → result V;
  av_try_from : list N → option V;
  av_slice_new : av_slice av_new = [];
  av_slice_len v : (vlen (av_slice v) ≤ CAP)%N;
  av_insert_ok v i x :
    (i ≤ vlen (av_slice v))%N → (vlen (av_slice v) < CAP)%N →
    ∃ v', av_insert v i x = Ok v' ∧
      av_slice v' = take (N.to_nat i) (av_slice v) ++ x :: drop (N.to_nat i) (av_slice v);
  av_insert_full v i x : (i ≤ vlen (av_slice v))%N → vlen (av_slice v) = CAP → av_insert v i x = Panic Expect;
  av_remove_ok v i :
    (i < vlen (av_slice v))%N →
    ∃ v', av_remove v i = Ok v' ∧ av_slice v' = delete (N.to_nat i) (av_slice v);
  av_push_ok v x :
    (vlen (av_slice v) < CAP)%N → ∃ v', av_push v x = Ok v' ∧ av_slice v' = av_slice v ++ [x];
  av_drain_ok v n :
    (n ≤ vlen (av_slice v))%N →
    ∃ v', av_drain v n = Ok (take (N.to_nat n) (av_slice v), v') ∧
      av_slice v' = drop (N.to_nat n) (av_slice v);
  av_collect_ok l : (vlen l ≤ CAP)%N → ∃ v, av_collect l = Ok v ∧ av_slice v = l;
  av_try_from_ok l : (vlen l ≤ CAP)%N → ∃ v, av_try_from l = Some v ∧ av_slice v = l;
}.

Module Terminal.

(** ** Colours *)
Inductive Color :=
  | Black | Blue | Green | Cyan | Red | Magenta | Brown | LightGrey | DarkGrey | LightBlue
  | LightGreen | LightCyan | LightRed | Pink | Yello | White.

(** The discriminants ([repr(u8)]). *)
Definition color_code (c : Color) : N :=
  match c with
  | Black => 0 | Blue => 1 | Green => 2 | Cyan => 3 | Red => 4 | Magenta => 5 | Brown => 6
  | LightGrey => 7 | DarkGrey => 8 | LightBlue => 9 | LightGreen => 10 | LightCyan => 11
  | LightRed => 12 | Pink => 13 | Yello => 14 | White => 15
  end.

Definition ColorCode := N.
Definition ColorCode_new (fg bg : Color) : ColorCode :=
  N.lor (N.shiftl (color_code bg) 4 mod 256) (color_code fg).
Definition DEFAULT : ColorCode := ColorCode_new LightGrey Black.
Definition LOG : ColorCode := ColorCode_new LightGreen Black.
Definition STATUS : ColorCode := ColorCode_new White LightGrey.
Definition INPUT : ColorCode := ColorCode_new White Black.
Definition PANIC : ColorCode := ColorCode_new Red White.
Definition ERROR : ColorCode := ColorCode_new LightRed Black.

(** ** Data *)
Inductive InputStatus := Inputting | Waiting.
Inductive StatusLineKind := Front | Back.

Record LineInfo := mkLineInfo {
  li_cur_col : N; li_cur_row : N; li_screen : N; li_width : N; li_height : N; li_total : N;
}.

Record VideoChar := mkChar { character : N; color : ColorCode }.
Abbreviation VideoRow := (list VideoChar).

Definition VIDEO_HEIGHT : N := 25.
Definition VIDEO_WIDTH : N := 80.
Definition INPUT_MAXSIZE : N := 512.
Definition BUFFER_HEIGHT : N := 256.
Definition EMPTY_CHAR : VideoChar := mkChar 0 DEFAULT.
Definition EMPTY_ROW : VideoRow := replicate (N.to_nat VIDEO_WIDTH) EMPTY_CHAR.

(** The keys of the crate [pc-keyboard] that the terminal tells apart. *)
Inductive KeyCode := PageUp | PageDown | ArrowLeft | ArrowRight | ArrowUp | OtherKey (code : N).
Inductive DecodedKey := RawKey (k : KeyCode) | Unicode (ch : N).

#[export] Instance KeyCode_eq_dec : EqDecision KeyCode.
Proof. solve_decision. Defined.
#[export] Instance DecodedKey_eq_dec : EqDecision DecodedKey.
Proof. solve_decision. Defined.

Record Terminal (V : Type) := mkTerm {
  cur_col : N;
  cur_row : N;
  scr_row : N;
  status_front_len : N;
  status_back_len : N;
  input_begin : N;
  input_idx : N;
  input_status : InputStatus;
  input : V;
  history : V;
  buffer : RingBuffer.RingBuffer VideoRow;
  video : list VideoRow;
  ports : list (N * N);
}.
Arguments mkTerm {V}.
Arguments cur_col {V}.
Arguments cur_row {V}.
Arguments scr_row {V}.
Arguments status_front_len {V}.
Arguments status_back_len {V}.
Arguments input_begin {V}.
Arguments input_idx {V}.
Arguments input_status {V}.
Arguments input {V}.
Arguments history {V}.
Arguments buffer {V}.
Arguments video {V}.
Arguments ports {V}.

(** Assignments to the fields. *)
Section assignments.
Context {V : Type}.
Implicit Types (t : Terminal V).

Definition set_cur (col row : N) t : Terminal V :=
  mkTerm col row (scr_row t) (status_front_len t) (status_back_len t) (input_begin t) (input_idx t)
    (input_status t) (input t) (history t) (buffer t) (video t) (ports t).
Definition set_scr_row (row : N) t : Terminal V :=
  mkTerm (cur_col t) (cur_row t) row (status_front_len t) (status_back_len t) (input_begin t)
    (input_idx t) (input_status t) (input t) (history t) (buffer t) (video t) (ports t).
Definition set_status_lens (front back : N) t : Terminal V :=
  mkTerm (cur_col t) (cur_row t) (scr_row t) front back (input_begin t) (input_idx t)
    (input_status t) (input t) (history t) (buffer t) (video t) (ports t).
Definition set_input_pos (b i : N) t : Terminal V :=
  mkTerm (cur_col t) (cur_row t) (scr_row t) (status_front_len t) (status_back_len t) b i
    (input_status t) (input t) (history t) (buffer t) (video t) (ports t).
Definition set_input_status (st : InputStatus) t : Terminal V :=
  mkTerm (cur_col t) (cur_row t) (scr_row t) (status_front_len t) (status_back_len t) (input_begin t)
    (input_idx t) st (input t) (history t) (buffer t) (video t) (ports t).
Definition set_input (v : V) t : Terminal V :=
  mkTerm (cur_col t) (cur_row t) (scr_row t) (status_front_len t) (status_back_len t) (input_begin t)
    (input_idx t) (input_status t) v (history t) (buffer t) (video t) (ports t).
Definition set_history (v : V) t : Terminal V :=
  mkTerm (cur_col t) (cur_row t) (scr_row t) (status_front_len t) (status_back_len t) (input_begin t)
    (input_idx t) (input_status t) (input t) v (buffer t) (video t) (ports t).
Definition set_buffer (b : RingBuffer.RingBuffer VideoRow) t : Terminal V :=
  mkTerm (cur_col t) (cur_row t) (scr_row t) (status_front_len t) (status_back_len t) (input_begin t)
    (input_idx t) (input_status t) (input t) (history t) b (video t) (ports t).
Definition set_video (v : list VideoRow) t : Terminal V :=
  mkTerm (cur_col t) (cur_row t) (scr_row t) (status_front_len t) (status_back_len t) (input_begin t)
    (input_idx t) (input_status t) (input t) (history t) (buffer t) v (ports t).
Definition set_ports (p : list (N * N)) t : Terminal V :=
  mkTerm (cur_col t) (cur_row t) (scr_row t) (status_front_len t) (status_back_len t) (input_begin t)
    (input_idx t) (input_status t) (input t) (history t) (buffer t) (video t) p.
End assignments.

(** ** Strings of the standard library *)
Definition bytes (s : string) : list N := Ascii.N_of_ascii <$> String.list_ascii_of_string s.
(** A number in a format string. *)
Definition decimal (n : N) : list N := bytes (pretty n).

(** [str::from_utf8] *)
Definition within (lo b hi : N) : bool := (lo <=? b)%N && (b <=? hi)%N.
Definition continuation (b : N) : bool := within 0x80 b 0xbf.
Definition second3 (b0 b1 : N) : bool :=
  if (b0 =? 0xe0)%N then within 0xa0 b1 0xbf else if (b0 =? 0xed)%N then within 0x80 b1 0x9f
  else within 0xe1 b0 0xef && continuation b1.
Definition second4 (b0 b1 : N) : bool :=
  if (b0 =? 0xf0)%N then within 0x90 b1 0xbf else if (b0 =? 0xf4)%N then within 0x80 b1 0x8f
  else within 0xf1 b0 0xf3 && continuation b1.
Fixpoint utf8 (l : list N) : bool :=
  match l with
  | [] => true
  | b0 :: l0 =>
      if (b0 <? 0x80)%N then utf8 l0 else
      match l0 with
      | [] => false
      | b1 :: l1 =>
          if within 0xc2 b0 0xdf then continuation b1 && utf8 l1 else
          match l1 with
          | [] => false
          | b2 :: l2 =>
              if within 0xe0 b0 0xef then second3 b0 b1 && continuation b2 && utf8 l2 else
              match l2 with
              | [] => false
              | b3 :: l3 =>
                  within 0xf0 b0 0xf4 && second4 b0 b1 && continuation b2 && continuation b3 && utf8 l3
              end
          end
      end
  end.
Definition from_utf8 (l : list N) : result (list N) := if utf8 l then Ok l else Panic Expect.

Section terminal.
Context `{AV : ArrayVec V INPUT_MAXSIZE}.
Implicit Types (t : Terminal V).

(** ** Ports *)
Definition port_write (port v : N) t : Terminal V := set_ports ((port, v) :: ports t) t.

Definition set_cursor (pos : N) t : Terminal V :=
  let t := port_write 0x3d4 0x0f t in
  let t := port_write 0x3d5 (N.land pos 0xff) t in
  let t := port_write 0x3d4 0x0e t in
  port_write 0x3d5 (N.land (N.shiftr pos 8) 0xff) t.

(** What a read of the data port gives depends on what was written before. *)
Definition enable_cursor (port_read : list (N * N) → N → N) (enable : bool) t : Terminal V :=
  if enable then
    let t := port_write 0x3d4 0x0a t in
    let data := port_read (ports t) 0x3d5%N in
    let t := port_write 0x3d5 (N.lor (N.land data 0xc0) 13) t in
    let t := port_write 0x3d4 0x0b t in
    let data := port_read (ports t) 0x3d5%N in
    port_write 0x3d5 (N.lor (N.land data 0xc0) 15) t
  else
    let t := port_write 0x3d4 0x0a t in
    port_write 0x3d5 0x20 t.

(** ** Video memory *)
Definition screen_start t : N := status_front_len t.
Definition screen_height t : result N :=
  h ← VIDEO_HEIGHT -! status_front_len t; h -! status_back_len t.

Definition write_video_row (row : N) (data : VideoRow) t : result (Terminal V) :=
  if (row <? vlen (video t))%N then Ok (set_video (<[N.to_nat row := data]> (video t)) t)
  else Panic UB.

Definition write_video_ch (row col : N) (data : VideoChar) t : result (Terminal V) :=
  match video t !! N.to_nat row with
  | Some r =>
      if (col <? vlen r)%N
      then Ok (set_video (<[N.to_nat row := <[N.to_nat col := data]> r]> (video t)) t)
      else Panic UB
  | None => Panic UB
  end.

Definition redraw_status_lines t : result (Terminal V) :=
  let line := replicate (N.to_nat VIDEO_WIDTH) (mkChar 0 STATUS) in
  back_start ← VIDEO_HEIGHT -! status_back_len t;
  t ← for_each (range 0 (status_front_len t)) (λ row, write_video_row row line) t;
  for_each (range back_start VIDEO_HEIGHT) (λ row, write_video_row row line) t.

Definition redraw_screen t : result (Terminal V) :=
  scrlen ← screen_height t;
  for_each (range 0 scrlen) (λ row t,
    i ← scr_row t +! row;
    o ← RingBuffer.get (buffer t) i;
    r ← screen_start t +! row;
    write_video_row r (default EMPTY_ROW o) t) t.

Definition redraw t : result (Terminal V) := t ← redraw_status_lines t; redraw_screen t.

(** ** The window *)
Definition row_visible (row : N) t : result bool :=
  scrlen ← screen_height t;
  if (scr_row t <=? row)%N then (e ← scr_row t +! scrlen; Ok (row <? e)%N) else Ok false.

Definition cursor_visible t : result bool := row_visible (cur_row t) t.

Definition update_cursor t : result (Terminal V) :=
  b ← cursor_visible t;
  pos ← (if b : bool then
           r ← screen_start t +! cur_row t;
           r ← r -! scr_row t;
           p ← r *! VIDEO_WIDTH;
           p +! cur_col t
         else Ok (VIDEO_HEIGHT * VIDEO_WIDTH)%N);
  Ok (set_cursor (pos mod W16) t).

Definition scroll_to (row : N) t : result (Terminal V) :=
  t ← redraw_screen (set_scr_row row t); update_cursor t.

Definition scroll_to_cursor t : result (Terminal V) :=
  scrlen ← screen_height t;
  if (cur_row t <? scr_row t)%N then scroll_to (cur_row t) t
  else
    e ← scr_row t +! scrlen;
    if (e <=? cur_row t)%N then
      r ← cur_row t -! scrlen;
      r ← r +! 1;
      scroll_to r t
    else Ok t.

(** [isize] arithmetic. *)
Definition isize (z : Z) : result Z :=
  if (- 2 ^ 63 <=? z)%Z && (z <? 2 ^ 63)%Z then Ok z else Panic Overflow.

Definition scroll_page (page : Z) t : result (Terminal V) :=
  buflen ← RingBuffer.len (buffer t);
  scrlen ← screen_height t;
  d ← isize (page * Z.of_N scrlen);
  to ← isize (Z.of_N (scr_row t) + d);
  row ← (if (to <? 0)%Z then Ok 0%Z
         else if (Z.of_N buflen <=? to)%Z then isize (Z.of_N buflen - 1) else Ok to);
  scroll_to (Z.to_N (row mod 2 ^ 64)) t.

Definition line_info t : result LineInfo :=
  h ← screen_height t;
  n ← RingBuffer.len (buffer t);
  Ok (mkLineInfo (cur_col t) (cur_row t) (scr_row t) VIDEO_WIDTH h n).

(** ** Status lines *)
Definition get_status_line_row (kind : StatusLineKind) (line : N) t : result N :=
  let limit := match kind with Front => status_front_len t | Back => status_back_len t end in
  if (limit <=? line)%N then Panic Explicit
  else match kind with
       | Front => Ok line
       | Back => r ← VIDEO_HEIGHT -! line; r -! 1
       end.

(** The loop over the bytes; it stops at the end of the row. *)
Fixpoint status_loop (row pos : N) (s : list N) t : result (N * Terminal V) :=
  match s with
  | [] => Ok (pos, t)
  | ch :: s =>
      if (VIDEO_WIDTH <=? pos)%N then Ok (pos, t)
      else
        t ← write_video_ch row pos (mkChar ch STATUS) t;
        pos ← pos +! 1;
        status_loop row pos s t
  end.

Definition write_status_line (kind : StatusLineKind) (line : N) (s : list N) (cur : N) t
    : result (N * Terminal V) :=
  row ← get_status_line_row kind line t;
  '(pos, t) ← status_loop row cur s t;
  Ok (if (pos <? VIDEO_WIDTH)%N then pos else VIDEO_WIDTH, t).

Definition clear_status_line (kind : StatusLineKind) (line cur : N) t : result (Terminal V) :=
  row ← get_status_line_row kind line t;
  for_each (range cur VIDEO_WIDTH) (λ pos, write_video_ch row pos (mkChar 0 STATUS)) t.

(** [StatusLineWriter], with the pieces of a format string. *)
Record StatusLineWriter := mkStatusWriter { sw_term : Terminal V; sw_kind : StatusLineKind; sw_line : N; sw_cur : N }.

Definition StatusLineWriter_write_str (s : list N) (w : StatusLineWriter) : result StatusLineWriter :=
  '(cur, t) ← write_status_line (sw_kind w) (sw_line w) s (sw_cur w) (sw_term w);
  Ok (mkStatusWriter t (sw_kind w) (sw_line w) cur).

Definition StatusLineWriter_done (w : StatusLineWriter) : result StatusLineWriter :=
  t ← clear_status_line (sw_kind w) (sw_line w) (sw_cur w) (sw_term w);
  Ok (mkStatusWriter t (sw_kind w) (sw_line w) VIDEO_WIDTH).

(** A writer for one line; dropping it is [done]. *)
Definition status_line_writer (kind : StatusLineKind) (line : N) (args : list (list N)) t
    : result (Terminal V) :=
  w ← for_each args StatusLineWriter_write_str (mkStatusWriter t kind line 0);
  w ← StatusLineWriter_done w;
  Ok (sw_term w).

Definition _print_status (kind : StatusLineKind) (line : N) (args : list (list N)) t
    : result (Terminal V) := status_line_writer kind line args t.

Definition print_line_status t : result (Terminal V) :=
  if (0 <? status_back_len t)%N then
    let screen := scr_row t in
    height ← screen_height t;
    total ← RingBuffer.len (buffer t);
    a ← screen +! height;
    a ← a -! 1;
    scr_page ← a /! height;
    let scr_reminder := (screen mod height)%N in
    a ← total -! scr_reminder;
    a ← a +! height;
    a ← a -! 1;
    a ← a /! height;
    total_page ← a +! (if (0 <? scr_reminder)%N then 1 else 0);
    p ← scr_page +! 1;
    s ← screen +! 1;
    status_line_writer Back 0
      [bytes "page "; decimal p; bytes " / "; decimal total_page; bytes ", line "; decimal s;
       bytes " / "; decimal total] t
  else Ok t.

Definition print_cursor_status t : result (Terminal V) :=
  if (0 <? status_back_len t)%N then
    total ← RingBuffer.len (buffer t);
    r ← cur_row t +! 1;
    c ← cur_col t +! 1;
    status_line_writer Back 0
      [bytes "row "; decimal r; bytes " / "; decimal total; bytes ", col "; decimal c;
       bytes " / "; decimal VIDEO_WIDTH] t
  else Ok t.

Definition clear_cur_line_status t : result (Terminal V) :=
  if (0 <? status_back_len t)%N then clear_status_line Back 0 0 t else Ok t.

Definition set_status_lines (kind : StatusLineKind) (lines : N) t : result (Terminal V) :=
  redraw (match kind with
          | Front => set_status_lens lines (status_back_len t) t
          | Back => set_status_lens (status_front_len t) lines t
          end).

(** ** Writing *)

(** The first branch of [new_line_at]. *)
Definition insert_row (row : N) t : result (Terminal V) :=
  '(forced, b) ← RingBuffer.insert_force (buffer t) row EMPTY_ROW;
  let t := set_buffer b t in
  if (forced : bool) then
    e ← row +! 1;
    let t := if (1 <=? cur_row t)%N && (cur_row t <? e)%N
             then set_cur (cur_col t) (cur_row t - 1) t else t in
    Ok (if (1 <=? scr_row t)%N && (scr_row t <? e)%N then set_scr_row (scr_row t - 1) t else t)
  else
    t ← (if (row <? cur_row t)%N then r ← cur_row t +! 1; Ok (set_cur (cur_col t) r t) else Ok t);
    if (row <? scr_row t)%N then r ← scr_row t +! 1; Ok (set_scr_row r t) else Ok t.

(** The call inside the loop is for the end of the buffer, so it does not
    call itself again. *)
Fixpoint new_line_rec (fuel : nat) (row : N) t : result (Terminal V) :=
  match fuel with
  | O => Panic OutOfFuel
  | S fuel =>
      n ← RingBuffer.len (buffer t);
      if (row <=? n)%N then insert_row row t
      else for_each (range n row) (λ _ t, n ← RingBuffer.len (buffer t); new_line_rec fuel n t) t
  end.
Definition new_line_at (row : N) t : result (Terminal V) := new_line_rec 2 row t.

Definition new_line t : result (Terminal V) :=
  r ← cur_row t +! 1;
  t ← new_line_at r t;
  r ← cur_row t +! 1;
  Ok (set_cur 0 r t).

(** [self.buffer[row][col] = ch], and the same on the screen if it shows the row. *)
Definition put_cell (row col : N) (ch : VideoChar) t : result (Terminal V) :=
  line ← RingBuffer.index (buffer t) row;
  line ← vset line col ch;
  b ← RingBuffer.index_mut (buffer t) row line;
  let t := set_buffer b t in
  v ← row_visible row t;
  if (v : bool) then
    sr ← screen_start t +! row;
    sr ← sr -! scr_row t;
    write_video_ch sr col ch t
  else Ok t.

Definition write_char (color : ColorCode) (ch : N) t : result (Terminal V) :=
  if (ch =? 10)%N then new_line t
  else
    t ← put_cell (cur_row t) (cur_col t) (mkChar ch color) t;
    c ← cur_col t +! 1;
    let t := set_cur c (cur_row t) t in
    if (VIDEO_WIDTH <=? c)%N then new_line t else Ok t.

Definition write_char_at (color : ColorCode) (row col ch : N) t : result (N * N * Terminal V) :=
  if (ch =? 10)%N then
    r ← row +! 1;
    t ← new_line_at r t;
    Ok (r, 0%N, t)
  else
    n ← RingBuffer.len (buffer t);
    t ← (if (n <=? row)%N then new_line_at row t else Ok t);
    t ← put_cell row col (mkChar ch color) t;
    nc ← col +! 1;
    if (VIDEO_WIDTH <=? nc)%N then (r ← row +! 1; Ok (r, 0%N, t)) else Ok (row, nc, t).

Definition clear t : result (Terminal V) :=
  '(_, b) ← RingBuffer.push_force (buffer t) EMPTY_ROW;
  n ← RingBuffer.len b;
  r ← n -! 1;
  let t := set_scr_row r (set_cur 0 r (set_buffer b t)) in
  t ← scroll_to_cursor t;
  update_cursor t.

Definition write_string (color : ColorCode) (s : list N) t : result (Terminal V) :=
  t ← for_each s (write_char color) t;
  t ← scroll_to_cursor t;
  update_cursor t.

Definition write_string_at (color : ColorCode) (row col : N) (s : list N) t
    : result (N * N * Terminal V) :=
  let r := (row + col / VIDEO_WIDTH)%N in
  if (W64 <=? r)%N then Panic Explicit
  else
    let c := (col mod VIDEO_WIDTH)%N in
    if (3 * BUFFER_HEIGHT <? r)%N then Panic Explicit
    else for_each s (λ ch '(r, c, t), write_char_at color r c ch t) (r, c, t).

(** [TerminalWriter] and [TerminalAtWriter], with the pieces of a format string. *)
Record TerminalWriter := mkWriter { tw_term : Terminal V; tw_color : ColorCode }.
Record TerminalAtWriter := mkAtWriter { aw_term : Terminal V; aw_color : ColorCode; aw_row : N; aw_col : N }.

Definition TerminalWriter_write_str (s : list N) (w : TerminalWriter) : result TerminalWriter :=
  t ← write_string (tw_color w) s (tw_term w);
  Ok (mkWriter t (tw_color w)).

Definition TerminalAtWriter_write_str (s : list N) (w : TerminalAtWriter) : result TerminalAtWriter :=
  '(row, col, t) ← write_string_at (aw_color w) (aw_row w) (aw_col w) s (aw_term w);
  Ok (mkAtWriter t (aw_color w) row col).

Definition _print (color : option ColorCode) (args : list (list N)) t : result (Terminal V) :=
  let c := default DEFAULT color in
  w ← for_each args TerminalWriter_write_str (mkWriter t c);
  Ok (tw_term w).

Definition _print_at (color : option ColorCode) (row col : N) (args : list (list N)) t
    : result (Terminal V) :=
  let c := default DEFAULT color in
  w ← for_each args TerminalAtWriter_write_str (mkAtWriter t c row col);
  Ok (aw_term w).

(** ** The input line *)
Definition redraw_input_from_cursor t : result (Terminal V) :=
  (if (input_idx t <=? vlen (av_slice (input t)))%N then Ok () else Panic OutOfBounds);;
  buf ← expect (av_try_from (drop (N.to_nat (input_idx t)) (av_slice (input t))));
  s ← from_utf8 (av_slice buf);
  '(_, t) ← write_string_at DEFAULT (cur_row t) (cur_col t) s t;
  Ok t.

Definition put_char (ch : N) (keep_last : bool) t : result (Terminal V) :=
  let stop := (INPUT_MAXSIZE - (if keep_last then 2 else 1))%N in
  if (input_idx t <=? stop)%N then
    v ← av_insert (input t) (input_idx t) ch;
    t ← write_char DEFAULT ch (set_input v t);
    i ← input_idx t +! 1;
    let t := set_input_pos (input_begin t) i t in
    if (i <? vlen (av_slice (input t)))%N then redraw_input_from_cursor t else Ok t
  else Ok t.

Definition delete_char t : result (Terminal V) :=
  if (input_idx t <? vlen (av_slice (input t)))%N then
    v ← av_remove (input t) (input_idx t);
    v ← av_push v 32;
    t ← redraw_input_from_cursor (set_input v t);
    n ← vlen (av_slice (input t)) -! 1;
    v ← av_remove (input t) n;
    Ok (set_input v t)
  else Ok t.

Definition input_move_forward t : result (Terminal V) :=
  if (input_idx t <? vlen (av_slice (input t)))%N then
    i ← input_idx t +! 1;
    c ← cur_col t +! 1;
    let t := set_input_pos (input_begin t) i t in
    if (VIDEO_WIDTH <=? c)%N then (r ← cur_row t +! 1; Ok (set_cur 0 r t))
    else Ok (set_cur c (cur_row t) t)
  else Ok t.

Definition input_move_backward t : result (Terminal V) :=
  if (input_begin t <? input_idx t)%N then
    let t := set_input_pos (input_begin t) (input_idx t - 1) t in
    Ok (if (cur_col t =? 0)%N then
          if (0 <? cur_row t)%N then set_cur (VIDEO_WIDTH - 1) (cur_row t - 1) t else t
        else set_cur (cur_col t - 1) (cur_row t) t)
  else Ok t.

Definition backspace t : result (Terminal V) :=
  if (input_begin t <? input_idx t)%N then
    t ← input_move_backward t; delete_char t
  else Ok t.

(** [while cond { body }]; every iteration of the loops below moves
    [input_idx] or shortens the input, so [INPUT_MAXSIZE] iterations suffice. *)
Fixpoint while (fuel : nat) (cond : Terminal V → bool) (body : Terminal V → result (Terminal V)) t
    : result (Terminal V) :=
  match fuel with
  | O => Panic OutOfFuel
  | S fuel => if cond t then t ← body t; while fuel cond body t else Ok t
  end.
Definition input_fuel : nat := 513.
Definition before_end t : bool := (input_idx t <? vlen (av_slice (input t)))%N.

Definition complete_input t : result (Terminal V) :=
  t ← while input_fuel before_end input_move_forward t;
  t ← put_char 10 false t;
  let n := vlen (av_slice (input t)) in
  Ok (set_input_pos n n (set_input_status Waiting t)).

Definition recover_history t : result (Terminal V) :=
  room ← INPUT_MAXSIZE -! input_begin t;
  if (vlen (av_slice (history t)) <? room)%N then
    t ← while input_fuel (λ t, (input_begin t <? input_idx t)%N) input_move_backward t;
    t ← while input_fuel before_end delete_char t;
    for_each (av_slice (history t)) (λ ch, put_char ch true) t
  else Ok t.

Definition follow_cursor t : result (Terminal V) := t ← scroll_to_cursor t; update_cursor t.

Definition is_ascii_control (ch : N) : bool := (ch <? 32)%N || (ch =? 127)%N.

Definition process_input (key : DecodedKey) t : result (Terminal V) :=
  match key, input_status t with
  | RawKey PageUp, _ => t ← scroll_page (-1) t; print_line_status t
  | RawKey PageDown, _ => t ← scroll_page 1 t; print_line_status t
  | RawKey ArrowLeft, Inputting =>
      t ← input_move_backward t; t ← print_cursor_status t; follow_cursor t
  | RawKey ArrowRight, Inputting =>
      t ← input_move_forward t; t ← print_cursor_status t; follow_cursor t
  | RawKey ArrowUp, Inputting =>
      t ← recover_history t; t ← print_cursor_status t; follow_cursor t
  | Unicode ch, Inputting =>
      if (ch =? 10)%N then t ← complete_input t; t ← clear_cur_line_status t; follow_cursor t
      else if (ch =? 0x7f)%N then t ← delete_char t; t ← print_cursor_status t; follow_cursor t
      else if (ch =? 0x08)%N then t ← backspace t; t ← print_cursor_status t; follow_cursor t
      else if (ch <? 128)%N && negb (is_ascii_control ch) then
        t ← put_char ch true t; t ← print_cursor_status t; follow_cursor t
      else Ok t
  | _, _ => Ok t
  end.

(** ** The public functions *)
Definition TERM (video_memory : list VideoRow) : Terminal V :=
  mkTerm 0 0 0 0 0 0 0 Waiting av_new av_new
    (RingBuffer.new_with BUFFER_HEIGHT EMPTY_ROW) video_memory [].

Definition init_term (port_read : list (N * N) → N → N) t : result (Terminal V) :=
  t ← redraw_status_lines t;
  t ← clear t;
  Ok (enable_cursor port_read true t).

Definition set_status_lines_front (lines : N) t : result (Terminal V) := set_status_lines Front lines t.
Definition set_status_lines_back (lines : N) t : result (Terminal V) := set_status_lines Back lines t.
Definition scroll (page : Z) t : result (Terminal V) := scroll_page page t.

Definition start_inputting t : Terminal V := set_input_status Inputting t.
Definition has_input t : bool := (0 <? input_idx t)%N.
Definition has_input_line t : bool := (0 <? input_begin t)%N.

Fixpoint position (x : N) (l : list N) : option N :=
  match l with
  | [] => None
  | y :: l => if (y =? x)%N then Some 0%N else N.succ <$> position x l
  end.

(** The answer ([inl]: the line; [inr]: an error with the size needed), the
    caller's buffer and the terminal. *)
Definition getline (line : list N) t : result ((list N + N) * list N * Terminal V) :=
  if (input_begin t =? 0)%N then Ok (inr 0%N, line, t)
  else
    let size := default (input_begin t) (position 10 (av_slice (input t))) in
    if (vlen line <? size)%N then Ok (inr size, line, t)
    else
      '(l, v) ← av_drain (input t) size;
      buf ← av_collect l;
      let line := splice 0 (av_slice buf) line in
      let t := set_history buf (set_input v t) in
      t ← (if (size <? input_begin t)%N then
             v ← av_remove (input t) 0;
             b ← input_begin t -! 1;
             i ← input_idx t -! 1;
             Ok (set_input_pos b i (set_input v t))
           else Ok t);
      b ← input_begin t -! size;
      i ← input_idx t -! size;
      s ← from_utf8 (take (N.to_nat size) line);
      Ok (inl s, line, set_input_pos b i t).

(** [shell::prompt] *)
Definition prompt t : result (Terminal V) :=
  t ← _print None [bytes "> "] t; Ok (start_inputting t).
End terminal.
End Terminal.
