(* ===== verification/TerminalScreen.v ===== *)
(** * The screen of the terminal

    [screen_ok t rows]: the ring buffer holds the rows [rows] and cursor and
    window lie within them.  [shows t rows]: between the status lines, video
    memory shows the rows from [scr_row] on.  Text that is printed extends a
    transcript of rows; the buffer holds the end of it, the cursor stays
    visible, and the screen shows what it should ([write_string_spec]). *)
From stdpp Require Import pretty.
From S2P Require Import Prelude RingBuffer Terminal.
Import Terminal.
Local Open Scope N_scope.

Module TerminalScreen.

(** ** Invariant *)
Section screen.
Context `{AV : ArrayVec V INPUT_MAXSIZE}.
Implicit Types (t : Terminal V) (rows : list VideoRow).

Definition wide (r : VideoRow) : Prop := vlen r = VIDEO_WIDTH.

(** What the ports, the lengths of the status lines and video memory allow. *)
Record video_ok t : Prop := {
  vo_status : status_front_len t + status_back_len t < VIDEO_HEIGHT;
  vo_len : vlen (video t) = VIDEO_HEIGHT;
  vo_wide : Forall wide (video t);
}.

Record screen_ok t rows : Prop := {
  so_buffer : RingBuffer.repr BUFFER_HEIGHT (buffer t) rows;
  so_wide : Forall wide rows;
  so_row : cur_row t < vlen rows;
  so_col : cur_col t < VIDEO_WIDTH;
  so_scr : scr_row t < vlen rows;
  so_video : video_ok t;
}.

Definition height t : N := VIDEO_HEIGHT - status_front_len t - status_back_len t.
Definition row_at rows (i : N) : VideoRow := default EMPTY_ROW (rows !! N.to_nat i).
Definition shows t rows : Prop :=
  ∀ i, i < height t →
    video t !! N.to_nat (status_front_len t + i) = Some (row_at rows (scr_row t + i)).

(** The location of the hardware cursor after the writes to the ports. *)
Definition cursor_location (p : list (N * N)) : option N :=
  match p with
  | (0x3d5, hi) :: (0x3d4, 0x0e) :: (0x3d5, lo) :: (0x3d4, 0x0f) :: _ => Some (hi * 256 + lo)
  | _ => None
  end.
Definition cursor_in_view t : Prop := scr_row t ≤ cur_row t < scr_row t + height t.
Definition cursor_shown t : Prop :=
  cursor_in_view t ∧
  cursor_location (ports t) =
    Some ((status_front_len t + (cur_row t - scr_row t)) * VIDEO_WIDTH + cur_col t).

(** The part of the terminal that output does not change. *)
Definition same_input t t' : Prop :=
  input_begin t' = input_begin t ∧ input_idx t' = input_idx t ∧ input_status t' = input_status t ∧
  input t' = input t ∧ history t' = history t.
Definition same_frame t t' : Prop :=
  same_input t t' ∧ status_front_len t' = status_front_len t ∧ status_back_len t' = status_back_len t.

#[export] Instance same_input_po : PreOrder same_input.
Proof. split; [by intros ?|]. intros t1 t2 t3 (?&?&?&?&?) (?&?&?&?&?). split_and!; congruence. Qed.
#[export] Instance same_frame_po : PreOrder same_frame.
Proof.
  split; [by intros ?|]. intros t1 t2 t3 (H1 & ? & ?) (H2 & ? & ?).
  split_and!; [by etransitivity|congruence..].
Qed.

Lemma screen_height_run t : video_ok t → screen_height t = Ok (height t).
Proof.
  intros [Hs _ _]. unfold screen_height, height, VIDEO_HEIGHT in *.
  rewrite checked_sub_Ok by lia. mred. by rewrite checked_sub_Ok by lia.
Qed.

Lemma height_pos t : video_ok t → 0 < height t ∧ status_front_len t + height t ≤ VIDEO_HEIGHT.
Proof. intros [Hs _ _]. unfold height, VIDEO_HEIGHT in *. lia. Qed.

Lemma wide_EMPTY_ROW : wide EMPTY_ROW.
Proof. reflexivity. Qed.

Lemma wide_row_at rows i : Forall wide rows → wide (row_at rows i).
Proof.
  intros Hw. unfold row_at. destruct (rows !! _) eqn:Hi; [|apply wide_EMPTY_ROW].
  by eapply Forall_lookup_1 in Hi.
Qed.

(** ** Redrawing *)
Lemma write_video_row_run row data t :
  row < vlen (video t) →
  write_video_row row data t = Ok (set_video (<[N.to_nat row := data]> (video t)) t).
Proof. intros H. unfold write_video_row. by rewrite (proj2 (N.ltb_lt _ _)). Qed.

Lemma video_ok_insert t (j : nat) r :
  video_ok t → wide r → video_ok (set_video (<[j := r]> (video t)) t).
Proof.
  intros [Hs Hl Hw] Hr. split; [done| |]; simpl.
  - by rewrite vlen_insert.
  - by apply Forall_insert.
Qed.

(** The rows [a..b] of video memory are overwritten by [f], the others kept. *)
Definition overwritten (v v' : list VideoRow) (a b : N) (f : N → VideoRow) : Prop :=
  ∀ j, j < vlen v →
    v' !! N.to_nat j = if (a <=? j) && (j <? b) then Some (f j) else v !! N.to_nat j.

Lemma draw_loop t a b (f : N → VideoRow) (body : N → Terminal V → result (Terminal V)) (shift : N) :
  video_ok t → (∀ j, wide (f j)) → b + shift ≤ VIDEO_HEIGHT → a ≤ b →
  (∀ i v, a ≤ i < b → vlen v = VIDEO_HEIGHT →
    body i (set_video v t) = Ok (set_video (<[N.to_nat (i + shift) := f (i + shift)]> v) t)) →
  ∃ v', for_each (range a b) body t = Ok (set_video v' t) ∧ video_ok (set_video v' t) ∧
    overwritten (video t) v' (a + shift) (b + shift) f.
Proof.
  intros Hv Hf Hb Hab Hbody. pose proof (vo_len _ Hv) as Hl0.
  destruct (for_each_inv body (λ l1 s, ∃ v', s = set_video v' t ∧ video_ok (set_video v' t) ∧
    overwritten (video t) v' (a + shift) (a + vlen l1 + shift) f) (range a b) t) as (s' & Hs & v' & -> & Hok & Hov).
  - exists (video t). split_and!; [by destruct t|by destruct t|].
    intros j _. destruct (N.leb_spec (a + shift) j), (N.ltb_spec j (a + vlen (@nil N) + shift)); unfold vlen in *; simpl in *; (done || lia).
  - intros l1 x l2 s Hl (v & -> & Hok & Hov).
    assert (x = a + vlen l1 ∧ a + vlen l1 < b) as [-> Hx].
    { pose proof (f_equal length Hl) as Hlen. rewrite length_range, length_app in Hlen. simpl in Hlen.
      pose proof (lookup_range a b (length l1) ltac:(lia)) as Hk.
      rewrite Hl, lookup_app_r, Nat.sub_diag in Hk by lia. simplify_eq/=. unfold vlen. lia. }
    pose proof (vo_len _ Hok) as Hlv. simpl in Hlv. rewrite Hbody by (done || lia).
    eexists. split; [done|]. eexists. split_and!; [done| |].
    + apply (video_ok_insert (set_video v t)); [done|apply Hf].
    + intros j Hj. assert (vlen (l1 ++ [a + vlen l1]) = vlen l1 + 1) as ->.
      { unfold vlen. rewrite length_app. simpl. lia. }
      cbn [video set_video].
      destruct (decide (j = a + vlen l1 + shift)) as [->|Hne].
      * rewrite list_lookup_insert_eq by (unfold vlen in *; lia).
        rewrite (proj2 (N.leb_le _ _)), (proj2 (N.ltb_lt _ _)) by lia. done.
      * rewrite list_lookup_insert_ne by lia. rewrite Hov by done.
        destruct (N.leb_spec (a + shift) j), (N.ltb_spec j (a + vlen l1 + shift)),
          (N.ltb_spec j (a + (vlen l1 + 1) + shift)); simpl; (done || lia).
  - exists v'. split_and!; [done|done|]. unfold vlen in Hov. rewrite length_range in Hov.
    by replace (a + N.of_nat (N.to_nat b - N.to_nat a) + shift) with (b + shift) in Hov by lia.
Qed.

Lemma redraw_screen_run t rows :
  RingBuffer.repr BUFFER_HEIGHT (buffer t) rows → Forall wide rows → video_ok t →
  scr_row t + 281 ≤ W64 →
  ∃ v', redraw_screen t = Ok (set_video v' t) ∧ video_ok (set_video v' t) ∧
    overwritten (video t) v' (status_front_len t) (status_front_len t + height t)
      (λ j, row_at rows (scr_row t + j - status_front_len t)).
Proof.
  intros Hr Hw Hv Hscr. unfold redraw_screen. rewrite screen_height_run by done. mred.
  destruct (height_pos t Hv) as [Hh Hfh]. unfold VIDEO_HEIGHT in Hfh.
  destruct (draw_loop t 0 (height t) (λ j, row_at rows (scr_row t + j - status_front_len t))
    (λ row t, i ← checked_add W64 (scr_row t) row; o ← RingBuffer.get (buffer t) i;
       r ← checked_add W64 (screen_start t) row; write_video_row r (default EMPTY_ROW o) t)
    (status_front_len t)) as (v' & -> & Hv' & Hov); [done| |unfold VIDEO_HEIGHT; lia|lia| |].
  - intros j. by apply wide_row_at.
  - intros i v Hi Hlv. cbn [scr_row set_video buffer screen_start status_front_len].
    unfold VIDEO_HEIGHT in Hlv. rewrite (checked_add_Ok _ (scr_row t)) by lia. mred.
    rewrite (RingBuffer.repr_get _ _ _ Hr) by (unfold BUFFER_HEIGHT; lia). mred.
    unfold screen_start. cbn [status_front_len set_video]. rewrite checked_add_Ok by lia. mred.
    rewrite write_video_row_run by (cbn; lia). cbn [video set_video].
    change (set_video ?x (set_video v t)) with (set_video x t). do 2 f_equal.
    rewrite (N.add_comm i). unfold row_at.
    by replace (scr_row t + (status_front_len t + i) - status_front_len t) with (scr_row t + i) by lia.
  - exists v'. rewrite N.add_0_l, (N.add_comm (height t)) in Hov. done.
Qed.

Lemma shows_drawn t rows v' :
  video_ok t →
  overwritten (video t) v' (status_front_len t) (status_front_len t + height t)
    (λ j, row_at rows (scr_row t + j - status_front_len t)) →
  shows (set_video v' t) rows.
Proof.
  intros Hv Hov i Hi. change (height (set_video v' t)) with (height t) in Hi. cbn.
  destruct (height_pos t Hv) as [_ Hfh]. pose proof (vo_len _ Hv) as Hl. rewrite Hov by lia.
  rewrite (proj2 (N.leb_le _ _)), (proj2 (N.ltb_lt _ _)) by lia. cbn. do 2 f_equal. lia.
Qed.

(** ** The cursor and the window *)
Lemma row_visible_run row t :
  video_ok t → scr_row t + 25 < W64 →
  row_visible row t = Ok ((scr_row t <=? row) && (row <? scr_row t + height t)).
Proof.
  intros Hv Hs. unfold row_visible. rewrite screen_height_run by done. mred.
  destruct (height_pos t Hv). unfold VIDEO_HEIGHT in *.
  destruct (N.leb_spec (scr_row t) row); [|done]. by rewrite checked_add_Ok by lia.
Qed.

Definition cursor_pos t : N :=
  if (scr_row t <=? cur_row t) && (cur_row t <? scr_row t + height t)
  then (status_front_len t + (cur_row t - scr_row t)) * VIDEO_WIDTH + cur_col t
  else VIDEO_HEIGHT * VIDEO_WIDTH.

Lemma update_cursor_run t rows :
  screen_ok t rows → update_cursor t = Ok (set_cursor (cursor_pos t) t) ∧ cursor_pos t < W16.
Proof.
  intros [Hr _ Hrow Hcol Hscr Hv]. pose proof (RingBuffer.repr_le _ _ _ Hr) as Hle.
  unfold BUFFER_HEIGHT, VIDEO_WIDTH in *. unfold update_cursor, cursor_visible, cursor_pos.
  rewrite row_visible_run by (done || lia). mred. destruct (height_pos t Hv) as [_ Hh].
  unfold VIDEO_HEIGHT, VIDEO_WIDTH, screen_start in *.
  destruct (N.leb_spec (scr_row t) (cur_row t)); cbn [andb]; [|done].
  destruct (N.ltb_spec (cur_row t) (scr_row t + height t)); [|done].
  rewrite checked_add_Ok by lia. mred. rewrite checked_sub_Ok by lia. mred.
  rewrite checked_mul_Ok by lia. mred. rewrite checked_add_Ok by lia. mred.
  rewrite N.mod_small by lia. split; [|lia]. do 2 f_equal. lia.
Qed.

Lemma cursor_location_set pos t :
  pos < W16 → cursor_location (ports (set_cursor pos t)) = Some pos.
Proof.
  intros Hp. cbn. f_equal. rewrite N.shiftr_div_pow2.
  change 255 with (N.ones 8). rewrite !N.land_ones. change (2 ^ 8) with 256.
  rewrite (N.mod_small (pos / 256)) by (apply N.Div0.div_lt_upper_bound; lia).
  pose proof (N.div_mod' pos 256). lia.
Qed.

(** The terminal on the screen: everything but the transcript and the input. *)
Definition settled t rows : Prop := screen_ok t rows ∧ shows t rows ∧ cursor_shown t.

Lemma set_cursor_settled t rows :
  screen_ok t rows → shows t rows → cursor_in_view t →
  ∃ t', update_cursor t = Ok t' ∧ settled t' rows ∧ same_frame t t' ∧
    cur_row t' = cur_row t ∧ cur_col t' = cur_col t ∧ scr_row t' = scr_row t.
Proof.
  intros Hs Hsh Hin. destruct (update_cursor_run t rows Hs) as [-> Hp].
  eexists. split; [done|]. split; [|split; [by split|done]].
  destruct Hs as [? ? ? ? ? []]. split_and!; [by split|done|]. split; [done|].
  rewrite cursor_location_set by done. unfold cursor_pos. destruct Hin as [H1 H2].
  by rewrite (proj2 (N.leb_le _ _) H1), (proj2 (N.ltb_lt _ _) H2).
Qed.

Lemma scroll_to_run t rows row :
  screen_ok t rows → row < vlen rows →
  ∃ t', scroll_to row t = Ok t' ∧ screen_ok t' rows ∧ shows t' rows ∧ same_frame t t' ∧
    cur_row t' = cur_row t ∧ cur_col t' = cur_col t ∧ scr_row t' = row.
Proof.
  intros Hs Hrow. pose proof Hs as [Hr Hw Hcr Hcc _ Hv].
  pose proof (RingBuffer.repr_le _ _ _ Hr) as Hle. unfold BUFFER_HEIGHT in Hle.
  assert (video_ok (set_scr_row row t)) as Hv1 by by destruct Hv.
  destruct (redraw_screen_run (set_scr_row row t) rows) as (v' & Hd & Hv' & Hov); [done|done|done|cbn; lia|].
  unfold scroll_to. rewrite Hd. mred. set (t1 := set_video v' (set_scr_row row t)) in *.
  assert (screen_ok t1 rows) as Hs1 by by split.
  destruct (update_cursor_run t1 rows Hs1) as [-> _]. eexists. split; [done|].
  split_and!; try done; [by destruct Hs1 as [? ? ? ? ? []]; split|by apply (shows_drawn (set_scr_row row t))].
Qed.

(** [scroll_to_cursor] and [update_cursor], as they follow every output. *)
Lemma follow_run t rows :
  screen_ok t rows → (cursor_in_view t → shows t rows) →
  ∃ t', (t ← scroll_to_cursor t; update_cursor t) = Ok t' ∧ settled t' rows ∧ same_frame t t' ∧
    cur_row t' = cur_row t ∧ cur_col t' = cur_col t.
Proof.
  intros Hs Hsh. pose proof Hs as [Hr Hw Hcr Hcc Hsc Hv].
  pose proof (RingBuffer.repr_le _ _ _ Hr) as Hle. unfold BUFFER_HEIGHT in Hle.
  destruct (height_pos t Hv) as [Hh0 Hh]. unfold VIDEO_HEIGHT in Hh.
  unfold scroll_to_cursor. rewrite screen_height_run by done. mred.
  assert (∀ row, row < vlen rows → row ≤ cur_row t < row + height t →
    ∃ t', (t ← scroll_to row t; update_cursor t) = Ok t' ∧ settled t' rows ∧ same_frame t t' ∧
      cur_row t' = cur_row t ∧ cur_col t' = cur_col t) as Hscroll.
  { intros row Hrow Hin. destruct (scroll_to_run t rows row Hs Hrow) as (t1 & -> & Hs1 & Hsh1 & Hf & Hr1 & Hc1 & Hk1).
    mred. destruct (set_cursor_settled t1 rows Hs1 Hsh1) as (t' & -> & Hset & Hf' & Hr' & Hc' & Hk').
    { unfold cursor_in_view, height. destruct Hf as (_ & -> & ->). rewrite Hr1, Hk1. done. }
    exists t'. split_and!; [done|done|by etransitivity|congruence..]. }
  destruct (N.ltb_spec (cur_row t) (scr_row t)); [apply Hscroll; lia|].
  rewrite checked_add_Ok by lia. mred. destruct (N.leb_spec (scr_row t + height t) (cur_row t)).
  - rewrite checked_sub_Ok by lia. mred. rewrite checked_add_Ok by lia. mred. apply Hscroll; lia.
  - mred. destruct (set_cursor_settled t rows Hs) as (t' & -> & Hset & Hf' & Hr' & Hc' & Hk');
      [apply Hsh; split; lia|split; lia|]. exists t'. by split_and!.
Qed.

(** ** Writing a cell *)
Lemma row_at_insert rows (i j : N) r :
  i < vlen rows → row_at (<[N.to_nat i := r]> rows) j = if j =? i then r else row_at rows j.
Proof.
  intros Hi. unfold row_at. destruct (N.eqb_spec j i) as [->|Hne].
  - by rewrite list_lookup_insert_eq by (unfold vlen in *; lia).
  - by rewrite list_lookup_insert_ne by lia.
Qed.

Lemma wide_insert r (c : nat) ch : wide r → wide (<[c := ch]> r).
Proof. unfold wide. by rewrite vlen_insert. Qed.

Definition with_cell rows (row col : N) (ch : VideoChar) : list VideoRow :=
  <[N.to_nat row := <[N.to_nat col := ch]> (row_at rows row)]> rows.

Lemma vlen_with_cell rows row col ch : vlen (with_cell rows row col ch) = vlen rows.
Proof. apply vlen_insert. Qed.

Lemma write_video_ch_run row col ch t r :
  video t !! N.to_nat row = Some r → wide r → col < VIDEO_WIDTH →
  write_video_ch row col ch t =
    Ok (set_video (<[N.to_nat row := <[N.to_nat col := ch]> r]> (video t)) t).
Proof.
  intros Hr Hw Hc. unfold write_video_ch. rewrite Hr, Hw. by rewrite (proj2 (N.ltb_lt _ _)).
Qed.

Lemma put_cell_run t rows row col ch :
  screen_ok t rows → row < vlen rows → col < VIDEO_WIDTH →
  ∃ t', put_cell row col ch t = Ok t' ∧ screen_ok t' (with_cell rows row col ch) ∧
    (shows t rows → shows t' (with_cell rows row col ch)) ∧ same_frame t t' ∧
    cur_row t' = cur_row t ∧ cur_col t' = cur_col t ∧ scr_row t' = scr_row t.
Proof.
  intros [Hr Hw Hcr Hcc Hsc Hv] Hrow Hcol. pose proof (RingBuffer.repr_le _ _ _ Hr) as Hle.
  unfold BUFFER_HEIGHT in Hle. assert (wide (row_at rows row)) as Hwr by by apply wide_row_at.
  assert (rows !! N.to_nat row = Some (row_at rows row)) as Hlk.
  { unfold row_at. destruct (rows !! N.to_nat row) eqn:He; [done|].
    apply lookup_ge_None_1 in He. unfold vlen in *. lia. }
  unfold put_cell. rewrite (RingBuffer.repr_index _ _ _ Hr row _) by (done || (unfold BUFFER_HEIGHT; lia)).
  mred. rewrite vset_Ok by (by rewrite Hwr). mred.
  destruct (RingBuffer.repr_index_mut _ _ _ Hr row (<[N.to_nat col := ch]> (row_at rows row)))
    as (b & -> & Hb); [done|unfold BUFFER_HEIGHT; lia|]. mred.
  rewrite row_visible_run by ((by destruct Hv) || (cbn; lia)). mred. cbn [scr_row set_buffer].
  destruct (height_pos t Hv) as [_ Hh]. unfold VIDEO_HEIGHT in Hh.
  change (height (set_buffer b t)) with (height t).
  assert (Forall wide (with_cell rows row col ch)) as Hw' by by apply Forall_insert, wide_insert.
  assert (∀ v', video_ok (set_video v' t) →
    screen_ok (set_video v' (set_buffer b t)) (with_cell rows row col ch)) as Hok.
  { intros v' [? ? ?]. split; rewrite ?vlen_with_cell; done. }
  destruct (N.leb_spec (scr_row t) row) as [H1|H1], (N.ltb_spec row (scr_row t + height t)) as [H2|H2]; cbn [andb].
  2-4: eexists; split; [done|]; split; [by destruct t; apply (Hok (video _))|]; split_and!; try done;
    intros Hsh i Hi; cbn [video status_front_len scr_row set_buffer]; rewrite (Hsh i Hi); f_equal;
    unfold with_cell; rewrite row_at_insert by done;
    destruct (N.eqb_spec (scr_row t + i) row); [change (i < height t) in Hi; lia|done].
  unfold screen_start. cbn [status_front_len set_buffer]. rewrite checked_add_Ok by lia. mred.
  rewrite checked_sub_Ok by lia. mred. pose proof (vo_len _ Hv) as Hl. unfold VIDEO_HEIGHT in Hl.
  destruct (lookup_lt_is_Some_2 (video t) (N.to_nat (status_front_len t + row - scr_row t))) as [r Hvr].
  { unfold vlen in Hl. lia. }
  assert (wide r) as Hwr' by by eapply Forall_lookup_1; [apply (vo_wide _ Hv)|].
  rewrite (write_video_ch_run _ _ _ (set_buffer b t) r) by done. eexists. split; [done|].
  split; [apply Hok, (video_ok_insert t); [done|by apply wide_insert]|]. split_and!; try done.
  intros Hsh i Hi. change (i < height t) in Hi. cbn. unfold with_cell. rewrite row_at_insert by done.
  destruct (N.eqb_spec (scr_row t + i) row) as [<-|Hne].
  - replace (status_front_len t + (scr_row t + i) - scr_row t) with (status_front_len t + i) in * by lia.
    rewrite list_lookup_insert_eq by (unfold vlen in Hl; lia). rewrite (Hsh i Hi) in Hvr. by simplify_eq.
  - rewrite list_lookup_insert_ne by lia. by apply Hsh.
Qed.

(** ** New lines at the end *)
Definition pushed_row rows : list VideoRow := (RingBuffer.spec_push_force BUFFER_HEIGHT rows EMPTY_ROW).2.
Definition dropped rows : N := if vlen rows <? BUFFER_HEIGHT then 0 else 1.

Lemma pushed_row_eq rows : pushed_row rows = drop (N.to_nat (dropped rows)) rows ++ [EMPTY_ROW].
Proof.
  unfold pushed_row, dropped, RingBuffer.spec_push_force.
  destruct (_ <? _); cbn; [by rewrite drop_0|by destruct rows].
Qed.

Lemma vlen_pushed_row rows : vlen (pushed_row rows) = vlen rows + 1 - dropped rows.
Proof.
  rewrite pushed_row_eq. unfold vlen. rewrite length_app, length_drop. simpl.
  unfold dropped, BUFFER_HEIGHT. destruct (N.ltb_spec (vlen rows) 256); unfold vlen in *; lia.
Qed.

Lemma wide_pushed_row rows : Forall wide rows → Forall wide (pushed_row rows).
Proof.
  intros. rewrite pushed_row_eq, Forall_app. split; [by apply Forall_drop|].
  repeat constructor.
Qed.

Lemma row_at_pushed rows i : row_at (pushed_row rows) i = row_at rows (i + dropped rows).
Proof.
  rewrite pushed_row_eq. unfold row_at.
  destruct (lt_dec (N.to_nat i) (length rows - N.to_nat (dropped rows))).
  - rewrite lookup_app_l by (rewrite length_drop; lia). rewrite lookup_drop. do 2 f_equal. lia.
  - rewrite lookup_app_r, length_drop by (rewrite length_drop; lia).
    rewrite (lookup_ge_None_2 rows) by lia. by destruct (N.to_nat i - _)%nat.
Qed.

Lemma screen_ok_cur t rows c r :
  screen_ok t rows → c < VIDEO_WIDTH → r < vlen rows → screen_ok (set_cur c r t) rows.
Proof. intros [? ? ? ? ? []] ? ?. by split. Qed.

(** The column does not matter, as it may be past the end of the row. *)
Lemma new_line_at_end t rows :
  screen_ok (set_cur 0 (cur_row t) t) rows →
  ∃ b, new_line_at (vlen rows) t =
      Ok (set_scr_row (scr_row t - dropped rows)
        (set_cur (cur_col t) (cur_row t - dropped rows) (set_buffer b t))) ∧
    RingBuffer.repr BUFFER_HEIGHT b (pushed_row rows).
Proof.
  intros [Hr Hw Hcr Hcc Hsc Hv]. cbn in Hr, Hcr, Hsc. pose proof (RingBuffer.repr_le _ _ _ Hr) as Hle.
  unfold BUFFER_HEIGHT in Hle. unfold new_line_at, new_line_rec.
  rewrite (RingBuffer.repr_len _ _ _ Hr). mred. rewrite N.leb_refl. unfold insert_row.
  destruct (RingBuffer.repr_insert_force _ _ _ Hr (vlen rows) EMPTY_ROW
    (RingBuffer.spec_push_force BUFFER_HEIGHT rows EMPTY_ROW).1 (pushed_row rows)) as (b & -> & Hb).
  { unfold RingBuffer.spec_insert_force, pushed_row. rewrite (proj2 (N.ltb_ge _ _)), N.eqb_refl by lia.
    by destruct (RingBuffer.spec_push_force _ _ _). }
  mred. exists b. split; [|done]. unfold RingBuffer.spec_push_force, dropped.
  destruct (vlen rows <? BUFFER_HEIGHT); cbn [fst cur_row scr_row cur_col set_buffer].
  - rewrite (proj2 (N.ltb_ge (vlen rows) (cur_row t))) by lia. mred.
    rewrite (proj2 (N.ltb_ge _ _)) by (cbn; lia). rewrite !N.sub_0_r. by destruct t.
  - rewrite checked_add_Ok by lia. mred. rewrite (proj2 (N.ltb_lt (cur_row t) _)), andb_true_r by lia.
    destruct (N.leb_spec 1 (cur_row t)) as [|Hc]; cbn [scr_row set_cur set_buffer];
      rewrite (proj2 (N.ltb_lt (scr_row t) _)), andb_true_r by lia;
      destruct (N.leb_spec 1 (scr_row t)) as [|Hs].
    + done.
    + by replace (scr_row t - 1) with (scr_row t) by lia.
    + replace (cur_row t - 1) with (cur_row t) by lia. by destruct t.
    + replace (cur_row t - 1) with (cur_row t) by lia.
      replace (scr_row t - 1) with (scr_row t) by lia. by destruct t.
Qed.

(** The cursor is in the last row. *)
Definition at_end t rows : Prop := cur_row t + 1 = vlen rows.

Lemma new_line_run t rows :
  screen_ok (set_cur 0 (cur_row t) t) rows → at_end t rows → (cursor_in_view t → shows t rows) →
  ∃ t', new_line t = Ok t' ∧ screen_ok t' (pushed_row rows) ∧ at_end t' (pushed_row rows) ∧
    (cursor_in_view t' → shows t' (pushed_row rows)) ∧ same_frame t t' ∧ cur_col t' = 0.
Proof.
  intros Hs He Hd. pose proof Hs as [Hr Hw Hcr _ Hsc Hv'].
  assert (video_ok t) as Hv by by destruct Hv'. cbn in Hr, Hcr, Hsc. unfold at_end in He.
  pose proof (RingBuffer.repr_le _ _ _ Hr) as Hle. unfold BUFFER_HEIGHT in Hle.
  pose proof (vlen_pushed_row rows) as Hlp.
  assert (dropped rows = 0 ∧ vlen rows < 256 ∨ dropped rows = 1 ∧ vlen rows = 256) as Hdr.
  { unfold dropped, BUFFER_HEIGHT. destruct (N.ltb_spec (vlen rows) 256); lia. }
  unfold new_line. rewrite checked_add_Ok by lia. mred. rewrite He.
  destruct (new_line_at_end t rows Hs) as (b & -> & Hb). mred. cbn [cur_row set_scr_row set_cur].
  rewrite checked_add_Ok by lia. mred. eexists. split; [done|].
  split; [split; cbn; try done; try lia; [by apply wide_pushed_row|by destruct Hv]|].
  split; [unfold at_end; cbn; lia|]. split; [|by split].
  intros [H1 H2]. cbn in H1, H2. change (height _) with (height t) in H2.
  destruct (height_pos t Hv) as [_ Hh]. unfold VIDEO_HEIGHT in Hh.
  assert (dropped rows ≤ scr_row t) as Hds by lia.
  intros i Hi. change (i < height t) in Hi. cbn. rewrite row_at_pushed.
  replace (scr_row t - dropped rows + i + dropped rows) with (scr_row t + i) by lia.
  apply Hd; [split; lia|done].
Qed.

Lemma write_char_run t rows color ch :
  screen_ok t rows → at_end t rows → (cursor_in_view t → shows t rows) →
  let rows1 := if ch =? 10 then rows else with_cell rows (cur_row t) (cur_col t) (mkChar ch color) in
  let wraps := (ch =? 10) || (VIDEO_WIDTH <=? cur_col t + 1) in
  let rows' := if wraps then pushed_row rows1 else rows1 in
  ∃ t', write_char color ch t = Ok t' ∧ screen_ok t' rows' ∧ at_end t' rows' ∧
    (cursor_in_view t' → shows t' rows') ∧ same_frame t t' ∧
    cur_col t' = if wraps then 0 else cur_col t + 1.
Proof.
  intros Hs He Hd. unfold write_char. destruct (ch =? 10) eqn:Hnl; cbn zeta; cbn [orb].
  { apply new_line_run; [|done|done]. pose proof Hs as [? ? ? ? ? ?]. by apply screen_ok_cur. }
  pose proof Hs as [Hr Hw Hcr Hcc Hsc Hv].
  destruct (put_cell_run t rows (cur_row t) (cur_col t) (mkChar ch color) Hs Hcr Hcc)
    as (t1 & -> & Hs1 & Hd1 & Hf1 & Hr1 & Hc1 & Hk1). mred. unfold VIDEO_WIDTH in *.
  rewrite checked_add_Ok by lia. mred. rewrite Hc1. set (rows1 := with_cell _ _ _ _) in *.
  assert (cursor_in_view t1 → shows t1 rows1) as Hd1'.
  { intros Hin. apply Hd1, Hd. unfold cursor_in_view, height in *. destruct Hf1 as (_ & Hfr & Hba).
    by rewrite Hr1, Hk1, Hfr, Hba in Hin. }
  assert (at_end t1 rows1) as He1.
  { unfold at_end, rows1. by rewrite vlen_with_cell, Hr1. }
  destruct (N.leb_spec 80 (cur_col t + 1)).
  - destruct (new_line_run (set_cur (cur_col t + 1) (cur_row t1) t1) rows1)
      as (t' & Hn & Hs' & He' & Hd' & Hf' & Hc'); [|done|done|].
    { pose proof Hs1 as [? ? ? ? ? ?]. apply (screen_ok_cur t1); [done|done|by rewrite Hr1 in *]. }
    exists t'. split_and!; [done|done|done|done|by etransitivity|done].
  - eexists. split; [done|]. split_and!; try done. destruct Hs1 as [? ? ? ? ? []].
    by split.
Qed.

(** ** The transcript

    All rows ever written, and the column; the buffer holds its end. *)
Definition transcript_put (L : list VideoRow) (col : N) (ch : VideoChar) : list VideoRow :=
  alter (<[N.to_nat col := ch]>) (pred (length L)) L.

Definition type_char (color : ColorCode) (st : list VideoRow * N) (ch : N) : list VideoRow * N :=
  let '(L, col) := st in
  if ch =? 10 then (L ++ [EMPTY_ROW], 0)
  else
    let L := transcript_put L col (mkChar ch color) in
    if VIDEO_WIDTH <=? col + 1 then (L ++ [EMPTY_ROW], 0) else (L, col + 1).

Definition type_string (color : ColorCode) (s : list N) (st : list VideoRow * N) : list VideoRow * N :=
  foldl (type_char color) st s.

Definition kept (L : list VideoRow) : list VideoRow := drop (length L - N.to_nat BUFFER_HEIGHT) L.

Lemma vlen_kept L : vlen (kept L) = N.min (vlen L) BUFFER_HEIGHT.
Proof. unfold kept, vlen. rewrite length_drop. lia. Qed.

Lemma kept_pushed L : kept (L ++ [EMPTY_ROW]) = pushed_row (kept L).
Proof.
  rewrite pushed_row_eq. unfold dropped. rewrite vlen_kept. unfold kept, vlen, BUFFER_HEIGHT.
  rewrite length_app. simpl length. rewrite drop_app_le by lia. f_equal. rewrite drop_drop. f_equal.
  destruct (N.ltb_spec (N.min (N.of_nat (length L)) 256) 256); lia.
Qed.

Lemma kept_put L col ch :
  L ≠ [] → kept (transcript_put L col ch) = with_cell (kept L) (vlen (kept L) - 1) col ch.
Proof.
  intros HL. assert (0 < length L)%nat as Hpos by (destruct L; simpl; [done|lia]).
  unfold transcript_put, with_cell. set (d := (length L - N.to_nat BUFFER_HEIGHT)%nat).
  destruct (lookup_lt_is_Some_2 L (pred (length L))) as [r Hr]; [lia|].
  assert (N.to_nat (vlen (kept L) - 1) = (pred (length L) - d)%nat) as Hi.
  { rewrite vlen_kept. subst d. unfold vlen, BUFFER_HEIGHT. lia. }
  assert (kept L !! (pred (length L) - d)%nat = Some r) as Hk.
  { unfold kept. fold d. rewrite lookup_drop. rewrite <-Hr. f_equal. subst d. unfold BUFFER_HEIGHT. lia. }
  unfold row_at. rewrite Hi, Hk. cbn [default].
  unfold kept. rewrite length_alter. fold d. apply list_eq. intros k.
  destruct (decide (k = pred (length L) - d)%nat) as [->|Hne].
  - rewrite list_lookup_insert_eq by (rewrite length_drop; subst d; unfold BUFFER_HEIGHT; lia).
    rewrite lookup_drop. replace (d + (pred (length L) - d))%nat with (pred (length L))
      by (subst d; unfold BUFFER_HEIGHT; lia).
    by rewrite list_lookup_alter_eq, Hr.
  - rewrite list_lookup_insert_ne by done. rewrite !lookup_drop. apply list_lookup_alter_ne. lia.
Qed.

(** The terminal holds the end of the transcript [L], the cursor at the end of it. *)
Record holds t L : Prop := {
  ho_ok : screen_ok t (kept L);
  ho_end : at_end t (kept L);
  ho_drawn : cursor_in_view t → shows t (kept L);
}.

Lemma holds_nonempty t L : holds t L → L ≠ [].
Proof. intros [[_ _ Hc _ _ _] _ _] ->. unfold kept, vlen in Hc. simpl in Hc. lia. Qed.

Lemma write_char_holds t L color ch :
  holds t L →
  let '(L', col') := type_char color (L, cur_col t) ch in
  ∃ t', write_char color ch t = Ok t' ∧ holds t' L' ∧ cur_col t' = col' ∧ same_frame t t'.
Proof.
  intros HL. pose proof (holds_nonempty t L HL) as Hne. destruct HL as [Hs He Hd].
  destruct (write_char_run t (kept L) color ch Hs He Hd) as (t' & Hw & Hs' & He' & Hd' & Hf & Hc').
  assert (with_cell (kept L) (cur_row t) (cur_col t) (mkChar ch color) =
    kept (transcript_put L (cur_col t) (mkChar ch color))) as Hput.
  { rewrite kept_put by done. unfold at_end in He. by replace (vlen (kept L) - 1) with (cur_row t) by lia. }
  rewrite Hput in *. unfold type_char. destruct (ch =? 10); cbn [orb] in *.
  - rewrite <-kept_pushed in *. exists t'. by split_and!.
  - destruct (VIDEO_WIDTH <=? cur_col t + 1); rewrite <-?kept_pushed in *; exists t'; by split_and!.
Qed.

Lemma write_chars_holds t L color s :
  holds t L →
  ∃ t', for_each s (write_char color) t = Ok t' ∧ holds t' (type_string color s (L, cur_col t)).1 ∧
    cur_col t' = (type_string color s (L, cur_col t)).2 ∧ same_frame t t'.
Proof.
  revert t L. induction s as [|ch s IH]; intros t L HL; [by exists t|]. cbn [for_each type_string foldl].
  pose proof (write_char_holds t L color ch HL) as Hc.
  destruct (type_char color (L, cur_col t) ch) as [L1 c1]. destruct Hc as (t1 & -> & HL1 & <- & Hf1). mred.
  destruct (IH t1 L1 HL1) as (t' & -> & HL' & Hc' & Hf'). exists t'.
  split_and!; [done|done|done|by etransitivity].
Qed.

(** The state between outputs. *)
Definition printing t L : Prop := settled t (kept L) ∧ at_end t (kept L).

Lemma printing_holds t L : printing t L → holds t L.
Proof. intros [(? & ? & ?) ?]. by split. Qed.

Lemma write_string_run t L color s :
  holds t L →
  ∃ t', write_string color s t = Ok t' ∧ printing t' (type_string color s (L, cur_col t)).1 ∧
    cur_col t' = (type_string color s (L, cur_col t)).2 ∧ same_frame t t'.
Proof.
  intros HL. unfold write_string. destruct (write_chars_holds t L color s HL) as (t1 & -> & [Hs He Hd] & Hc & Hf).
  mred. destruct (follow_run t1 _ Hs Hd) as (t' & -> & Hset & Hf' & Hr' & Hc').
  exists t'. split_and!; [done|split; [done|]|congruence|by etransitivity].
  unfold at_end in *. by rewrite Hr'.
Qed.
End screen.
End TerminalScreen.
