(* ===== verification/TerminalStatus.v ===== *)
(** * Status lines, scrolling and initialisation of the terminal

    What a status line shows, that the status lines and the rows between them
    do not disturb each other, where [scroll_page] goes, and the terminal as
    [kmain] sets it up. *)
From stdpp Require Import pretty.
From S2P Require Import Prelude RingBuffer Terminal TerminalScreen.
Import Terminal TerminalScreen.
Local Open Scope N_scope.

Module TerminalStatus.

Section status.
Context `{AV : ArrayVec V INPUT_MAXSIZE}.
Implicit Types (t : Terminal V) (rows : list VideoRow).

(** ** Status lines *)
Definition status_blank : VideoChar := mkChar 0 STATUS.
Definition status_cells (s : list N) : list VideoChar := (λ ch, mkChar ch STATUS) <$> s.
Definition status_row (s : list N) : VideoRow :=
  take (N.to_nat VIDEO_WIDTH) (status_cells s ++ replicate (N.to_nat VIDEO_WIDTH) status_blank).

(** One row of video memory is replaced. *)
Definition with_row (row : N) (r : VideoRow) t : Terminal V :=
  set_video (<[N.to_nat row := r]> (video t)) t.

Lemma with_row_with_row row r r' t : with_row row r' (with_row row r t) = with_row row r' t.
Proof. unfold with_row, set_video. cbn. by rewrite list_insert_insert_eq. Qed.

Lemma write_ch_with_row row col ch r t :
  row < vlen (video t) → wide r → col < VIDEO_WIDTH →
  write_video_ch row col ch (with_row row r t) = Ok (with_row row (<[N.to_nat col := ch]> r) t).
Proof.
  intros Hrow Hr Hc. unfold with_row at 1. rewrite (write_video_ch_run _ _ _ _ r); [|cbn|done|done].
  - f_equal. apply with_row_with_row.
  - apply list_lookup_insert_eq. unfold vlen in Hrow. lia.
Qed.

Lemma status_loop_run row s pos r t :
  row < vlen (video t) → wide r → pos ≤ VIDEO_WIDTH →
  let s' := take (N.to_nat (VIDEO_WIDTH - pos)) s in
  status_loop row pos s (with_row row r t) =
    Ok (pos + vlen s', with_row row (splice (N.to_nat pos) (status_cells s') r) t).
Proof.
  intros Hrow. revert pos r. induction s as [|ch s IH]; intros pos r Hr Hp; cbn zeta.
  { rewrite take_nil. cbn. by rewrite splice_nil, N.add_0_r. }
  cbn [status_loop]. unfold VIDEO_WIDTH in *. destruct (N.leb_spec 80 pos).
  { replace (N.to_nat (80 - pos)) with 0%nat by lia. cbn. by rewrite splice_nil, N.add_0_r. }
  rewrite write_ch_with_row by done. mred. rewrite checked_add_Ok by lia. mred.
  rewrite IH by (by apply wide_insert || lia).
  replace (N.to_nat (80 - pos)) with (S (N.to_nat (80 - (pos + 1)))) by lia.
  unfold wide, vlen, VIDEO_WIDTH in *. cbn [firstn take length status_cells fmap list_fmap]. f_equal. f_equal.
  - lia.
  - f_equal. replace (N.to_nat (pos + 1)) with (S (N.to_nat pos)) by lia. apply splice_cons.
    cbn [length]. unfold status_cells. rewrite length_fmap, length_take. lia.
Qed.

Definition cut (s : list N) : list N := take (N.to_nat VIDEO_WIDTH) s.

Lemma get_status_row_ok t kind line row :
  video_ok t → get_status_line_row kind line t = Ok row → row < VIDEO_HEIGHT.
Proof.
  intros [Hs _ _]. unfold get_status_line_row, VIDEO_HEIGHT in *. destruct kind; intros Hg.
  - destruct (N.leb_spec (status_front_len t) line); simplify_eq. lia.
  - destruct (N.leb_spec (status_back_len t) line); simplify_eq.
    rewrite checked_sub_Ok in Hg by lia. revert Hg. mred. rewrite checked_sub_Ok by lia. intros [= <-]. lia.
Qed.

Lemma vlen_cut s : vlen (cut s) ≤ VIDEO_WIDTH.
Proof. unfold cut, vlen. rewrite length_take. lia. Qed.

Lemma write_piece_run t kind line row d s r :
  video_ok t → get_status_line_row kind line t = Ok row → wide r →
  write_status_line kind line s (vlen (cut d)) (with_row row (splice 0 (status_cells (cut d)) r) t) =
    Ok (vlen (cut (d ++ s)), with_row row (splice 0 (status_cells (cut (d ++ s))) r) t).
Proof.
  intros Hv Hg Hr. pose proof (get_status_row_ok t kind line row Hv Hg) as Hrow.
  rewrite <-(vo_len t Hv) in Hrow. unfold write_status_line.
  change (get_status_line_row kind line (with_row ?a ?b t)) with (get_status_line_row kind line t).
  rewrite Hg. mred. pose proof (vlen_cut d) as Hd. pose proof (vlen_cut (d ++ s)) as Hds.
  rewrite status_loop_run; [|done| |done].
  2: { unfold wide, vlen in *. rewrite length_splice; [done|]. unfold status_cells. rewrite length_fmap. lia. }
  mred. set (s' := take _ s).
  assert (cut (d ++ s) = cut d ++ s') as Happ.
  { unfold cut at 1. rewrite take_app. f_equal. subst s'. f_equal. unfold cut, vlen, VIDEO_WIDTH.
    rewrite length_take. lia. }
  assert (vlen (cut d) + vlen s' = vlen (cut (d ++ s))) as ->.
  { rewrite Happ. unfold vlen. rewrite length_app. lia. }
  replace (if vlen (cut (d ++ s)) <? VIDEO_WIDTH then vlen (cut (d ++ s)) else VIDEO_WIDTH)
    with (vlen (cut (d ++ s))).
  2: { destruct (N.ltb_spec (vlen (cut (d ++ s))) VIDEO_WIDTH); lia. }
  do 3 f_equal. rewrite Happ. unfold status_cells. rewrite fmap_app.
  unfold vlen. rewrite Nat2N.id, <-(length_fmap (λ ch, mkChar ch STATUS) (cut d)).
  apply (splice_app 0). rewrite <-fmap_app, <-Happ, length_fmap. unfold wide, vlen in *. lia.
Qed.

Lemma status_write_str s t kind line cur :
  StatusLineWriter_write_str s (mkStatusWriter t kind line cur) =
    '(cur, t) ← write_status_line kind line s cur t; Ok (mkStatusWriter t kind line cur).
Proof. done. Qed.

Lemma write_pieces_run t kind line row args d r :
  video_ok t → get_status_line_row kind line t = Ok row → wide r →
  for_each args StatusLineWriter_write_str
      (mkStatusWriter (with_row row (splice 0 (status_cells (cut d)) r) t) kind line (vlen (cut d))) =
    Ok (mkStatusWriter (with_row row (splice 0 (status_cells (cut (d ++ concat args))) r) t) kind line
      (vlen (cut (d ++ concat args)))).
Proof.
  intros Hv Hg Hr. revert d. induction args as [|s args IH]; intros d; cbn [for_each concat].
  - by rewrite app_nil_r.
  - rewrite status_write_str, write_piece_run by done. mred. by rewrite IH, app_assoc.
Qed.

Lemma clear_loop_run t row a r :
  row < vlen (video t) → wide r → a ≤ VIDEO_WIDTH →
  for_each (range a VIDEO_WIDTH) (λ pos, write_video_ch row pos status_blank) (with_row row r t) =
    Ok (with_row row (splice (N.to_nat a) (replicate (N.to_nat (VIDEO_WIDTH - a)) status_blank) r) t).
Proof.
  intros Hrow Hr Ha. remember (N.to_nat (VIDEO_WIDTH - a)) as n eqn:Hn. revert a r Hr Ha Hn.
  induction n as [|n IH]; intros a r Hr Ha Hn.
  - rewrite range_nil by lia. cbn. by rewrite splice_nil.
  - rewrite range_cons by lia. cbn [for_each]. rewrite write_ch_with_row by (done || lia). mred.
    rewrite IH by (by apply wide_insert || lia). do 2 f_equal. cbn [replicate].
    replace (N.to_nat (a + 1)) with (S (N.to_nat a)) by lia. apply splice_cons.
    simpl. rewrite length_replicate. unfold wide, vlen in *. lia.
Qed.

Lemma with_row_id row r t : video t !! N.to_nat row = Some r → with_row row r t = t.
Proof. intros Hr. unfold with_row. rewrite list_insert_id by done. by destruct t. Qed.

Lemma status_line_run t kind line row args :
  video_ok t → get_status_line_row kind line t = Ok row →
  status_line_writer kind line args t = Ok (with_row row (status_row (concat args)) t).
Proof.
  intros Hv Hg. pose proof (get_status_row_ok t kind line row Hv Hg) as Hrow.
  rewrite <-(vo_len t Hv) in Hrow.
  destruct (lookup_lt_is_Some_2 (video t) (N.to_nat row)) as [r Hr]; [unfold vlen in Hrow; lia|].
  assert (wide r) as Hw by by eapply Forall_lookup_1; [apply (vo_wide _ Hv)|].
  unfold status_line_writer. rewrite <-(with_row_id row r t Hr) at 1.
  pose proof (write_pieces_run t kind line row args [] r Hv Hg Hw) as Hp.
  change (cut []) with (@nil N) in Hp. change (status_cells []) with (@nil VideoChar) in Hp.
  rewrite splice_nil in Hp. cbn [app] in Hp. change (vlen (@nil N)) with 0 in Hp. rewrite Hp. mred.
  unfold StatusLineWriter_done, clear_status_line. cbn [sw_term sw_kind sw_line sw_cur].
  change (get_status_line_row kind line (with_row ?a ?b t)) with (get_status_line_row kind line t).
  rewrite Hg. mred. pose proof (vlen_cut (concat args)) as Hc. set (s := concat args) in *.
  assert (length (status_cells (cut s)) = N.to_nat (vlen (cut s))) as Hlc.
  { unfold status_cells. rewrite length_fmap. unfold vlen. lia. }
  change (mkChar 0 STATUS) with status_blank. rewrite clear_loop_run; [|done| |done].
  2: { unfold wide, vlen in *. rewrite length_splice; [done|]. lia. }
  mred. cbn [sw_term]. do 2 f_equal. rewrite <-Hlc, <-(Nat.add_0_l (length (status_cells (cut s)))).
  unfold wide, vlen, VIDEO_WIDTH in *. rewrite splice_app.
  2: { rewrite length_app, length_replicate. simpl. lia. }
  unfold splice. cbn [take]. rewrite drop_ge by (rewrite length_app, length_replicate; simpl; lia).
  rewrite app_nil_r, take_0. cbn [app]. unfold status_row, status_cells, cut, VIDEO_WIDTH.
  rewrite (take_app (_ <$> s)), fmap_take. f_equal.
  rewrite take_replicate, length_fmap, length_take. f_equal. lia.
Qed.

Lemma wide_status_row s : wide (status_row s).
Proof.
  unfold wide, vlen, status_row. rewrite length_take, length_app, length_replicate.
  unfold VIDEO_WIDTH. lia.
Qed.

(** ** Status lines and screen do not meet *)
Lemma status_row_outside t kind line row i :
  video_ok t → get_status_line_row kind line t = Ok row → i < height t →
  row ≠ status_front_len t + i.
Proof.
  intros [Hs _ _]. unfold get_status_line_row, height, VIDEO_HEIGHT in *. destruct kind; intros Hg Hi.
  - destruct (N.leb_spec (status_front_len t) line); simplify_eq. lia.
  - destruct (N.leb_spec (status_back_len t) line); simplify_eq.
    rewrite checked_sub_Ok in Hg by lia. revert Hg. mred. rewrite checked_sub_Ok by lia. intros [= <-]. lia.
Qed.

(** Nothing but video memory outside the screen has changed. *)
Definition unmoved t t' : Prop :=
  (∀ rows, screen_ok t rows → screen_ok t' rows) ∧ (∀ rows, shows t rows → shows t' rows) ∧
  same_frame t t' ∧ cur_row t' = cur_row t ∧ cur_col t' = cur_col t ∧ scr_row t' = scr_row t ∧
  ports t' = ports t.

Lemma unmoved_refl t : unmoved t t.
Proof. split_and!; done. Qed.

Lemma status_row_unmoved t kind line row r :
  video_ok t → get_status_line_row kind line t = Ok row → wide r → unmoved t (with_row row r t).
Proof.
  intros Hv Hg Hr. split_and!; try done.
  - intros rows [? ? ? ? ? ?]. split; try done. by apply video_ok_insert.
  - intros rows Hsh i Hi. cbn. rewrite list_lookup_insert_ne; [by apply Hsh|].
    pose proof (status_row_outside t kind line row i Hv Hg Hi). lia.
Qed.

Lemma status_line_unmoved t kind line row args :
  video_ok t → get_status_line_row kind line t = Ok row →
  ∃ t', status_line_writer kind line args t = Ok t' ∧ unmoved t t' ∧
    video t' !! N.to_nat row = Some (status_row (concat args)).
Proof.
  intros Hv Hg. pose proof (get_status_row_ok t kind line row Hv Hg) as Hrow.
  rewrite (status_line_run t kind line row args Hv Hg). eexists. split; [done|]. split.
  - eapply status_row_unmoved; [done|done|apply wide_status_row].
  - cbn. apply list_lookup_insert_eq. pose proof (vo_len t Hv). unfold vlen in *. lia.
Qed.

Lemma back_row t :
  video_ok t → 0 < status_back_len t → get_status_line_row Back 0 t = Ok (VIDEO_HEIGHT - 1).
Proof.
  intros Hv Hb. unfold get_status_line_row. by rewrite (proj2 (N.leb_gt _ _)).
Qed.

Lemma print_cursor_status_run t rows :
  screen_ok t rows → ∃ t', print_cursor_status t = Ok t' ∧ unmoved t t'.
Proof.
  intros [Hr _ Hcr Hcc _ Hv]. pose proof (RingBuffer.repr_le _ _ _ Hr) as Hle.
  unfold BUFFER_HEIGHT, VIDEO_WIDTH in *. unfold print_cursor_status.
  destruct (N.ltb_spec 0 (status_back_len t)); [|by eauto using unmoved_refl].
  rewrite (RingBuffer.repr_len _ _ _ Hr). mred. rewrite checked_add_Ok by lia. mred.
  rewrite checked_add_Ok by lia. mred.
  edestruct (status_line_unmoved t Back 0) as (t' & -> & ? & _); [done|by apply back_row|]. eauto.
Qed.

Lemma clear_cur_line_status_run t :
  video_ok t → ∃ t', clear_cur_line_status t = Ok t' ∧ unmoved t t'.
Proof.
  intros Hv. unfold clear_cur_line_status.
  destruct (N.ltb_spec 0 (status_back_len t)) as [Hb|]; [|by eauto using unmoved_refl].
  pose proof (status_line_run t Back 0 _ [] Hv (back_row t Hv Hb)) as Hrun.
  unfold status_line_writer, StatusLineWriter_done in Hrun. cbn [for_each] in Hrun. revert Hrun. mred.
  cbn [sw_term sw_kind sw_line sw_cur]. intros Hrun. destruct (clear_status_line Back 0 0 t); [|done]. revert Hrun. mred. cbn [sw_term]. intros [= ->].
  eexists. split; [done|]. eapply status_row_unmoved; [done|by apply back_row|apply wide_status_row].
Qed.

Lemma print_line_status_run t rows :
  screen_ok t rows → ∃ t', print_line_status t = Ok t' ∧ unmoved t t'.
Proof.
  intros [Hr _ _ _ Hsc Hv]. pose proof (RingBuffer.repr_le _ _ _ Hr) as Hle.
  unfold BUFFER_HEIGHT in *. unfold print_line_status.
  destruct (N.ltb_spec 0 (status_back_len t)); [|by eauto using unmoved_refl].
  rewrite screen_height_run by done. mred. destruct (height_pos t Hv) as [Hh0 Hh]. unfold VIDEO_HEIGHT in Hh.
  rewrite (RingBuffer.repr_len _ _ _ Hr). mred.
  assert (∀ a, a < 512 → a / height t < 512) as Hdiv.
  { intros a Ha. eapply N.le_lt_trans; [|exact Ha]. apply N.Div0.div_le_upper_bound. nia. }
  pose proof (N.Div0.mod_le (scr_row t) (height t)) as Hm. set (q := scr_row t mod height t) in *.
  pose proof (Hdiv (scr_row t + height t - 1) ltac:(lia)).
  pose proof (Hdiv (vlen rows - q + height t - 1) ltac:(lia)).
  rewrite (checked_add_Ok _ (scr_row t) (height t)) by lia. mred.
  rewrite (checked_sub_Ok (scr_row t + height t)) by lia. mred.
  rewrite (checked_div_Ok (scr_row t + height t - 1)) by lia. mred.
  rewrite (checked_sub_Ok (vlen rows)) by lia. mred.
  rewrite (checked_add_Ok _ (vlen rows - q)) by lia. mred.
  rewrite (checked_sub_Ok (vlen rows - q + height t)) by lia. mred.
  rewrite (checked_div_Ok (vlen rows - q + height t - 1)) by lia. mred.
  rewrite (checked_add_Ok _ ((vlen rows - q + height t - 1) / height t)) by (destruct (0 <? q); lia). mred.
  rewrite checked_add_Ok by lia. mred. rewrite checked_add_Ok by lia. mred.
  edestruct (status_line_unmoved t Back 0) as (t' & -> & ? & _); [done|by apply back_row|]. eauto.
Qed.

(** ** Scrolling *)
Definition clamp (to : Z) (n : N) : N := if (to <? 0)%Z then 0 else N.min (Z.to_N to) (n - 1).

Lemma isize_Ok z : (- 2 ^ 63 ≤ z < 2 ^ 63)%Z → isize z = Ok z.
Proof.
  intros [H1 H2]. unfold isize. by rewrite (proj2 (Z.leb_le _ _) H1), (proj2 (Z.ltb_lt _ _) H2).
Qed.

Lemma scroll_page_run t rows page :
  screen_ok t rows → (- 2 ^ 58 ≤ page ≤ 2 ^ 58)%Z →
  ∃ t', scroll_page page t = Ok t' ∧ screen_ok t' rows ∧ shows t' rows ∧ same_frame t t' ∧
    cur_row t' = cur_row t ∧ cur_col t' = cur_col t ∧
    scr_row t' = clamp (Z.of_N (scr_row t) + page * Z.of_N (height t)) (vlen rows).
Proof.
  intros Hs Hp. pose proof Hs as [Hr _ _ _ Hsc Hv]. pose proof (RingBuffer.repr_le _ _ _ Hr) as Hle.
  unfold BUFFER_HEIGHT in *. destruct (height_pos t Hv) as [Hh0 Hh]. unfold VIDEO_HEIGHT in Hh.
  change (2 ^ 58)%Z with 288230376151711744%Z in Hp.
  unfold scroll_page. rewrite (RingBuffer.repr_len _ _ _ Hr). mred. rewrite screen_height_run by done. mred.
  rewrite (isize_Ok (page * _)) by (change (2 ^ 63)%Z with 9223372036854775808%Z; nia). mred.
  rewrite (isize_Ok (_ + page * _)) by (change (2 ^ 63)%Z with 9223372036854775808%Z; nia). mred.
  set (to := (Z.of_N (scr_row t) + page * Z.of_N (height t))%Z).
  assert (∃ row, (if (to <? 0)%Z then Ok 0%Z else if (Z.of_N (vlen rows) <=? to)%Z
    then isize (Z.of_N (vlen rows) - 1) else Ok to) = Ok row ∧
    Z.to_N (row mod 2 ^ 64) = clamp to (vlen rows) ∧ clamp to (vlen rows) < vlen rows) as (row & -> & Hrow & Hlt).
  { unfold clamp. destruct (Z.ltb_spec to 0); [exists 0%Z; split_and!; [done|done|lia]|].
    destruct (Z.leb_spec (Z.of_N (vlen rows)) to).
    - rewrite isize_Ok by (change (2 ^ 63)%Z with 9223372036854775808%Z; lia). eexists. split; [done|].
      rewrite Z.mod_small by (change (2 ^ 64)%Z with 18446744073709551616%Z; lia). lia.
    - eexists. split; [done|]. rewrite Z.mod_small by (change (2 ^ 64)%Z with 18446744073709551616%Z; lia). lia. }
  mred. rewrite Hrow.
  destruct (scroll_to_run t rows _ Hs Hlt) as (t' & -> & Hs' & Hsh & Hf & Hr' & Hc' & Hk'). eauto 10.
Qed.

(** ** The number of status lines *)
Definition is_status_row t (j : N) : bool :=
  (j <? status_front_len t) || (VIDEO_HEIGHT - status_back_len t <=? j).

Lemma redraw_status_lines_run t :
  video_ok t →
  ∃ v', redraw_status_lines t = Ok (set_video v' t) ∧ video_ok (set_video v' t) ∧
    ∀ j, j < VIDEO_HEIGHT →
      v' !! N.to_nat j = if is_status_row t j then Some (status_row []) else video t !! N.to_nat j.
Proof.
  intros Hv. pose proof (vo_status t Hv) as Hst. pose proof (vo_len t Hv) as Hlen.
  unfold redraw_status_lines, VIDEO_HEIGHT in *.
  rewrite checked_sub_Ok by lia. mred. change (replicate _ _) with (status_row []).
  destruct (draw_loop t 0 (status_front_len t) (λ _, status_row []) (λ row, write_video_row row (status_row [])) 0)
    as (v1 & -> & Hv1 & Ho1); [done|intros; apply wide_status_row|unfold VIDEO_HEIGHT; lia|lia| |].
  { intros i v Hi Hl. unfold VIDEO_HEIGHT in Hl. rewrite N.add_0_r.
    by rewrite write_video_row_run by (cbn; lia). }
  mred. destruct (draw_loop (set_video v1 t) (25 - status_back_len t) 25 (λ _, status_row [])
    (λ row, write_video_row row (status_row [])) 0)
    as (v2 & -> & Hv2 & Ho2); [done|intros; apply wide_status_row|unfold VIDEO_HEIGHT; lia|lia| |].
  { intros i v Hi Hl. unfold VIDEO_HEIGHT in Hl. rewrite N.add_0_r.
    by rewrite write_video_row_run by (cbn; lia). }
  exists v2. split_and!; [done|done|]. intros j Hj. pose proof (vo_len _ Hv1) as Hl1. unfold VIDEO_HEIGHT in Hl1.
  rewrite Ho2 by lia. cbn [video set_video]. rewrite Ho1 by lia. rewrite !N.add_0_r.
  unfold is_status_row, VIDEO_HEIGHT. rewrite (proj2 (N.ltb_lt j 25)), (proj2 (N.leb_le 0 j)) by lia.
  destruct (N.leb_spec (25 - status_back_len t) j), (N.ltb_spec j (status_front_len t)); cbn; (done || lia).
Qed.

Lemma redraw_run t rows :
  screen_ok t rows →
  ∃ v', redraw t = Ok (set_video v' t) ∧ screen_ok (set_video v' t) rows ∧ shows (set_video v' t) rows ∧
    ∀ j, j < VIDEO_HEIGHT → is_status_row t j = true → v' !! N.to_nat j = Some (status_row []).
Proof.
  intros [Hr Hw Hcr Hcc Hsc Hv]. pose proof (RingBuffer.repr_le _ _ _ Hr) as Hle.
  unfold BUFFER_HEIGHT in Hle. unfold redraw.
  destruct (redraw_status_lines_run t Hv) as (v1 & -> & Hv1 & Hst1). mred.
  destruct (redraw_screen_run (set_video v1 t) rows) as (v2 & -> & Hv2 & Ho2);
    [done|done|done|cbn; lia|]. exists v2. split_and!; [done|by split| |].
  - by apply (shows_drawn (set_video v1 t)).
  - intros j Hj Hs. pose proof (vo_len _ Hv1) as Hl1. rewrite Ho2 by lia.
    cbn [status_front_len set_video video]. change (height (set_video v1 t)) with (height t).
    rewrite Hst1, Hs by done. unfold is_status_row, height, VIDEO_HEIGHT in *.
    pose proof (vo_status t Hv). unfold VIDEO_HEIGHT in *. apply orb_prop in Hs.
    destruct (N.leb_spec (status_front_len t) j), (N.ltb_spec j (status_front_len t + (25 - status_front_len t - status_back_len t)));
      cbn; try done. exfalso. destruct Hs as [Hs%N.ltb_lt|Hs%N.leb_le]; lia.
Qed.

Definition with_status_lines (kind : StatusLineKind) (lines : N) t : Terminal V :=
  match kind with
  | Front => set_status_lens lines (status_back_len t) t
  | Back => set_status_lens (status_front_len t) lines t
  end.

Lemma set_status_lines_run t rows kind lines :
  screen_ok t rows →
  let t1 := with_status_lines kind lines t in
  status_front_len t1 + status_back_len t1 < VIDEO_HEIGHT →
  ∃ v', set_status_lines kind lines t = Ok (set_video v' t1) ∧ screen_ok (set_video v' t1) rows ∧
    shows (set_video v' t1) rows ∧
    ∀ j, j < VIDEO_HEIGHT → is_status_row t1 j = true → v' !! N.to_nat j = Some (status_row []).
Proof.
  intros [Hr Hw Hcr Hcc Hsc [Hs Hl Hvw]] t1 Hlt. apply redraw_run.
  by destruct kind; split; try done; split.
Qed.

(** ** Initialisation *)
Definition start (port_read : list (N * N) → N → N) (video_memory : list VideoRow) : result (Terminal V) :=
  t ← init_term port_read (TERM video_memory); set_status_lines_back 1 t.

Lemma clear_run t rows :
  RingBuffer.repr BUFFER_HEIGHT (buffer t) rows → Forall wide rows → video_ok t →
  ∃ t', clear t = Ok t' ∧ screen_ok t' (pushed_row rows) ∧ at_end t' (pushed_row rows) ∧
    cur_col t' = 0 ∧ same_frame t t' ∧ video t' = video t.
Proof.
  intros Hr Hw Hv. pose proof (RingBuffer.repr_le _ _ _ Hr) as Hle. unfold BUFFER_HEIGHT in Hle.
  unfold clear. destruct (RingBuffer.repr_push_force _ _ _ Hr EMPTY_ROW) as (b & -> & Hb). mred.
  fold (pushed_row rows) in Hb. rewrite (RingBuffer.repr_len _ _ _ Hb). mred.
  pose proof (vlen_pushed_row rows) as Hl. assert (0 < vlen (pushed_row rows) ≤ 256) as Hp.
  { unfold dropped, BUFFER_HEIGHT in Hl. destruct (N.ltb_spec (vlen rows) 256); lia. }
  rewrite checked_sub_Ok by lia. mred. set (t1 := set_scr_row _ _).
  assert (screen_ok t1 (pushed_row rows)) as Hs1.
  { split; cbn; try done; try lia; [by apply wide_pushed_row|by destruct Hv]. }
  assert (scroll_to_cursor t1 = Ok t1) as ->.
  { unfold scroll_to_cursor. rewrite screen_height_run by apply Hs1. mred. cbn [cur_row scr_row t1 set_scr_row set_cur].
    rewrite N.ltb_irrefl. destruct (height_pos t Hv) as [Hh0 Hh]. unfold VIDEO_HEIGHT in Hh.
    change (height t1) with (height t). rewrite checked_add_Ok by lia. mred.
    by rewrite (proj2 (N.leb_gt _ _)) by lia. }
  mred. destruct (update_cursor_run t1 _ Hs1) as [-> _]. eexists. split; [done|].
  split; [by destruct Hs1 as [? ? ? ? ? []]; split|]. split_and!; try done. unfold at_end. cbn. lia.
Qed.

Lemma start_run port_read video_memory :
  vlen video_memory = VIDEO_HEIGHT → Forall wide video_memory →
  ∃ t, start port_read video_memory = Ok t ∧ holds t [EMPTY_ROW] ∧ shows t [EMPTY_ROW] ∧
    cur_col t = 0 ∧ status_front_len t = 0 ∧ status_back_len t = 1 ∧ same_input (TERM video_memory) t.
Proof.
  intros Hl Hw. unfold start, init_term. set (t0 := TERM video_memory).
  assert (RingBuffer.repr BUFFER_HEIGHT (buffer t0) []) as Hr by by apply RingBuffer.new_with_repr.
  assert (video_ok t0) as Hv by done.
  assert (redraw_status_lines t0 = Ok t0) as -> by done. mred.
  destruct (clear_run t0 [] Hr (Forall_nil_2 _) Hv) as (t1 & -> & Hs1 & He1 & Hc1 & (Hi1 & Hf1 & Hb1) & Hv1). mred.
  set (t2 := enable_cursor _ _ _).
  assert (screen_ok t2 (pushed_row [])) as Hs2 by by destruct Hs1 as [? ? ? ? ? []]; split.
  unfold set_status_lines_back. destruct (set_status_lines_run t2 (pushed_row []) Back 1 Hs2) as (v' & -> & Hs3 & Hsh3 & _).
  { cbn. by rewrite Hf1. }
  eexists. split; [done|]. change (pushed_row []) with (kept [EMPTY_ROW]) in *.
  split_and!; done.
Qed.
End status.
End TerminalStatus.
