(* ===== verification/TerminalGrid.v ===== *)
(** * Rows as one line of cells

    Text that wraps from row to row is one line of cells: [flat] joins the rows,
    [chop] makes rows of a line again, and [place] is the cell that a position
    in the line has below the rows [above].  A loop of [write_char_at] over a
    text overwrites part of that line ([write_at_run]). *)
From stdpp Require Import pretty.
From S2P Require Import Prelude RingBuffer Terminal TerminalScreen.
Import Terminal TerminalScreen.
Local Open Scope N_scope.

Module TerminalGrid.

(** ** Lists *)
Definition flat (rows : list VideoRow) : list VideoChar := mjoin rows.
Definition width : nat := 80.
Definition chop (k : nat) (l : list VideoChar) : list VideoRow := reshape (replicate k width) l.

Lemma wide_length r : wide r → length r = width.
Proof. unfold wide, vlen, VIDEO_WIDTH, width. lia. Qed.

Lemma flat_cons r rows : flat (r :: rows) = r ++ flat rows.
Proof. done. Qed.

Lemma length_flat rows : Forall wide rows → length (flat rows) = (length rows * width)%nat.
Proof.
  induction 1 as [|r rows Hr%wide_length _ IH]; [done|]. by rewrite flat_cons, length_app, Hr, IH.
Qed.

Lemma vlen_flat rows : Forall wide rows → vlen (flat rows) = VIDEO_WIDTH * vlen rows.
Proof. intros Hw. unfold vlen. rewrite length_flat by done. unfold VIDEO_WIDTH, width. lia. Qed.

Lemma flat_app r1 r2 : flat (r1 ++ r2) = flat r1 ++ flat r2.
Proof. apply join_app. Qed.

Lemma chop_flat rows : Forall wide rows → chop (length rows) (flat rows) = rows.
Proof.
  unfold chop. induction 1 as [|r rows Hr%wide_length _ IH]; [done|]. rewrite flat_cons. cbn [length replicate reshape].
  by rewrite take_app_length', drop_app_length', IH.
Qed.

Lemma flat_chop k l : length l = (k * width)%nat → flat (chop k l) = l.
Proof. intros Hl. unfold flat, chop. apply join_reshape. by rewrite sum_list_replicate. Qed.

Lemma wide_chop k l : length l = (k * width)%nat → Forall wide (chop k l).
Proof.
  revert l. induction k as [|k IH]; intros l Hl; [constructor|]. constructor.
  - unfold wide, vlen. rewrite length_take. unfold width, VIDEO_WIDTH in *. lia.
  - apply IH. rewrite length_drop. lia.
Qed.

Lemma length_chop k l : length (chop k l) = k.
Proof. unfold chop. by rewrite length_reshape, length_replicate. Qed.

(** Rows are the same when their cells are. *)
Lemma flat_inj r1 r2 : Forall wide r1 → Forall wide r2 → flat r1 = flat r2 → r1 = r2.
Proof.
  intros H1 H2 He. rewrite <-(chop_flat r1), <-(chop_flat r2) by done. rewrite He. f_equal.
  apply (f_equal length) in He. rewrite !length_flat in He by done. unfold width in He. lia.
Qed.

Lemma flat_insert rows (i c : nat) ch r :
  Forall wide rows → rows !! i = Some r → (c < width)%nat →
  flat (<[i := <[c := ch]> r]> rows) = <[(i * width + c)%nat := ch]> (flat rows).
Proof.
  intros Hw. revert i. induction Hw as [|r0 rows Hr%wide_length Hw IH]; intros i; [done|].
  destruct i as [|i]; cbn [lookup list_lookup insert list_insert]; intros Hi Hc; rewrite !flat_cons.
  - simplify_eq. rewrite insert_app_l by lia. done.
  - replace (S i * width + c)%nat with (length r0 + (i * width + c))%nat by (unfold width in *; lia).
    rewrite insert_app_r. f_equal. by apply IH.
Qed.

Lemma cell_index p : (N.to_nat (p / VIDEO_WIDTH) * width + N.to_nat (p mod VIDEO_WIDTH))%nat = N.to_nat p.
Proof. unfold VIDEO_WIDTH, width. lia. Qed.

(** ** Cells of rows *)
Definition overwrite (rows : list VideoRow) (p : N) (cs : list VideoChar) : list VideoRow :=
  chop (length rows) (splice (N.to_nat p) cs (flat rows)).

Section overwrite.
Context (rows : list VideoRow) (Hw : Forall wide rows).

Lemma length_overwritten p cs :
  p + vlen cs ≤ VIDEO_WIDTH * vlen rows → length (splice (N.to_nat p) cs (flat rows)) = (length rows * width)%nat.
Proof.
  intros Hl. rewrite <-length_flat by done. apply length_splice. rewrite length_flat by done.
  unfold vlen, VIDEO_WIDTH, width in *. lia.
Qed.

Lemma flat_overwrite p cs :
  p + vlen cs ≤ VIDEO_WIDTH * vlen rows → flat (overwrite rows p cs) = splice (N.to_nat p) cs (flat rows).
Proof. intros. by apply flat_chop, length_overwritten. Qed.

Lemma wide_overwrite p cs : p + vlen cs ≤ VIDEO_WIDTH * vlen rows → Forall wide (overwrite rows p cs).
Proof. intros. by apply wide_chop, length_overwritten. Qed.

Lemma vlen_overwrite p cs : vlen (overwrite rows p cs) = vlen rows.
Proof. unfold vlen, overwrite. by rewrite length_chop. Qed.

Lemma overwrite_nil p : overwrite rows p [] = rows.
Proof. unfold overwrite. by rewrite splice_nil, chop_flat. Qed.

Lemma flat_with_cell p ch :
  p < VIDEO_WIDTH * vlen rows →
  flat (with_cell rows (p / VIDEO_WIDTH) (p mod VIDEO_WIDTH) ch) = <[N.to_nat p := ch]> (flat rows).
Proof.
  intros Hp. unfold with_cell. destruct (lookup_lt_is_Some_2 rows (N.to_nat (p / VIDEO_WIDTH))) as [r Hr].
  { unfold vlen, VIDEO_WIDTH in *. lia. }
  unfold row_at. rewrite Hr. cbn [default]. rewrite (flat_insert _ _ _ _ r) by (done || (unfold VIDEO_WIDTH, width; lia)).
  by rewrite cell_index.
Qed.

Lemma overwrite_one p ch :
  p < VIDEO_WIDTH * vlen rows → with_cell rows (p / VIDEO_WIDTH) (p mod VIDEO_WIDTH) ch = overwrite rows p [ch].
Proof.
  intros Hp. assert (p + vlen [ch] ≤ VIDEO_WIDTH * vlen rows) as Hp' by (change (vlen [ch]) with 1; lia).
  apply flat_inj; [by apply Forall_insert, wide_insert, wide_row_at|by apply wide_overwrite|].
  rewrite flat_with_cell, flat_overwrite by done. unfold splice. pose proof (length_flat rows Hw) as Hl.
  rewrite insert_take_drop by (unfold vlen, VIDEO_WIDTH, width in *; lia).
  f_equal. cbn [app length]. by rewrite Nat.add_1_r.
Qed.

Lemma overwrite_app p c1 c2 :
  p + vlen (c1 ++ c2) ≤ VIDEO_WIDTH * vlen rows →
  overwrite (overwrite rows p c1) (p + vlen c1) c2 = overwrite rows p (c1 ++ c2).
Proof.
  intros Hl. pose proof Hl as Hl'. rewrite vlen_app in Hl'. unfold overwrite at 1 3.
  rewrite flat_overwrite by lia. unfold overwrite at 1. rewrite length_chop. f_equal.
  replace (N.to_nat (p + vlen c1)) with (N.to_nat p + length c1)%nat by (unfold vlen; lia).
  apply splice_app. rewrite length_flat by done. unfold vlen, VIDEO_WIDTH, width in *. lia.
Qed.
End overwrite.

(** ** What is seen

    The cells 0 and 32 look alike. *)
Definition seen_char (c : VideoChar) : VideoChar := if character c =? 0 then mkChar 32 (color c) else c.
Definition seen (L : list VideoRow) : list VideoRow := fmap (M := list) seen_char <$> L.

Lemma seen_app L L' : seen (L ++ L') = seen L ++ seen L'.
Proof. apply fmap_app. Qed.

Lemma seen_idemp L : seen (seen L) = seen L.
Proof.
  unfold seen. rewrite <-list_fmap_compose. apply list_fmap_ext. intros _ r _. unfold compose. rewrite <-list_fmap_compose.
  apply list_fmap_ext. intros _ c _. unfold compose, seen_char. destruct (character c =? 0) eqn:Hc; cbn; by rewrite ?Hc.
Qed.

Lemma seen_flat rows : flat (seen rows) = fmap (M := list) seen_char (flat rows).
Proof. induction rows as [|r rows IH]; [done|]. rewrite flat_cons, fmap_app, <-IH. done. Qed.

Lemma wide_seen rows : Forall wide rows → Forall wide (seen rows).
Proof. intros Hw. apply Forall_fmap. revert Hw. apply Forall_impl. intros r Hr. unfold wide, vlen in *. cbn. by rewrite length_fmap. Qed.

(** What the buffer keeps of the rows [L] above [n] rows. *)
Definition kept_above (L : list VideoRow) (n : nat) : list VideoRow := drop (length L + n - N.to_nat BUFFER_HEIGHT) L.

Lemma kept_below L rows : vlen rows ≤ BUFFER_HEIGHT → kept (L ++ rows) = kept_above L (length rows) ++ rows.
Proof. unfold kept, kept_above, vlen, BUFFER_HEIGHT. intros Hl. rewrite length_app. apply drop_app_le. lia. Qed.

(** A cell of the rows below others. *)
Lemma with_cell_below above rows (i col : N) ch :
  i < vlen rows → with_cell (above ++ rows) (vlen above + i) col ch = above ++ with_cell rows i col ch.
Proof.
  intros Hi. unfold with_cell, row_at. replace (N.to_nat (vlen above + i)) with (length above + N.to_nat i)%nat by (unfold vlen; lia).
  rewrite insert_app_r, lookup_app_r by lia. by replace (length above + N.to_nat i - length above)%nat with (N.to_nat i) by lia.
Qed.

Section grid.
Context `{AV : ArrayVec V INPUT_MAXSIZE}.
Implicit Types (t : Terminal V) (rows above : list VideoRow).

(** Nothing moves but the contents of rows. *)
Definition in_place t rows t' rows' : Prop :=
  screen_ok t' rows' ∧ (shows t rows → shows t' rows') ∧ same_frame t t' ∧
  cur_row t' = cur_row t ∧ cur_col t' = cur_col t ∧ scr_row t' = scr_row t.

Lemma in_place_refl t rows : screen_ok t rows → in_place t rows t rows.
Proof. by split. Qed.

Lemma in_place_trans t1 r1 t2 r2 t3 r3 :
  in_place t1 r1 t2 r2 → in_place t2 r2 t3 r3 → in_place t1 r1 t3 r3.
Proof.
  intros (? & ? & ? & ? & ? & ?) (? & ? & ? & ? & ? & ?).
  split_and!; [done|by auto|by etransitivity|congruence..].
Qed.

Lemma drawn_in_place t rows t' rows' :
  in_place t rows t' rows' → (cursor_in_view t → shows t rows) → cursor_in_view t' → shows t' rows'.
Proof.
  intros (_ & Hsh & (_ & Hf & Hb) & Hr & Hc & Hk) Hd Hin. apply Hsh, Hd.
  unfold cursor_in_view, height in *. by rewrite Hr, Hk, Hf, Hb in Hin.
Qed.

(** The cell of position [p] in the rows below [above]. *)
Definition place above (p : N) : N * N := (vlen above + p / VIDEO_WIDTH, p mod VIDEO_WIDTH).

Lemma screen_ok_wide t above rows : screen_ok t (above ++ rows) → Forall wide rows.
Proof. intros [_ Hw _ _ _ _]. by apply Forall_app in Hw as [_ ?]. Qed.

Lemma put_place_run t above rows p ch :
  screen_ok t (above ++ rows) → p < VIDEO_WIDTH * vlen rows →
  ∃ t', put_cell (place above p).1 (place above p).2 ch t = Ok t' ∧
    in_place t (above ++ rows) t' (above ++ overwrite rows p [ch]).
Proof.
  intros Hs Hp. destruct (put_cell_run t (above ++ rows) (place above p).1 (place above p).2 ch Hs) as (t' & -> & Hin);
    cbn [place fst snd]; [rewrite vlen_app; unfold VIDEO_WIDTH in *; lia|unfold VIDEO_WIDTH; lia|].
  exists t'. split; [done|]. cbn [place fst snd] in Hin.
  rewrite with_cell_below, overwrite_one in Hin by (done || (by eapply screen_ok_wide) || (unfold VIDEO_WIDTH in *; lia)).
  exact Hin.
Qed.

Lemma write_place_run t above rows p ch :
  screen_ok t (above ++ rows) → p < VIDEO_WIDTH * vlen rows → ch ≠ 10 →
  ∃ t', (let '(r, c) := place above p in write_char_at DEFAULT r c ch t) = Ok (place above (p + 1), t') ∧
    in_place t (above ++ rows) t' (above ++ overwrite rows p [mkChar ch DEFAULT]).
Proof.
  intros Hs Hp Hch. pose proof Hs as [Hr _ _ _ _ _]. pose proof (RingBuffer.repr_le _ _ _ Hr) as Hle.
  destruct (put_place_run t above rows p (mkChar ch DEFAULT) Hs Hp) as (t' & Hrun & Hin).
  rewrite vlen_app in Hle. cbn [place fst snd] in *. unfold write_char_at, BUFFER_HEIGHT, VIDEO_WIDTH in *.
  rewrite (proj2 (N.eqb_neq _ _) Hch), (RingBuffer.repr_len _ _ _ Hr). mred.
  rewrite vlen_app, (proj2 (N.leb_gt _ _)) by lia. mred. rewrite Hrun. mred.
  rewrite (checked_add_Ok _ (p mod 80)) by lia. mred. exists t'. split; [|done].
  destruct (N.leb_spec 80 (p mod 80 + 1)).
  - rewrite checked_add_Ok by lia. mred. do 3 f_equal; unfold place, VIDEO_WIDTH; f_equal; lia.
  - do 3 f_equal; unfold place, VIDEO_WIDTH; f_equal; lia.
Qed.

Definition cells (s : list N) : list VideoChar := (λ ch, mkChar ch DEFAULT) <$> s.

Lemma cells_app s1 s2 : cells (s1 ++ s2) = cells s1 ++ cells s2.
Proof. apply fmap_app. Qed.
Lemma length_cells s : length (cells s) = length s.
Proof. apply length_fmap. Qed.
Lemma vlen_cells s : vlen (cells s) = vlen s.
Proof. unfold vlen. by rewrite length_cells. Qed.

Lemma write_at_run s t above rows p :
  screen_ok t (above ++ rows) → p + vlen s ≤ VIDEO_WIDTH * vlen rows → Forall (λ ch, ch ≠ 10) s →
  ∃ t', for_each s (λ ch '(r, c, t), write_char_at DEFAULT r c ch t) (place above p, t) = Ok (place above (p + vlen s), t') ∧
    in_place t (above ++ rows) t' (above ++ overwrite rows p (cells s)).
Proof.
  revert t rows p. induction s as [|ch s IH]; intros t rows p Hs Hfit Hnl; pose proof (screen_ok_wide _ _ _ Hs) as Hw.
  - exists t. cbn. rewrite overwrite_nil, N.add_0_r by done. split; [done|]. by apply in_place_refl.
  - inversion_clear Hnl as [|? ? Hch Hnl']. rewrite vlen_cons in *. cbn [for_each].
    destruct (write_place_run t above rows p ch) as (t1 & Hrun & Hp); [done|lia|done|].
    destruct (place above p) as [r c]. rewrite Hrun. mred.
    destruct (IH t1 (overwrite rows p [mkChar ch DEFAULT]) (p + 1)) as (t' & Hrun' & Hin);
      [apply Hp|rewrite vlen_overwrite; lia|done|].
    rewrite Hrun'. exists t'. split; [do 3 f_equal; lia|]. eapply in_place_trans; [exact Hp|].
    change (p + 1) with (p + vlen [mkChar ch DEFAULT]) in Hin. rewrite overwrite_app in Hin; [exact Hin|done|].
    cbn. rewrite vlen_cons, vlen_cells. lia.
Qed.

(** A character that does not reach the end of its row. *)
Lemma write_char_inside t above rows p ch :
  screen_ok t (above ++ rows) → (cursor_in_view t → shows t (above ++ rows)) → (cur_row t, cur_col t) = place above p →
  p < VIDEO_WIDTH * vlen rows → p mod VIDEO_WIDTH + 1 < VIDEO_WIDTH → ch ≠ 10 →
  let rows' := above ++ overwrite rows p [mkChar ch DEFAULT] in
  ∃ t', write_char DEFAULT ch t = Ok t' ∧ screen_ok t' rows' ∧ (cursor_in_view t' → shows t' rows') ∧
    same_frame t t' ∧ (cur_row t', cur_col t') = place above (p + 1).
Proof.
  intros Hs Hd Hpl Hp Hc Hch. unfold write_char. rewrite (proj2 (N.eqb_neq _ _) Hch).
  destruct (put_place_run t above rows p (mkChar ch DEFAULT) Hs Hp) as (t1 & Hrun & Hin).
  rewrite <-Hpl in Hrun. cbn [fst snd] in Hrun. rewrite Hrun. mred. pose proof (drawn_in_place _ _ _ _ Hin Hd) as Hd1.
  destruct Hin as (Hs1 & _ & Hf1 & Hr1 & Hc1 & Hk1). unfold place in Hpl. injection Hpl as Hpr Hpc.
  unfold VIDEO_WIDTH in *. rewrite Hc1, Hpc, checked_add_Ok by lia. mred. rewrite (proj2 (N.leb_gt _ _)) by lia.
  eexists. split; [done|]. split; [|split_and!; [done|done|]].
  - destruct Hs1 as [? ? ? ? ? []]. by split.
  - unfold place, VIDEO_WIDTH. cbn. rewrite Hr1, Hpr. f_equal; lia.
Qed.
End grid.
End TerminalGrid.
