(* ===== verification/TerminalEdit.v ===== *)
(** * The line editor of the terminal

    The line being typed is a zipper: the text before and after the cursor.
    [edit] says what a key does to it.  The line may take several rows: as long
    as the keys leave it as many as it needs ([tidy]), every key does that to
    the input, the rows show the prompt, the line and blanks, and the cursor
    stands between the two parts ([editing]). *)
From stdpp Require Import pretty.
From S2P Require Import Prelude RingBuffer Terminal TerminalScreen TerminalStatus TerminalGrid.
Import Terminal TerminalScreen TerminalStatus TerminalGrid.
Local Open Scope N_scope.

Module TerminalEdit.

(** ** The specification *)
Definition zipper : Type := list N * list N.
Definition text (z : zipper) : list N := z.1 ++ z.2.

Definition printable (ch : N) : bool := (32 <=? ch) && (ch <? 127).

Definition edit (history : list N) (z : zipper) (key : DecodedKey) : zipper :=
  let '(before, after) := z in
  match key with
  | RawKey ArrowLeft =>
      match list.last before with
      | Some x => (take (pred (length before)) before, x :: after)
      | None => z
      end
  | RawKey ArrowRight => match after with x :: after => (before ++ [x], after) | [] => z end
  | RawKey ArrowUp => (history, [])
  | RawKey _ => z
  | Unicode ch =>
      if ch =? 127 then (before, tail after)
      else if ch =? 8 then (take (pred (length before)) before, after)
      else if printable ch && (vlen before <=? INPUT_MAXSIZE - 2) then (before ++ [ch], after) else z
  end.

(** The rows that prompt and line take are the same. *)
Definition same_rows (width : N) (z z' : zipper) : bool :=
  (width + vlen (text z)) / VIDEO_WIDTH =? (width + vlen (text z')) / VIDEO_WIDTH.

(** The keys for which the rows of the line stay as many as the line needs: text may
    be appended without limit and the cursor moves freely, but a deletion must
    not free a row, an insertion before the end must not need a new one nor
    happen in the last column, and the history replaces a line of one row. *)
Definition tidy (width : N) (history : list N) (z : zipper) (key : DecodedKey) : bool :=
  match key with
  | RawKey ArrowUp => width + vlen (text z) <? VIDEO_WIDTH
  | RawKey _ => true
  | Unicode ch =>
      if printable ch then
        match z.2 with
        | [] => true
        | _ => same_rows width z (z.1 ++ [ch], z.2) && negb ((width + vlen z.1 + 1) mod VIDEO_WIDTH =? 0) &&
                 (vlen (text z) + 1 <? INPUT_MAXSIZE)
        end
      else same_rows width z (edit history z key)
  end.

Fixpoint fits (width : N) (history : list N) (z : zipper) (keys : list DecodedKey) : Prop :=
  match keys with
  | [] => True
  | key :: keys => key ≠ Unicode 10 ∧ tidy width history z key = true ∧ fits width history (edit history z key) keys
  end.

Definition printables (s : list N) : Prop := Forall (λ ch, printable ch = true) s.

Lemma printable_spec ch : printable ch = true ↔ 32 ≤ ch < 127.
Proof. unfold printable. by rewrite andb_true_iff, N.leb_le, N.ltb_lt. Qed.

Lemma printables_ascii s : printables s → Forall (λ b, b < 128) s ∧ Forall (λ b, b ≠ 10) s.
Proof.
  induction 1 as [|ch s Hc%printable_spec _ [IH1 IH2]]; [done|]. split; constructor; (done || lia).
Qed.

Section editor.
Context `{AV : ArrayVec V INPUT_MAXSIZE}.
Implicit Types (t : Terminal V) (rows : list VideoRow).

Definition blank (c : VideoChar) : Prop := color c = DEFAULT ∧ (character c = 0 ∨ character c = 32).

Lemma utf8_ascii l : Forall (λ b, b < 128) l → utf8 l = true.
Proof. induction 1 as [|b l Hb _ IH]; [done|]. simpl. by rewrite (proj2 (N.ltb_lt _ _)). Qed.

Lemma seen_cells l : Forall (λ ch, printable ch = true) l → fmap (M := list) seen_char (cells l) = cells l.
Proof.
  induction 1 as [|ch l Hc%printable_spec _ IH]; [done|]. unfold cells, seen_char in *. cbn [fmap list_fmap character].
  rewrite (proj2 (N.eqb_neq ch 0)) by lia. by f_equal.
Qed.

Lemma seen_blanks rest : Forall blank rest → fmap (M := list) seen_char rest = replicate (length rest) (mkChar 32 DEFAULT).
Proof.
  induction 1 as [|[ch col] rest [Hc Hb] _ IH]; [done|]. cbn [fmap list_fmap length replicate]. f_equal; [|done].
  cbn in Hc, Hb. subst col. unfold seen_char. cbn. by destruct Hb as [->| ->].
Qed.

(** What [redraw_input_from_cursor] writes lies in the rows. *)
Lemma redraw_input_run t above rows p b s :
  screen_ok t (above ++ rows) → (cur_row t, cur_col t) = place above p → av_slice (input t) = b ++ s → input_idx t = vlen b →
  p + vlen s ≤ VIDEO_WIDTH * vlen rows → printables s →
  ∃ t', redraw_input_from_cursor t = Ok t' ∧ in_place t (above ++ rows) t' (above ++ overwrite rows p (cells s)).
Proof.
  intros Hs Hp Hin Hidx Hfit Hpr. unfold redraw_input_from_cursor. pose proof (av_slice_len (input t)) as Hcap.
  rewrite Hin in *. rewrite vlen_app in Hcap. rewrite Hidx, (proj2 (N.leb_le (vlen b) _)) by (rewrite vlen_app; lia). mred.
  rewrite to_nat_vlen, drop_app_length. destruct (av_try_from_ok s) as (v & -> & Hv); [lia|].
  cbn [expect]. mred. apply printables_ascii in Hpr as [Hascii Hnl].
  unfold from_utf8. rewrite Hv, utf8_ascii by done. mred. unfold write_string_at. pose proof Hs as [Hr Hw Hcr Hcc _ _].
  pose proof (RingBuffer.repr_le _ _ _ Hr) as Hle. unfold BUFFER_HEIGHT, VIDEO_WIDTH in *.
  rewrite N.div_small, N.mod_small, N.add_0_r by done.
  rewrite (proj2 (N.leb_gt _ _)), (proj2 (N.ltb_ge _ _)) by lia.
  destruct (write_at_run s t above rows p) as (t' & Hrun & Hp'); [done..|].
  rewrite <-Hp in Hrun. rewrite Hrun. mred. by exists t'.
Qed.

(** ** The state of the editor

    The line stands below the rows [T], all that was printed before it.  While
    text is appended, the screen may wait for the cursor to be followed. *)
Context {T : list VideoRow}.

Record typing t (body : list VideoRow) (pre : VideoRow) (h : list N) (z : zipper) : Prop := {
  ty_ok : screen_ok t (kept (T ++ body));
  ty_drawn : cursor_in_view t → shows t (kept (T ++ body));
  ty_status : input_status t = Inputting;
  ty_begin : input_begin t = 0;
  ty_input : av_slice (input t) = text z;
  ty_idx : input_idx t = vlen z.1;
  ty_text : printables (text z);
  ty_room : vlen (text z) < INPUT_MAXSIZE;
  ty_history : av_slice (history t) = h ∧ printables h ∧ vlen h < INPUT_MAXSIZE;
  ty_pre : vlen pre < VIDEO_WIDTH;
  ty_place : (cur_row t, cur_col t) = place (kept_above T (length body)) (vlen pre + vlen z.1);
  ty_rows : vlen body = (vlen pre + vlen (text z)) / VIDEO_WIDTH + 1;
  ty_cells : ∃ rest, flat body = pre ++ cells (text z) ++ rest ∧ Forall blank rest;
}.

(** Between keys the screen is up to date. *)
Definition editing t body pre h z : Prop := typing t body pre h z ∧ shows t (kept (T ++ body)).

Lemma vlen_text b a : vlen (text (b, a)) = vlen b + vlen a.
Proof. apply vlen_app. Qed.

(** The few rows of the line are kept. *)
Lemma typing_kept t body pre h z body' :
  typing t body pre h z → vlen body' = vlen body → kept (T ++ body') = kept_above T (length body) ++ body'.
Proof.
  intros HE Hl. pose proof (ty_rows _ _ _ _ _ HE). pose proof (ty_room _ _ _ _ _ HE). pose proof (ty_pre _ _ _ _ _ HE).
  replace (length body) with (length body') by (unfold vlen in Hl; lia). apply kept_below. rewrite Hl.
  unfold INPUT_MAXSIZE, VIDEO_WIDTH, BUFFER_HEIGHT in *. lia.
Qed.

(** The line with other cells from the cursor on. *)
Lemma edited_cells body pre b old new :
  Forall wide body → flat body = pre ++ cells b ++ old → (length new ≤ length old)%nat →
  vlen pre + vlen b + vlen new ≤ VIDEO_WIDTH * vlen body ∧
  flat (overwrite body (vlen pre + vlen b) new) = pre ++ cells b ++ new ++ drop (length new) old.
Proof.
  intros Hw He Hl. assert (vlen pre + vlen b + vlen new ≤ VIDEO_WIDTH * vlen body) as Hle.
  { rewrite <-vlen_flat, He by done. rewrite !vlen_app, vlen_cells. unfold vlen. lia. }
  split; [done|]. rewrite flat_overwrite by done. rewrite He, !(app_assoc pre), <-splice_prefix. f_equal.
  rewrite length_app, length_cells. unfold vlen. lia.
Qed.

(** Cells change, the text and the cursor as given, and the number of rows stays. *)
Lemma typing_in_place t body pre h z t1 body1 z1 :
  typing t body pre h z → screen_ok t1 (kept (T ++ body1)) → (cursor_in_view t1 → shows t1 (kept (T ++ body1))) →
  vlen body1 = vlen body → (vlen pre + vlen (text z1)) / VIDEO_WIDTH = (vlen pre + vlen (text z)) / VIDEO_WIDTH →
  input_status t1 = input_status t → input_begin t1 = input_begin t → history t1 = history t →
  av_slice (input t1) = text z1 → input_idx t1 = vlen z1.1 → printables (text z1) → vlen (text z1) < INPUT_MAXSIZE →
  (cur_row t1, cur_col t1) = place (kept_above T (length body)) (vlen pre + vlen z1.1) →
  (∃ rest, flat body1 = pre ++ cells (text z1) ++ rest ∧ Forall blank rest) →
  typing t1 body1 pre h z1.
Proof.
  intros [] Hs Hd Hlen Hrows Hst Hbe Hhi Hin Hidx Htx Hroom Hpl Hcells.
  split; rewrite ?Hst, ?Hbe, ?Hhi, ?Hrows, ?Hlen; try done.
  rewrite Hpl. f_equal. f_equal. unfold vlen in Hlen. lia.
Qed.
Lemma blank_space : blank (mkChar 32 DEFAULT).
Proof. split; [done|by right]. Qed.

Lemma blank_row : Forall blank EMPTY_ROW.
Proof. apply Forall_replicate. split; [done|by left]. Qed.

(** The text behind the cursor is redrawn, if there is any. *)
Lemma redraw_rest_run t above rows p b a :
  screen_ok t (above ++ rows) → (cur_row t, cur_col t) = place above p → av_slice (input t) = b ++ a → input_idx t = vlen b →
  p + vlen a ≤ VIDEO_WIDTH * vlen rows → printables a →
  ∃ t', (if vlen b <? vlen (av_slice (input t)) then redraw_input_from_cursor t else Ok t) = Ok t' ∧
    in_place t (above ++ rows) t' (above ++ overwrite rows p (cells a)).
Proof.
  intros Hs Hp Hin Hidx Hfit Ha. rewrite Hin, vlen_app. destruct a as [|x a].
  - rewrite (proj2 (N.ltb_ge _ _)) by (unfold vlen; simpl; lia). exists t. split; [done|].
    cbn [cells fmap list_fmap]. rewrite overwrite_nil by by eapply screen_ok_wide. by apply in_place_refl.
  - rewrite (proj2 (N.ltb_lt _ _)) by (rewrite vlen_cons; lia). by apply (redraw_input_run t above rows p b (x :: a)).
Qed.

(** A character that leaves the cursor in its row. *)
Lemma put_char_cells t above rows p b a ch :
  screen_ok t (above ++ rows) → (cursor_in_view t → shows t (above ++ rows)) → (cur_row t, cur_col t) = place above p →
  av_slice (input t) = b ++ a → input_idx t = vlen b → printable ch = true → printables a →
  vlen (b ++ a) + 1 < INPUT_MAXSIZE → p mod VIDEO_WIDTH + 1 < VIDEO_WIDTH → p + 1 + vlen a ≤ VIDEO_WIDTH * vlen rows →
  let rows' := above ++ overwrite rows p (cells (ch :: a)) in
  ∃ t', put_char ch true t = Ok t' ∧ screen_ok t' rows' ∧ (cursor_in_view t' → shows t' rows') ∧
    (cur_row t', cur_col t') = place above (p + 1) ∧ av_slice (input t') = b ++ ch :: a ∧ input_idx t' = vlen b + 1 ∧
    input_status t' = input_status t ∧ input_begin t' = input_begin t ∧ history t' = history t.
Proof.
  intros Hs Hd Hpl Hin Hidx Hch%printable_spec Ha Hroom Hcol Hfit rows'. rewrite vlen_app in Hroom.
  pose proof (screen_ok_wide _ _ _ Hs) as Hwide.
  unfold put_char. rewrite Hidx, (proj2 (N.leb_le (vlen b) _)) by (unfold INPUT_MAXSIZE in *; lia).
  destruct (av_insert_ok (input t) (vlen b) ch) as (v & -> & Hvs); [rewrite Hin, vlen_app; lia|rewrite Hin, vlen_app; lia|].
  rewrite Hin, to_nat_vlen, take_app_length, drop_app_length in Hvs. mred.
  destruct (write_char_inside (set_input v t) above rows p ch)
    as (t2 & -> & Hs2 & Hd2 & ((Hib & Hii & His & Hiv & Hih) & _) & Hpl2);
    [by destruct Hs as [? ? ? ? ? []]; split|done|done|lia|done|lia|].
  mred. cbn [input_begin input_idx input_status input history set_input] in *.
  rewrite Hii, Hidx, checked_add_Ok by (unfold INPUT_MAXSIZE in *; lia). mred. set (t3 := set_input_pos _ _ t2).
  destruct (redraw_rest_run t3 above (overwrite rows p [mkChar ch DEFAULT]) (p + 1) (b ++ [ch]) a) as (t4 & Hrd & Hp);
    [by destruct Hs2 as [? ? ? ? ? []]; split|done|cbn; by rewrite Hiv, Hvs, <-app_assoc|cbn; by rewrite vlen_app|
     by rewrite vlen_overwrite|done|].
  rewrite vlen_app in Hrd. change (vlen [ch]) with 1 in Hrd. rewrite Hrd. mred.
  change (p + 1) with (p + vlen [mkChar ch DEFAULT]) in Hp.
  rewrite overwrite_app in Hp by (done || (cbn [app]; rewrite vlen_cons, vlen_cells; lia)).
  pose proof (drawn_in_place _ _ _ _ Hp Hd2) as Hd4.
  destruct Hp as (Hs4 & _ & ((Hib4 & Hii4 & His4 & Hiv4 & Hih4) & _) & Hr4 & Hc4 & _). cbn in Hib4, Hii4, His4, Hiv4, Hih4, Hr4, Hc4.
  exists t4. split_and!; try done; try congruence.
Qed.

Lemma put_char_inside t body pre h b a ch :
  typing t body pre h (b, a) → printable ch = true → vlen (b ++ a) + 1 < INPUT_MAXSIZE →
  (vlen pre + vlen b) mod VIDEO_WIDTH + 1 < VIDEO_WIDTH →
  (vlen pre + vlen (b ++ a) + 1) / VIDEO_WIDTH = (vlen pre + vlen (b ++ a)) / VIDEO_WIDTH →
  ∃ t' body', put_char ch true t = Ok t' ∧ typing t' body' pre h (b ++ [ch], a).
Proof.
  intros HE Hch Hroom Hcol Hrows. pose proof HE as [Hs Hd Hst Hbe Hin Hidx Htx _ _ _ Hpl Hlen (rest & Hflat & Hbl)].
  unfold text in *. cbn [fst snd] in *. rewrite (typing_kept _ _ _ _ _ _ HE eq_refl) in *. apply Forall_app in Htx as [Htb Hta].
  assert (vlen pre + vlen b + 1 + vlen a ≤ VIDEO_WIDTH * vlen body) as Hle.
  { rewrite Hlen, <-Hrows, vlen_app. unfold VIDEO_WIDTH. lia. }
  destruct (put_char_cells t _ body (vlen pre + vlen b) b a ch Hs Hd Hpl Hin Hidx Hch Hta Hroom Hcol Hle)
    as (t' & Hrun & Hs' & Hd' & Hpl' & Hin' & Hidx' & Hst' & Hbe' & Hhi').
  exists t', (overwrite body (vlen pre + vlen b) (cells (ch :: a))). split; [done|].
  rewrite <-(typing_kept _ _ _ _ _ _ HE (vlen_overwrite _ _ _)) in Hs', Hd'.
  apply (typing_in_place t body pre h (b, a)); unfold text; cbn [fst snd]; rewrite ?vlen_overwrite, ?vlen_app; try done.
  - rewrite vlen_app in Hrows. rewrite <-Hrows. f_equal. unfold vlen. simpl. lia.
  - by rewrite <-app_assoc.
  - rewrite <-app_assoc. apply Forall_app. split; [done|by constructor].
  - rewrite vlen_app in Hroom. unfold vlen in *. simpl. lia.
  - rewrite Hpl'. f_equal. unfold vlen. simpl. lia.
  - rewrite cells_app, <-app_assoc in Hflat. pose proof (screen_ok_wide _ _ _ Hs) as Hwide.
    destruct (edited_cells body pre b (cells a ++ rest) (cells (ch :: a)) Hwide Hflat) as [_ ->].
    { apply (f_equal vlen) in Hflat. rewrite vlen_flat, !vlen_app, !vlen_cells in Hflat by done.
      rewrite length_app, !length_cells. cbn [length]. unfold vlen in *. lia. }
    exists (drop 1 rest). split; [|by apply Forall_drop]. rewrite !cells_app, <-!app_assoc. do 2 f_equal.
    cbn [cells fmap list_fmap app length]. f_equal. f_equal. rewrite <-Nat.add_1_r. by rewrite drop_app_add.
Qed.

(** At the end of all rows. *)
Lemma put_char_last t L b ch keep_last :
  holds t L → av_slice (input t) = b → input_idx t = vlen b → vlen b < INPUT_MAXSIZE →
  vlen b ≤ INPUT_MAXSIZE - (if keep_last : bool then 2 else 1) →
  let '(L', col) := type_char DEFAULT (L, cur_col t) ch in
  ∃ t', put_char ch keep_last t = Ok t' ∧ holds t' L' ∧ cur_col t' = col ∧ av_slice (input t') = b ++ [ch] ∧
    input_idx t' = vlen b + 1 ∧ input_status t' = input_status t ∧ input_begin t' = input_begin t ∧ history t' = history t.
Proof.
  intros HL Hin Hidx Hroom Hstop. destruct (type_char DEFAULT (L, cur_col t) ch) as [L' col] eqn:Ht.
  unfold put_char. rewrite Hidx, (proj2 (N.leb_le _ _)) by done.
  destruct (av_insert_ok (input t) (vlen b) ch) as (v & -> & Hvs); [by rewrite Hin|by rewrite Hin|].
  rewrite Hin, to_nat_vlen, firstn_all, drop_all in Hvs. mred.
  pose proof (write_char_holds (set_input v t) L DEFAULT ch) as Hw. cbn [cur_col set_input] in Hw. rewrite Ht in Hw.
  destruct Hw as (t1 & -> & [Hs1 He1 Hd1] & Hc1 & ((Hib & Hii & His & Hiv & Hih) & _)).
  { destruct HL as [[? ? ? ? ? []] ? ?]. by split. }
  mred. cbn [input_begin input_idx input_status input history set_input] in *.
  rewrite Hii, Hidx, checked_add_Ok by (unfold INPUT_MAXSIZE in *; lia). mred. cbn [input set_input_pos].
  rewrite Hiv, Hvs, vlen_app. change (vlen [ch]) with 1. rewrite N.ltb_irrefl. eexists. split; [done|].
  cbn [cur_col input_status input_begin input_idx input history set_input_pos]. rewrite Hiv. split_and!; try done.
  destruct Hs1 as [? ? ? ? ? []]. by split.
Qed.

Lemma transcript_put_overwrite L rows p ch :
  Forall wide rows → vlen rows = p / VIDEO_WIDTH + 1 →
  transcript_put (L ++ rows) (p mod VIDEO_WIDTH) ch = L ++ overwrite rows p [ch].
Proof.
  intros Hw Hl. rewrite <-overwrite_one by (done || (unfold VIDEO_WIDTH in *; lia)). unfold transcript_put, with_cell, row_at.
  destruct (lookup_lt_is_Some_2 rows (N.to_nat (p / VIDEO_WIDTH))) as [r Hr]; [unfold vlen in Hl; lia|]. rewrite Hr. cbn [default].
  rewrite length_app, alter_app_r_alt by (unfold vlen in Hl; lia). f_equal.
  replace (pred (length L + length rows) - length L)%nat with (N.to_nat (p / VIDEO_WIDTH)) by (unfold vlen in Hl; lia).
  rewrite list_insert_alter. apply list_alter_ext; [|done]. intros r0 Hr0. rewrite Hr in Hr0. injection Hr0 as ->. done.
Qed.

(** With the cursor behind the line, the terminal holds all that was printed and typed. *)
Lemma typing_holds t body pre h b : typing t body pre h (b, []) → holds t (T ++ body).
Proof.
  intros HE. pose proof (typing_kept _ _ _ _ _ body HE eq_refl) as Hk. split; [apply HE| |apply HE].
  pose proof (ty_place _ _ _ _ _ HE) as Hpl. pose proof (ty_rows _ _ _ _ _ HE) as Hl. unfold place in Hpl. injection Hpl as Hr _.
  unfold at_end. rewrite Hk, vlen_app, Hr, Hl. unfold text. cbn [fst snd]. rewrite app_nil_r. lia.
Qed.

(** A character in the last column makes a new row. *)
Lemma put_char_wrap t body pre h b ch :
  typing t body pre h (b, []) → printable ch = true → vlen b + 1 < INPUT_MAXSIZE →
  (vlen pre + vlen b) mod VIDEO_WIDTH + 1 = VIDEO_WIDTH →
  ∃ t' body', put_char ch true t = Ok t' ∧ typing t' body' pre h (b ++ [ch], []).
Proof.
  intros HE Hch Hroom Hcol. pose proof (typing_holds _ _ _ _ _ HE) as HL.
  assert (Forall wide body) as Hwide by (pose proof (ty_ok _ _ _ _ _ HE) as Hs; rewrite (typing_kept _ _ _ _ _ _ HE eq_refl) in Hs; by eapply screen_ok_wide).
  destruct HE as [_ _ Hst Hbe Hin Hidx Htx _ Hh Hpre Hpl Hlen (rest & Hflat & Hbl)].
  unfold text in *. cbn [fst snd] in *. rewrite app_nil_r in *. pose proof (proj1 (printable_spec ch) Hch) as Hpc.
  unfold place in Hpl. injection Hpl as _ Hc. pose proof (put_char_last t _ b ch true HL Hin Hidx) as Hput.
  unfold type_char in Hput. rewrite (proj2 (N.eqb_neq ch 10)), Hc, (proj2 (N.leb_le VIDEO_WIDTH _)) in Hput by lia.
  rewrite transcript_put_overwrite, <-app_assoc in Hput by done.
  destruct Hput as (t' & Hrun & [Hs' He' Hd'] & Hc' & Hin' & Hidx' & Hst' & Hbe' & Hhi'); [lia|unfold INPUT_MAXSIZE in *; lia|].
  exists t', (overwrite body (vlen pre + vlen b) [mkChar ch DEFAULT] ++ [EMPTY_ROW]). split; [done|]. set (body1 := overwrite body _ _) in *.
  assert (vlen (body1 ++ [EMPTY_ROW]) = vlen body + 1) as Hl by (unfold body1; by rewrite vlen_app, vlen_overwrite).
  split; unfold text; cbn [fst snd]; rewrite ?app_nil_r, ?Hl; try congruence; rewrite ?vlen_app; change (vlen [ch]) with 1; try done.
  - apply Forall_app. split; [done|by constructor].
  - unfold at_end in He'. rewrite kept_below in He' by (rewrite Hl, Hlen; unfold INPUT_MAXSIZE, VIDEO_WIDTH, BUFFER_HEIGHT in *; lia).
    rewrite vlen_app, Hl in He'. unfold place. rewrite Hc'. unfold VIDEO_WIDTH in *. f_equal; lia.
  - rewrite Hlen. unfold VIDEO_WIDTH in *. lia.
  - destruct (edited_cells body pre b rest (cells [ch]) Hwide Hflat) as [_ Hfl].
    { apply (f_equal vlen) in Hflat. rewrite vlen_flat, !vlen_app, !vlen_cells in Hflat by done. cbn. unfold vlen, VIDEO_WIDTH in *. lia. }
    exists (drop 1 rest ++ EMPTY_ROW). rewrite flat_app. unfold body1. change [mkChar ch DEFAULT] with (cells [ch]). rewrite Hfl.
    rewrite cells_app, <-!app_assoc. split; [done|]. apply Forall_app. split; [by apply Forall_drop|apply blank_row].
Qed.

(** At the end of the line, as long as there is room. *)
Lemma put_char_end t body pre h b ch :
  typing t body pre h (b, []) → printable ch = true →
  ∃ t' body', put_char ch true t = Ok t' ∧
    typing t' body' pre h (if vlen b <=? INPUT_MAXSIZE - 2 then b ++ [ch] else b, []).
Proof.
  intros HE Hch. destruct (N.leb_spec (vlen b) (INPUT_MAXSIZE - 2)) as [Hroom|Hfull].
  - destruct (decide ((vlen pre + vlen b) mod VIDEO_WIDTH + 1 < VIDEO_WIDTH)) as [Hc|Hc].
    + apply (put_char_inside t body); rewrite ?app_nil_r; try done; unfold INPUT_MAXSIZE, VIDEO_WIDTH in *; lia.
    + apply (put_char_wrap t body); try done; unfold INPUT_MAXSIZE, VIDEO_WIDTH in *; lia.
  - exists t, body. split; [|done]. unfold put_char. rewrite (ty_idx _ _ _ _ _ HE). cbn [fst].
    by rewrite (proj2 (N.leb_gt _ _)).
Qed.

(** ** Deleting *)
Lemma delete_char_cells t above rows p b x a :
  screen_ok t (above ++ rows) → (cur_row t, cur_col t) = place above p →
  av_slice (input t) = b ++ x :: a → input_idx t = vlen b → printables a → p + vlen a + 1 ≤ VIDEO_WIDTH * vlen rows →
  let rows' := above ++ overwrite rows p (cells (a ++ [32])) in
  ∃ t', delete_char t = Ok t' ∧ screen_ok t' rows' ∧ (shows t (above ++ rows) → shows t' rows') ∧
    (cur_row t', cur_col t') = place above p ∧ av_slice (input t') = b ++ a ∧ input_idx t' = vlen b ∧
    input_status t' = input_status t ∧ input_begin t' = input_begin t ∧ history t' = history t.
Proof.
  intros Hs Hpl Hin Hidx Ha Hfit rows'. pose proof (av_slice_len (input t)) as Hcap.
  rewrite Hin, vlen_app, vlen_cons in Hcap. unfold delete_char. rewrite Hidx, Hin, vlen_app, vlen_cons.
  rewrite (proj2 (N.ltb_lt _ _)) by lia.
  destruct (av_remove_ok (input t) (vlen b)) as (v1 & -> & Hv1); [rewrite Hin, vlen_app, vlen_cons; lia|].
  rewrite Hin, to_nat_vlen, delete_middle in Hv1. mred.
  destruct (av_push_ok v1 32) as (v2 & -> & Hv2); [rewrite Hv1, vlen_app; lia|]. rewrite Hv1, <-app_assoc in Hv2. mred.
  destruct (redraw_input_run (set_input v2 t) above rows p b (a ++ [32])) as (t1 & -> & Hp);
    [by destruct Hs as [? ? ? ? ? []]; split|done|done|done|rewrite vlen_app; change (vlen [32]) with 1; lia| |].
  { apply Forall_app. split; [done|by constructor]. }
  mred. destruct Hp as (Hs2 & Hd2 & ((Hib & Hii & His & Hiv & Hih) & _) & Hr2 & Hc2 & _). cbn in Hib, Hii, His, Hiv, Hih, Hr2, Hc2. rewrite Hiv, Hv2.
  assert (vlen (b ++ a ++ [32]) = vlen (b ++ a) + 1) as Hl by by rewrite app_assoc, vlen_app.
  rewrite Hl, checked_sub_Ok by lia. mred. rewrite N.add_sub.
  destruct (av_remove_ok v2 (vlen (b ++ a))) as (v3 & -> & Hv3); [rewrite Hv2, Hl; lia|].
  rewrite Hv2, to_nat_vlen, app_assoc, delete_middle, app_nil_r in Hv3. mred.
  exists (set_input v3 t1). cbn [cur_row cur_col input_status input_begin input_idx input history set_input].
  split_and!; try done; try congruence. by destruct Hs2 as [? ? ? ? ? []]; split.
Qed.

Lemma delete_char_run t body pre h b x a :
  editing t body pre h (b, x :: a) → same_rows (vlen pre) (b, x :: a) (b, a) = true →
  ∃ t' body', delete_char t = Ok t' ∧ editing t' body' pre h (b, a).
Proof.
  intros [HE Hsh] Hrows%N.eqb_eq. pose proof HE as [Hs Hd Hst Hbe Hin Hidx Htx Hroom _ _ Hpl Hlen (rest & Hflat & Hbl)].
  rewrite (typing_kept _ _ _ _ _ _ HE eq_refl) in *. unfold text in *. cbn [fst snd] in *.
  apply Forall_app in Htx as [Htb Hta]. inversion_clear Hta as [|? ? Hx Hta']. rewrite !vlen_app, vlen_cons in *.
  destruct (delete_char_cells t _ body (vlen pre + vlen b) b x a Hs Hpl Hin Hidx Hta')
    as (t' & Hrun & Hs' & Hd' & Hpl' & Hin' & Hidx' & Hst' & Hbe' & Hhi'); [unfold VIDEO_WIDTH in *; lia|].
  exists t', (overwrite body (vlen pre + vlen b) (cells (a ++ [32]))). split; [done|].
  rewrite <-(typing_kept _ _ _ _ _ _ HE (vlen_overwrite _ _ _)) in Hs', Hd'. split; [|auto].
  apply (typing_in_place t body pre h (b, x :: a)); unfold text; cbn [fst snd]; rewrite ?vlen_overwrite, ?vlen_app, ?vlen_cons; try done; auto.
  - by apply Forall_app.
  - lia.
  - rewrite cells_app, <-app_assoc in Hflat. pose proof (screen_ok_wide _ _ _ Hs) as Hwide.
    destruct (edited_cells body pre b (cells (x :: a) ++ rest) (cells (a ++ [32])) Hwide Hflat) as [_ ->].
    { rewrite length_app, !length_cells, length_app. cbn [length]. lia. }
    exists (mkChar 32 DEFAULT :: rest). split; [|by constructor; [apply blank_space|]].
    rewrite drop_app_length' by (rewrite !length_cells, length_app; cbn; lia). by rewrite !cells_app, <-!app_assoc.
Qed.

(** The loops and guards look at the positions only. *)
Lemma typing_end t body pre h b a : typing t body pre h (b, a) → before_end t = match a with [] => false | _ => true end.
Proof.
  intros HE. unfold before_end. rewrite (ty_input _ _ _ _ _ HE), (ty_idx _ _ _ _ _ HE), vlen_text. cbn [fst].
  destruct a; [|rewrite vlen_cons; apply N.ltb_lt; lia]. apply N.ltb_ge. unfold vlen. simpl. lia.
Qed.

Lemma typing_begin t body pre h b a : typing t body pre h (b, a) → (input_begin t <? input_idx t) = match b with [] => false | _ => true end.
Proof.
  intros HE. rewrite (ty_begin _ _ _ _ _ HE), (ty_idx _ _ _ _ _ HE). cbn [fst].
  destruct b; [done|]. rewrite vlen_cons. apply N.ltb_lt. lia.
Qed.

Lemma delete_char_end t body pre h b : typing t body pre h (b, []) → delete_char t = Ok t.
Proof. intros HE. unfold delete_char. fold (before_end t). by rewrite (typing_end _ _ _ _ _ _ HE). Qed.

(** ** Moving *)
Lemma text_move b x a : text (b ++ [x], a) = text (b, x :: a).
Proof. unfold text. cbn. by rewrite <-app_assoc. Qed.

(** Only the cursor moves, to where [z'] has it. *)
Lemma editing_moved t body pre h z r c z' :
  editing t body pre h z → text z' = text z → (r, c) = place (kept_above T (length body)) (vlen pre + vlen z'.1) →
  editing (set_cur c r (set_input_pos (input_begin t) (vlen z'.1) t)) body pre h z'.
Proof.
  intros [HE Hsh] Htext Hpl. pose proof (typing_kept _ _ _ _ _ body HE eq_refl) as Hk.
  pose proof HE as [Hs _ Hst Hbe Hin _ Htx Hroom Hh Hpre _ Hlen Hcells].
  assert (r < vlen (kept (T ++ body)) ∧ c < VIDEO_WIDTH) as [Hr Hc].
  { unfold place in Hpl. injection Hpl as -> ->. rewrite Hk, vlen_app, Hlen, <-Htext.
    unfold text. rewrite vlen_app. unfold VIDEO_WIDTH. lia. }
  split; [|done]. split; rewrite ?Htext; try done. destruct Hs as [? ? ? ? ? []]. by split.
Qed.

Lemma move_forward_run t body pre h b x a :
  editing t body pre h (b, x :: a) → ∃ t', input_move_forward t = Ok t' ∧ editing t' body pre h (b ++ [x], a).
Proof.
  intros HE. pose proof HE as [Hty _]. pose proof (ty_idx _ _ _ _ _ Hty) as Hidx. pose proof (ty_place _ _ _ _ _ Hty) as Hpl.
  pose proof (ty_room _ _ _ _ _ Hty) as Hroom. pose proof (so_row _ _ (ty_ok _ _ _ _ _ Hty)) as Hrow. rewrite vlen_kept in Hrow.
  rewrite vlen_text, vlen_cons in Hroom. cbn [fst] in *. unfold place in Hpl. injection Hpl as Hr Hc.
  unfold input_move_forward. fold (before_end t). rewrite (typing_end _ _ _ _ _ _ Hty), Hidx.
  unfold INPUT_MAXSIZE, BUFFER_HEIGHT, VIDEO_WIDTH in *. rewrite checked_add_Ok by lia. mred. rewrite Hc, checked_add_Ok by lia. mred.
  cbn [cur_row set_input_pos]. assert (vlen (b ++ [x], a).1 = vlen b + 1) as Hl by (cbn; by rewrite vlen_app).
  destruct (N.leb_spec 80 ((vlen pre + vlen b) mod 80 + 1)); [rewrite checked_add_Ok by lia; mred|];
    eexists; (split; [done|]); rewrite <-Hl; apply (editing_moved t body pre h (b, x :: a)); rewrite ?text_move, ?Hl; try done;
    unfold place, VIDEO_WIDTH; f_equal; lia.
Qed.

Lemma move_backward_run t body pre h b x a :
  editing t body pre h (b ++ [x], a) → ∃ t', input_move_backward t = Ok t' ∧ editing t' body pre h (b, x :: a).
Proof.
  intros HE. pose proof HE as [Hty _]. pose proof (ty_idx _ _ _ _ _ Hty) as Hidx. pose proof (ty_place _ _ _ _ _ Hty) as Hpl.
  cbn [fst] in *. rewrite vlen_app in *. change (vlen [x]) with 1 in *. unfold place in Hpl. injection Hpl as Hr Hc.
  unfold input_move_backward. rewrite (typing_begin _ _ _ _ _ _ Hty), Hidx, N.add_sub.
  assert (match b ++ [x] with [] => false | _ => true end = true) as -> by by destruct b.
  eexists. split; [done|]. cbn [cur_row cur_col set_input_pos].
  assert (∀ r c, (r, c) = place (kept_above T (length body)) (vlen pre + vlen b) →
    editing (set_cur c r (set_input_pos (input_begin t) (vlen b) t)) body pre h (b, x :: a)) as Hmv.
  { intros r c Hrc. apply (editing_moved t body pre h (b ++ [x], a) r c (b, x :: a) HE); [by rewrite text_move|done]. }
  rewrite Hr, Hc. unfold VIDEO_WIDTH in *. destruct (N.eqb_spec ((vlen pre + (vlen b + 1)) mod 80) 0) as [Hz|Hz].
  - rewrite (proj2 (N.ltb_lt _ _)) by lia. apply Hmv. unfold place, VIDEO_WIDTH. f_equal; lia.
  - apply Hmv. unfold place, VIDEO_WIDTH. f_equal; lia.
Qed.

Lemma move_backward_begin t body pre h a : typing t body pre h ([], a) → input_move_backward t = Ok t.
Proof. intros HE. unfold input_move_backward. by rewrite (typing_begin _ _ _ _ _ _ HE). Qed.

Lemma move_forward_end t body pre h b : typing t body pre h (b, []) → input_move_forward t = Ok t.
Proof. intros HE. unfold input_move_forward. fold (before_end t). by rewrite (typing_end _ _ _ _ _ _ HE). Qed.

Lemma backspace_run t body pre h b x a :
  editing t body pre h (b ++ [x], a) → same_rows (vlen pre) (b ++ [x], a) (b, a) = true →
  ∃ t' body', backspace t = Ok t' ∧ editing t' body' pre h (b, a).
Proof.
  intros HE Hrows. pose proof HE as [Hty _]. unfold backspace. rewrite (typing_begin _ _ _ _ _ _ Hty).
  assert (match b ++ [x] with [] => false | _ => true end = true) as -> by by destruct b.
  destruct (move_backward_run t body pre h b x a HE) as (t1 & -> & HE1). mred.
  apply (delete_char_run t1 body pre h b x); [done|]. unfold same_rows in *. by rewrite text_move in Hrows.
Qed.

Lemma backspace_begin t body pre h a : typing t body pre h ([], a) → backspace t = Ok t.
Proof. intros HE. unfold backspace. by rewrite (typing_begin _ _ _ _ _ _ HE). Qed.

(** ** Loops *)
Lemma while_forward n t body pre h b a :
  editing t body pre h (b, a) → (length a < n)%nat →
  ∃ t', while n before_end input_move_forward t = Ok t' ∧ editing t' body pre h (b ++ a, []).
Proof.
  revert n t b. induction a as [|x a IH]; intros [|n] t b HE Hn; simpl in Hn; try lia; pose proof HE as [Hty _];
    cbn [while]; rewrite (typing_end t body pre h b _ Hty).
  - exists t. by rewrite app_nil_r.
  - destruct (move_forward_run t body pre h b x a HE) as (t1 & -> & HE1). mred.
    destruct (IH n t1 (b ++ [x]) HE1) as (t' & -> & HE'); [lia|]. exists t'. by rewrite <-app_assoc in HE'.
Qed.

Lemma while_backward n t body pre h b a :
  editing t body pre h (b, a) → (length b < n)%nat →
  ∃ t', while n (λ t, input_begin t <? input_idx t) input_move_backward t = Ok t' ∧ editing t' body pre h ([], b ++ a).
Proof.
  revert n t a. induction b as [|x b IH] using rev_ind; intros [|n] t a HE Hn; try lia; pose proof HE as [Hty _]; cbn [while];
    rewrite (typing_begin _ _ _ _ _ _ Hty).
  - by exists t.
  - rewrite length_app in Hn. simpl in Hn. assert (match b ++ [x] with [] => false | _ => true end = true) as -> by by destruct b.
    destruct (move_backward_run t body pre h b x a HE) as (t1 & -> & HE1). mred.
    destruct (IH n t1 (x :: a) HE1) as (t' & -> & HE'); [lia|]. exists t'. by rewrite <-app_assoc.
Qed.

(** In a line of one row a deletion does not free a row. *)
Lemma while_delete n t body pre h b a :
  editing t body pre h (b, a) → (length a < n)%nat → vlen pre + vlen (text (b, a)) < VIDEO_WIDTH →
  ∃ t' body', while n before_end delete_char t = Ok t' ∧ editing t' body' pre h (b, []).
Proof.
  revert n t body. induction a as [|x a IH]; intros [|n] t body HE Hn Hrow; simpl in Hn; try lia; pose proof HE as [Hty _];
    cbn [while]; rewrite (typing_end t body pre h b _ Hty).
  - eauto.
  - rewrite vlen_text, vlen_cons in Hrow. destruct (delete_char_run t body pre h b x a HE) as (t1 & body1 & -> & HE1).
    { apply N.eqb_eq. rewrite !vlen_text, vlen_cons. unfold VIDEO_WIDTH in *. lia. }
    mred. destruct (IH n t1 body1 HE1) as (t' & body' & -> & HE'); [lia|rewrite vlen_text; lia|]. eauto.
Qed.

Lemma put_chars_run s t body pre h b :
  typing t body pre h (b, []) → printables s → vlen (b ++ s) < INPUT_MAXSIZE →
  ∃ t' body', for_each s (λ ch, put_char ch true) t = Ok t' ∧ typing t' body' pre h (b ++ s, []).
Proof.
  revert t body b. induction s as [|ch s IH]; intros t body b HE Hp Hfit; cbn [for_each].
  - rewrite app_nil_r. eauto.
  - inversion_clear Hp as [|? ? Hc Hp']. rewrite vlen_app, vlen_cons in Hfit.
    destruct (put_char_end t body pre h b ch HE Hc) as (t1 & body1 & -> & HE1).
    rewrite (proj2 (N.leb_le _ _)) in HE1 by (unfold INPUT_MAXSIZE in *; lia).
    mred. rewrite (cons_middle ch b s), app_assoc. apply (IH t1 body1 (b ++ [ch]) HE1 Hp').
    rewrite !vlen_app. change (vlen [ch]) with 1. lia.
Qed.

Lemma typing_length t body pre h z : typing t body pre h z → (length (text z) < 512)%nat.
Proof. intros HE. pose proof (ty_room _ _ _ _ _ HE). unfold INPUT_MAXSIZE, vlen in *. lia. Qed.

Lemma recover_history_run t body pre h z :
  editing t body pre h z → vlen pre + vlen (text z) < VIDEO_WIDTH →
  ∃ t' body', recover_history t = Ok t' ∧ typing t' body' pre h (h, []).
Proof.
  intros HE Hfit. destruct z as [b a]. pose proof HE as [Hty _]. pose proof (ty_history _ _ _ _ _ Hty) as (Hh & Hph & Hlh).
  pose proof (typing_length _ _ _ _ _ Hty) as Hlen. unfold text in Hlen. cbn in Hlen. rewrite length_app in Hlen.
  unfold recover_history. rewrite (ty_begin _ _ _ _ _ Hty), Hh. rewrite checked_sub_Ok by lia. mred.
  rewrite (proj2 (N.ltb_lt _ _)) by lia.
  destruct (while_backward input_fuel t body pre h b a HE) as (t1 & -> & HE1); [unfold input_fuel; lia|]. mred.
  destruct (while_delete input_fuel t1 body pre h [] (b ++ a) HE1) as (t2 & body2 & -> & HE2); [|done|].
  { rewrite length_app. unfold input_fuel. lia. }
  mred. destruct HE2 as [HE2 _]. rewrite (proj1 (ty_history _ _ _ _ _ HE2)). by apply (put_chars_run h t2 body2 pre h []).
Qed.

(** ** Keys *)
Lemma typing_frame t body pre h z t' :
  typing t body pre h z → screen_ok t' (kept (T ++ body)) → (cursor_in_view t' → shows t' (kept (T ++ body))) → same_frame t t' →
  cur_row t' = cur_row t → cur_col t' = cur_col t → typing t' body pre h z.
Proof.
  intros [] Hs' Hd' ((Hib & Hii & His & Hiv & Hih) & _) Hr Hc. split; try done; congruence.
Qed.

Lemma typing_unmoved t body pre h z t' : typing t body pre h z → unmoved t t' → typing t' body pre h z.
Proof.
  intros HE (Hs & Hsh & Hf & Hr & Hc & Hk & _).
  apply (typing_frame t); [done|apply Hs, HE| |done|done|done]. intros Hin. apply Hsh, (ty_drawn _ _ _ _ _ HE).
  unfold cursor_in_view, height in *. destruct Hf as (_ & Hff & Hfb). by rewrite Hr, Hk, Hff, Hfb in Hin.
Qed.

Lemma finish_run t body pre h z :
  typing t body pre h z →
  ∃ t', (t ← print_cursor_status t; follow_cursor t) = Ok t' ∧ editing t' body pre h z ∧ settled t' (kept (T ++ body)).
Proof.
  intros HE. destruct (print_cursor_status_run t _ (ty_ok _ _ _ _ _ HE)) as (t1 & -> & Hu). mred.
  apply (typing_unmoved t _ _ _ _ t1) in HE; [|done].
  destruct (follow_run t1 _ (ty_ok _ _ _ _ _ HE) (ty_drawn _ _ _ _ _ HE)) as (t' & Hrun & Hset & Hf & Hr & Hc).
  exists t'. split; [exact Hrun|]. split; [|done]. destruct Hset as (Hs & Hsh & _). split; [|done]. by apply (typing_frame t1).
Qed.

(** What [process_input] does with a key that is handled by [op]. *)
Lemma key_run t pre h z (op : Terminal V → result (Terminal V)) :
  (∃ t' body', op t = Ok t' ∧ typing t' body' pre h z) →
  ∃ t' body', (t ← op t; t ← print_cursor_status t; follow_cursor t) = Ok t' ∧
    editing t' body' pre h z ∧ settled t' (kept (T ++ body')).
Proof.
  intros (t1 & body1 & -> & HE1). mred.
  destruct (finish_run t1 body1 pre h z HE1) as (t' & -> & HE' & Hset). eauto.
Qed.

Lemma page_run t body pre h z page :
  editing t body pre h z → page = (-1)%Z ∨ page = 1%Z →
  ∃ t', (t ← scroll_page page t; print_line_status t) = Ok t' ∧ editing t' body pre h z.
Proof.
  intros [HE _] Hp. destruct (scroll_page_run t _ page (ty_ok _ _ _ _ _ HE))
    as (t1 & -> & Hs1 & Hsh1 & Hf & Hr & Hc & _); [destruct Hp as [->| ->]; done|]. mred.
  destruct (print_line_status_run t1 _ Hs1) as (t' & -> & Hu). exists t'. split; [done|]. split; [|by apply Hu].
  apply (typing_unmoved t1); [|done]. by apply (typing_frame t).
Qed.

(** Keys that edit or move leave the screen redrawn and the cursor visible. *)
Definition edits (key : DecodedKey) : bool :=
  match key with
  | RawKey ArrowLeft | RawKey ArrowRight | RawKey ArrowUp => true
  | RawKey _ => false
  | Unicode ch => (ch =? 127) || (ch =? 8) || printable ch
  end.

Lemma take_pred_snoc {A} (l : list A) x : take (pred (length (l ++ [x]))) (l ++ [x]) = l.
Proof. rewrite length_app, Nat.add_1_r. simpl. apply take_app_length. Qed.

Lemma char_key ch t :
  input_status t = Inputting → ch ≠ 10 →
  process_input (Unicode ch) t =
    if ch =? 127 then t ← delete_char t; t ← print_cursor_status t; follow_cursor t
    else if ch =? 8 then t ← backspace t; t ← print_cursor_status t; follow_cursor t
    else if printable ch then t ← put_char ch true t; t ← print_cursor_status t; follow_cursor t
    else Ok t.
Proof.
  intros Hst Hch. unfold process_input. rewrite Hst, (proj2 (N.eqb_neq _ _) Hch).
  destruct (N.eqb_spec ch 127) as [|H127]; [done|]. destruct (N.eqb_spec ch 8); [done|].
  replace ((ch <? 128) && negb (is_ascii_control ch)) with (printable ch); [done|].
  unfold printable, is_ascii_control. rewrite (proj2 (N.eqb_neq _ _) H127).
  destruct (N.leb_spec 32 ch), (N.ltb_spec ch 127), (N.ltb_spec ch 128), (N.ltb_spec ch 32); cbn; (done || lia).
Qed.

Lemma process_key_run t body pre h z key :
  editing t body pre h z → key ≠ Unicode 10 → tidy (vlen pre) h z key = true →
  ∃ t' body', process_input key t = Ok t' ∧ editing t' body' pre h (edit h z key) ∧
    (edits key = true → settled t' (kept (T ++ body'))).
Proof.
  intros HE Hnl Hfit. pose proof HE as [Hty _]. pose proof (ty_status _ _ _ _ _ Hty) as Hst. destruct z as [b a].
  assert (∀ op, (∃ t' body', op t = Ok t' ∧ typing t' body' pre h (edit h (b, a) key)) →
    ∃ t' body', (t ← op t; t ← print_cursor_status t; follow_cursor t) = Ok t' ∧
      editing t' body' pre h (edit h (b, a) key) ∧ (edits key = true → settled t' (kept (T ++ body')))) as Hop.
  { intros op Ho. destruct (key_run t pre h _ op Ho) as (t' & body' & -> & HE' & Hset). eauto. }
  assert (∀ r, r = Ok t → edits key = false → edit h (b, a) key = (b, a) →
    ∃ t' body', r = Ok t' ∧ editing t' body' pre h (edit h (b, a) key) ∧ (edits key = true → settled t' (kept (T ++ body')))) as Hno.
  { intros r -> -> ->. exists t, body. by split_and!. }
  destruct key as [k|ch].
  - unfold process_input. rewrite Hst. destruct k; try (by apply Hno).
    + destruct (page_run t body pre h _ (-1) HE (or_introl eq_refl)) as (t' & -> & HE').
      exists t', body. by split_and!.
    + destruct (page_run t body pre h _ 1 HE (or_intror eq_refl)) as (t' & -> & HE').
      exists t', body. by split_and!.
    + apply Hop. cbn [edit]. destruct b as [|x b _] using rev_ind.
      * rewrite (move_backward_begin t body pre h a Hty). eauto.
      * rewrite last_snoc, take_pred_snoc.
        destruct (move_backward_run t body pre h b x a HE) as (t' & -> & [? _]). eauto.
    + apply Hop. cbn [edit]. destruct a as [|x a].
      * rewrite (move_forward_end t body pre h b Hty). eauto.
      * destruct (move_forward_run t body pre h b x a HE) as (t' & -> & [? _]). eauto.
    + apply Hop. apply N.ltb_lt in Hfit. apply (recover_history_run t body pre h (b, a) HE Hfit).
  - rewrite char_key by congruence. cbn [edit edits tidy] in *.
    destruct (N.eqb_spec ch 127) as [->|].
    { apply Hop. destruct a as [|x a]; [rewrite (delete_char_end t body pre h b Hty); eauto|].
      destruct (delete_char_run t body pre h b x a HE Hfit) as (t' & body' & -> & [? _]). eauto. }
    destruct (N.eqb_spec ch 8) as [->|].
    { apply Hop. destruct b as [|x b _] using rev_ind; [rewrite (backspace_begin t body pre h a Hty); eauto|].
      cbn [printable] in Hfit. rewrite take_pred_snoc in *.
      destruct (backspace_run t body pre h b x a HE Hfit) as (t' & body' & -> & [? _]). eauto. }
    destruct (printable ch) eqn:Hp; [|by apply Hno]. apply Hop. cbn [andb fst snd] in *. destruct a as [|x a].
    + destruct (put_char_end t body pre h b ch Hty Hp) as (t' & body' & -> & HE'). exists t', body'. split; [done|]. by case_match.
    + apply andb_true_iff in Hfit as [[Hrows%N.eqb_eq Hcol%negb_true_iff%N.eqb_neq]%andb_true_iff Hroom%N.ltb_lt].
      rewrite !vlen_text, vlen_app in *. change (vlen [ch]) with 1 in *.
      rewrite (proj2 (N.leb_le _ _)) by (rewrite vlen_cons in *; unfold INPUT_MAXSIZE in *; lia).
      apply (put_char_inside t body); rewrite ?vlen_app; try done; unfold VIDEO_WIDTH in *; lia.
Qed.
End editor.
#[global] Arguments typing {V AV} T t body pre h z.
#[global] Arguments editing {V AV} T t body pre h z.
End TerminalEdit.
