(* ===== verification/TerminalSpec.v ===== *)
(** * What the terminal promises

    Output appends to a transcript and the screen shows the end of it; keys
    edit the line; the line typed is the line the shell gets; and the keys
    that stop the kernel. *)
From stdpp Require Import pretty.
From S2P Require Import Prelude RingBuffer Terminal TerminalScreen TerminalStatus TerminalGrid TerminalEdit.
Import Terminal TerminalScreen TerminalStatus TerminalGrid TerminalEdit.
Local Open Scope N_scope.

Module TerminalSpec.

Section spec.
Context `{AV : ArrayVec V INPUT_MAXSIZE}.
Implicit Types (t : Terminal V) (rows : list VideoRow).

(** ** Output *)

(** The screen shows the end of the transcript [L], with the cursor visible
    behind it. *)
Definition displays t (L : list VideoRow) : Prop := printing t L.

Definition print_all (color : ColorCode) (args : list (list N)) (st : list VideoRow * N)
    : list VideoRow * N := foldl (λ st s, type_string color s st) st args.

(** Writers write their pieces one after the other. *)
Lemma writer_run args color t :
  for_each args TerminalWriter_write_str (mkWriter t color) =
    t ← for_each args (write_string color) t; Ok (mkWriter t color).
Proof.
  revert t. induction args as [|s args IH]; intros t; cbn [for_each]; [done|].
  change (TerminalWriter_write_str s (mkWriter t color)) with (t ← write_string color s t; Ok (mkWriter t color)).
  destruct (write_string color s t); mred; [apply IH|done].
Qed.

Lemma print_writes color args t : _print color args t = for_each args (write_string (default DEFAULT color)) t.
Proof. unfold _print. rewrite writer_run. by destruct (for_each _ _ t). Qed.

Lemma print_run args t L color :
  holds t L →
  ∃ t', for_each args (write_string color) t = Ok t' ∧ holds t' (print_all color args (L, cur_col t)).1 ∧
    (args ≠ [] → displays t' (print_all color args (L, cur_col t)).1) ∧
    cur_col t' = (print_all color args (L, cur_col t)).2 ∧ same_frame t t'.
Proof.
  revert t L. induction args as [|s args IH]; intros t L HL; cbn [for_each print_all foldl]; [by exists t|].
  destruct (write_string_run t L color s HL) as (t1 & -> & HP1 & Hc1 & Hf1). mred.
  destruct (type_string color s (L, cur_col t)) as [L1 c1]. cbn [fst snd] in *. subst c1.
  destruct args as [|s' args].
  - exists t1. split_and!; try done. by apply printing_holds.
  - destruct (IH t1 L1 (printing_holds _ _ HP1)) as (t' & -> & HL' & HP' & Hc' & Hf').
    exists t'. split_and!; [done|done|by intros _; apply HP'|done|by etransitivity].
Qed.

(** C19: printing appends to the transcript: every byte goes to its cell, long
    lines wrap, the buffer holds the last [BUFFER_HEIGHT] rows, the screen
    shows the rows of the buffer from [scr_row] on, and the hardware cursor
    stands behind the text; the input line and the status lines are left
    alone, and nothing panics. *)
Theorem print_spec t L color args :
  holds t L → args ≠ [] →
  ∃ t', _print color args t = Ok t' ∧
    let '(L', col) := print_all (default DEFAULT color) args (L, cur_col t) in
    displays t' L' ∧ cur_col t' = col ∧ same_frame t t'.
Proof.
  intros HL Hne. destruct (print_run args t L (default DEFAULT color) HL) as (t' & Hr & _ & HP & Hc & Hf).
  exists t'. split; [by rewrite print_writes|]. destruct (print_all _ _ _) as [L' c]. by split_and!; [apply HP| |].
Qed.

(** ** The end of a line *)
Record entered t (L : list VideoRow) (s h : list N) : Prop := {
  en_display : displays t L;
  en_col : cur_col t = 0;
  en_status : input_status t = Waiting;
  en_input : av_slice (input t) = s ++ [10];
  en_begin : input_begin t = vlen s + 1;
  en_idx : input_idx t = vlen s + 1;
  en_history : av_slice (history t) = h;
}.

Lemma kept_app_kept L X : kept (kept L ++ X) = kept (L ++ X).
Proof.
  unfold kept, BUFFER_HEIGHT. rewrite !length_app, length_drop.
  destruct (decide (length L ≤ 256)%nat).
  - replace (length L - N.to_nat 256)%nat with 0%nat by lia. by rewrite drop_0, Nat.sub_0_r.
  - replace (length L + length X - N.to_nat 256)%nat with
      ((length L - 256) + (length L - (length L - N.to_nat 256) + length X - N.to_nat 256))%nat by lia.
    rewrite <-drop_drop. f_equal. by rewrite drop_app_le by lia.
Qed.

Lemma holds_same_kept t L L' : kept L = kept L' → holds t L → holds t L'.
Proof. intros He [H1 H2 H3]. rewrite He in H1, H2, H3. by split. Qed.

Lemma complete_input_run {T} t body pre h z :
  editing T t body pre h z →
  ∃ t', complete_input t = Ok t' ∧ holds t' (T ++ body ++ [EMPTY_ROW]) ∧ cur_col t' = 0 ∧
    input_status t' = Waiting ∧ av_slice (input t') = text z ++ [10] ∧
    input_begin t' = vlen (text z) + 1 ∧ input_idx t' = vlen (text z) + 1 ∧ av_slice (history t') = h.
Proof.
  intros HE0. pose proof (typing_length _ _ _ _ _ (proj1 HE0)) as Hlen. destruct z as [b a].
  change (text (b, a)) with (b ++ a) in *. unfold complete_input.
  destruct (while_forward input_fuel t body pre h b a HE0) as (t1 & -> & [HE1 _]).
  { rewrite length_app in Hlen. unfold input_fuel. lia. }
  mred. set (s := b ++ a) in *. clear HE0. pose proof (ty_input _ _ _ _ _ HE1) as Hin. pose proof (ty_idx _ _ _ _ _ HE1) as Hidx.
  pose proof (ty_room _ _ _ _ _ HE1) as Hroom. pose proof (ty_history _ _ _ _ _ HE1) as [Hh _].
  unfold text in *. cbn [fst snd] in *. rewrite app_nil_r in *.
  pose proof (put_char_last t1 (T ++ body) s 10 false (typing_holds _ _ _ _ _ HE1) Hin Hidx Hroom) as Hput. cbn [type_char N.eqb Pos.eqb] in Hput.
  destruct Hput as (t2 & -> & [Hs He Hd] & Hc & Hin2 & Hidx2 & Hst2 & Hbe2 & Hhi2); [unfold INPUT_MAXSIZE in *; lia|].
  rewrite <-app_assoc in *. mred. assert (vlen (s ++ [10]) = vlen s + 1) as Hl by by rewrite vlen_app.
  rewrite Hin2, Hl. eexists. split; [done|]. cbn [cur_col input_status input input_begin input_idx history set_input_pos set_input_status].
  split_and!; try done; [|by rewrite Hhi2]. destruct Hs as [? ? ? ? ? []]. by split; [split| |].
Qed.

Lemma enter_run {T} t body pre h z :
  editing T t body pre h z →
  ∃ t', process_input (Unicode 10) t = Ok t' ∧ entered t' (T ++ body ++ [EMPTY_ROW]) (text z) h.
Proof.
  intros HE. unfold process_input. rewrite (ty_status _ _ _ _ _ (proj1 HE)). cbn [N.eqb Pos.eqb].
  destruct (complete_input_run t body pre h z HE) as (t1 & -> & [Hs He Hd] & Hc & Hst & Hin & Hb & Hi & Hh).
  mred. destruct (clear_cur_line_status_run t1) as (t2 & -> & (Hus & Hush & Huf & Hur & Huc & Huk & _)); [apply Hs|].
  mred. destruct (follow_run t2 (kept (T ++ body ++ [EMPTY_ROW]))) as (t' & Hrun & Hset & Hf & Hr' & Hc').
  { by apply Hus. }
  { intros Hin'. apply Hush, Hd. unfold cursor_in_view, height in *. destruct Huf as (_ & Hff & Hfb).
    by rewrite Hur, Huk, Hff, Hfb in Hin'. }
  exists t'. split; [exact Hrun|]. destruct Huf as ((? & ? & ? & ? & ?) & _), Hf as ((? & ? & ? & ? & ?) & _).
  split; try congruence. split; [done|]. unfold at_end in *. congruence.
Qed.

(** ** [getline] *)
Lemma position_snoc s : printables s → position 10 (s ++ [10]) = Some (vlen s).
Proof.
  induction 1 as [|ch s Hc%printable_spec _ IH]; [done|]. cbn [app position].
  rewrite (proj2 (N.eqb_neq _ _)) by lia. rewrite IH. cbn. f_equal. rewrite vlen_cons. lia.
Qed.

Lemma getline_run t L s h line :
  entered t L s h → printables s → vlen s ≤ vlen line → vlen s < INPUT_MAXSIZE →
  ∃ t', getline line t = Ok (inl s, splice 0 s line, t') ∧ displays t' L ∧ cur_col t' = 0 ∧
    input_status t' = Waiting ∧ av_slice (input t') = [] ∧ input_begin t' = 0 ∧ input_idx t' = 0 ∧
    av_slice (history t') = s.
Proof.
  intros [HD Hc Hst Hin Hb Hi Hh] Hp Hl Hmax. unfold getline. rewrite Hb, Hin, position_snoc by done.
  rewrite (proj2 (N.eqb_neq _ _)) by lia. cbn [from_option id]. rewrite (proj2 (N.ltb_ge _ _)) by lia.
  destruct (av_drain_ok (input t) (vlen s)) as (v & -> & Hv); [rewrite Hin, vlen_app; lia|].
  rewrite Hin, to_nat_vlen, ?take_app_length, ?drop_app_length in *. mred.
  destruct (av_collect_ok s) as (buf & -> & Hbuf); [lia|]. mred. rewrite Hbuf.
  cbn [input_begin set_history set_input input input_idx]. rewrite Hb, (proj2 (N.ltb_lt _ _)) by lia.
  destruct (av_remove_ok v 0) as (v' & -> & Hv'); [rewrite Hv; unfold vlen; simpl; lia|].
  rewrite Hv in Hv'. mred. rewrite checked_sub_Ok by lia. mred. rewrite Hi, checked_sub_Ok by lia. mred.
  cbn [input_begin input_idx set_input_pos]. rewrite N.add_sub, (checked_sub_Ok (vlen s)) by lia. mred.
  rewrite N.sub_diag.
  pose proof (splice_same 0 s line ltac:(unfold vlen in Hl; lia)) as Hsp. rewrite drop_0 in Hsp. rewrite Hsp.
  unfold from_utf8. rewrite utf8_ascii by by apply printables_ascii. mred. eexists. split; [done|].
  destruct HD as [([? ? ? ? ? []] & ? & ?) ?]. split_and!; done.
Qed.

(** ** From prompt to prompt *)

(** Between commands: the cursor at the start of an empty row, no input. *)
Record ready t (L : list VideoRow) (h : list N) : Prop := {
  re_holds : holds t L;
  re_last : list.last L = Some EMPTY_ROW;
  re_col : cur_col t = 0;
  re_input : av_slice (input t) = [];
  re_begin : input_begin t = 0;
  re_idx : input_idx t = 0;
  re_history : av_slice (history t) = h ∧ printables h ∧ vlen h < INPUT_MAXSIZE;
}.

Lemma transcript_put_last L r col ch :
  transcript_put (L ++ [r]) col ch = L ++ [<[N.to_nat col := ch]> r].
Proof.
  unfold transcript_put. rewrite length_app, Nat.add_1_r. cbn [pred].
  rewrite alter_app_r_alt, Nat.sub_diag by lia. done.
Qed.

Lemma type_char_put L r col color ch :
  ch ≠ 10 → col + 1 < VIDEO_WIDTH →
  type_char color (L ++ [r], col) ch = (L ++ [<[N.to_nat col := mkChar ch color]> r], col + 1).
Proof.
  intros Hch Hc. unfold type_char. by rewrite (proj2 (N.eqb_neq _ _) Hch), transcript_put_last,
    (proj2 (N.leb_gt _ _) Hc).
Qed.

Definition prompt_cells : VideoRow := cells (bytes "> ").

Lemma prompt_row : <[1%nat := mkChar 32 DEFAULT]> (<[0%nat := mkChar 62 DEFAULT]> EMPTY_ROW) =
  prompt_cells ++ replicate 78 EMPTY_CHAR.
Proof. vm_compute. reflexivity. Qed.

(** The prompt is written into the last, empty row. *)
Definition prompt_line : VideoRow := prompt_cells ++ replicate 78 EMPTY_CHAR.

Lemma prompt_run t L0 h :
  ready t (L0 ++ [EMPTY_ROW]) h →
  ∃ t', prompt t = Ok t' ∧ editing L0 t' [prompt_line] prompt_cells h ([], []) ∧ settled t' (kept (L0 ++ [prompt_line])).
Proof.
  unfold prompt_line. intros [HL Hlast Hc Hin Hb Hi [Hh Hp]]. clear Hlast. set (L := L0 ++ [EMPTY_ROW]) in *. unfold prompt.
  destruct (print_run [bytes "> "] t L DEFAULT HL) as (t1 & Hr & _ & HP & Hc1 & ((Hb1 & Hi1 & _ & Hin1 & Hh1) & _)).
  rewrite print_writes. cbn [from_option id]. rewrite Hr. mred. specialize (HP ltac:(done)).
  subst L. rewrite Hc in HP, Hc1.
  assert (print_all DEFAULT [bytes "> "] (L0 ++ [EMPTY_ROW], 0) = (L0 ++ [prompt_cells ++ replicate 78 EMPTY_CHAR], 2)) as Hpa.
  { change (bytes "> ") with [62; 32]. cbn [print_all type_string foldl].
    rewrite !type_char_put by done. change (N.to_nat (0 + 1)) with 1%nat. change (N.to_nat 0) with 0%nat.
    by rewrite prompt_row. }
  rewrite Hpa in HP, Hc1. cbn [fst snd] in *. set (row := prompt_cells ++ _) in *. destruct HP as [(Hs & Hsh & Hcs) He].
  eexists (start_inputting t1). split; [done|]. pose proof Hs as [? ? ? ? ? []].
  split; [|split_and!; [by split|done|done]]. split; [|done]. split; cbn [start_inputting set_input_status input_status input_begin input input_idx history];
    try done; try congruence.
  - by rewrite Hin1.
  - by rewrite Hi1.
  - constructor.
  - rewrite Hh1, Hh. by split.
  - unfold at_end in He. rewrite kept_below, vlen_app in He by done. change (vlen [row]) with 1 in He.
    unfold place. cbn [fst cur_row cur_col start_inputting set_input_status]. rewrite Hc1.
    change ((vlen prompt_cells + vlen (@nil N)) / VIDEO_WIDTH) with 0. change (_ mod VIDEO_WIDTH) with 2. f_equal. lia.
  - exists (replicate 78 EMPTY_CHAR). split; [reflexivity|].
    apply Forall_replicate. split; [done|by left].
Qed.

Lemma keys_run {T} keys t body pre h z :
  editing T t body pre h z → fits (vlen pre) h z keys →
  ∃ t' body', for_each keys process_input t = Ok t' ∧ editing T t' body' pre h (foldl (edit h) z keys).
Proof.
  revert t body z. induction keys as [|key keys IH]; intros t body z HE Hf; cbn [for_each foldl]; [eauto|].
  destruct Hf as (Hnl & Hfit & Hf).
  destruct (process_key_run t body pre h z key HE Hnl Hfit) as (t1 & body1 & -> & HE1 & _). mred.
  by apply (IH t1 body1).
Qed.

(** The state after a key. *)
Definition edited (key : DecodedKey) (T : list VideoRow) t body (pre : VideoRow) (h : list N) (z : zipper) : Prop :=
  editing T t body pre h z ∧ (edits key = true → settled t (kept (T ++ body))).

(** C20: a key does to the line what it should.  The line may take several rows;
    as long as it takes as many as it needs ([tidy]), [process_input] does not
    panic, changes the input as [edit] says, and the rows below those printed
    before show the prompt, the line, wrapped at the width of the screen, and
    blanks, with the cursor between the two parts of the line; the screen shows
    the buffer, and after a key that edits the hardware cursor is there. *)
Theorem key_edits_line T t body pre h z key :
  editing T t body pre h z → key ≠ Unicode 10 → tidy (vlen pre) h z key = true →
  ∃ t' body', process_input key t = Ok t' ∧ edited key T t' body' pre h (edit h z key).
Proof. apply process_key_run. Qed.

(** What is typed is what the shell reads: from a prompt, keys, Enter and
    [getline] give the line that the keys edit, and the terminal is ready for
    the next prompt with that line as history. *)
Lemma typed_line_read t L h keys line :
  ready t L h → fits (vlen prompt_cells) h ([], []) keys → vlen line = INPUT_MAXSIZE →
  let s := text (foldl (edit h) ([], []) keys) in
  ∃ t1 t2 t3 t4 L', prompt t = Ok t1 ∧ for_each keys process_input t1 = Ok t2 ∧
    process_input (Unicode 10) t2 = Ok t3 ∧ getline line t3 = Ok (inl s, splice 0 s line, t4) ∧
    ready t4 L' s ∧ input_status t4 = Waiting.
Proof.
  intros HR Hf Hline s. destruct (last_Some L EMPTY_ROW) as [[L0 ->] _]; [apply HR|].
  destruct (prompt_run t L0 h HR) as (t1 & Hpr & HE1 & _).
  destruct (keys_run keys t1 _ _ h _ HE1 Hf) as (t2 & body2 & Hk & HE2).
  destruct (enter_run t2 body2 _ h _ HE2) as (t3 & He & HN).
  pose proof (ty_room _ _ _ _ _ (proj1 HE2)) as Hlen. pose proof (ty_text _ _ _ _ _ (proj1 HE2)) as Hp. fold s in HN, Hlen, Hp.
  destruct (getline_run t3 _ s h line HN Hp) as (t4 & Hg & HD & Hc & Hst & Hin & Hb & Hi & Hh); [lia|done|].
  exists t1, t2, t3, t4, (L0 ++ body2 ++ [EMPTY_ROW]). split_and!; try done. split; try done.
  - by apply printing_holds.
  - rewrite app_assoc. apply last_snoc.
Qed.

(** ** Scrolling and status lines *)

(** What the user sees is the buffer from row [scr] on. *)
Definition views t rows (scr : N) : Prop := screen_ok t rows ∧ shows t rows ∧ scr_row t = scr.

(** [scroll_page] moves the window by whole pages, stops at the first and
    at the last row, and redraws it; text, cursor and input stay. *)
Lemma scroll_page_spec t rows page :
  screen_ok t rows → (- 2 ^ 58 ≤ page ≤ 2 ^ 58)%Z →
  ∃ t', scroll_page page t = Ok t' ∧
    views t' rows (clamp (Z.of_N (scr_row t) + page * Z.of_N (height t)) (vlen rows)) ∧
    same_frame t t' ∧ cur_row t' = cur_row t ∧ cur_col t' = cur_col t.
Proof.
  intros Hs Hp. destruct (scroll_page_run t rows page Hs Hp) as (t' & Hr & ? & ? & ? & ? & ? & ?).
  exists t'. by split_and!.
Qed.

(** Changing the number of status lines redraws everything: the rows
    between the status lines show the buffer, and the status lines are blank. *)
Lemma set_status_lines_spec t rows kind lines :
  screen_ok t rows →
  let t1 := with_status_lines kind lines t in
  status_front_len t1 + status_back_len t1 < VIDEO_HEIGHT →
  ∃ t', set_status_lines kind lines t = Ok t' ∧ views t' rows (scr_row t) ∧
    status_front_len t' = status_front_len t1 ∧ status_back_len t' = status_back_len t1 ∧
    ∀ j, j < VIDEO_HEIGHT → is_status_row t1 j = true → video t' !! N.to_nat j = Some (status_row []).
Proof.
  intros Hs t1 Hlt. destruct (set_status_lines_run t rows kind lines Hs Hlt) as (v' & Hr & Hs' & Hsh & Hst).
  eexists. split; [exact Hr|]. by destruct kind; split_and!.
Qed.

(** The row of a status line. *)
Definition status_place (kind : StatusLineKind) (line : N) : N :=
  match kind with Front => line | Back => VIDEO_HEIGHT - line - 1 end.
Definition status_limit (kind : StatusLineKind) t : N :=
  match kind with Front => status_front_len t | Back => status_back_len t end.

(** A status line shows the text, cut at the width of the screen and
    padded with blanks, and neither the screen nor the cursor changes; a
    line that does not exist is refused. *)
Lemma print_status_spec t rows kind line args :
  screen_ok t rows →
  if line <? status_limit kind t then
    ∃ t', _print_status kind line args t = Ok t' ∧ unmoved t t' ∧
      video t' !! N.to_nat (status_place kind line) = Some (status_row (concat args))
  else args ≠ [] → _print_status kind line args t = Panic Explicit.
Proof.
  intros Hs. pose proof (so_video _ _ Hs) as Hv. pose proof (vo_status t Hv) as Hst.
  destruct (N.ltb_spec line (status_limit kind t)) as [Hl|Hl].
  - apply status_line_unmoved; [done|]. unfold get_status_line_row, status_place, status_limit, VIDEO_HEIGHT in *.
    destruct kind; rewrite (proj2 (N.leb_gt _ _)) by lia; [done|].
    rewrite checked_sub_Ok by lia. mred. by rewrite checked_sub_Ok by lia.
  - intros Hne. destruct args as [|s args]; [done|]. unfold _print_status, status_line_writer.
    cbn [for_each]. rewrite status_write_str.
    assert (get_status_line_row kind line t = Panic Explicit) as Hg.
    { unfold get_status_line_row, status_limit in *. destruct kind; by rewrite (proj2 (N.leb_le _ _)). }
    unfold write_status_line. by rewrite Hg.
Qed.
End spec.

(** ** A vector of bytes, to run the terminal *)
Definition bounded_vec : Type := { l : list N | bool_decide (vlen l ≤ 512) }.
Definition make_vec (l : list N) : option bounded_vec :=
  match decide (bool_decide (vlen l ≤ 512)) with left H => Some (exist _ l H) | right _ => None end.
Definition try_vec (l : list N) : result bounded_vec :=
  match make_vec l with Some v => Ok v | None => Panic Expect end.

Lemma make_vec_Some l : vlen l ≤ 512 → ∃ v, make_vec l = Some v ∧ `v = l.
Proof.
  intros Hl. unfold make_vec. destruct (decide _) as [H|H]; [by eexists|].
  by destruct H; apply bool_decide_pack.
Qed.
Lemma try_vec_Ok l : vlen l ≤ 512 → ∃ v, try_vec l = Ok v ∧ `v = l.
Proof. intros (v & Hv & ?)%make_vec_Some. exists v. unfold try_vec. by rewrite Hv. Qed.
Lemma try_vec_full l : 512 < vlen l → try_vec l = Panic Expect.
Proof.
  intros Hl. unfold try_vec, make_vec. destruct (decide _) as [H|H]; [|done].
  apply bool_decide_unpack in H as H'. lia.
Qed.

#[export, refine] Instance array_vec_example : ArrayVec bounded_vec INPUT_MAXSIZE := {
  av_new := exist _ [] I;
  av_slice := proj1_sig;
  av_insert v i x :=
    if i <=? vlen (`v) then try_vec (take (N.to_nat i) (`v) ++ x :: drop (N.to_nat i) (`v))
    else Panic Explicit;
  av_remove v i := if i <? vlen (`v) then try_vec (delete (N.to_nat i) (`v)) else Panic Explicit;
  av_push v x := try_vec (`v ++ [x]);
  av_drain v n :=
    if n <=? vlen (`v) then v' ← try_vec (drop (N.to_nat n) (`v)); Ok (take (N.to_nat n) (`v), v')
    else Panic OutOfBounds;
  av_collect := try_vec;
  av_try_from := make_vec;
}.
Proof.
  - done.
  - intros [l Hl]. exact (bool_decide_unpack _ Hl).
  - intros [l Hl] i x Hi Hf. simpl in *. rewrite (proj2 (N.leb_le _ _)) by done. unfold INPUT_MAXSIZE in Hf.
    apply try_vec_Ok. unfold vlen in *. rewrite length_app, length_take. simpl. rewrite length_drop. lia.
  - intros [l Hl] i x Hi Hf. simpl in *. rewrite (proj2 (N.leb_le _ _)) by done. unfold INPUT_MAXSIZE in Hf.
    apply try_vec_full. unfold vlen in *. rewrite length_app, length_take. simpl. rewrite length_drop. lia.
  - intros [l Hl] i Hi. simpl in *. rewrite (proj2 (N.ltb_lt _ _)) by done.
    pose proof (bool_decide_unpack _ Hl). apply try_vec_Ok. unfold vlen in *.
    rewrite length_delete by (apply lookup_lt_is_Some; lia). lia.
  - intros [l Hl] x Hf. simpl in *. unfold INPUT_MAXSIZE in Hf. apply try_vec_Ok. unfold vlen in *.
    rewrite length_app. simpl. lia.
  - intros [l Hl] n Hn. simpl in *. rewrite (proj2 (N.leb_le _ _)) by done.
    pose proof (bool_decide_unpack _ Hl). destruct (try_vec_Ok (drop (N.to_nat n) l)) as (v & -> & Hv).
    { unfold vlen in *. rewrite length_drop. lia. }
    by exists v.
  - apply try_vec_Ok.
  - apply make_vec_Some.
Defined.

(** ** Sessions *)
Definition blank_video : list VideoRow := replicate 25 EMPTY_ROW.
Definition boot : result (Terminal bounded_vec) := start (λ _ _, 0) blank_video.
(** Output, a prompt and keys. *)
Definition session (out : list (list N)) (keys : list DecodedKey) : result (Terminal bounded_vec) :=
  t ← boot; t ← _print None out t; t ← prompt t; for_each keys process_input t.
Definition type (s : string) : list DecodedKey := Unicode <$> bytes s.
Definition letters (n : nat) : list DecodedKey := replicate n (Unicode 97).
Definition line_feed : list N := [10].

(** The row [i] of the buffer shows the text and nothing else. *)
Definition has_row (i : N) (s : list N) (t : Terminal bounded_vec) : Prop :=
  ∃ r, RingBuffer.index (buffer t) i = Ok r ∧ fmap (M := list) seen_char r = resize width (mkChar 32 DEFAULT) (cells s).

(** What goes wrong with the keys that [tidy] excludes.  Three ways to stop
    the kernel from the keyboard: (1) a line that is made to end in the last
    column by an insertion has no row after it, but the cursor can be moved
    there, and the next character is written outside the buffer; (2) the
    input has room for one more byte than the test of [put_char] assumes when
    the cursor is not at its end; (3) when the buffer is full, redrawing a line
    that grows into a new row writes to a row number that no longer exists.
    And two ways to garble the screen: (4) a character inserted in the last
    column puts an empty row into the line, so that below the end of the line
    the old end stays; (5) a row that a deletion frees stays as well, and after
    Enter what follows is printed above it. *)
Lemma keyboard_defects :
  session [] (letters 77 ++ [RawKey ArrowLeft; Unicode 98; RawKey ArrowRight; Unicode 99]) = Panic Expect ∧
  (∃ p, session [] (letters 511 ++ [RawKey ArrowLeft; Unicode 98; RawKey ArrowLeft; Unicode 99]) = Panic p) ∧
  session (replicate 256 line_feed)
    (letters 77 ++ [RawKey ArrowLeft; RawKey ArrowLeft; Unicode 98; Unicode 99]) = Panic Expect ∧
  (∃ t, session [] (letters 78 ++ type "bcd" ++ replicate 4 (RawKey ArrowLeft) ++ type "X") = Ok t ∧
    av_slice (input t) = bytes "aaaaaaaaaaaaaaaaaaaaaaaaaaaaaaaaaaaaaaaaaaaaaaaaaaaaaaaaaaaaaaaaaaaaaaaaaaaaaXabcd" ∧
    has_row 1 (bytes "abcd") t ∧ has_row 2 (bytes "bcd") t) ∧
  (∃ t, (t ← session [] (letters 78 ++ [Unicode 8; Unicode 10]); _print None [bytes "out"; line_feed] t) = Ok t ∧
    has_row 1 (bytes "out") t ∧ cur_row t = 2 ∧ RingBuffer.len (buffer t) = Ok 4).
Proof.
  assert (∀ A (m : result A) (P : A → Prop), match m with Ok x => P x | Panic _ => False end → ∃ x, m = Ok x ∧ P x) as Hrun.
  { intros A [x|p] P HP; [by exists x|done]. }
  split; [vm_compute; reflexivity|]. split; [eexists; vm_compute; reflexivity|]. split; [vm_compute; reflexivity|].
  split; apply Hrun; unfold has_row.
  - vm_compute. split; [reflexivity|]. split; eexists; (split; [reflexivity|reflexivity]).
  - vm_compute. split; [eexists; split; reflexivity|]. split; reflexivity.
Qed.

Lemma boot_ready : ∃ t, boot = Ok t ∧ ready t [EMPTY_ROW] [] ∧ status_back_len t = 1 ∧ status_front_len t = 0.
Proof.
  destruct (start_run (λ _ _, 0) blank_video) as (t & Hr & HL & _ & Hc & Hf & Hb & (Hib & Hii & _ & Hin & Hh)).
  { reflexivity. }
  { by apply Forall_replicate. }
  exists t. split_and!; [exact Hr| |exact Hb|exact Hf].
  split; [exact HL|reflexivity|exact Hc| |exact Hib|exact Hii|].
  - rewrite Hin. apply av_slice_new.
  - rewrite Hh. split; [apply av_slice_new|]. split; [constructor|done].
Qed.

Lemma print_spec_witness :
  ∃ t t', boot = Ok t ∧ _print None [bytes "hello, "; bytes "world"] t = Ok t' ∧ cur_col t' = 12.
Proof.
  destruct boot_ready as (t & Hb & HR & _). exists t.
  destruct (print_spec t [EMPTY_ROW] None [bytes "hello, "; bytes "world"]) as (t' & Hr & Hp);
    [apply HR|discriminate|]. rewrite (re_col _ _ _ HR) in Hp.
  exists t'. split; [exact Hb|]. split; [exact Hr|].
  destruct (print_all (default DEFAULT None) [bytes "hello, "; bytes "world"] ([EMPTY_ROW], 0)) as [L' c] eqn:He.
  assert (c = 12) as <-; [|apply Hp].
  change c with (L', c).2. rewrite <-He. vm_compute. reflexivity.
Defined.

(** A line that fills its row but for the last column. *)
Lemma prompted : ∃ t body, editing [] t body prompt_cells [] (replicate 77 97, []).
Proof.
  destruct boot_ready as (t & _ & HR & _). destruct (prompt_run t [] _ HR) as (t1 & _ & HE1 & _).
  destruct (keys_run (letters 77) t1 _ prompt_cells [] ([], []) HE1) as (t2 & body2 & _ & HE2); [|by eauto].
  vm_compute. repeat split; discriminate.
Qed.

(** One more character makes a second row. *)
Lemma key_edits_line_witness :
  ∃ t body t' body', editing [] t body prompt_cells [] (replicate 77 97, []) ∧
    process_input (Unicode 98) t = Ok t' ∧ editing [] t' body' prompt_cells [] (replicate 77 97 ++ [98], []) ∧ vlen body' = 2.
Proof.
  destruct prompted as (t & body & HE). exists t, body.
  destruct (key_edits_line [] t body prompt_cells [] _ (Unicode 98) HE) as (t' & body' & Hr & HE' & _);
    [discriminate|reflexivity|]. exists t', body'. split; [exact HE|]. split; [exact Hr|]. split; [exact HE'|].
  rewrite (ty_rows _ _ _ _ _ (proj1 HE')). reflexivity.
Defined.

(** "hlp", two moves to the left, "e". *)
Definition help_keys : list DecodedKey := type "hlp" ++ [RawKey ArrowLeft; RawKey ArrowLeft; Unicode 101].
End TerminalSpec.
