(* ===== verification/TerminalTotal.v ===== *)
(** * The terminal on any state: termination and the input's positions

    No invariant of the screen is needed for these: whatever the rows, the
    cursor and video memory are, and whatever keys and output come, also
    those that end in a panic, the loops of the line editor end, and the
    positions of the input stay inside the input. *)
From S2P Require Import Prelude Totality RingBuffer Terminal TerminalScreen.
Import Terminal TerminalScreen.
Local Open Scope N_scope.

Module TerminalTotal.

(** ** The ring buffer has no such loops *)
Section ring_buffer.
Context {T : Type}.
Implicit Types (rb : RingBuffer.RingBuffer T).

Lemma expect_ends {A} (o : option A) : ends (expect o).
Proof. by destruct o. Qed.
#[local] Hint Resolve expect_ends : fuel.

Lemma len_ends rb : ends (RingBuffer.len rb).
Proof. unfold RingBuffer.len. ends. Qed.
#[local] Hint Resolve len_ends : fuel.
Lemma wrap_index_ends rb i : ends (RingBuffer.wrap_index rb i).
Proof. unfold RingBuffer.wrap_index. ends. Qed.
#[local] Hint Resolve wrap_index_ends : fuel.
Lemma get_ends rb i : ends (RingBuffer.get rb i).
Proof. unfold RingBuffer.get. ends. destruct x; ends. Qed.
Lemma get_mut_ends rb i d : ends (RingBuffer.get_mut rb i d).
Proof. unfold RingBuffer.get_mut. ends. destruct x; ends. Qed.
#[local] Hint Resolve get_ends get_mut_ends : fuel.
Lemma index_ends rb i : ends (RingBuffer.index rb i).
Proof. unfold RingBuffer.index. ends. Qed.
Lemma index_mut_ends rb i d : ends (RingBuffer.index_mut rb i d).
Proof. unfold RingBuffer.index_mut. ends. Qed.
Lemma push_force_ends rb d : ends (RingBuffer.push_force rb d).
Proof. unfold RingBuffer.push_force. ends. Qed.
#[local] Hint Resolve push_force_ends : fuel.
Lemma push_ends rb d : ends (RingBuffer.push rb d).
Proof. unfold RingBuffer.push, RingBuffer.try_push. ends. Qed.
#[local] Hint Resolve index_ends index_mut_ends push_ends : fuel.
Lemma insert_force_ends rb i d : ends (RingBuffer.insert_force rb i d).
Proof. unfold RingBuffer.insert_force. ends; apply ends_for_each; intros; ends. Qed.
End ring_buffer.
#[export] Hint Resolve expect_ends len_ends get_ends index_ends index_mut_ends push_force_ends insert_force_ends : fuel.

(** ** Output does not touch the input *)
Section quiet.
Context `{AV : ArrayVec V INPUT_MAXSIZE}.
Implicit Types (t : Terminal V).

(** The operation ends and leaves the input alone. *)
Abbreviation quiet t m := (returns m (same_input t)).

Lemma quiet_for_each {B} (l : list B) (f : B → Terminal V → result (Terminal V)) t :
  (∀ x t, quiet t (f x t)) → quiet t (for_each l f t).
Proof.
  intros Hf. apply returns_for_each; [reflexivity|]. intros x t1 H1. eapply returns_mono; [apply Hf|].
  intros t2 H2. by transitivity t1.
Qed.
End quiet.

(** Goes through an operation: its calls are quiet or do not use the terminal. *)
Create HintDb quiet discriminated.
#[export] Hint Resolve quiet_for_each : quiet.

Ltac same_input :=
  lazymatch goal with
  | |- same_input _ _ => unfold same_input in *; destruct_and?;
      cbn [fst snd input_begin input_idx input_status input history set_cur set_scr_row set_status_lens set_buffer set_video set_ports
        set_cursor port_write sw_term tw_term aw_term] in *; split_and!; congruence
  end.

Ltac quiet :=
  repeat first
    [ match goal with
      | |- returns (Ok _) _ => cbn [returns]; cbv beta; first [done | same_input | idtac]
      | |- returns (Panic _) _ => discriminate
      | |- returns ((if ?b then _ else _) ≫= _) _ => destruct b
      | |- returns (Ok _ ≫= _) _ => cbn [mbind result_bind]
      | |- returns ((_ ≫= _) ≫= _) _ => apply returns_assoc
      | |- returns (_ ≫= _) _ =>
          first [ eapply returns_bind; [apply returns_ends; solve [ends]|intros ? _]
                | eapply returns_bind; [solve [eauto with quiet nocore]|cbv beta; intros ? ?] ]
      | |- returns (if ?b then _ else _) _ => destruct b
      | |- returns (let '(_, _) := ?x in _) _ => destruct x
      end
    | solve [eapply returns_mono; [solve [eauto with quiet nocore]|cbv beta; intros; same_input]] ].

Section output.
Context `{AV : ArrayVec V INPUT_MAXSIZE}.
Implicit Types (t : Terminal V).

Lemma screen_height_ends t : ends (screen_height t).
Proof. unfold screen_height. ends. Qed.
#[local] Hint Resolve screen_height_ends : fuel.

Lemma write_video_row_quiet row data t : returns (write_video_row row data t) (same_input t).
Proof. unfold write_video_row. quiet. Qed.
Lemma write_video_ch_quiet row col data t : returns (write_video_ch row col data t) (same_input t).
Proof. unfold write_video_ch. destruct (video t !! _); quiet. Qed.
#[local] Hint Resolve write_video_row_quiet write_video_ch_quiet : quiet.

Lemma redraw_status_lines_quiet t : returns (redraw_status_lines t) (same_input t).
Proof. unfold redraw_status_lines. quiet. Qed.
Lemma redraw_screen_quiet t : returns (redraw_screen t) (same_input t).
Proof. unfold redraw_screen. quiet. apply quiet_for_each. intros. quiet. Qed.
#[local] Hint Resolve redraw_status_lines_quiet redraw_screen_quiet : quiet.
Lemma redraw_quiet t : returns (redraw t) (same_input t).
Proof. unfold redraw. quiet. Qed.
#[local] Hint Resolve redraw_quiet : quiet.

Lemma row_visible_ends row t : ends (row_visible row t).
Proof. unfold row_visible. ends. Qed.
#[local] Hint Resolve row_visible_ends : fuel.
Lemma update_cursor_quiet t : returns (update_cursor t) (same_input t).
Proof. unfold update_cursor, cursor_visible. quiet. Qed.
#[local] Hint Resolve update_cursor_quiet : quiet.
Lemma scroll_to_quiet row t : returns (scroll_to row t) (same_input t).
Proof. unfold scroll_to. quiet. Qed.
#[local] Hint Resolve scroll_to_quiet : quiet.
Lemma scroll_to_cursor_quiet t : returns (scroll_to_cursor t) (same_input t).
Proof. unfold scroll_to_cursor. quiet. Qed.
#[local] Hint Resolve scroll_to_cursor_quiet : quiet.
Lemma isize_ends z : ends (isize z).
Proof. unfold isize. ends. Qed.
#[local] Hint Resolve isize_ends : fuel.
Lemma scroll_page_quiet page t : returns (scroll_page page t) (same_input t).
Proof. unfold scroll_page. quiet. Qed.
#[local] Hint Resolve scroll_page_quiet : quiet.

Lemma get_status_line_row_ends kind line t : ends (get_status_line_row kind line t).
Proof. unfold get_status_line_row. destruct kind; ends. Qed.
#[local] Hint Resolve get_status_line_row_ends : fuel.
Lemma status_loop_quiet row pos l t : returns (status_loop row pos l t) (λ r, same_input t r.2).
Proof.
  revert pos t. induction l as [|ch l IH]; intros pos t; cbn [status_loop]; quiet.
Qed.
#[local] Hint Resolve status_loop_quiet : quiet.
Lemma write_status_line_quiet kind line l cur t :
  returns (write_status_line kind line l cur t) (λ r, same_input t r.2).
Proof. unfold write_status_line. quiet. Qed.
Lemma clear_status_line_quiet kind line cur t : returns (clear_status_line kind line cur t) (same_input t).
Proof. unfold clear_status_line. quiet. Qed.
#[local] Hint Resolve write_status_line_quiet clear_status_line_quiet : quiet.
Lemma status_line_writer_quiet kind line args t : returns (status_line_writer kind line args t) (same_input t).
Proof.
  unfold status_line_writer. eapply returns_bind.
  - apply (returns_for_each args _ _ (λ w, same_input t (sw_term w))); [reflexivity|]. intros l w Hw.
    unfold StatusLineWriter_write_str. quiet.
  - cbv beta. intros w Hw. unfold StatusLineWriter_done. quiet.
Qed.
#[local] Hint Resolve status_line_writer_quiet : quiet.
Lemma print_line_status_quiet t : returns (print_line_status t) (same_input t).
Proof. unfold print_line_status. quiet. Qed.
Lemma print_cursor_status_quiet t : returns (print_cursor_status t) (same_input t).
Proof. unfold print_cursor_status. quiet. Qed.
Lemma clear_cur_line_status_quiet t : returns (clear_cur_line_status t) (same_input t).
Proof. unfold clear_cur_line_status. quiet. Qed.
Lemma set_status_lines_quiet kind lines t : returns (set_status_lines kind lines t) (same_input t).
Proof. unfold set_status_lines. destruct kind; quiet. Qed.

Lemma insert_row_quiet row t : returns (insert_row row t) (same_input t).
Proof. unfold insert_row. quiet. repeat case_match; same_input. Qed.
#[local] Hint Resolve insert_row_quiet : quiet.
(** The inner call is for the end of the buffer. *)
Lemma new_line_at_quiet row t : returns (new_line_at row t) (same_input t).
Proof.
  unfold new_line_at. cbn [new_line_rec]. quiet. apply quiet_for_each. intros _ t1.
  destruct (RingBuffer.len (buffer t1)) as [n|p] eqn:Hn.
  - mred. rewrite N.leb_refl. quiet.
  - pose proof (len_ends (buffer t1)) as He. rewrite Hn in He. mred. intros ->. done.
Qed.
#[local] Hint Resolve new_line_at_quiet : quiet.
Lemma new_line_quiet t : returns (new_line t) (same_input t).
Proof. unfold new_line. quiet. Qed.
#[local] Hint Resolve new_line_quiet : quiet.
Lemma put_cell_quiet row col ch t : returns (put_cell row col ch t) (same_input t).
Proof. unfold put_cell. quiet. Qed.
#[local] Hint Resolve put_cell_quiet : quiet.
Lemma write_char_quiet color ch t : returns (write_char color ch t) (same_input t).
Proof. unfold write_char. quiet. Qed.
Lemma write_char_at_quiet color row col ch t : returns (write_char_at color row col ch t) (λ r, same_input t r.2).
Proof. unfold write_char_at. quiet. Qed.
#[local] Hint Resolve write_char_quiet write_char_at_quiet : quiet.
Lemma clear_quiet t : returns (clear t) (same_input t).
Proof. unfold clear. quiet. Qed.
Lemma write_string_quiet color l t : returns (write_string color l t) (same_input t).
Proof. unfold write_string. quiet. Qed.
Lemma write_string_at_quiet color row col l t : returns (write_string_at color row col l t) (λ r, same_input t r.2).
Proof.
  unfold write_string_at. quiet. apply (returns_for_each l _ _ (λ r, same_input t r.2)); [reflexivity|].
  intros ch [[r c] t1] H1. quiet.
Qed.
#[local] Hint Resolve write_string_quiet write_string_at_quiet : quiet.
Lemma print_quiet color args t : returns (_print color args t) (same_input t).
Proof.
  unfold _print. eapply returns_bind; [|cbv beta; intros w Hw; exact Hw].
  apply (returns_for_each args _ _ (λ w, same_input t (tw_term w))); [reflexivity|]. intros l w Hw.
  unfold TerminalWriter_write_str. quiet.
Qed.
Lemma print_at_quiet color row col args t : returns (_print_at color row col args t) (same_input t).
Proof.
  unfold _print_at. eapply returns_bind; [|cbv beta; intros w Hw; exact Hw].
  apply (returns_for_each args _ _ (λ w, same_input t (aw_term w))); [reflexivity|]. intros l w Hw.
  unfold TerminalAtWriter_write_str. quiet.
Qed.
End output.
#[export] Hint Resolve screen_height_ends row_visible_ends isize_ends get_status_line_row_ends : fuel.
#[export] Hint Resolve redraw_quiet update_cursor_quiet scroll_to_quiet scroll_to_cursor_quiet scroll_page_quiet
  clear_status_line_quiet status_line_writer_quiet print_line_status_quiet print_cursor_status_quiet
  clear_cur_line_status_quiet set_status_lines_quiet write_char_quiet clear_quiet write_string_quiet
  write_string_at_quiet print_quiet print_at_quiet : quiet.

(** ** The positions of the input *)
Section input.
Context `{AV : ArrayVec V INPUT_MAXSIZE}.
Implicit Types (t : Terminal V).

Abbreviation input_len t := (vlen (av_slice (input t))).

Definition input_ok t : Prop := input_begin t ≤ input_idx t ≤ input_len t.

Lemma same_input_ok t t' : same_input t t' → input_ok t → input_ok t'.
Proof. unfold input_ok. by intros (-> & -> & _ & -> & _). Qed.

Lemma quiet_ok t m : returns m (same_input t) → input_ok t → returns m input_ok.
Proof. intros Hm Ht. eapply returns_mono; [exact Hm|]. intros t' Hs. by eapply same_input_ok. Qed.

(** A loop with a measure below the bound. *)
Lemma while_returns fuel cond body (I : Terminal V → Prop) (size : Terminal V → N) t :
  I t → (N.to_nat (size t) < fuel)%nat →
  (∀ t, I t → cond t = true → returns (body t) (λ t', I t' ∧ size t' < size t)) →
  returns (while fuel cond body t) I.
Proof.
  intros Ht Hf Hb. revert t Ht Hf. induction fuel as [|fuel IH]; intros t Ht Hf; [lia|]. cbn [while].
  destruct (cond t) eqn:Hc; [|done]. eapply returns_bind; [by apply Hb|]. cbv beta. intros t' [Ht' Hs]. apply IH; [done|lia].
Qed.

Lemma move_forward_returns t :
  input_ok t → returns (input_move_forward t) (λ t', input_ok t' ∧ input_len t' = input_len t ∧
    (input_idx t < input_len t → input_idx t' = input_idx t + 1)).
Proof.
  unfold input_ok, input_move_forward. intros Ht. destruct (N.ltb_spec (input_idx t) (input_len t)) as [Hlt|]; [|split_and!; [lia|lia|done|lia]].
  eapply returns_bind; [apply returns_add|]. cbv beta. intros i ->. quiet; cbn; split_and!; lia.
Qed.

Lemma move_backward_returns t :
  input_ok t → returns (input_move_backward t) (λ t', input_ok t' ∧ input_begin t' = input_begin t ∧ input_len t' = input_len t ∧
    (input_begin t < input_idx t → input_idx t' + 1 = input_idx t)).
Proof.
  unfold input_ok, input_move_backward. intros Ht. destruct (N.ltb_spec (input_begin t) (input_idx t)) as [Hlt|]; [|split_and!; [lia|lia|done|done|lia]].
  cbn [returns]. repeat case_match; cbn; split_and!; lia.
Qed.

Lemma redraw_input_quiet t : returns (redraw_input_from_cursor t) (same_input t).
Proof. unfold redraw_input_from_cursor, from_utf8. quiet. Qed.
#[local] Hint Resolve redraw_input_quiet : quiet.

Lemma put_char_returns ch keep_last t : input_ok t → returns (put_char ch keep_last t) input_ok.
Proof.
  intros Ht. unfold put_char. case_match; [|done]. unfold input_ok in Ht. pose proof (av_slice_len (input t)) as Hcap.
  destruct (N.eq_dec (input_len t) INPUT_MAXSIZE) as [Hfull|Hroom].
  { rewrite av_insert_full by (done || lia). discriminate. }
  destruct (av_insert_ok (input t) (input_idx t) ch) as (v & -> & Hv); [lia|lia|]. cbn [mbind result_bind].
  assert (vlen (av_slice v) = input_len t + 1) as Hlen.
  { rewrite Hv. unfold vlen. rewrite length_app, length_take. simpl. rewrite length_drop. unfold vlen in *. lia. }
  eapply returns_bind; [apply write_char_quiet|]. cbv beta. intros t1 (Hb & Hi & _ & Hin & _).
  cbn [input_begin input_idx input set_input] in Hb, Hi, Hin. eapply returns_bind; [apply returns_add|].
  cbv beta. intros i ->. assert (input_ok (set_input_pos (input_begin t1) (input_idx t1 + 1) t1)) as Hok.
  { unfold input_ok. cbn. rewrite Hb, Hi, Hin. lia. }
  destruct (input_idx t1 + 1 <? _); [|exact Hok]. eapply quiet_ok; [apply redraw_input_quiet|exact Hok].
Qed.

Lemma delete_char_returns t :
  input_ok t → returns (delete_char t) (λ t', input_ok t' ∧ input_begin t' = input_begin t ∧ input_idx t' = input_idx t ∧
    (input_idx t < input_len t → input_len t' + 1 = input_len t)).
Proof.
  intros Ht. unfold delete_char. unfold input_ok in *. pose proof (av_slice_len (input t)) as Hcap.
  destruct (N.ltb_spec (input_idx t) (input_len t)) as [Hlt|]; [|split_and!; [lia|lia|done|done|lia]].
  destruct (av_remove_ok (input t) (input_idx t)) as (v1 & -> & Hv1); [done|]. cbn [mbind result_bind].
  assert (vlen (av_slice v1) + 1 = input_len t) as Hl1.
  { rewrite Hv1. unfold vlen in *. rewrite length_delete by (apply lookup_lt_is_Some; lia). lia. }
  destruct (av_push_ok v1 32) as (v2 & -> & Hv2); [lia|]. cbn [mbind result_bind].
  eapply returns_bind; [apply redraw_input_quiet|]. cbv beta. intros t1 (Hb & Hi & _ & Hin & _).
  cbn [input_begin input_idx input set_input] in Hb, Hi, Hin. rewrite Hin.
  assert (vlen (av_slice v2) = vlen (av_slice v1) + 1) as Hl2 by (rewrite Hv2, vlen_app; done).
  rewrite checked_sub_Ok by lia. cbn [mbind result_bind].
  destruct (av_remove_ok v2 (vlen (av_slice v2) - 1)) as (v3 & -> & Hv3); [lia|]. cbn.
  assert (vlen (av_slice v3) + 1 = vlen (av_slice v2)) as Hl3.
  { rewrite Hv3. unfold vlen in *. rewrite length_delete by (apply lookup_lt_is_Some; lia). lia. }
  rewrite Hb, Hi. split_and!; try done; lia.
Qed.

Lemma backspace_returns t : input_ok t → returns (backspace t) input_ok.
Proof.
  intros Ht. unfold backspace. destruct (_ <? _); [|exact Ht].
  eapply returns_bind; [by apply move_backward_returns|]. cbv beta. intros t1 [Ht1 _].
  eapply returns_mono; [by apply delete_char_returns|]. by intros t2 [? _].
Qed.

(** The bound of the loops is more than the input can hold. *)
Lemma input_fuel_enough t n : n ≤ input_len t → (N.to_nat n < input_fuel)%nat.
Proof. intros Hn. pose proof (av_slice_len (input t)). unfold input_fuel, INPUT_MAXSIZE in *. lia. Qed.

Lemma complete_input_returns t : input_ok t → returns (complete_input t) input_ok.
Proof.
  intros Ht. unfold complete_input. eapply returns_bind; [|cbv beta; intros t1 Ht1].
  - apply (while_returns _ _ _ input_ok (λ t, input_len t - input_idx t)); [done|by apply (input_fuel_enough t); lia|].
    intros t1 Ht1 Hc. apply N.ltb_lt in Hc. eapply returns_mono; [by apply move_forward_returns|]. cbv beta.
    intros t2 (Ht2 & Hl & Hi). split; [done|]. rewrite Hl, Hi; lia.
  - eapply returns_bind; [by apply put_char_returns|]. intros t2 Ht2. cbn. unfold input_ok. cbn. lia.
Qed.

Lemma recover_history_returns t : input_ok t → returns (recover_history t) input_ok.
Proof.
  intros Ht. unfold recover_history. eapply returns_bind; [apply returns_ends, ends_sub|]. intros room _.
  destruct (_ <? room); [|exact Ht]. eapply returns_bind; [|cbv beta; intros t1 Ht1].
  { apply (while_returns _ _ _ input_ok (λ t, input_idx t - input_begin t)); [done| |].
    - apply (input_fuel_enough t). unfold input_ok in Ht. lia.
    - intros t1 Ht1 Hc. apply N.ltb_lt in Hc. eapply returns_mono; [by apply move_backward_returns|]. cbv beta.
      intros t2 (Ht2 & Hb & _ & Hi). split; [done|]. specialize (Hi Hc). lia. }
  eapply returns_bind; [|cbv beta; intros t2 Ht2].
  { apply (while_returns _ _ _ input_ok (λ t, input_len t - input_idx t)); [done|by apply (input_fuel_enough t1); lia|].
    intros t2 Ht2 Hc. apply N.ltb_lt in Hc. eapply returns_mono; [by apply delete_char_returns|]. cbv beta.
    intros t3 (Ht3 & _ & Hi & Hl). split; [done|]. specialize (Hl Hc). lia. }
  apply returns_for_each; [done|]. intros ch t3 Ht3. by apply put_char_returns.
Qed.

(** What [process_input] does after an operation on the input. *)
Lemma finish_returns (op : Terminal V → result (Terminal V)) (status : Terminal V → result (Terminal V)) t :
  returns (op t) input_ok → (∀ t, returns (status t) (same_input t)) →
  returns (t ← op t; t ← status t; follow_cursor t) input_ok.
Proof.
  intros Hop Hst. eapply returns_bind; [exact Hop|]. cbv beta. intros t1 Ht1.
  eapply returns_bind; [by eapply quiet_ok, Ht1|]. cbv beta. intros t2 Ht2. unfold follow_cursor.
  eapply returns_bind; [by eapply quiet_ok, Ht2; apply scroll_to_cursor_quiet|]. cbv beta. intros t3 Ht3.
  eapply quiet_ok, Ht3. apply update_cursor_quiet.
Qed.

Lemma process_input_returns key t : input_ok t → returns (process_input key t) input_ok.
Proof.
  intros Ht.
  assert (∀ page, returns (t ← scroll_page page t; print_line_status t) input_ok) as Hpage.
  { intros page. eapply returns_bind; [by eapply quiet_ok, Ht; apply scroll_page_quiet|]. cbv beta. intros t1 Ht1.
    eapply quiet_ok, Ht1. apply print_line_status_quiet. }
  unfold process_input. destruct key as [[]|ch]; try exact (Hpage _); destruct (input_status t); try exact Ht.
  - apply finish_returns; [|apply print_cursor_status_quiet]. eapply returns_mono; [by apply move_backward_returns|]. by intros ? [? _].
  - apply finish_returns; [|apply print_cursor_status_quiet]. eapply returns_mono; [by apply move_forward_returns|]. by intros ? [? _].
  - apply finish_returns; [by apply recover_history_returns|apply print_cursor_status_quiet].
  - destruct (ch =? 10). { apply finish_returns; [by apply complete_input_returns|apply clear_cur_line_status_quiet]. }
    destruct (ch =? 0x7f).
    { apply finish_returns; [|apply print_cursor_status_quiet]. eapply returns_mono; [by apply delete_char_returns|]. by intros ? [? _]. }
    destruct (ch =? 0x08). { apply finish_returns; [by apply backspace_returns|apply print_cursor_status_quiet]. }
    destruct (_ && _); [|exact Ht]. apply finish_returns; [by apply put_char_returns|apply print_cursor_status_quiet].
Qed.

Lemma position_lt x l i : position x l = Some i → i < vlen l.
Proof.
  revert i. induction l as [|y l IH]; intros i; [done|]. cbn [position]. rewrite vlen_cons.
  destruct (y =? x); [intros [= <-]; lia|]. destruct (position x l); [|done]. cbn. intros [= <-]. specialize (IH _ eq_refl). lia.
Qed.

Lemma getline_returns line t : input_ok t → returns (getline line t) (λ r, input_ok r.2).
Proof.
  intros Ht. unfold getline. destruct (_ =? 0); [exact Ht|]. set (n := default _ _).
  destruct (vlen line <? n); [exact Ht|]. unfold input_ok in Ht. pose proof (av_slice_len (input t)) as Hcap.
  assert (n ≤ input_len t) as Hn.
  { subst n. destruct (position 10 _) as [i|] eqn:Hp; cbn; [apply position_lt in Hp|]; lia. }
  destruct (av_drain_ok (input t) n Hn) as (v & -> & Hv). cbn [mbind result_bind].
  destruct (av_collect_ok (take (N.to_nat n) (av_slice (input t)))) as (buf & -> & _).
  { unfold vlen in *. rewrite length_take. lia. }
  cbn [mbind result_bind]. assert (vlen (av_slice v) + n = input_len t) as Hl.
  { rewrite Hv. unfold vlen in *. rewrite length_drop. lia. }
  set (t1 := set_history buf (set_input v t)).
  (* the line feed goes too *)
  eapply (returns_bind _ _ _ (λ t2, input_begin t2 ≤ input_idx t2 ≤ input_len t2 + n)).
  - destruct (_ <? _) eqn:Hlt; [|cbn; lia]. apply N.ltb_lt in Hlt. cbn in Hlt.
    destruct (av_remove_ok (input t1) 0) as (v' & Hr & Hv'); [cbn; lia|]. rewrite Hr. cbn [mbind result_bind].
    eapply returns_bind; [apply returns_sub|]. cbv beta. intros b Hb. eapply returns_bind; [apply returns_sub|]. cbv beta. intros i Hi.
    assert (vlen (av_slice v') + 1 = vlen (av_slice v)) as Hl'.
    { rewrite Hv'. cbn. unfold vlen in *. rewrite length_delete by (apply lookup_lt_is_Some; lia). lia. }
    cbn in *. lia.
  - cbv beta. intros t2 Ht2. eapply returns_bind; [apply returns_sub|]. cbv beta. intros b Hb.
    eapply returns_bind; [apply returns_sub|]. cbv beta. intros i Hi.
    unfold from_utf8. destruct (utf8 _); cbn; [|discriminate]. unfold input_ok. cbn. lia.
Qed.

(** ** Whatever is done with the terminal *)

(** [print_status!]: without a kind it prints to the back lines, without a line to
    the first. *)
Definition print_status (kind : option StatusLineKind) (line : option N) (args : list (list N)) t : result (Terminal V) :=
  _print_status (default Back kind) (default 0 line) args t.

(** The functions with which the kernel uses the terminal, with the arms of [print!]. *)
Inductive action :=
  | Key (key : DecodedKey)
  | ReadLine (line : list N)
  | Prompt
  | Write (color : option ColorCode) (args : list (list N))
  | WriteAt (color : option ColorCode) (row col : N) (args : list (list N))
  | WriteStatus (kind : option StatusLineKind) (line : option N) (args : list (list N))
  | SetStatusLines (kind : StatusLineKind) (lines : N)
  | Scroll (page : Z).

Definition act (a : action) t : result (Terminal V) :=
  match a with
  | Key key => process_input key t
  | ReadLine line => '(_, t) ← getline line t; Ok t
  | Prompt => prompt t
  | Write color args => _print color args t
  | WriteAt color row col args => _print_at color row col args t
  | WriteStatus kind line args => print_status kind line args t
  | SetStatusLines kind lines => set_status_lines kind lines t
  | Scroll page => scroll page t
  end.

Lemma act_returns a t : input_ok t → returns (act a t) input_ok.
Proof.
  intros Ht. destruct a; cbn [act]; unfold print_status; try (eapply quiet_ok, Ht; solve [eauto with quiet nocore]).
  - by apply process_input_returns.
  - eapply returns_bind; [by apply getline_returns|]. by intros [].
  - unfold prompt. eapply returns_bind; [by eapply quiet_ok, Ht; apply print_quiet|]. cbv beta. by intros.
Qed.

(** C27: whatever keys are typed, whatever is printed and whenever lines are read,
    also past the right margin and after the buffer is full, the loops of the
    terminal end: the bounds of the model are never reached.  As long as
    nothing panics, the start of the line being edited and the cursor in it
    stay inside the input. *)
Theorem input_positions video_memory acts :
  returns (for_each acts act (TERM video_memory)) input_ok.
Proof.
  apply returns_for_each; [|intros a t; apply act_returns]. unfold input_ok. cbn. lia.
Qed.
End input.

End TerminalTotal.
