(* ===== verification/Output.v ===== *)
(** * Output: the print and log functions over terminal and serial port

    [print!], [println!] and [log!] of [kernel/src/terminal.rs] with
    [kernel/src/serial.rs], and the number formats of the standard library
    that the kernel uses.  What a command prints is a list of calls; the
    calls are then carried out on the terminal and the serial port. *)
From stdpp Require Import pretty.
From S2P Require Import Prelude RingBuffer Terminal TerminalScreen TerminalStatus TerminalGrid TerminalEdit TerminalSpec.
Import Terminal TerminalScreen TerminalGrid TerminalSpec.
Local Open Scope N_scope.

Module Output.

(** ** Formats *)

(** The digits of [{:x}]; a [u64] has at most sixteen. *)
Definition hex_digit (d : N) : N := if d <? 10 then 48 + d else 87 + d.
Fixpoint hex_rec (fuel : nat) (n : N) : list N :=
  match fuel with
  | O => []
  | S fuel => if n <? 16 then [hex_digit n] else hex_rec fuel (n / 16) ++ [hex_digit (n mod 16)]
  end.
Definition hex_digits (n : N) : list N := hex_rec 16 n.

(** [{:#x}], [{:#0wx}] (filled with zeroes behind the prefix) and [{:#wx}]
    (filled with blanks before it). *)
Definition hex (n : N) : list N := bytes "0x" ++ hex_digits n.
Definition hex_zeros (w : nat) (n : N) : list N :=
  bytes "0x" ++ replicate (w - 2 - length (hex_digits n)) 48 ++ hex_digits n.
Definition hex_right (w : nat) (n : N) : list N := replicate (w - length (hex n)) 32 ++ hex n.

Definition unhex_digit (c : N) : N := if c <? 58 then c - 48 else c - 87.
Definition unhex (l : list N) : N := foldl (λ n c, n * 16 + unhex_digit c) 0 l.

Lemma unhex_digit_hex d : d < 16 → unhex_digit (hex_digit d) = d.
Proof.
  intros Hd. unfold unhex_digit, hex_digit. destruct (N.ltb_spec d 10).
  - destruct (N.ltb_spec (48 + d) 58); lia.
  - destruct (N.ltb_spec (87 + d) 58); lia.
Qed.

(** Sixteen digits are enough for a machine word. *)
Lemma unhex_rec fuel n : n < 16 ^ N.of_nat fuel → (0 < fuel)%nat → unhex (hex_rec fuel n) = n.
Proof.
  revert n. induction fuel as [|fuel IH]; intros n Hn Hf; [lia|]. cbn [hex_rec].
  destruct (N.ltb_spec n 16) as [Hs|Hl]; [unfold unhex; simpl; by apply unhex_digit_hex|].
  assert (fuel ≠ 0%nat) as Hf0 by (intros ->; change (16 ^ N.of_nat 1) with 16 in Hn; lia).
  unfold unhex. rewrite foldl_app. fold (unhex (hex_rec fuel (n / 16))). simpl.
  rewrite Nat2N.inj_succ, N.pow_succ_r' in Hn.
  rewrite IH, unhex_digit_hex by (lia || (apply N.mod_lt; lia)). lia.
Qed.

(** Reading the digits back gives the number. *)
Lemma unhex_hex n : n < W64 → unhex (hex_digits n) = n.
Proof. intros Hn. apply unhex_rec; [exact Hn|lia]. Qed.

(** ** Calls *)
Inductive call :=
  | Print (color : option ColorCode) (args : list (list N))
  | Log (color : option ColorCode) (newline : bool) (args : list (list N)).

(** [println!]: the text and a line feed. *)
Definition println (args : list (list N)) : call := Print None (args ++ [[10]]).
Definition println_color (c : ColorCode) (args : list (list N)) : call := Print (Some c) (args ++ [[10]]).

(** The crate [uart_16550]; errors of the port are ignored. *)
Class SerialPort (S : Type) := {
  serial_new : N → S;
  serial_init : S → S;
  serial_write_str : list N → S → S;
}.

Section output.
Context `{AV : ArrayVec V INPUT_MAXSIZE} {S : Type} `{SerialPort S}.

Definition PORT_COM1 : N := 0x3f8.
Definition COM1 : S := serial_init (serial_new PORT_COM1).

(** [serial::_print] *)
Definition serial_print (args : list (list N)) (s : S) : S := foldl (λ s a, serial_write_str a s) s args.
Definition serial_println (args : list (list N)) (s : S) : S := serial_print (args ++ [[10]]) s.
Definition init_serial (s : S) : S := serial_println [bytes "rigoros connected"] s.

Definition _log (color : option ColorCode) (newline : bool) (args : list (list N)) (st : Terminal V * S)
    : result (Terminal V * S) :=
  let '(t, s) := st in
  let c := default LOG color in
  let s := serial_print args s in
  let s := if newline then serial_write_str [10] s else s in
  writer ← for_each args TerminalWriter_write_str (mkWriter t c);
  writer ← (if newline then TerminalWriter_write_str [10] writer else Ok writer);
  Ok (tw_term writer, s).

Definition run_call (c : call) (st : Terminal V * S) : result (Terminal V * S) :=
  match c with
  | Print color args => t ← _print color args st.1; Ok (t, st.2)
  | Log color newline args => _log color newline args st
  end.
Definition run_calls (cs : list call) (st : Terminal V * S) : result (Terminal V * S) := for_each cs run_call st.

(** ** What is shown *)

(** The pieces of text of a call and their colour. *)
Definition call_color (c : call) : ColorCode :=
  match c with Print color _ => default DEFAULT color | Log color _ _ => default LOG color end.
Definition call_text (c : call) : list (list N) :=
  match c with Print _ args => args | Log _ newline args => args ++ if newline then [[10]] else [] end.
Definition call_serial (c : call) : list (list N) :=
  match c with Print _ _ => [] | Log _ _ _ => call_text c end.

Definition show_call (c : call) (st : list VideoRow * N) : list VideoRow * N :=
  print_all (call_color c) (call_text c) st.
Definition show_calls (cs : list call) (st : list VideoRow * N) : list VideoRow * N := foldl (λ st c, show_call c st) st cs.

Lemma serial_print_app a b s : serial_print (a ++ b) s = serial_print b (serial_print a s).
Proof. apply foldl_app. Qed.

Lemma run_call_holds c t s L :
  holds t L →
  ∃ t', run_call c (t, s) = Ok (t', serial_print (call_serial c) s) ∧
    holds t' (show_call c (L, cur_col t)).1 ∧ cur_col t' = (show_call c (L, cur_col t)).2 ∧ same_frame t t' ∧
    (call_text c ≠ [] → displays t' (show_call c (L, cur_col t)).1).
Proof.
  intros HL. destruct (print_run (call_text c) t L (call_color c) HL) as (t' & Hr & Hh & Hd & Hc & Hf).
  exists t'. split; [|done]. destruct c as [color args|color newline args]; cbn [run_call call_color call_text call_serial] in *.
  - rewrite print_writes. cbn [fst snd]. rewrite Hr. done.
  - unfold _log. rewrite serial_print_app, writer_run. rewrite for_each_app in Hr.
    destruct (for_each args (write_string (default LOG color)) t) as [t1|] eqn:Ht1; [|done]. mred. revert Hr. mred.
    destruct newline; cbn [for_each].
    + unfold TerminalWriter_write_str. cbn [tw_term tw_color].
      destruct (write_string (default LOG color) [10] t1); [|done]. by intros [= ->].
    + by intros [= ->].
Qed.

(** Carrying out any calls appends their texts, in order, to what the
    terminal holds, and sends the texts of the log calls, and no others, to
    the serial port; no call panics. *)
Lemma run_calls_holds cs t s L :
  holds t L →
  ∃ t', run_calls cs (t, s) = Ok (t', serial_print (concat (call_serial <$> cs)) s) ∧
    holds t' (show_calls cs (L, cur_col t)).1 ∧ cur_col t' = (show_calls cs (L, cur_col t)).2 ∧ same_frame t t'.
Proof.
  unfold run_calls. revert t s L. induction cs as [|c cs IH]; intros t s L HL; [by exists t|].
  destruct (run_call_holds c t s L HL) as (t1 & Hr1 & Hh1 & Hc1 & Hf1 & _).
  cbn [for_each]. rewrite Hr1. mred. destruct (IH t1 (serial_print (call_serial c) s) _ Hh1) as (t2 & -> & Hh2 & Hc2 & Hf2).
  exists t2. cbn [fmap list_fmap concat]. rewrite serial_print_app. split; [done|].
  cbn [show_calls foldl]. rewrite Hc1, <-surjective_pairing in Hh2, Hc2. split_and!; [done|done|by etransitivity].
Qed.

(** ** Output in whole lines

    It leaves the cursor at the start of an empty row. *)
Definition call_ends (c : call) : Prop := ∃ args s, call_text c = args ++ [s ++ [10]].
Definition ends_line (out : list call) : Prop := ∀ c, list.last out = Some c → call_ends c.

Lemma println_ends args : call_ends (println args).
Proof. by exists args, []. Qed.
Lemma println_color_ends c args : call_ends (println_color c args).
Proof. by exists args, []. Qed.
Lemma log_ends c args : call_ends (Log c true args).
Proof. by exists args, []. Qed.

Lemma ends_nil : ends_line [].
Proof. by intros c. Qed.
Lemma ends_snoc out c : call_ends c → ends_line (out ++ [c]).
Proof. intros Hc c'. rewrite last_snoc. by intros [= <-]. Qed.
Lemma ends_Forall out : Forall call_ends out → ends_line out.
Proof. intros Hf c Hc. rewrite list.Forall_forall in Hf. apply Hf. by apply last_Some_elem_of. Qed.
Lemma ends_app a b : ends_line a → ends_line b → ends_line (a ++ b).
Proof.
  intros Ha Hb. destruct b as [|c b _] using rev_ind; [by rewrite app_nil_r|].
  rewrite app_assoc. apply ends_snoc, Hb, last_snoc.
Qed.

Lemma show_call_ends c L col :
  call_ends c → ∃ L0, show_call c (L, col) = (L0 ++ [EMPTY_ROW], 0).
Proof.
  intros (args & s & Hc). unfold show_call. rewrite Hc. unfold print_all. rewrite foldl_app. cbn [foldl].
  unfold type_string at 1. rewrite foldl_app. cbn [foldl].
  destruct (foldl (type_char (call_color c)) _ s) as [L1 c1]. exists L1. done.
Qed.

Lemma show_calls_ends out L0 :
  ends_line out → ∃ L1, show_calls out (L0 ++ [EMPTY_ROW], 0) = (L1 ++ [EMPTY_ROW], 0).
Proof.
  intros He. destruct out as [|c out _] using rev_ind; [by exists L0|].
  unfold show_calls. rewrite foldl_app. cbn [foldl]. destruct (foldl _ _ out) as [L1 c1].
  apply show_call_ends, He, last_snoc.
Qed.

(** ** What is seen

    Output to transcripts that look alike gives transcripts that look alike. *)
Definition alike (st st' : list VideoRow * N) : Prop := seen st.1 = seen st'.1 ∧ st.2 = st'.2.

#[export] Instance alike_equivalence : Equivalence alike.
Proof.
  split; [by intros ?|by intros ? ? []|]. intros ? ? ? [H1 H2] [H3 H4]. split; [by rewrite H1|by rewrite H2].
Qed.

Lemma seen_put L col c : seen (transcript_put L col c) = transcript_put (seen L) col (seen_char c).
Proof.
  unfold transcript_put, seen. rewrite length_fmap. apply list_fmap_alter. apply Forall_true. intros r.
  apply list_fmap_insert.
Qed.

#[export] Instance type_char_alike color : Proper (alike ==> eq ==> alike) (type_char color).
Proof.
  intros [L c] [L' c'] [HL Hc] ch _ <-. cbn [fst snd] in HL, Hc. subst c'. unfold type_char.
  destruct (ch =? 10); [split; [cbn [fst]; by rewrite !seen_app, HL|done]|].
  destruct (VIDEO_WIDTH <=? c + 1); (split; [cbn [fst]; rewrite ?seen_app, !seen_put; by rewrite HL|done]).
Qed.

Lemma foldl_alike {B} (f : list VideoRow * N → B → list VideoRow * N) (l : list B) :
  Proper (alike ==> eq ==> alike) f → Proper (alike ==> alike) (λ st, foldl f st l).
Proof.
  intros Hf. induction l as [|x l IH]; intros st st' Hs; [done|]. cbn [foldl]. apply IH. by apply Hf.
Qed.

#[export] Instance show_calls_alike out : Proper (alike ==> alike) (show_calls out).
Proof.
  apply foldl_alike. intros st st' Hs c _ <-. unfold show_call, print_all. revert st st' Hs. apply foldl_alike.
  intros st st' Hs x _ <-. unfold type_string. revert st st' Hs. apply foldl_alike. apply type_char_alike.
Qed.
End output.

(** ** A port that keeps what is sent *)
#[export] Instance serial_port_example : SerialPort (list N) := {
  serial_new _ := []; serial_init s := s; serial_write_str s l := l ++ s;
}.

Create HintDb ends.
#[export] Hint Resolve println_ends println_color_ends log_ends ends_nil ends_snoc ends_Forall ends_app : ends.

End Output.
