(* ===== verification/Task.v ===== *)
(** * The test task: [kernel/src/task.rs]

    [test_task] runs a task with a context of its own, a coroutine: each call
    switches to the task, which prints and switches back.  What runs after a
    [switch_context] is decided by the registers it loads: a context whose
    registers are those saved at an earlier switch goes on behind that switch,
    one that starts [task_main] as the ABI and the processor ask for does so,
    and any other is undefined behaviour.  [switches_run] says
    that the two switches are what the instructions of [context.S] do to
    memory and registers. *)
From stdpp Require Import gmap pretty.
From S2P Require Import Prelude Buddy BuddySpec MemoryMap KernelMemory KernelMemorySpec Context ContextSpec.
From S2P Require Import RingBuffer Terminal Output.
Import KernelMemory KernelMemorySpec Terminal Output.
Local Open Scope N_scope.

Module Task.

(** The selectors of [gdt.rs]. *)
Definition KERNEL_CODE_SELECTOR : N := 0x08.
Definition KERNEL_DATA_SELECTOR : N := 0x10.

(** The fields of [CtxData] but the stack, of 8192 bytes; its size. *)
Record CtxData := mkCtxData { parameter : N; this : Context.Context; main : Context.Context }.
Definition CTX_DATA_SIZE : N := 8 + 2 * Context.CONTEXT_SIZE + 8192.

(** The frame of [task_main] on the stack of the task: none before it runs,
    then that of its loop, with [count], in the call of [switch_context]. *)
Inductive task_point := AtStart | InLoop (count : N).

#[export] Instance task_point_eq_dec : EqDecision task_point.
Proof. solve_decision. Defined.
#[export] Instance context_eq_dec : EqDecision Context.Context.
Proof. solve_decision. Defined.

(** *** The switches

    [switch_context(&mut data.main, &data.this)] and the way back: the
    registers of the caller, as they are after the call, are saved, and those
    of the other context loaded. *)
Definition switch_to_task (regs : Context.Context) (d : CtxData) : Context.Context * CtxData :=
  (this d, mkCtxData (parameter d) (this d) regs).
Definition switch_to_main (regs : Context.Context) (d : CtxData) : Context.Context * CtxData :=
  (main d, mkCtxData (parameter d) regs (main d)).

(** [*CTX_PTR], the data behind it, the task's frame, and the allocator. *)
Record world := mkWorld { ctx_ptr : N; ctx_data : CtxData; task : task_point; kern : kernel }.

Section task.
Context `{NumInteger}.
(** The address of [task_main], the flags of the moment, the end of the stack
    in [CtxData], and the registers with which the compiled code goes on
    behind its calls of [switch_context]: the task in each iteration, and
    [test_task]. *)
Context (task_main_addr rflags_now stack_end : N) (task_regs : N → Context.Context) (main_regs : Context.Context).

Definition hello_line (p : N) : call := println [bytes "hello task(parameter="; decimal p; bytes ")"].
Definition loop_line (count sp : N) : call :=
  println [bytes "task loop #"; decimal count; bytes ", rsp="; hex sp].

(** One round of the loop of [task_main], with the switch at its end; the
    answer is what was printed, the frame, and the registers that the switch
    loads.  [count] is an [i32]. *)
Definition task_loop (count : N) (d : CtxData) : result (list call * task_point * Context.Context * CtxData) :=
  c ← checked_add (2 ^ 31) count 1;
  let '(regs, d') := switch_to_main (task_regs count) d in
  Ok ([loop_line count (Context.rsp (this d))], InLoop c, regs, d').

Definition task_main (d : CtxData) : result (list call * task_point * Context.Context * CtxData) :=
  '(out, pt, regs, d') ← task_loop 1 d;
  Ok (hello_line (parameter d) :: out, pt, regs, d').

(** Registers with which the task can start: at [task_main], in kernel mode,
    with segments that can be loaded, on the task's stack. *)
Definition can_start (data_raw : N) (regs : Context.Context) : bool :=
  let seg s := (s =? 0) || (s =? KERNEL_DATA_SELECTOR) in
  (Context.rip regs =? task_main_addr) && (Context.cs regs =? KERNEL_CODE_SELECTOR) &&
  (Context.ss regs =? KERNEL_DATA_SELECTOR) && seg (Context.ds regs) && seg (Context.es regs) &&
  seg (Context.fs regs) && seg (Context.gs regs) && (Context.rsp regs =? data_raw + stack_end).

(** What runs from a switch that loads [regs] until the next one; the
    argument of [task_main] has to point to the data. *)
Definition run_task (data_raw : N) (regs : Context.Context) (pt : task_point) (d : CtxData)
    : result (list call * task_point * Context.Context * CtxData) :=
  match pt with
  | InLoop count => if decide (regs = task_regs (count - 1)) then task_loop count d else Panic UB
  | AtStart => if can_start data_raw regs && (Context.rdi regs =? data_raw) then task_main d else Panic UB
  end.

(** The context of a fresh task; its memory is zeroed. *)
Definition first_context (data_raw : N) : Context.Context :=
  let sp := (data_raw + stack_end)%N in
  Context.mkContext KERNEL_DATA_SELECTOR KERNEL_DATA_SELECTOR KERNEL_DATA_SELECTOR KERNEL_DATA_SELECTOR
    0 0 0 0 0 0 0 0 0 data_raw 0 0 0 0 sp
    task_main_addr KERNEL_CODE_SELECTOR rflags_now sp KERNEL_DATA_SELECTOR.

(** The block [if *ctx_ptr == 0]. *)
Definition start_task (w : world) : result world :=
  if ctx_ptr w =? 0 then
    '(r, k) ← alloc_zero CTX_DATA_SIZE (kern w);
    data_raw ← expect r;
    Ok (mkWorld data_raw (mkCtxData 42 (first_context data_raw) Context.context_new) AtStart k)
  else Ok w.

(** The stack of the task is gone with its memory.  After the switch back
    the code behind the switch to the task goes on if its registers are
    loaded. *)
Definition test_task (quit : bool) (w : world) : result (list call * world) :=
  if quit then
    if negb (ctx_ptr w =? 0) then
      k ← deallocate (ctx_ptr w) CTX_DATA_SIZE (kern w);
      Ok ([], mkWorld 0 (ctx_data w) AtStart k)
    else Ok ([], w)
  else
    w ← start_task w;
    let '(regs, d) := switch_to_task main_regs (ctx_data w) in
    '(out, pt, regs, d) ← run_task (ctx_ptr w) regs (task w) d;
    if decide (regs = main_regs) then Ok (out, mkWorld (ctx_ptr w) d pt (kern w)) else Panic UB.

(** [n] calls in a row. *)
Fixpoint test_task_times (n : nat) (w : world) : result (list call * world) :=
  match n with
  | O => Ok ([], w)
  | S n => '(out, w) ← test_task false w; '(out', w) ← test_task_times n w; Ok (out ++ out', w)
  end.

(** ** Correctness *)

(** A call that resumes the task, as long as the counter is in range. *)
Lemma resume_round data_raw d kn i :
  data_raw ≠ 0 → 1 ≤ i → i + 1 < 2 ^ 31 → this d = task_regs (i - 1) →
  test_task false (mkWorld data_raw d (InLoop i) kn) =
    Ok ([loop_line i (Context.rsp (this d))],
        mkWorld data_raw (mkCtxData (parameter d) (task_regs i) main_regs) (InLoop (i + 1)) kn).
Proof.
  change (2 ^ 31) with 2147483648. intros Hne Hi Hb Hd. unfold test_task, start_task. cbn [ctx_ptr].
  rewrite (proj2 (N.eqb_neq _ _) Hne). mred. unfold switch_to_task. cbn [ctx_data ctx_ptr task run_task kern].
  destruct (decide (this d = task_regs (i - 1))) as [_|]; [|done]. unfold task_loop.
  rewrite checked_add_Ok by (change (2 ^ 31) with 2147483648; lia). mred. cbn [this parameter Task.main switch_to_main].
  mred.
  by destruct (decide (main_regs = main_regs)).
Qed.

(** The call that starts it. *)
Lemma first_round w a kn1 :
  ctx_ptr w = 0 → alloc_zero CTX_DATA_SIZE (kern w) = Ok (Some a, kn1) →
  start_task w = Ok (mkWorld a (mkCtxData 42 (first_context a) Context.context_new) AtStart kn1) ∧
  test_task false w =
    Ok ([hello_line 42; loop_line 1 (a + stack_end)], mkWorld a (mkCtxData 42 (task_regs 1) main_regs) (InLoop 2) kn1).
Proof.
  intros Hw Hal. assert (start_task w = Ok (mkWorld a (mkCtxData 42 (first_context a) Context.context_new) AtStart kn1)) as Hs.
  { unfold start_task. rewrite Hw, N.eqb_refl, Hal. done. }
  split; [done|]. unfold test_task. rewrite Hs. mred. unfold switch_to_task.
  cbn [ctx_data ctx_ptr task run_task kern this parameter]. unfold can_start.
  cbn [first_context Context.rip Context.cs Context.ss Context.ds Context.es Context.fs Context.gs Context.rsp Context.rdi].
  rewrite !N.eqb_refl, !orb_true_r. cbn [andb]. unfold task_main, task_loop.
  rewrite checked_add_Ok by done. mred.
  cbn [this parameter Task.main switch_to_main]. mred.
  by destruct (decide (main_regs = main_regs)).
Qed.

(** The stack pointer printed in round [i]: of the fresh context, then of the
    round before. *)
Definition sp_in_round (data_raw i : N) : N :=
  if i =? 1 then data_raw + stack_end else Context.rsp (task_regs (i - 1)).

Lemma task_rounds n data_raw d kn i :
  data_raw ≠ 0 → 1 < i → i + N.of_nat n < 2 ^ 31 → this d = task_regs (i - 1) →
  ∃ d', test_task_times n (mkWorld data_raw d (InLoop i) kn) =
    Ok ((λ j, loop_line j (sp_in_round data_raw j)) <$> range i (i + N.of_nat n),
        mkWorld data_raw d' (InLoop (i + N.of_nat n)) kn).
Proof.
  intros Hne. revert d i. induction n as [|n IH]; intros d i Hi Hb Hd.
  { exists d. cbn [test_task_times N.of_nat]. by rewrite N.add_0_r, range_nil. }
  cbn [test_task_times]. rewrite resume_round by (done || lia). mred.
  destruct (IH (mkCtxData (parameter d) (task_regs i) main_regs) (i + 1)) as (d' & ->); [lia|lia| |].
  { cbn [this]. f_equal. lia. }
  mred. exists d'. rewrite (range_cons i (i + N.of_nat (S n))) by lia. cbn [fmap list_fmap app].
  unfold sp_in_round at 2. rewrite (proj2 (N.eqb_neq _ _)) by lia. rewrite Hd.
  by replace (i + 1 + N.of_nat n) with (i + N.of_nat (S n)) by lia.
Qed.

(** C24: without a task, [test_task(false)] allocates once and prepares a
    context that starts [task_main] in kernel mode, with the kernel's
    selectors, the flags of the moment, the data as argument and the end of
    the data's stack as stack and frame pointer.  [n] calls in a row switch to
    it and back, each going on where the last one left, and print the
    greeting and the rounds 1 to [n]; [test_task(true)] then gives the memory
    back, so that the allocator is in the state before, and a further call
    starts over. *)
Theorem test_task_session d d' w live a kn1 n :
  booted d d' → BuddySpec.reachable (buddyblock d') (buddyblock (data (kern w))) live →
  ctx_ptr w = 0 → alloc_zero CTX_DATA_SIZE (kern w) = Ok (Some a, kn1) → N.of_nat n + 2 < 2 ^ 31 →
  (∃ w0, start_task w = Ok w0 ∧ ctx_ptr w0 = a ∧ parameter (ctx_data w0) = 42 ∧
    this (ctx_data w0) =
      Context.mkContext 0x10 0x10 0x10 0x10 0 0 0 0 0 0 0 0 0 a 0 0 0 0 (a + stack_end)
        task_main_addr 0x08 rflags_now (a + stack_end) 0x10) ∧
  ∃ w1 w2, test_task_times (S n) w =
      Ok (hello_line 42 :: ((λ j, loop_line j (sp_in_round a j)) <$> range 1 (N.of_nat n + 2)), w1) ∧
    ctx_ptr w1 = a ∧ kern w1 = kn1 ∧
    test_task true w1 = Ok ([], w2) ∧ ctx_ptr w2 = 0 ∧
    buddyblock (data (kern w2)) = buddyblock (data (kern w)) ∧
    ∃ w3, test_task false w2 = Ok ([hello_line 42; loop_line 1 (a + stack_end)], w3).
Proof.
  intros Hb Hr Hw Hal Hn. destruct (first_round w a kn1 Hw Hal) as [Hs Hf].
  split; [eexists; split; [exact Hs|done]|].
  assert (BuddySpec.request_ok CTX_DATA_SIZE) as Hreq by (split; vm_compute; [reflexivity|discriminate]).
  destruct (alloc_zero_run d d' (kern w) live CTX_DATA_SIZE Hb Hr Hreq) as (r & k1 & Hal' & Hrun).
  rewrite Hal in Hal'. injection Hal' as <- <-. destruct Hrun as (Hlo & _).
  assert (a ≠ 0) as Ha by lia.
  assert (∃ b, Buddy.alloc (buddyblock (data (kern w))) CTX_DATA_SIZE = Ok (Some a, b) ∧ buddyblock (data kn1) = b) as (b & Hba & Hbb).
  { unfold alloc_zero in Hal. destruct (Buddy.alloc _ _) as [[[x|] b]|]; revert Hal; mred; [|done|done].
    intros [= -> <-]. by exists b. }
  pose proof (BuddySpec.round_trip_run _ _ _ _ _ (booted_fresh d d' Hb) Hr _ _ _ Hreq Hba) as Hrt.
  cbn [test_task_times]. rewrite Hf. mred.
  destruct (task_rounds n a (mkCtxData 42 (task_regs 1) main_regs) kn1 2) as (dn & Htimes); [done|lia|lia|done|].
  rewrite Htimes. mred. eexists _, _. split.
  { replace (N.of_nat n + 2) with (2 + N.of_nat n) by lia. rewrite (range_cons 1) by lia. done. }
  split; [done|]. split; [done|]. split; [|split; [|split]].
  - unfold test_task. cbn [ctx_ptr kern]. rewrite (proj2 (N.eqb_neq _ _) Ha). cbn [negb].
    unfold deallocate. rewrite Hbb, Hrt. mred. done.
  - done.
  - done.
  - eexists. eapply first_round; [done|]. cbn [kern]. unfold alloc_zero. cbn [data set_buddy buddyblock]. rewrite Hba. mred. done.
Qed.

End task.

(** ** The instructions *)

(** Where the compiler places the fields of [CtxData], each context apart
    from the other and from the parameter. *)
Record layout := mkLayout { off_parameter : N; off_this : N; off_main : N }.
Definition apart (a m b n : N) : Prop := a + m ≤ b ∨ b + n ≤ a.
Record layout_ok (l : layout) : Prop := {
  lo_contexts : apart (off_this l) Context.CONTEXT_SIZE (off_main l) Context.CONTEXT_SIZE;
  lo_this : apart (off_parameter l) 8 (off_this l) Context.CONTEXT_SIZE;
  lo_main : apart (off_parameter l) 8 (off_main l) Context.CONTEXT_SIZE;
}.

(** Memory holds the data at [p]. *)
Definition data_at (l : layout) (w : N → N) (p : N) (d : CtxData) : Prop :=
  w (p + off_parameter l) = parameter d ∧
  ContextSpec.context_at w (p + off_this l) (this d) ∧ ContextSpec.context_at w (p + off_main l) (main d).

(** The stack of the caller does not meet the words of a field. *)
Definition stack_apart (s : Context.machine) (a n : N) : Prop :=
  a + n ≤ Context.reg_of s Context.RSP - 24 ∨ Context.reg_of s Context.RSP ≤ a.

Lemma context_kept w w' p c :
  (∀ a, p ≤ a < p + Context.CONTEXT_SIZE → w' a = w a) → ContextSpec.context_at w p c → ContextSpec.context_at w' p c.
Proof.
  intros Hw Hc i v Hi. assert (i < 24)%nat by (by apply lookup_lt_Some in Hi).
  rewrite Hw by (unfold Context.CONTEXT_SIZE; lia). by apply Hc.
Qed.

Section instructions.
Context (alu_flags : N → N → N) (l : layout) (Hl : layout_ok l) (p : N) (d : CtxData) (s : Context.machine).
Context (Hdata : data_at l (Context.words s) p d) (Hcall : ContextSpec.call_ok s).
Context (Hparam : stack_apart s (p + off_parameter l) 8).
Abbreviation switched := (Context.switch_context alu_flags s).
Abbreviation regs_after := (ContextSpec.after_call s).

(** [switch_context(&mut data.main, &data.this)] in memory. *)
Lemma switch_to_task_runs :
  Context.reg_of s Context.RDI = p + off_main l → Context.reg_of s Context.RSI = p + off_this l →
  p + off_this l + Context.CONTEXT_SIZE < W64 → stack_apart s (p + off_this l) Context.CONTEXT_SIZE →
  ContextSpec.selectors_ok (this d) →
  Context.regs switched = (switch_to_task regs_after d).1 ∧
  data_at l (Context.words switched) p (switch_to_task regs_after d).2.
Proof using All.
  intros Hdi Hsi Hw Hst Hsel. destruct Hdata as (Hp & Ht & Hm), Hl as [Lc Lt Lm]. unfold apart, stack_apart in *.
  destruct (ContextSpec.switch_run alu_flags s (this d) Hcall) as (w & -> & Hsaved & Hsame).
  { split_and!; rewrite ?Hsi, ?Hdi; [done|done|done|lia|done]. }
  rewrite Hdi in Hsaved, Hsame. split; [done|]. unfold data_at. cbn [switch_to_task snd parameter this main Context.words].
  split_and!; [rewrite Hsame by lia; done| |done].
  eapply context_kept; [|exact Ht]. intros a Ha. apply Hsame; lia.
Qed.

(** [switch_context(&mut data.this, &data.main)] in memory. *)
Lemma switch_to_main_runs :
  Context.reg_of s Context.RDI = p + off_this l → Context.reg_of s Context.RSI = p + off_main l →
  p + off_main l + Context.CONTEXT_SIZE < W64 → stack_apart s (p + off_main l) Context.CONTEXT_SIZE →
  ContextSpec.selectors_ok (main d) →
  Context.regs switched = (switch_to_main regs_after d).1 ∧
  data_at l (Context.words switched) p (switch_to_main regs_after d).2.
Proof using All.
  intros Hdi Hsi Hw Hst Hsel. destruct Hdata as (Hp & Ht & Hm), Hl as [Lc Lt Lm]. unfold apart, stack_apart in *.
  destruct (ContextSpec.switch_run alu_flags s (main d) Hcall) as (w & -> & Hsaved & Hsame).
  { split_and!; rewrite ?Hsi, ?Hdi; [done|done|done|lia|done]. }
  rewrite Hdi in Hsaved, Hsame. split; [done|]. unfold data_at. cbn [switch_to_main snd parameter this main Context.words].
  split_and!; [rewrite Hsame by lia; done|done|].
  eapply context_kept; [|exact Hm]. intros a Ha. apply Hsame; lia.
Qed.

(** C40: the switches of the test task are what [context.S] does: with the
    data in memory and the machine at the entry of [switch_context], called
    with its two contexts in either order, the registers afterwards are those
    the switch of the model loads, and memory holds the data as the model
    leaves it, whatever the place and the order of the fields. *)
Theorem switches_run :
  stack_apart s (p + off_this l) Context.CONTEXT_SIZE → stack_apart s (p + off_main l) Context.CONTEXT_SIZE →
  p + off_this l + Context.CONTEXT_SIZE < W64 → p + off_main l + Context.CONTEXT_SIZE < W64 →
  ContextSpec.selectors_ok (this d) → ContextSpec.selectors_ok (main d) →
  (Context.reg_of s Context.RDI = p + off_main l → Context.reg_of s Context.RSI = p + off_this l →
    Context.regs switched = (switch_to_task regs_after d).1 ∧ data_at l (Context.words switched) p (switch_to_task regs_after d).2) ∧
  (Context.reg_of s Context.RDI = p + off_this l → Context.reg_of s Context.RSI = p + off_main l →
    Context.regs switched = (switch_to_main regs_after d).1 ∧ data_at l (Context.words switched) p (switch_to_main regs_after d).2).
Proof using All.
  intros. split; intros; [by apply switch_to_task_runs|by apply switch_to_main_runs].
Qed.
End instructions.

(** ** An example: three rounds on a fresh kernel *)
Definition demo_world : world := mkWorld 0 (mkCtxData 0 Context.context_new Context.context_new) AtStart demo_kernel.
Definition demo_regs : N → Context.Context := λ n, Context.set Context.RSP (0x5000 - n) Context.context_new.

Lemma test_task_session_witness :
  ∃ a w1 w2, test_task_times 0x400000 518 8584 demo_regs Context.context_new 3 demo_world =
      Ok ([hello_line 42; loop_line 1 (a + 8584); loop_line 2 0x4fff; loop_line 3 0x4ffe], w1) ∧
    test_task 0x400000 518 8584 demo_regs Context.context_new true w1 = Ok ([], w2) ∧
    buddyblock (data (kern w2)) = buddyblock (data demo_kernel).
Proof.
  assert (∃ a kn1, alloc_zero CTX_DATA_SIZE demo_kernel = Ok (Some a, kn1)) as (a & kn1 & Hal).
  { unfold alloc_zero. destruct (Buddy.alloc _ _) as [[[a|] b]|] eqn:Ha; [eexists _, _; reflexivity| |];
      vm_compute in Ha; discriminate Ha. }
  destruct (test_task_session 0x400000 518 8584 demo_regs Context.context_new demo_data demo_booted demo_world ∅ a kn1 2)
    as (_ & w1 & w2 & Hrun & _ & _ & Hquit & _ & Hb & _).
  - exact demo_is_booted.
  - apply BuddySpec.reach_start.
  - reflexivity.
  - exact Hal.
  - vm_compute. reflexivity.
  - exists a, w1, w2. split; [exact Hrun|]. split; [exact Hquit|exact Hb].
Defined.

(** The data of the example of the context switch: its caller's context at
    [0x1000], the other one at [0x2000]. *)
Definition demo_layout : layout := mkLayout 0 0x1200 0x200.
Definition demo_data_at : CtxData := mkCtxData 0 ContextSpec.demo_target Context.context_new.

Lemma switches_run_witness :
  Context.regs (Context.switch_context ContextSpec.keep_flags ContextSpec.demo_machine) = ContextSpec.demo_target ∧
  data_at demo_layout (Context.words (Context.switch_context ContextSpec.keep_flags ContextSpec.demo_machine)) 0xe00
    (mkCtxData 0 ContextSpec.demo_target (ContextSpec.after_call ContextSpec.demo_machine)).
Proof.
  apply (switches_run ContextSpec.keep_flags demo_layout) with (p := 0xe00) (d := demo_data_at).
  - split; vm_compute; (left + right); discriminate.
  - split_and!; [reflexivity|apply ContextSpec.demo_target_ok|].
    apply ContextSpec.demo_context. intros i Hi. cbn [Context.words ContextSpec.demo_machine demo_data_at main].
    unfold ContextSpec.demo_words. rewrite (proj2 (N.leb_gt 0x2000 _)) by (cbn; lia).
    rewrite (proj2 (N.eqb_neq _ _)) by (cbn; lia). cbn [andb].
    assert (∀ j, (j < 24)%nat → default 0 (Context.fields Context.context_new !! j) = 0) as Hz.
    { intros j Hj. do 24 (destruct j as [|j]; [reflexivity|]). lia. }
    by rewrite Hz by lia.
  - exact ContextSpec.demo_call.
  - left. vm_compute. discriminate.
  - left. vm_compute. discriminate.
  - left. vm_compute. discriminate.
  - vm_compute. reflexivity.
  - vm_compute. reflexivity.
  - apply ContextSpec.demo_target_ok.
  - vm_compute. by split_and!.
  - reflexivity.
  - reflexivity.
Defined.

End Task.
