(* ===== verification/Interrupts.v ===== *)
(** * Descriptor tables and timer

    [kernel/src/idt.rs], [gdt.rs] and the set-up of [pit.rs]: which handler
    each interrupt reaches, what the handlers print, and the selectors. *)
From stdpp Require Import pretty.
From S2P Require Import Prelude RingBuffer Terminal Output Pic.
Import Terminal Output Pic.
Local Open Scope N_scope.

Module Interrupts.

(** ** Handlers *)
Inductive handler :=
  | divide_error | debug | nmi | breakpoint | overflow | bound_range_exceeded | invalid_opcode | device_not_available
  | double_fault | invalid_tss | segment_not_present | stack_segment_fault | general_protection_fault | page_fault
  | x87_floating_point | alignment_check | machine_check | simd_floating_point | virtualization
  | vmm_communication_exception | security_exception
  | unknown | timer | keyboard.

#[export] Instance handler_eq_dec : EqDecision handler.
Proof. solve_decision. Defined.

Record InterruptStackFrame := mkFrame {
  code_segment : N; instruction_pointer : N; stack_segment : N; stack_pointer : N; cpu_flags : N;
}.

(** [StackFrame] formatted. *)
Definition stack_frame_text (f : InterruptStackFrame) : list N :=
  bytes "cs:ip=" ++ hex_zeros 6 (code_segment f) ++ bytes ":" ++ hex_zeros 18 (instruction_pointer f) ++
  bytes ", ss:sp=" ++ hex_zeros 6 (stack_segment f) ++ bytes ":" ++ hex_zeros 18 (stack_pointer f) ++
  bytes ", rflags=" ++ hex_zeros 18 (cpu_flags f).

(** The message of a handler that panics; [None] for those that return.  The
    error code of the page fault is formatted by the crate [x86_64]. *)
Definition panic_text (pf_text : N → list N) (cr2 : N) (h : handler) (f : InterruptStackFrame) (error_code : N)
    : option (list N) :=
  let plain s := Some (bytes s ++ bytes " " ++ stack_frame_text f) in
  let code s := Some (bytes s ++ bytes ":" ++ hex_zeros 18 error_code ++ bytes " " ++ stack_frame_text f) in
  match h with
  | divide_error => plain "#DE" | debug => plain "#DB" | nmi => plain "#NMI" | breakpoint => plain "#BP"
  | overflow => plain "#OF" | bound_range_exceeded => plain "#BR" | invalid_opcode => plain "#UD"
  | device_not_available => plain "#NM"
  | double_fault => code "#DF" | invalid_tss => code "#TS" | segment_not_present => code "#NP"
  | stack_segment_fault => code "#SS" | general_protection_fault => code "#GP"
  | page_fault =>
      Some (bytes "#PF:" ++ pf_text error_code ++ bytes " access=" ++ hex_zeros 18 cr2 ++ bytes " " ++ stack_frame_text f)
  | x87_floating_point => plain "#MF" | alignment_check => code "#AC" | machine_check => plain "#MC"
  | simd_floating_point => plain "#XF" | virtualization => plain "#VE"
  | vmm_communication_exception => code "#VC" | security_exception => code "#SX"
  | unknown => plain "#UNKNOWN"
  | timer | keyboard => None
  end.

(** Handlers that take an error code. *)
Definition takes_error_code (h : handler) : bool :=
  match h with
  | double_fault | invalid_tss | segment_not_present | stack_segment_fault | general_protection_fault | page_fault
  | alignment_check | vmm_communication_exception | security_exception => true
  | _ => false
  end.

(** ** The table

    The fields of the crate's [InterruptDescriptorTable] are the vectors of
    the processor's exceptions; a gate may name an interrupt stack. *)
Definition DOUBLE_FAULT_IST_INDEX : N := 0.

Record gate := mkGate { gate_handler : handler; gate_stack : option N }.
Definition idt_table := N → option gate.

Definition set_gate (v : N) (g : gate) (t : idt_table) : idt_table := λ x, if x =? v then Some g else t x.
Definition set_handler_fn (v : N) (h : handler) (t : idt_table) : idt_table := set_gate v (mkGate h None) t.

Definition exceptions : list (N * handler) :=
  [(0, divide_error); (1, debug); (2, nmi); (3, breakpoint); (4, overflow); (5, bound_range_exceeded);
   (6, invalid_opcode); (7, device_not_available); (8, double_fault); (10, invalid_tss); (11, segment_not_present);
   (12, stack_segment_fault); (13, general_protection_fault); (14, page_fault); (16, x87_floating_point);
   (17, alignment_check); (18, machine_check); (19, simd_floating_point); (20, virtualization);
   (29, vmm_communication_exception); (30, security_exception)].

Definition IDT : result idt_table :=
  let t := λ _, None in
  let t := foldl (λ t e, set_handler_fn e.1 e.2 t) t exceptions in
  let t := set_gate 8 (mkGate double_fault (Some DOUBLE_FAULT_IST_INDEX)) t in
  let t := foldl (λ t i, set_handler_fn i unknown t) t (range 32 256) in
  i ← as_intn TIMER;
  let t := set_handler_fn i timer t in
  i ← as_intn KEYBOARD;
  Ok (set_handler_fn i keyboard t).

(** Exceptions for which the processor pushes an error code. *)
Definition pushes_error_code (v : N) : bool :=
  bool_decide (v ∈ [8; 10; 11; 12; 13; 14; 17; 21; 29; 30]).

(** ** [gdt.rs]

    The crate's table: a descriptor is appended behind the others, one of
    the system takes two places; its selector is eight times its place. *)
Definition KERNEL_CODE_SELECTOR : N := 0x08.
Definition KERNEL_DATA_SELECTOR : N := 0x10.
Definition KERNEL_TSS_SELECTOR : N := 0x18.
Definition STACK_SIZE : N := 8192.

Inductive descriptor := kernel_code_segment | kernel_data_segment | tss_segment (stack_top : N).

Class GlobalDescriptorTable (G : Type) := {
  gdt_new : G;
  append : descriptor → G → N * G;
  gdt_places : G → N;
  gdt_new_places : gdt_places gdt_new = 1;
  append_selector d g : (append d g).1 = 8 * gdt_places g;
  append_places d g : gdt_places (append d g).2 =
    gdt_places g + match d with tss_segment _ => 2 | _ => 1 end;
}.

Record Selectors := mkSelectors { sel_code : N; sel_data : N; sel_tss : N }.

(** [stack] is the address of the static stack. *)
Definition GDT `{GlobalDescriptorTable G} (stack : N) : G * Selectors :=
  let '(code, g) := append kernel_code_segment gdt_new in
  let '(data, g) := append kernel_data_segment g in
  let '(tss, g) := append (tss_segment (stack + STACK_SIZE)) g in
  (g, mkSelectors code data tss).

(** The segment registers and the task register after [init_gdt]. *)
Record segments := mkSegments { seg_ds : N; seg_es : N; seg_fs : N; seg_gs : N; seg_ss : N; seg_cs : N; task_register : N }.
Definition init_gdt (s : Selectors) : segments :=
  mkSegments (sel_data s) (sel_data s) (sel_data s) (sel_data s) (sel_data s) (sel_code s) (sel_tss s).

(** ** [pit.rs]: the writes to the ports *)
Definition TIMER_FREQ : N := 1000.
Definition PIT_FREQ : N := 1193180.
Definition PIT_PORT_CTRL : N := 0x43.
Definition PIT_PORT_CNT0 : N := 0x40.
Definition PIT_CTRL_CNT0 : N := 0x00.
Definition PIT_CTRL_LSBMSBRW : N := 0x00.
Definition PIT_CTRL_MODE0 : N := 0x00.
Definition PIT_CTRL_BINARY : N := 0x00.

Definition init_pit : list (N * N) :=
  let count := ((PIT_FREQ / TIMER_FREQ) mod W16)%N in
  [(PIT_PORT_CTRL, N.lor (N.lor (N.lor PIT_CTRL_CNT0 PIT_CTRL_LSBMSBRW) PIT_CTRL_MODE0) PIT_CTRL_BINARY);
   (PIT_PORT_CNT0, count mod 256); (PIT_PORT_CNT0, N.shiftr count 8 mod 256)].

(** ** What the tables promise *)

(** The vectors without a gate: reserved ones, and those of exceptions that
    the kernel does not enable. *)
Definition no_gate (v : N) : bool := bool_decide (v ∈ [9; 15; 21; 22; 23; 24; 25; 26; 27; 28; 31]) || (256 <=? v).

Definition gate_ok (t : idt_table) (v : N) : bool :=
  match t v with
  | None => no_gate v
  | Some g => negb (no_gate v) && eqb (takes_error_code (gate_handler g)) (pushes_error_code v) &&
      bool_decide (gate_handler g = unknown ↔ 34 ≤ v)
  end.

Lemma set_gates_other l h t v : (∀ i, i ∈ l → i ≠ v) → foldl (λ t i, set_handler_fn i h t) t l v = t v.
Proof.
  revert t. induction l as [|i l IH]; intros t Hl; [done|]. cbn [foldl]. rewrite IH by (intros j Hj; apply Hl; by right).
  unfold set_handler_fn, set_gate. destruct (N.eqb_spec v i) as [->|]; [|done]. destruct (Hl i); [left|done].
Qed.

Lemma IDT_run : ∃ t, IDT = Ok t ∧ t 32 = Some (mkGate timer None) ∧ t 33 = Some (mkGate keyboard None) ∧
  t 8 = Some (mkGate double_fault (Some 0)) ∧ ∀ v, gate_ok t v = true.
Proof.
  unfold IDT. change (as_intn TIMER) with (@Ok N 32). change (as_intn KEYBOARD) with (@Ok N 33). mred.
  eexists. split; [reflexivity|]. split; [reflexivity|]. split; [reflexivity|]. split; [vm_compute; reflexivity|].
  set (t := set_handler_fn 33 keyboard _). intros v. destruct (N.lt_ge_cases v 256) as [Hv|Hv].
  - assert (Forall (λ v, gate_ok t v = true) (range 0 256)) as Hall.
    { apply Forall_forall. assert (forallb (gate_ok t) (range 0 256) = true) as Hb by (vm_compute; reflexivity).
      rewrite forallb_forall in Hb. exact Hb. }
    rewrite list.Forall_forall in Hall. apply Hall. apply elem_of_range. lia.
  - assert (t v = None) as Ht.
    { unfold t. unfold set_handler_fn at 1 2, set_gate at 1 2.
      rewrite (proj2 (N.eqb_neq v 33)), (proj2 (N.eqb_neq v 32)) by lia.
      rewrite set_gates_other by (intros i Hi%elem_of_range; lia).
      unfold set_gate at 1. rewrite (proj2 (N.eqb_neq v 8)) by lia. unfold exceptions. cbn [foldl fst snd].
      unfold set_handler_fn, set_gate. by repeat rewrite (proj2 (N.eqb_neq v _)) by lia. }
    unfold gate_ok. rewrite Ht. unfold no_gate. rewrite (proj2 (N.leb_le 256 v) Hv). apply orb_true_r.
Qed.

(** C23: with the mask that [kmain] sets, the only lines that can raise an
    interrupt are the timer's, the keyboard's and the cascade, and the first
    two reach their handlers; every gate's handler takes an error code
    exactly if the processor pushes one, the gates missing are those of
    reserved or unused vectors, and a double fault gets a stack of its own. *)
Theorem interrupts_dispatched `{ChainedPics P} :
  ∃ t, IDT = Ok t ∧
    (∀ v g, t v = Some g → takes_error_code (gate_handler g) = pushes_error_code v) ∧
    (∀ v, t v = None ↔ no_gate v = true) ∧
    t 8 = Some (mkGate double_fault (Some DOUBLE_FAULT_IST_INDEX)) ∧
    let p := set_mask (mask_or (mask_or (mask_bit TIMER) (mask_bit KEYBOARD)) (mask_bit SLAVE)) (init_pic PIC) in
    ∀ n, n < 16 → line_enabled p n = true →
      (n = irq_code TIMER ∧ (line_vector p n ≫= t) = Some (mkGate timer None)) ∨
      (n = irq_code KEYBOARD ∧ (line_vector p n ≫= t) = Some (mkGate keyboard None)) ∨
      n = irq_code SLAVE.
Proof.
  destruct IDT_run as (t & Ht & H32 & H33 & H8 & Hok). exists t. split; [done|].
  assert (∀ v, gate_ok t v = true) as Hok' by done. unfold gate_ok in Hok'.
  split_and!; [| |done|].
  - intros v g Hg. specialize (Hok' v). rewrite Hg in Hok'. rewrite !andb_true_iff in Hok'.
    destruct Hok' as [[_ He] _]. by apply eqb_prop.
  - intros v. specialize (Hok' v). destruct (t v) as [g|]; split; try done.
    intros Hn. rewrite Hn in Hok'. done.
  - cbv zeta. intros n Hn. rewrite set_mask_lines by done. unfold mask_or. rewrite !N.lor_spec, !mask_bit_testbit.
    rewrite !orb_true_iff, !N.eqb_eq.
    pose proof (set_mask_remapped (mask_or (mask_or (mask_bit TIMER) (mask_bit KEYBOARD)) (mask_bit SLAVE)) _ init_pic_remapped) as Hr.
    unfold mask_or in Hr. intros [[->| ->]| ->]; [left|right; left|by right; right];
      (split; [done|]); rewrite (proj2 (as_intn_vector _ _ Hr)); done.
Qed.

(** The selectors that tables and tasks use are the ones of the table. *)
Lemma gdt_selectors `{GlobalDescriptorTable G} stack :
  (GDT (G := G) stack).2 = mkSelectors KERNEL_CODE_SELECTOR KERNEL_DATA_SELECTOR KERNEL_TSS_SELECTOR.
Proof.
  unfold GDT. pose proof (append_selector kernel_code_segment (gdt_new (G := G))) as S1.
  pose proof (append_places kernel_code_segment (gdt_new (G := G))) as P1. rewrite gdt_new_places in S1, P1.
  destruct (append kernel_code_segment gdt_new) as [code g1]. simpl in S1, P1.
  pose proof (append_selector kernel_data_segment g1) as S2. pose proof (append_places kernel_data_segment g1) as P2.
  destruct (append kernel_data_segment g1) as [data g2]. simpl in S2, P2. rewrite P1 in S2, P2.
  pose proof (append_selector (tss_segment (stack + STACK_SIZE)) g2) as S3.
  destruct (append (tss_segment (stack + STACK_SIZE)) g2) as [tss g3]. simpl in S3 |- *. rewrite P2 in S3.
  by rewrite S1, S2, S3.
Qed.

(** The divisor of the timer reaches the port in two bytes, the low one first. *)
Lemma pit_count : ∃ lo hi, init_pit = [(PIT_PORT_CTRL, 0); (PIT_PORT_CNT0, lo); (PIT_PORT_CNT0, hi)] ∧
  lo + 256 * hi = PIT_FREQ / TIMER_FREQ.
Proof. exists 169, 4. split; vm_compute; reflexivity. Qed.

(** A table that only counts its places, to run the definitions on examples. *)
#[export, refine] Instance gdt_example : GlobalDescriptorTable N := {
  gdt_new := 1;
  append d g := (8 * g, g + match d with tss_segment _ => 2 | _ => 1 end);
  gdt_places g := g;
}.
Proof. all: done. Defined.

End Interrupts.
