(* ===== verification/PanicScreen.v ===== *)
(** * The panic handler and [FixedWriter]

    The handler of [kernel/src/terminal.rs] prints through the terminal if
    it can take the lock; otherwise it formats the message into a string of
    fixed capacity, cut by [FixedWriter] of [kernel/src/fixed_writer.rs], and
    writes it over the screen from the top. *)
From stdpp Require Import pretty.
From S2P Require Import Prelude RingBuffer Terminal TerminalScreen TerminalStatus TerminalGrid TerminalEdit TerminalSpec.
Import Terminal TerminalScreen TerminalGrid TerminalSpec.
Local Open Scope N_scope.

Module PanicScreen.

(** A [char] as its bytes in UTF-8. *)
Definition char := list N.

(** ** [FixedWriter]

    Over any [fmt::Write]: the characters are written one by one until one
    is refused. *)
Section fixed_writer.
Context {W : Type} (write_char : char → W → W * bool).

(** The flag tells whether all was written ([Ok]). *)
Fixpoint write_str (s : list char) (w : W) : W * bool :=
  match s with
  | [] => (w, true)
  | c :: s => let '(w, ok) := write_char c w in if ok then write_str s w else (w, false)
  end.

(** [write_fmt]: the pieces in turn, up to the first error. *)
Fixpoint write_fmt (args : list (list char)) (w : W) : W * bool :=
  match args with
  | [] => (w, true)
  | a :: args => let '(w, ok) := write_str a w in if ok then write_fmt args w else (w, false)
  end.
End fixed_writer.

(** The crate [arrayvec]: a string of at most [CAP] bytes; a character that
    does not fit is refused and leaves the string as it is. *)
Class ArrayString (A : Type) (CAP : N) := {
  as_new : A;
  as_bytes : A → list N;
  as_write_char : char → A → A * bool;
  as_new_bytes : as_bytes as_new = [];
  as_write_fits c a : vlen (as_bytes a) + vlen c ≤ CAP →
    (as_write_char c a).2 = true ∧ as_bytes (as_write_char c a).1 = as_bytes a ++ c;
  as_write_full c a : CAP < vlen (as_bytes a) + vlen c → as_write_char c a = (a, false);
}.

(** ** The handler *)
Definition SIZE : N := VIDEO_WIDTH * VIDEO_HEIGHT.

(** [chars] of the text before the message. *)
Definition ascii (s : string) : list char := (λ b, [b]) <$> bytes s.

Definition write_cell (idx ch : N) (video : list VideoRow) : result (list VideoRow) :=
  let col := (idx mod VIDEO_WIDTH)%N in
  let row := (idx / VIDEO_WIDTH)%N in
  r ← vget video row;
  r ← vset r col (mkChar ch PANIC);
  vset video row r.

(** The loop over the bytes, from index [idx] on. *)
Fixpoint write_cells (idx : N) (s : list N) (video : list VideoRow) : result (list VideoRow) :=
  match s with
  | [] => Ok video
  | ch :: s => v ← write_cell idx ch video; write_cells (idx + 1) s v
  end.

Section handler.
Context `{AV : ArrayVec V INPUT_MAXSIZE} {A : Type} `{ArrayString A SIZE}.

(** What the handler does before it halts for good: [info] are the pieces of
    the message, [locked] whether the terminal's lock is taken. *)
Definition panic (locked : bool) (info : list (list char)) (t : Terminal V) : result (Terminal V) :=
  if negb locked then
    for_each (bytes "[PANIC] " :: ((λ p : list char, concat p) <$> info)) (write_string PANIC) t
  else
    let '(s, _) := write_fmt as_write_char (ascii "[PANIC in term-lock] " :: info) as_new in
    v ← write_cells 0 (as_bytes s) (video t);
    Ok (set_video v t).

(** ** The cut *)

(** The longest prefix of characters within [room] bytes. *)
Fixpoint cut (room : N) (s : list char) : list N :=
  match s with
  | [] => []
  | c :: s => if vlen c <=? room then c ++ cut (room - vlen c) s else []
  end.

Lemma cut_length room s : vlen (cut room s) ≤ room.
Proof.
  revert room. induction s as [|c s IH]; intros room; cbn [cut]; [unfold vlen; simpl; lia|].
  destruct (N.leb_spec (vlen c) room); [|unfold vlen; simpl; lia]. rewrite vlen_app. specialize (IH (room - vlen c)). lia.
Qed.

Lemma write_str_cut s a :
  vlen (as_bytes a) ≤ SIZE →
  as_bytes (write_str as_write_char s a).1 = as_bytes a ++ cut (SIZE - vlen (as_bytes a)) s.
Proof.
  revert a. induction s as [|c s IH]; intros a Ha; cbn [write_str cut]; [by rewrite app_nil_r|].
  destruct (N.leb_spec (vlen c) (SIZE - vlen (as_bytes a))) as [Hc|Hc].
  - destruct (as_write_fits c a ltac:(lia)) as [Hok Hb]. destruct (as_write_char c a) as [a' ok]. simpl in Hok, Hb. subst ok.
    rewrite IH by (rewrite Hb, vlen_app; lia). rewrite Hb, vlen_app, <-app_assoc. by rewrite N.sub_add_distr.
  - rewrite (as_write_full c a) by lia. by rewrite app_nil_r.
Qed.

Lemma mjoin_cons {B} (l : list B) ls : mjoin (l :: ls) = l ++ mjoin ls.
Proof. done. Qed.

(** Writing piecewise is writing it all. *)
Lemma write_str_app s1 s2 a :
  write_str as_write_char (s1 ++ s2) a =
    let '(a, ok) := write_str as_write_char s1 a in if ok then write_str as_write_char s2 a else (a, false).
Proof.
  revert a. induction s1 as [|c s1 IH]; intros a; [done|]. cbn [write_str app].
  destruct (as_write_char c a) as [a' []]; [apply IH|done].
Qed.
Lemma write_fmt_concat args a : write_fmt as_write_char args a = write_str as_write_char (mjoin args) a.
Proof.
  revert a. induction args as [|s args IH]; intros a; [done|]. cbn [write_fmt]. rewrite mjoin_cons, write_str_app.
  destruct (write_str as_write_char s a) as [a' []]; [apply IH|done].
Qed.

(** ** Video memory as a sequence of cells *)
Lemma screen_cells v : Forall wide v → vlen v = VIDEO_HEIGHT → vlen (flat v) = SIZE.
Proof. intros Hw Hv. by rewrite vlen_flat, Hv. Qed.

Lemma write_cell_run idx ch v :
  Forall wide v → vlen v = VIDEO_HEIGHT → idx < SIZE →
  ∃ v', write_cell idx ch v = Ok v' ∧ Forall wide v' ∧ vlen v' = VIDEO_HEIGHT ∧
    flat v' = <[N.to_nat idx := mkChar ch PANIC]> (flat v).
Proof.
  intros Hw Hv Hi. assert (idx / VIDEO_WIDTH < vlen v) as Hrow by (rewrite Hv; unfold SIZE, VIDEO_WIDTH, VIDEO_HEIGHT in *; lia).
  pose proof (N.mod_lt idx VIDEO_WIDTH ltac:(done)) as Hcol.
  destruct (vget_is_Ok v _ Hrow) as (r & Hg & Hr). assert (wide r) as Hwr by (by eapply Forall_lookup_1).
  unfold write_cell. rewrite Hg. mred. rewrite vset_Ok by (by rewrite Hwr). mred. rewrite vset_Ok by done.
  eexists. split; [done|]. rewrite vlen_insert. split_and!; [|done|].
  - apply Forall_insert; [done|]. by apply wide_insert.
  - rewrite (flat_insert _ _ _ _ r Hw Hr) by (unfold VIDEO_WIDTH, width in *; lia).
    by rewrite cell_index.
Qed.

Lemma write_cells_run s idx v :
  Forall wide v → vlen v = VIDEO_HEIGHT → idx + vlen s ≤ SIZE →
  ∃ v', write_cells idx s v = Ok v' ∧ Forall wide v' ∧ vlen v' = VIDEO_HEIGHT ∧
    flat v' = splice (N.to_nat idx) ((λ ch, mkChar ch PANIC) <$> s) (flat v).
Proof.
  revert idx v. induction s as [|ch s IH]; intros idx v Hw Hv Hs; cbn [write_cells].
  { exists v. split_and!; [done..|]. by rewrite fmap_nil, splice_nil. }
  rewrite vlen_cons in Hs. destruct (write_cell_run idx ch v Hw Hv ltac:(lia)) as (v1 & -> & Hw1 & Hv1 & Hf1). mred.
  destruct (IH (idx + 1) v1 Hw1 Hv1 ltac:(lia)) as (v2 & -> & Hw2 & Hv2 & Hf2). exists v2. split_and!; [done..|].
  rewrite Hf2, Hf1, N.add_1_r, N2Nat.inj_succ, fmap_cons. apply splice_cons.
  pose proof (screen_cells v Hw Hv) as Hl. unfold vlen in Hl, Hs. cbn [length]. rewrite length_fmap. lia.
Qed.

Lemma splice_0 {B} (r l : list B) : splice (N.to_nat 0) r l = r ++ drop (length r) l.
Proof. done. Qed.

Lemma message_cut m : as_bytes (write_str as_write_char m as_new).1 = cut SIZE m.
Proof. rewrite write_str_cut; rewrite as_new_bytes; [by rewrite N.sub_0_r|apply N.le_0_l]. Qed.

(** The text on the screen: the message, cut to what the screen holds. *)
Definition panic_bytes (info : list (list char)) : list N := cut SIZE (mjoin (ascii "[PANIC in term-lock] " :: info)).

(** C25: a panic while the terminal is locked does not panic again, however
    long the message is: the screen shows as much of it as fits, cut between
    two characters, from the top left on in the colour of panics; the other
    cells of video memory keep what they show, and the terminal's own state
    is not touched. *)
Theorem panic_shown info t :
  video_ok t →
  ∃ v, panic true info t = Ok (set_video v t) ∧ Forall wide v ∧ vlen v = VIDEO_HEIGHT ∧
    vlen (panic_bytes info) ≤ SIZE ∧
    flat v = ((λ ch, mkChar ch PANIC) <$> panic_bytes info) ++ drop (length (panic_bytes info)) (flat (video t)).
Proof.
  intros [_ Hv Hw]. unfold panic, panic_bytes. cbn [negb]. rewrite write_fmt_concat.
  generalize (mjoin (ascii "[PANIC in term-lock] " :: info)). intros m.
  pose proof (message_cut m) as Hs. destruct (write_str _ _ _) as [a ok]. cbn [fst] in Hs. rewrite Hs.
  pose proof (cut_length SIZE m) as Hl.
  destruct (write_cells_run (cut SIZE m) 0 (video t) Hw Hv ltac:(lia)) as (v & -> & Hw' & Hv' & Hf). mred.
  exists v. split_and!; [done..|]. rewrite Hf, splice_0. by rewrite length_fmap.
Qed.
End handler.

(** ** A string of bytes, to run the handler *)
#[export, refine] Instance array_string_example : ArrayString (list N) SIZE := {
  as_new := [];
  as_bytes := id;
  as_write_char c a := if vlen a + vlen c <=? SIZE then (a ++ c, true) else (a, false);
}.
Proof.
  - done.
  - intros c a Hc. rewrite (proj2 (N.leb_le _ _)) by done. done.
  - intros c a Hc. rewrite (proj2 (N.leb_gt _ _)) by done. done.
Defined.

(** A character of two bytes that the end of the screen would cut through is left out. *)
Definition long_message : list (list char) := [replicate 1978 [97]; [[195; 169]]; ascii "z"].

Lemma long_message_cut : length (panic_bytes long_message) = 1999%nat.
Proof. vm_compute. reflexivity. Qed.

Lemma panic_shown_witness :
  ∃ t v, boot = Ok t ∧ panic (A := list N) true long_message t = Ok (set_video v t) ∧
    flat v !! 1999%nat = flat (video t) !! 1999%nat.
Proof.
  destruct boot_ready as (t & Ht & Hr & _). exists t. assert (video_ok t) as Hv by apply Hr.
  destruct (panic_shown (A := list N) long_message t Hv) as (v & Hp & _ & _ & _ & Hf).
  exists v. split; [exact Ht|]. split; [exact Hp|]. rewrite Hf. clear Hp Hf. pose proof long_message_cut as Hl. revert Hl.
  generalize (panic_bytes long_message). intros m Hl.
  rewrite lookup_app_r by (rewrite length_fmap, Hl; lia). rewrite length_fmap, lookup_drop, Hl. done.
Defined.

End PanicScreen.
