(* ===== verification/Shell.v ===== *)
(** * The shell: [kernel/src/shell.rs]

    A line is split into words; the first names a command of the table
    [COMMAND].  A command reads or changes the kernel and prints: what it
    prints is the list of its calls of the print and log functions, which
    the console carries out.  A command that panics loses that list here:
    only that it panics, and why, is kept. *)
From stdpp Require Import gmap pretty.
From S2P Require Import Prelude Buddy MemoryMap KernelMemory PageTable PagePrint.
From S2P Require Import RingBuffer Terminal Output Context Task.
Import Buddy MemoryMap KernelMemory PageTable PagePrint Terminal Output Task.
Local Open Scope N_scope.

Module Shell.

(** ** [str::split_whitespace]

    The terminal takes no byte but those of ASCII, of which these are the
    white ones. *)
Definition is_whitespace (b : N) : bool := ((9 <=? b) && (b <=? 13)) || (b =? 32).

(** [cur] is the word that is being read. *)
Fixpoint split_from (cur s : list N) : list (list N) :=
  match s with
  | [] => match cur with [] => [] | _ => [cur] end
  | b :: s =>
      if is_whitespace b then match cur with [] => split_from [] s | _ => cur :: split_from [] s end
      else split_from (cur ++ [b]) s
  end.
Definition split_whitespace (s : list N) : list (list N) := split_from [] s.

(** The crate [arrayvec], for the words of a line: collecting more than the
    capacity panics. *)
Class ArgVec (A : Type) := {
  collect : list (list N) → result A;
  args_of : A → list (list N);
  collect_ok l : vlen l ≤ INPUT_MAXSIZE → ∃ a, collect l = Ok a ∧ args_of a = l;
  collect_full l : INPUT_MAXSIZE < vlen l → ∃ p, collect l = Panic p;
}.

(** ** The commands

    The function of a [Command] is named by a constructor. *)
Inductive command_fn :=
  | Cmd_help | Cmd_tick | Cmd_print_page | Cmd_print_mmap | Cmd_mem_info | Cmd_test_task | Cmd_test_dyn_seq
  | Cmd_test_dyn_ran.

#[export] Instance command_fn_eq_dec : EqDecision command_fn.
Proof. solve_decision. Defined.

Record Command := mkCommand { name : list N; fn : command_fn; about : list N; usage : option (list N) }.

Definition COMMAND : list Command := [
  mkCommand (bytes "help") Cmd_help (bytes "show help") (Some (bytes "help (specific command)"));
  mkCommand (bytes "tick") Cmd_tick (bytes "show tick count") None;
  mkCommand (bytes "printpage") Cmd_print_page (bytes "print page table") None;
  mkCommand (bytes "printmmap") Cmd_print_mmap (bytes "print memory map") None;
  mkCommand (bytes "meminfo") Cmd_mem_info (bytes "print memory info") None;
  mkCommand (bytes "testtask") Cmd_test_task (bytes "run test task") (Some (bytes "testtask (--quit)"));
  mkCommand (bytes "testdynseq") Cmd_test_dyn_seq (bytes "test dynamic memory in sequencial order") None;
  mkCommand (bytes "testdynran") Cmd_test_dyn_ran (bytes "test dynamic memory in random order") None].

Definition find_command (w : list N) : option Command := List.find (λ c, bool_decide (name c = w)) COMMAND.

Definition show_help (c : Command) : call := println [name c; bytes " : "; about c].

Definition cmd_help (args : list (list N)) : list call :=
  match args with
  | _ :: topic :: _ =>
      match find_command topic with
      | Some c => show_help c :: match usage c with Some d => [println [bytes "Usage) "; d]] | None => [] end
      | None => [println [bytes "'"; topic; bytes "' is not command. type <help> to see help of whole commands."]]
      end
  | _ =>
      (show_help <$> COMMAND) ++
      [println [bytes "To see more detail help of specific command, enter 'help [command]'"]]
  end.

Definition cmd_tick (tick : N) : list call := [println [bytes "tick: "; decimal tick]].

(** ** Text of the reports *)
Definition log_default (newline : bool) (args : list (list N)) : call := Log (Some DEFAULT) newline args.

(** The derived [Debug]. *)
Definition entry_type_name (t : MemoryEntryType) : list N :=
  match t with
  | Usable => bytes "Usable" | Reserved => bytes "Reserved" | AcpiReclaimable => bytes "AcpiReclaimable"
  | AcpiNVS => bytes "AcpiNVS" | BadArea => bytes "BadArea"
  end.

Definition region_calls (r : N * N * option MemoryEntryType) : list call :=
  let '(b, e, t) := r in
  [log_default false [bytes "    ["; hex_zeros 18 b; bytes ", "; hex_zeros 18 e; bytes ")"];
   match t with
   | Some t => log_default true [bytes " "; entry_type_name t]
   | None => log_default true [bytes " (unknown)"]
   end].

Definition title_call (title : list N) (map : list MemoryMapEntry) : call :=
  log_default true [title; bytes ": "; decimal (vlen map); bytes " entries"].

Definition table_names : list (list N) := [bytes "PML4E"; bytes " PDPE"; bytes "  PDE"].

Definition report_call (r : report) : call :=
  let failed (what : string) level size index :=
    println [bytes what; bytes ": level="; decimal level; bytes " size="; decimal size; bytes " index="; decimal index] in
  match r with
  | ChunkStart a => println [bytes "memory chunk starts at "; hex a]
  | DataRange a e => println [bytes "data range: ["; hex a; bytes ", "; hex e; bytes ")"]
  | LevelStart level n size =>
      println [bytes "Bitmap Level #"; decimal level; bytes " (block_count="; decimal n; bytes ", size="; hex size; bytes ")"]
  | AllocPhase => Print None [bytes "Alloc & Comp : "]
  | DeallocPhase => Print None [[10] ++ bytes "Deallocation : "]
  | Dot => Print None [bytes "."]
  | LevelDone => Print None [[10]]
  | ComparisonFail level size index => failed "comparison fail" level size index
  | AllocFail level size index => failed "alloc() fail" level size index
  end.

Section shell.
Context `{NumInteger, NumEnum, X86Paging, X86Addr, ArgVec A}.
(** The maps, the page tables, and how the crate formats the flags of an entry. *)
Context (e820 map : list MemoryMapEntry) (cr3 : N) (tables : phys_mem) (flags_text : PageTableFlags → list N).
(** The parameters of the test task. *)
Context (task_main_addr rflags_now stack_end : N) (task_regs : N → Context.Context) (main_regs : Context.Context).

Definition line_call (l : PagePrint.line) : call :=
  match l with
  | TableLine depth idx addr flags =>
      log_default true [default [] (table_names !! N.to_nat depth); bytes " "; hex_right 5 idx; bytes " to "; hex addr;
        bytes ": "; flags_text flags]
  | RangeLine v v_end p p_end =>
      log_default true [bytes "   PT "; hex_zeros 18 v; bytes "-"; hex_zeros 18 v_end; bytes " to "; hex p; bytes "-"; hex p_end]
  end.

Definition cmd_print_page : result (list call) :=
  out ← print_page cr3 map tables; Ok (fmap (M := list) line_call out).

(** [memory::print_memory] *)
Definition memory_calls (title : string) (map : list MemoryMapEntry) : result (list call) :=
  regions ← print_memory map;
  Ok (title_call (bytes title) map :: mjoin (fmap (M := list) region_calls regions)).

Definition cmd_print_mmap : result (list call) :=
  a ← memory_calls "BIOS e820 Memory Map" e820;
  b ← memory_calls "Dynamic Memory Map" map;
  Ok (a ++ b).

Definition cmd_mem_info (k : kernel) : result (list call) :=
  let info := allocator_info k in
  let i := ai_buddy info in
  a ← data_addr i;
  n ← data_len i;
  Ok [println [bytes "===dynamic memory allocator infomation==="];
      println [bytes "metadata address     : "; hex_zeros 18 (raw_addr i)];
      println [bytes "metadata size        : "; hex_zeros 18 (metadata_len i)];
      println [bytes "count of unit blocks : "; hex_zeros 18 (units i)];
      println [bytes "total bitmap level   : "; decimal (levels i)];
      println [bytes "========================================="];
      println [bytes "start address        : "; hex_zeros 18 a];
      println [bytes "dynmem size          : "; hex_zeros 18 n];
      println [bytes "used size            : "; hex_zeros 18 (ai_used info)];
      println [bytes "========================================="]].

Definition cmd_test_task (args : list (list N)) (w : world) : result (list call * world) :=
  let quit := match args with _ :: a :: _ => bool_decide (a = bytes "--quit") | _ => false end in
  test_task task_main_addr rflags_now stack_end task_regs main_regs quit w.

Definition cmd_test_dyn_seq (w : world) : result (list call * world) :=
  '(log, k) ← KernelMemory.cmd_test_dyn_seq (kern w);
  Ok (fmap (M := list) report_call log, mkWorld (ctx_ptr w) (ctx_data w) (task w) k).

(** [todo!()] *)
Definition cmd_test_dyn_ran : result (list call) := Panic Explicit.

(** The commands that only print. *)
Definition printing (w : world) (r : result (list call)) : result (list call * world) := out ← r; Ok (out, w).

Definition run_command (f : command_fn) (args : list (list N)) (tick : N) (w : world) : result (list call * world) :=
  match f with
  | Cmd_help => printing w (Ok (cmd_help args))
  | Cmd_tick => printing w (Ok (cmd_tick tick))
  | Cmd_print_page => printing w cmd_print_page
  | Cmd_print_mmap => printing w cmd_print_mmap
  | Cmd_mem_info => printing w (cmd_mem_info (kern w))
  | Cmd_test_task => cmd_test_task args w
  | Cmd_test_dyn_seq => cmd_test_dyn_seq w
  | Cmd_test_dyn_ran => printing w cmd_test_dyn_ran
  end.

Definition input_line (input : list N) (tick : N) (w : world) : result (list call * world) :=
  a ← collect (split_whitespace input);
  match args_of a with
  | [] => Ok ([], w)
  | first :: _ =>
      match find_command first with
      | Some c => run_command (fn c) (args_of a) tick w
      | None => Ok ([println_color ERROR [bytes "'"; first; bytes "': command not found"]], w)
      end
  end.
End shell.

End Shell.
