(* ===== verification/ShellSpec.v ===== *)
(** * The shell: correctness

    Words are found whatever blanks are around them; a line reaches the
    command it names; and the commands keep the kernel's memory in order:
    which lines panic is known exactly. *)
From stdpp Require Import gmap pretty.
From S2P Require Import Prelude Buddy BuddyBits BuddyAlloc BuddySpec MemoryMap KernelMemory KernelMemorySpec PageTable PagePrint.
From S2P Require Import MemoryMapSpec PageTableSpec PagePrintSpec RingBuffer Terminal Output Context Task Shell.
Import Buddy BuddyBits BuddyAlloc MemoryMap KernelMemory KernelMemorySpec PageTable PagePrint MemoryMapSpec PageTableSpec PagePrintSpec Terminal Output Task Shell.
Local Open Scope N_scope.

Module ShellSpec.

(** ** Words *)
Definition blank (s : list N) : Prop := Forall (λ b, is_whitespace b = true) s.
Definition word (s : list N) : Prop := s ≠ [] ∧ Forall (λ b, is_whitespace b = false) s.

(** Words, each with the blanks behind it; only the last may have none. *)
Fixpoint layout (l : list (list N * list N)) : list N :=
  match l with [] => [] | (w, g) :: l => w ++ g ++ layout l end.
Fixpoint well_spaced (l : list (list N * list N)) : Prop :=
  match l with
  | [] => True
  | (w, g) :: l => word w ∧ blank g ∧ (l ≠ [] → g ≠ []) ∧ well_spaced l
  end.

Lemma split_from_word cur w s :
  Forall (λ b, is_whitespace b = false) w → split_from cur (w ++ s) = split_from (cur ++ w) s.
Proof.
  intros Hw. revert cur. induction Hw as [|b w Hb Hw IH]; intros cur; [by rewrite app_nil_r|].
  cbn [app split_from]. by rewrite Hb, IH, <-app_assoc.
Qed.

Lemma split_from_blank g s : blank g → split_from [] (g ++ s) = split_from [] s.
Proof. induction 1 as [|b g Hb _ IH]; [done|]. cbn [app split_from]. by rewrite Hb. Qed.

Lemma split_from_end cur g s :
  cur ≠ [] → blank g → (s ≠ [] → g ≠ []) → split_from cur (g ++ s) = cur :: split_from [] s.
Proof.
  intros Hc Hg Hs. destruct cur as [|c cur]; [done|]. destruct g as [|b g].
  - destruct s as [|b s]; [done|]. by assert (@nil N ≠ []) by by apply Hs.
  - inversion Hg as [|? ? Hb Hg']; subst. cbn [app split_from]. by rewrite Hb, split_from_blank.
Qed.

Lemma split_layout lead l : blank lead → well_spaced l → split_whitespace (lead ++ layout l) = l.*1.
Proof.
  intros Hl Hw. unfold split_whitespace. rewrite split_from_blank by done. clear Hl.
  induction l as [|[w g] l IH]; [done|]. destruct Hw as ([Hne Hw] & Hg & Hs & Hr). cbn [layout fmap list_fmap fst].
  rewrite split_from_word by done. rewrite (split_from_end _ g) by (done || (intros Hx; apply Hs; by intros ->)).
  by rewrite IH.
Qed.

(** A line has at most as many words as bytes. *)
Lemma split_length cur s : (length (split_from cur s) ≤ length s + match cur with [] => 0 | _ => 1 end)%nat.
Proof.
  revert cur. induction s as [|b s IH]; intros cur; cbn [split_from length]; [by destruct cur|].
  destruct (is_whitespace b).
  - pose proof (IH []). destruct cur; simpl in *; lia.
  - pose proof (IH (cur ++ [b])). destruct (cur ++ [b]), cur; simpl in *; lia.
Qed.

(** Every command is found by its name. *)
Lemma command_found c : c ∈ COMMAND → find_command (name c) = Some c.
Proof.
  intros Hc. unfold COMMAND in Hc.
  repeat (apply elem_of_cons in Hc as [->|Hc]; [vm_compute; reflexivity|]). by apply not_elem_of_nil in Hc.
Qed.

Section shell.
Context `{NumInteger, NumEnum, X86Paging, X86Addr, ArgVec A}.
Context (e820 map : list MemoryMapEntry) (cr3 : N) (tables : phys_mem) (flags_text : PageTableFlags → list N).
Context (task_main_addr rflags_now stack_end : N) (task_regs : N → Context.Context) (main_regs : Context.Context).

Abbreviation input_line :=
  (input_line (A := A) e820 map cr3 tables flags_text task_main_addr rflags_now stack_end task_regs main_regs).
Abbreviation run_command :=
  (run_command e820 map cr3 tables flags_text task_main_addr rflags_now stack_end task_regs main_regs).
Abbreviation test_task := (test_task task_main_addr rflags_now stack_end task_regs main_regs).

(** The command of a line and its words. *)
Lemma input_line_run line tick w :
  vlen line ≤ INPUT_MAXSIZE →
  input_line line tick w =
    match split_whitespace line with
    | [] => Ok ([], w)
    | first :: rest =>
        match find_command first with
        | Some c => run_command (fn c) (first :: rest) tick w
        | None => Ok ([println_color ERROR [bytes "'"; first; bytes "': command not found"]], w)
        end
    end.
Proof.
  intros Hl. unfold Shell.input_line. destruct (collect_ok (split_whitespace line)) as (a & -> & Ha).
  { pose proof (split_length [] line). unfold split_whitespace, vlen in *. lia. }
  mred. rewrite Ha. by destruct (split_whitespace line).
Qed.

(** A line that names a command of the table runs that command, with the
    words of the line as arguments, however they are spaced. *)
Lemma command_line_runs c lead args tick w :
  c ∈ COMMAND → blank lead → well_spaced args → head (args.*1) = Some (name c) →
  vlen (lead ++ layout args) ≤ INPUT_MAXSIZE →
  input_line (lead ++ layout args) tick w = run_command (fn c) (args.*1) tick w.
Proof.
  intros Hc Hb Hw Hh Hl. rewrite input_line_run by done. rewrite split_layout by done.
  destruct args as [|[x g] args]; [done|]. simpl in Hh. injection Hh as ->. cbn [fmap list_fmap fst].
  by rewrite command_found.
Qed.

(** ** Commands print whole lines *)
Definition report_ends (r : report) : Prop := call_ends (report_call r).

Lemma test_allocs_ends idxs level size k log k' :
  test_allocs idxs level size k = Ok (false, log, k') → ∃ l r, log = l ++ [r] ∧ report_ends r.
Proof.
  revert k log. induction idxs as [|i idxs IH]; intros k log; cbn [test_allocs]; [done|].
  destruct (alloc_zero size k) as [[[addr|] k1]|]; mred; [|intros [= <- <-]; eexists [], _; split; [done|apply println_ends]|done].
  destruct (test_allocs idxs _ _ _) as [[[go log'] k2]|] eqn:Ht; mred; [|done]. intros [= -> <- <-].
  destruct (IH _ _ Ht) as (l & r & -> & Hr). eexists (_ ++ Dot :: l), r. by rewrite <-app_assoc.
Qed.

Lemma test_level_ends i level k go log k' :
  test_level i level k = Ok (go, log, k') → ∃ l r, log = l ++ [r] ∧ report_ends r.
Proof.
  unfold test_level. intros Hr. repeat minv_step Hr.
  match goal with Hx : test_allocs _ _ _ _ = Ok ?x |- _ => destruct x as [[[] log1] k1]; rename Hx into Ha end.
  - repeat minv_step Hr. match goal with Hx : for_each _ _ _ = Ok ?x |- _ => destruct x as [log2 k2] end.
    repeat minv_step Hr. subst. exists log2, LevelDone. split; [done|]. by exists [], [].
  - injection Hr as _ <- _. destruct (test_allocs_ends _ _ _ _ _ _ Ha) as (l & r & -> & He).
    by eexists (LevelStart _ _ _ :: AllocPhase :: l), r.
Qed.

Lemma test_levels_ends ls i k log k' :
  test_levels ls i k = Ok (log, k') → log = [] ∨ ∃ l r, log = l ++ [r] ∧ report_ends r.
Proof.
  revert k log. induction ls as [|level ls IH]; intros k log; cbn [test_levels]; [intros [= <- <-]; by left|].
  destruct (test_level i level k) as [[[go log1] k1]|] eqn:Hl; mred; [|done].
  destruct (test_level_ends _ _ _ _ _ _ Hl) as (l & r & -> & Hr). intros Hgo. right.
  destruct go; [|injection Hgo as <- <-; by exists l, r].
  destruct (test_levels ls i k1) as [[log2 k2]|] eqn:Hls; revert Hgo; mred; [|done]. intros [= <- <-].
  destruct (IH _ _ Hls) as [->|(l2 & r2 & -> & Hr2)]; [exists l, r; by rewrite app_nil_r|].
  exists ((l ++ [r]) ++ l2), r2. by rewrite app_assoc.
Qed.

Lemma self_test_ends w out w' : cmd_test_dyn_seq w = Ok (out, w') → ends_line out.
Proof.
  unfold cmd_test_dyn_seq, KernelMemory.cmd_test_dyn_seq. intros Hr. repeat minv_step Hr.
  match goal with Hx : context [test_levels] |- _ => rename Hx into Ht end. repeat minv_step Ht.
  match goal with Hx : test_levels _ _ _ = Ok ?x |- _ => destruct x as [log1 k1]; apply test_levels_ends in Hx as Hl end.
  injection Ht as <-. injection Hr as <- <-.
  apply (ends_app [_; _]); [by apply (ends_snoc [_]), println_ends|].
  destruct Hl as [->|(l & r & -> & He)]; [apply ends_nil|].
  change (ends_line (fmap (M := list) report_call (l ++ [r]))). rewrite fmap_app. by apply ends_snoc.
Qed.

Lemma help_ends args : ends_line (cmd_help args).
Proof.
  assert (ends_line ((show_help <$> COMMAND) ++
    [println [bytes "To see more detail help of specific command, enter 'help [command]'"]])) as Hall by auto with ends.
  destruct args as [|a [|topic args]]; [exact Hall|exact Hall|]. unfold cmd_help.
  destruct (find_command topic) as [c|]; [destruct (usage c)|]; apply ends_Forall;
    repeat constructor; apply println_ends.
Qed.

Lemma memory_calls_ends title m out : memory_calls title m = Ok out → ends_line out.
Proof.
  unfold memory_calls. intros Hr. repeat minv_step Hr. subst out.
  apply (ends_app [_]); [apply (ends_snoc []), log_ends|].
  clear Hx. induction x as [|[[b e] ty] regions IH]; [apply ends_nil|]. apply (ends_app (region_calls (b, e, ty))); [|exact IH].
  cbn [region_calls]. apply (ends_snoc [_]). destruct ty; apply log_ends.
Qed.

Lemma task_loop_ends n dt out pt' regs dt' : task_loop task_regs n dt = Ok (out, pt', regs, dt') → Forall call_ends out.
Proof.
  unfold task_loop. destruct (checked_add _ _ _); mred; [|done]. intros [= <- _ _ _]. repeat constructor. apply println_ends.
Qed.

Lemma run_task_ends a regs pt dt out pt' regs' dt' :
  run_task task_main_addr stack_end task_regs a regs pt dt = Ok (out, pt', regs', dt') → Forall call_ends out.
Proof.
  destruct pt as [|n]; cbn [run_task].
  - destruct (_ && _); [|done]. unfold task_main. destruct (task_loop task_regs 1 dt) as [[[[o1 p1] r1] d1]|] eqn:Hl; mred; [|done].
    intros [= <- _ _ _]. constructor; [apply println_ends|]. by eapply task_loop_ends.
  - destruct (decide _); [|done]. apply task_loop_ends.
Qed.

Lemma test_task_ends quit w out w' : test_task quit w = Ok (out, w') → ends_line out.
Proof.
  unfold Task.test_task. destruct quit.
  - destruct (negb (ctx_ptr w =? 0)); [|intros [= <- <-]; apply ends_nil].
    destruct (deallocate _ _ _); mred; [|done]. intros [= <- _]. apply ends_nil.
  - intros Hr. minv_step Hr. clear Hx. unfold switch_to_task in Hr.
    destruct (run_task _ _ _ _ _ _ _) as [[[[o pt] r1] d1]|] eqn:Ht; revert Hr; mred; [|done].
    destruct (decide _); [|done]. intros [= <- <-]. by eapply ends_Forall, run_task_ends.
Qed.

(** Whatever a line answers ends with a line feed. *)
Lemma input_line_ends line tick w out w' : input_line line tick w = Ok (out, w') → ends_line out.
Proof.
  unfold Shell.input_line. intros Hr. minv_step Hr. clear Hx. destruct (args_of x) as [|first rest].
  { injection Hr as <- _. apply ends_nil. }
  destruct (find_command first) as [c|]; [|injection Hr as <- _; apply (ends_snoc []), println_color_ends].
  destruct (fn c); cbn [Shell.run_command] in Hr; unfold printing in Hr.
  1-5,8: match type of Hr with context [?r ≫= _] => destruct r as [o|] eqn:Hx; revert Hr; mred; [|done]; intros [= <- _] end.
  - injection Hx as <-. exact (help_ends (first :: rest)).
  - injection Hx as <-. apply (ends_snoc []), println_ends.
  - unfold cmd_print_page in Hx. repeat minv_step Hx. subst. apply ends_Forall, Forall_fmap, list.Forall_forall.
    intros [] _; apply log_ends.
  - unfold cmd_print_mmap in Hx. repeat minv_step Hx. subst. eauto using ends_app, memory_calls_ends.
  - unfold cmd_mem_info in Hx. repeat minv_step Hx. subst. apply ends_Forall. repeat constructor; apply println_ends.
  - done.
  - by eapply test_task_ends.
  - by eapply self_test_ends.
Qed.

(** ** Which lines panic

    The kernel after boot: memory is initialised, the maps do not reach the
    end of the address space, the page tables can be read. *)
Context (d d' : MemoryData).
Record machine_ok : Prop := {
  mo_booted : booted d d';
  mo_e820 : Forall (λ e, base e + size e < W64) e820;
  mo_map : Forall (λ e, base e + size e < W64) map;
  mo_top : table_frame cr3 tables PAGE_TABLE_ADDR = Ok cr3;
  mo_tables : readable cr3 map tables 3 cr3 0;
}.

(** Either there is no task and no memory in use, or the task's data is all
    there is, and the task is in its loop, with the registers of its last
    switch in its context. *)
Definition idle (w : world) : Prop := ctx_ptr w = 0 ∧ buddyblock (data (kern w)) = buddyblock d'.
Definition with_task (w : world) : Prop :=
  ctx_ptr w ≠ 0 ∧ alloc (buddyblock d') CTX_DATA_SIZE = Ok (Some (ctx_ptr w), buddyblock (data (kern w))) ∧
  ∃ n, task w = InLoop n ∧ 1 < n < 2 ^ 31 ∧ this (ctx_data w) = task_regs (n - 1).
Definition world_ok (w : world) : Prop := idle w ∨ with_task w.

Definition wants_quit (args : list (list N)) : bool :=
  match args with _ :: a :: _ => bool_decide (a = bytes "--quit") | _ => false end.

(** The commands that panic, by design or not. *)
Definition fails (args : list (list N)) (w : world) : Prop :=
  match args with
  | [] => False
  | first :: _ =>
      match fn <$> find_command first with
      | Some Cmd_test_dyn_ran => True
      | Some Cmd_test_dyn_seq => ctx_ptr w ≠ 0
      | Some Cmd_test_task => wants_quit args = false ∧
          if ctx_ptr w =? 0 then ∃ b, alloc (buddyblock d') CTX_DATA_SIZE = Ok (None, b) else task w = InLoop (2 ^ 31 - 1)
      | _ => False
      end
  end.

Definition changes (args : list (list N)) : bool :=
  match args with
  | [] => false
  | first :: _ => bool_decide (fn <$> find_command first ∈ [Some Cmd_test_task; Some Cmd_test_dyn_seq])
  end.

Lemma print_memory_run m out :
  Forall (λ e, base e + size e < W64) m →
  ∃ out', for_each m (λ entry out, e ← checked_add W64 (base entry) (size entry);
    Ok (out ++ [(base entry, e, try_from (mem_type entry))])) out = Ok out'.
Proof.
  intros Hm. revert out. induction Hm as [|e m He Hm IH]; intros out; cbn [for_each]; [by eexists|].
  rewrite checked_add_Ok by done. mred. apply IH.
Qed.

Lemma print_mmap_run : machine_ok → ∃ out, cmd_print_mmap e820 map = Ok out.
Proof.
  intros HM. unfold cmd_print_mmap, memory_calls, print_memory.
  destruct (print_memory_run e820 [] (mo_e820 HM)) as (o1 & ->). mred.
  destruct (print_memory_run map [] (mo_map HM)) as (o2 & ->). mred. by eexists.
Qed.

Lemma CTX_DATA_request : BuddySpec.request_ok CTX_DATA_SIZE.
Proof. split; vm_compute; [reflexivity|discriminate]. Qed.

Lemma world_reachable w : world_ok w → ∃ live, BuddySpec.reachable (buddyblock d') (buddyblock (data (kern w))) live ∧
  (with_task w → live = {[ctx_ptr w := CTX_DATA_SIZE]}).
Proof.
  intros [[Hc ->]|(Hc & Hal & _)].
  - exists ∅. split; [constructor|]. by intros [? _].
  - eexists. split; [eapply BuddySpec.reach_alloc; [constructor|apply CTX_DATA_request|exact Hal]|done].
Qed.

Lemma mem_info_run w : machine_ok → world_ok w → ∃ out, cmd_mem_info (kern w) = Ok out.
Proof.
  intros HM (live & Hr & _)%world_reachable.
  destruct (BuddySpec.guarantee_client _ _ _ _ _ (booted_fresh _ _ (mo_booted HM)) Hr) as (B & HC & _).
  destruct (inv_chunk _ _ (BuddySpec.client_inv _ _ _ HC)) as [_ _ Hl He].
  unfold cmd_mem_info, allocator_info, data_addr, data_len. cbn [ai_buddy].
  rewrite checked_add_Ok by lia. mred. rewrite checked_sub_Ok by lia. mred. by eexists.
Qed.

(** The self test stops at its first assertion if memory is in use. *)
Lemma self_test_busy w : machine_ok → with_task w → KernelMemory.cmd_test_dyn_seq (kern w) = Panic Assertion.
Proof.
  intros HM Hw. destruct (world_reachable w (or_intror Hw)) as (live & Hr & Hlive). specialize (Hlive Hw).
  destruct (BuddySpec.guarantee_client _ _ _ _ _ (booted_fresh _ _ (mo_booted HM)) Hr) as (B & HC & _).
  pose proof (BuddySpec.client_inv _ _ _ HC) as HI. destruct (inv_chunk _ _ HI) as [_ _ Hl He].
  assert (used (buddyblock (data (kern w))) ≠ 0) as Hu.
  { rewrite (inv_used _ _ HI), (BuddySpec.client_held _ _ _ HC), Hlive. unfold BuddySpec.held.
    destruct (BuddySpec.client_range _ _ _ (ctx_ptr w) CTX_DATA_SIZE HC) as (_ & _ & _ & _ & _ & _ & Hle & _).
    { rewrite Hlive. apply lookup_singleton_eq. }
    assert (0 < CTX_DATA_SIZE) by done. rewrite map_fold_singleton. lia. }
  assert (0 < levels (info (buddyblock (data (kern w))))) as Hlev.
  { rewrite (g_levels _ (inv_geom _ _ HI)). lia. }
  unfold KernelMemory.cmd_test_dyn_seq, allocator_info, data_addr. cbn [ai_buddy].
  rewrite (checked_add_Ok _ _ (data_offset _)) by lia. mred.
  rewrite (checked_add_Ok _ _ (total_len _)) by lia. mred.
  rewrite (range_cons 0) by done. cbn [test_levels]. unfold test_level.
  rewrite checked_shr_Ok by lia. mred. rewrite checked_shl_Ok by done. mred.
  unfold allocator_size_info, data_len. rewrite checked_sub_Ok by lia. mred. cbn [si_used].
  rewrite assert_false by by apply N.eqb_neq. done.
Qed.

Lemma test_task_quit w : machine_ok → world_ok w →
  ∃ out w', test_task true w = Ok (out, w') ∧ world_ok w'.
Proof.
  intros HM [Hi|Hw].
  - exists [], w. split; [|by left]. unfold Task.test_task. by rewrite (proj1 Hi).
  - destruct Hw as (Hc & Hal & _). unfold Task.test_task. rewrite (proj2 (N.eqb_neq _ _) Hc). cbn [negb].
    unfold deallocate. rewrite (BuddySpec.round_trip_run _ _ _ _ _ (booted_fresh _ _ (mo_booted HM))
      (BuddySpec.reach_start _) _ _ _ CTX_DATA_request Hal). mred.
    eexists _, _. split; [done|]. by left.
Qed.

Lemma test_task_round w : machine_ok → world_ok w →
  ((if ctx_ptr w =? 0 then ∃ b, alloc (buddyblock d') CTX_DATA_SIZE = Ok (None, b) else task w = InLoop (2 ^ 31 - 1)) →
    ∃ p, test_task false w = Panic p) ∧
  (¬ (if ctx_ptr w =? 0 then ∃ b, alloc (buddyblock d') CTX_DATA_SIZE = Ok (None, b) else task w = InLoop (2 ^ 31 - 1)) →
    ∃ out w', test_task false w = Ok (out, w') ∧ with_task w').
Proof.
  intros HM Hw. destruct (N.eqb_spec (ctx_ptr w) 0) as [Hc|Hc].
  - assert (buddyblock (data (kern w)) = buddyblock d') as Hb by (by destruct Hw as [[_ Hw]|[? _]]).
    pose proof (mo_booted HM) as Hboot.
    destruct (alloc_zero_run d d' (kern w) ∅ CTX_DATA_SIZE Hboot) as (r & k1 & Hal & Hs);
      [rewrite Hb; constructor|apply CTX_DATA_request|].
    assert (∃ b, alloc (buddyblock d') CTX_DATA_SIZE = Ok (r, b) ∧ buddyblock (data k1) = b) as (b & Hba & Hbk).
    { unfold alloc_zero in Hal. rewrite Hb in Hal. destruct (alloc _ _) as [[[x|] b]|]; revert Hal; mred; [| |done];
        intros [= <- <-]; by exists b. }
    rewrite Hba. destruct r as [a|]; split.
    + by intros (? & ?).
    + intros _. destruct (first_round task_main_addr rflags_now stack_end task_regs main_regs w a k1 Hc Hal) as [_ ->].
      eexists _, _. split; [done|]. destruct Hs as (Hlo & _).
      split; [cbn; lia|]. cbn [ctx_ptr kern]. rewrite Hbk. split; [done|]. by exists 2.
    + intros _. unfold Task.test_task, start_task. rewrite Hc, N.eqb_refl, Hal. mred. by eexists.
    + intros Hno. destruct Hno. by eexists.
  - destruct Hw as [[? _]|(_ & Hal & n & Ht & Hn & Hregs)]; [done|]. destruct w as [ptr dt pt kn]. cbn [ctx_ptr ctx_data task kern] in *. subst pt.
    split.
    + intros [= ->]. unfold Task.test_task, start_task. cbn [ctx_ptr]. rewrite (proj2 (N.eqb_neq _ _) Hc). mred.
      unfold switch_to_task. cbn [ctx_data ctx_ptr task run_task]. rewrite Hregs.
      destruct (decide (task_regs (2 ^ 31 - 1 - 1) = task_regs (2 ^ 31 - 1 - 1))) as [_|]; [|done].
      unfold task_loop. rewrite checked_add_Panic by done. mred. by eexists.
    + intros Hmax. assert (n ≠ 2 ^ 31 - 1) by (intros ->; by apply Hmax). change (2 ^ 31) with 2147483648 in *.
      rewrite resume_round by (done || lia || (change (2 ^ 31) with 2147483648; lia)). eexists _, _. split; [done|].
      split; [done|]. split; [done|]. exists (n + 1). cbn [task ctx_data this]. change (2 ^ 31) with 2147483648. split_and!; [done|lia|lia|].
      f_equal. lia.
Qed.

Lemma printing_run w r : (∃ out, r = Ok out) → world_ok w →
  ∃ out w', printing w r = Ok (out, w') ∧ world_ok w' ∧ w' = w.
Proof. intros (out & ->) Hw. exists out, w. done. Qed.

Lemma self_test_command w : machine_ok → world_ok w →
  (ctx_ptr w ≠ 0 → ∃ p, cmd_test_dyn_seq w = Panic p) ∧
  (ctx_ptr w = 0 → ∃ out w', cmd_test_dyn_seq w = Ok (out, w') ∧ world_ok w').
Proof.
  intros HM Hw. unfold cmd_test_dyn_seq. split; intros Hc.
  - rewrite self_test_busy; [by eexists|done|]. by destruct Hw as [[? _]|?].
  - assert (buddyblock (data (kern w)) = buddyblock d') as Hb by (by destruct Hw as [[_ Hw]|[? _]]).
    destruct (self_test_run d d' (kern w) (mo_booted HM) Hb) as (k & -> & Hk). mred. eexists _, _. split; [done|].
    left. split; [done|]. cbn. congruence.
Qed.

Lemma shell_lines_run line tick w :
  machine_ok → world_ok w → vlen line ≤ INPUT_MAXSIZE →
  let args := split_whitespace line in
  (fails args w → ∃ p, input_line line tick w = Panic p) ∧
  (¬ fails args w → ∃ out w', input_line line tick w = Ok (out, w') ∧ world_ok w' ∧ (changes args = false → w' = w)).
Proof.
  intros HM Hw Hl args. rewrite input_line_run by done. fold args. unfold fails, changes.
  destruct args as [|first rest]; [split; [done|intros _; by exists [], w]|].
  destruct (find_command first) as [c|]; cbn [fmap option_fmap option_map]; [|split; [done|intros _; by eexists _, w]].
  destruct (fn c); cbn [Shell.run_command]; rewrite ?(bool_decide_true (Some Cmd_test_task ∈ _)), ?(bool_decide_true (Some Cmd_test_dyn_seq ∈ _)) by set_solver.
  1-5: split; [done|]; intros _;
    assert (∀ r, (∃ out, r = Ok out) → ∃ out w', printing w r = Ok (out, w') ∧ world_ok w' ∧ w' = w) as Hp
      by (intros r Hr; by apply printing_run);
    edestruct Hp as (out & w' & -> & Hw' & Hsame); [|exists out, w'; done].
  - by eexists.
  - by eexists.
  - unfold cmd_print_page. destruct (print_page_run cr3 map tables (mo_top HM) (mo_tables HM)) as (out & -> & _). mred. by eexists.
  - by apply print_mmap_run.
  - by apply mem_info_run.
  - unfold cmd_test_task. fold (wants_quit (first :: rest)). destruct (wants_quit (first :: rest)).
    + split; [by intros [? _]|]. intros _. destruct (test_task_quit w HM Hw) as (out & w' & -> & Hw'). by exists out, w'.
    + destruct (test_task_round w HM Hw) as [Hf Hok]. split; [by intros [_ ?]; apply Hf|]. intros Hn.
      destruct Hok as (out & w' & -> & Hw'); [by intros ?; apply Hn|]. exists out, w'. split_and!; [done|by right|done].
  - destruct (self_test_command w HM Hw) as [Hf Hok]. split; [done|]. intros Hn.
    destruct Hok as (out & w' & -> & Hw'); [by destruct (N.eq_dec (ctx_ptr w) 0)|]. by exists out, w'.
  - split; [intros _; by eexists|]. by intros [].
Qed.

(** C18: which lines panic is known exactly: [testdynran] always does,
    [testdynseq] does while the test task exists, and [testtask] does if its
    data finds no memory or after 2^31 - 2 rounds.  Every other line answers,
    keeps the allocator in order, and only those two commands change the
    kernel. *)
Theorem shell_lines line tick w :
  machine_ok → world_ok w → vlen line ≤ INPUT_MAXSIZE →
  let args := split_whitespace line in
  (fails args w → ∃ p, input_line line tick w = Panic p) ∧
  (¬ fails args w → ∃ out w', input_line line tick w = Ok (out, w') ∧ world_ok w' ∧ (changes args = false → w' = w)).
Proof. apply shell_lines_run. Qed.
End shell.

(** ** Examples *)
#[export, refine] Instance arg_vec_example : ArgVec (list (list N)) := {
  collect l := if vlen l <=? INPUT_MAXSIZE then Ok l else Panic Explicit;
  args_of := id;
}.
Proof.
  - intros l Hl. exists l. by rewrite (proj2 (N.leb_le _ _) Hl).
  - intros l Hl. eexists. by rewrite (proj2 (N.leb_gt _ _) Hl).
Defined.

Definition demo_line (line : string) (w : world) : result (list call * world) :=
  Shell.input_line [] [] 0x5f0000 boot_tables (λ _, []) 0x400000 518 8584 demo_regs Context.context_new (bytes line) 7 w.

Lemma demo_machine : machine_ok [] [] 0x5f0000 boot_tables demo_data demo_booted.
Proof.
  split; [exact demo_is_booted|constructor|constructor|vm_compute; reflexivity|exact boot_readable].
Qed.

(** A line that answers, and one that panics. *)
Lemma shell_lines_witness :
  (∃ out w', demo_line "testdynseq" demo_world = Ok (out, w') ∧ world_ok demo_regs demo_booted w') ∧
  ∃ p, demo_line "testdynran" demo_world = Panic p.
Proof.
  assert (world_ok demo_regs demo_booted demo_world) as Hw by (left; split; reflexivity).
  assert (∀ s, vlen (bytes s) ≤ INPUT_MAXSIZE → _) as Hs by
    exact (λ s Hl, shell_lines (A := list (list N)) [] [] 0x5f0000 boot_tables (λ _, []) 0x400000 518 8584 demo_regs
      Context.context_new demo_data demo_booted (bytes s) 7 demo_world demo_machine Hw Hl).
  split.
  - destruct (Hs "testdynseq" ltac:(vm_compute; discriminate)) as [_ Hok].
    destruct Hok as (out & w' & Hr & Hw' & _); [|exists out, w'; split; [exact Hr|exact Hw']].
    change (ctx_ptr demo_world ≠ 0 → False). intros Hne. apply Hne. reflexivity.
  - destruct (Hs "testdynran" ltac:(vm_compute; discriminate)) as [Hf _]. apply Hf. exact I.
Defined.

End ShellSpec.
