(* ===== verification/Console.v ===== *)
(** * The console: terminal, keyboard and shell under the main loop

    The main loop of [kernel/src/lib.rs] with what it hands messages to:
    [keyboard_handler] of [kernel/src/keyboard.rs] feeds the terminal, and a
    complete line goes to the shell, whose output and prompt go to the
    terminal and the serial port. *)
From stdpp Require Import gmap pretty.
From S2P Require Import Prelude RingBuffer InterruptQueue Pic EventLoop Schedule.
From S2P Require Import Terminal TerminalScreen TerminalStatus TerminalGrid TerminalEdit TerminalSpec Output.
From S2P Require Import Buddy MemoryMap MemoryMapSpec KernelMemory PageTable PageTableSpec PagePrint Context Task Shell ShellSpec.
Import InterruptQueue Terminal TerminalScreen TerminalGrid TerminalEdit TerminalSpec Output.
Local Open Scope N_scope.

Module Console.

(** The crate [pc_keyboard]: scan codes make events ([None] is an error),
    events make keys. *)
Class PcKeyboard (K E : Type) := {
  keyboard_new : K;
  add_byte : N → K → option (option E) * K;
  process_keyevent : E → K → option DecodedKey * K;
}.

Section console.
Context `{AV : ArrayVec V INPUT_MAXSIZE} {S : Type} `{SerialPort S} `{PcKeyboard K E}.
Context `{NumInteger, MemoryMap.NumEnum, PageTable.X86Paging, MemoryMap.X86Addr, Shell.ArgVec A}.
Context {Q : Type} `{BoundedQueue Q InterruptMessage BUFFER_SIZE q_holds} `{Pic.ChainedPics P}.
Context (e820 map : list MemoryMap.MemoryMapEntry) (cr3 : N) (tables : PageTable.phys_mem)
  (flags_text : PageTable.PageTableFlags → list N).
Context (task_main_addr rflags_now stack_end : N) (task_regs : N → Context.Context) (main_regs : Context.Context).

Abbreviation input_line := (Shell.input_line (A := A) e820 map cr3 tables flags_text
  task_main_addr rflags_now stack_end task_regs main_regs).

(** [buffer] is the main loop's. *)
Record console := mkConsole {
  keyboard : K; term : Terminal V; serial : S; buffer : list N; sys : Task.world;
}.

(** The static decoder, for scan codes of set 1 and a US layout. *)
Definition KEYBOARD : K := keyboard_new.

(** The key that a byte completes, if any. *)
Definition decode (data : N) (kb : K) : option DecodedKey * K :=
  match add_byte data kb with
  | (Some (Some evt), kb) => process_keyevent evt kb
  | (_, kb) => (None, kb)
  end.

Definition keyboard_handler (data : N) (c : console) : result console :=
  let '(key, kb) := decode data (keyboard c) in
  t ← match key with Some key => process_input key (term c) | None => Ok (term c) end;
  Ok (mkConsole kb t (serial c) (buffer c) (sys c)).

(** The end of the main loop's body, at a tick. *)
Definition serve_line (tick : N) (c : console) : result console :=
  '(r, buf, t) ← getline (buffer c) (term c);
  match r with
  | inl input =>
      '(out, w) ← input_line input tick (sys c);
      '(t, s) ← run_calls out (t, serial c);
      t ← prompt t;
      Ok (mkConsole (keyboard c) t s buf w)
  | inr _ => Ok (mkConsole (keyboard c) t (serial c) buf (sys c))
  end.


(** ** What the user sees and the system does

    A view of the kernel from outside: the keyboard decoder, the tick, the last
    line as history, the line with its cursor, the serial port, the world of
    the shell, the rows above the line as they look, and whether the screen is
    known to show the line. *)
Record view := mkView {
  v_keyboard : K; v_tick : N; v_history : list N; v_line : zipper; v_serial : S; v_world : Task.world;
  v_above : list VideoRow; v_shown : bool;
}.

(** The rows of the prompt and the line, as they look. *)
Definition line_cells (z : zipper) : list VideoChar := prompt_cells ++ cells (text z).
Definition line_rows (z : zipper) : list VideoRow :=
  let k := (length (line_cells z) / width + 1)%nat in
  chop k (resize (k * width) (mkChar 32 DEFAULT) (line_cells z)).

(** Enter: the shell runs the line, its output goes below the line. *)
Definition enter (kb : K) (v : view) : result view :=
  '(out, w) ← input_line (text (v_line v)) (v_tick v) (v_world v);
  let L := (show_calls out (v_above v ++ line_rows (v_line v) ++ [EMPTY_ROW], 0)).1 in
  Ok (mkView kb (v_tick v) (text (v_line v)) ([], []) (serial_print (List.concat (call_serial <$> out)) (v_serial v)) w
    (seen (take (pred (length L)) L)) true).

(** A message; [None] for a key that leaves the rows of the line untidy. *)
Definition console_step (m : InterruptMessage) (v : view) : option (result view) :=
  match m with
  | Timer => Some (Ok (mkView (v_keyboard v) ((v_tick v + 1) mod W64) (v_history v) (v_line v) (v_serial v) (v_world v)
      (v_above v) (v_shown v)))
  | Keyboard data =>
      let '(key, kb) := decode data (v_keyboard v) in
      match key with
      | None => Some (Ok (mkView kb (v_tick v) (v_history v) (v_line v) (v_serial v) (v_world v) (v_above v) (v_shown v)))
      | Some key =>
          let z := edit (v_history v) (v_line v) key in
          if decide (key = Unicode 10) then Some (enter kb v)
          else if tidy (vlen prompt_cells) (v_history v) (v_line v) key then
            Some (Ok (mkView kb (v_tick v) (v_history v) z (v_serial v) (v_world v) (v_above v) (edits key)))
          else None
      end
  end.

Fixpoint console_run (msgs : list InterruptMessage) (v : view) : option (result view) :=
  match msgs with
  | [] => Some (Ok v)
  | m :: msgs =>
      match console_step m v with
      | Some (Ok v) => console_run msgs v
      | r => r
      end
  end.

(** ** The kernel behind a view *)
Abbreviation handle := (EventLoop.handle (P := P) (Q := Q) keyboard_handler serve_line).
Abbreviation handle_all := (EventLoop.handle_all (P := P) (Q := Q) keyboard_handler serve_line).
Abbreviation kernel := (EventLoop.kernel (P := P) (Q := Q) (App := console)).
Implicit Types (k : kernel) (msgs : list InterruptMessage) (v : view).

(** [T] is all that was printed before the line; the buffer keeps its end. *)
Record viewed k v : Prop := {
  vd_term : ∃ T body, seen T = v_above v ∧
    editing T (term (EventLoop.app k)) body prompt_cells (v_history v) (v_line v) ∧
    (v_shown v = true → settled (term (EventLoop.app k)) (kept (T ++ body)));
  vd_keyboard : keyboard (EventLoop.app k) = v_keyboard v;
  vd_tick : EventLoop.TICK_COUNTER k = v_tick v;
  vd_serial : serial (EventLoop.app k) = v_serial v;
  vd_buffer : vlen (buffer (EventLoop.app k)) = INPUT_MAXSIZE;
  vd_sys : sys (EventLoop.app k) = v_world v;
}.

Lemma viewed_rest k k' v : EventLoop.same_rest k k' → viewed k v → viewed k' v.
Proof. intros [Ht Ha] [? ? ? ? ? ?]. split; rewrite ?Ha, ?Ht; done. Qed.

Lemma serve_nothing tick c : input_begin (term c) = 0 → serve_line tick c = Ok c.
Proof. intros Hb. unfold serve_line, getline. rewrite Hb. mred. by destruct c. Qed.

(** The rows of an editor, as they look. *)
Lemma typing_rows T t body h z : typing T t body prompt_cells h z → seen body = line_rows z.
Proof.
  intros HE. pose proof (ty_ok _ _ _ _ _ HE) as Hs. rewrite (typing_kept _ _ _ _ _ _ HE eq_refl) in Hs.
  apply screen_ok_wide in Hs as Hw. clear Hs. destruct (ty_cells _ _ _ _ _ HE) as (rest & Hflat & Hbl).
  pose proof (ty_rows _ _ _ _ _ HE) as Hl. pose proof (ty_text _ _ _ _ _ HE) as Hp.
  assert (length body = length (line_cells z) / width + 1)%nat as Hk.
  { unfold line_cells. rewrite length_app, length_cells. unfold vlen, VIDEO_WIDTH, width in *. lia. }
  unfold line_rows. rewrite <-Hk. rewrite <-(chop_flat (seen body)) by by apply wide_seen.
  unfold seen at 1. rewrite length_fmap. f_equal. rewrite seen_flat, Hflat, !fmap_app, (seen_cells (text z) Hp), (seen_blanks rest Hbl).
  change (fmap (M := list) seen_char prompt_cells) with prompt_cells. unfold line_cells.
  pose proof (length_flat body Hw) as Hlen. rewrite Hflat, !length_app in Hlen. rewrite resize_ge by (rewrite length_app; lia).
  rewrite <-app_assoc. do 3 f_equal. rewrite length_app. lia.
Qed.

(** Keys, and codes that do not make one. *)
Lemma key_step_run data kb key k v z :
  viewed k v → decode data (v_keyboard v) = (key, kb) →
  z = foldl (edit (v_history v)) (v_line v) (option_list key) →
  (∀ key', key = Some key' → key' ≠ Unicode 10 ∧ tidy (vlen prompt_cells) (v_history v) (v_line v) key' = true) →
  ∃ k', handle (Keyboard data) k = Ok k' ∧
    viewed k' (mkView kb (v_tick v) (v_history v) z (v_serial v) (v_world v) (v_above v) (from_option edits (v_shown v) key)).
Proof.
  intros [(T & rows & HT & HE & Hset) Hkb Ht Hs Hb Hw] Hd -> Hf. destruct k as [q t p c]. cbn [EventLoop.app EventLoop.TICK_COUNTER] in *.
  unfold EventLoop.handle. cbn [EventLoop.app]. unfold keyboard_handler. rewrite Hkb, Hd.
  assert (∃ t1 rows1, match key with Some key => process_input key (term c) | None => Ok (term c) end = Ok t1 ∧
    editing T t1 rows1 prompt_cells (v_history v) (foldl (edit (v_history v)) (v_line v) (option_list key)) ∧
    (from_option edits (v_shown v) key = true → settled t1 (kept (T ++ rows1)))) as (t1 & rows1 & -> & HE1 & Hset1).
  { destruct key as [key|]; [|by exists (term c), rows]. destruct (Hf key eq_refl) as [Hnl Hfit].
    apply (process_key_run _ _ _ _ _ _ HE Hnl Hfit). }
  mred. cbn [EventLoop.app]. rewrite serve_nothing by apply (proj1 HE1). mred. eexists. split; [done|].
  split; try done. exists T, rows1. by split_and!.
Qed.

Lemma enter_step_run data kb k v :
  viewed k v → decode data (v_keyboard v) = (Some (Unicode 10), kb) →
  match enter kb v with
  | Ok v' => ∃ k', handle (Keyboard data) k = Ok k' ∧ viewed k' v'
  | Panic p => handle (Keyboard data) k = Panic p
  end.
Proof.
  intros [(T & rows & HT & HE & _) Hkb Ht Hs Hb Hw] Hd. destruct k as [q tk p c]. cbn [EventLoop.app EventLoop.TICK_COUNTER] in *. subst tk.
  unfold enter, EventLoop.handle. cbn [EventLoop.app]. unfold keyboard_handler. rewrite Hkb, Hd.
  destruct (enter_run _ _ _ _ _ HE) as (t1 & -> & HN). mred. cbn [EventLoop.app EventLoop.tick EventLoop.TICK_COUNTER].
  pose proof (ty_room _ _ _ _ _ (proj1 HE)) as Hlen. pose proof (ty_text _ _ _ _ _ (proj1 HE)) as Hp.
  unfold serve_line. cbn [term buffer serial sys keyboard]. rewrite Hw.
  destruct (getline_run t1 _ (text (v_line v)) (v_history v) (buffer c) HN Hp) as (t2 & -> & HD & Hc & Hst & Hin & Hbe & Hi & Hh).
  { rewrite Hb. lia. }
  { done. }
  mred. destruct (input_line (text (v_line v)) (v_tick v) (v_world v)) as [[out w']|e] eqn:Hline; mred; [|done].
  pose proof (typing_rows _ _ _ _ _ (proj1 HE)) as Hrow. rewrite app_assoc in HD. pose proof (printing_holds _ _ HD) as HL2.
  destruct (run_calls_holds out t2 (serial c) _ HL2) as (t3 & -> & HL3 & Hc3 & Hf3). mred.
  rewrite Hc in *. destruct (show_calls_ends out (T ++ rows)) as (L1 & HL1); [by eapply ShellSpec.input_line_ends|].
  rewrite HL1 in *. cbn [fst snd] in *. destruct Hf3 as ((Hb3 & Hi3 & _ & Hin3 & Hh3) & _).
  destruct (prompt_run t3 L1 (text (v_line v))) as (t4 & -> & HE4 & Hset).
  { split; [done|apply last_snoc|done|by rewrite Hin3|by rewrite Hb3|by rewrite Hi3|]. rewrite Hh3. by split_and!. }
  mred. eexists. split; [done|]. split; cbn; try done.
  - exists L1, [prompt_line]. split; [|by split].
    assert (alike (L1 ++ [EMPTY_ROW], 0) (show_calls out (v_above v ++ line_rows (v_line v) ++ [EMPTY_ROW], 0))) as [Ha _].
    { rewrite <-HL1. apply show_calls_alike. split; [cbn [fst]|done]. rewrite !seen_app, <-HT, <-Hrow, !seen_idemp.
      by rewrite <-app_assoc. }
    cbn [fst] in Ha. set (L := (show_calls out _).1) in *. clearbody L. rewrite seen_app in Ha.
    rewrite <-(take_app_length (seen L1) (seen [EMPTY_ROW])), Ha. unfold seen. rewrite <-fmap_take, length_fmap. do 2 f_equal.
    apply (f_equal length) in Ha. rewrite length_app in Ha. unfold seen in Ha. rewrite !length_fmap in Ha. cbn in Ha. lia.
  - by rewrite <-Hs.
  - unfold vlen, INPUT_MAXSIZE in *. rewrite length_splice; [done|]. lia.
Qed.

Lemma console_step_run m k v :
  viewed k v →
  match console_step m v with
  | Some (Ok v') => ∃ k', handle m k = Ok k' ∧ viewed k' v'
  | Some (Panic p) => handle m k = Panic p
  | None => True
  end.
Proof.
  intros Hv. destruct m as [|data]; cbn [console_step].
  - destruct Hv as [(T & rows & HT & HE & Hset) Hkb Ht Hs Hb Hw]. destruct k as [q t p c]. cbn in *.
    unfold EventLoop.handle. mred. cbn [EventLoop.app EventLoop.timer_handler]. rewrite serve_nothing by apply (proj1 HE). mred.
    eexists. split; [done|]. split; try done; [by exists T, rows|]. cbn. by rewrite Ht.
  - destruct (decode data (v_keyboard v)) as [key kb] eqn:Hd.
    destruct key as [key|]; [|by apply (key_step_run data kb None k v _ Hv Hd)].
    destruct (decide (key = Unicode 10)) as [->|Hnl]; [apply (enter_step_run data kb k v Hv Hd)|].
    destruct (tidy (vlen prompt_cells) (v_history v) (v_line v) key) eqn:Htidy; [|done].
    apply (key_step_run data kb (Some key) k v _ Hv Hd); [done|]. by intros ? [= <-].
Qed.

Lemma console_run_run msgs k v :
  viewed k v →
  match console_run msgs v with
  | Some (Ok v') => ∃ k', handle_all msgs k = Ok k' ∧ viewed k' v'
  | Some (Panic p) => handle_all msgs k = Panic p
  | None => True
  end.
Proof.
  revert k v. induction msgs as [|m msgs IH]; intros k v Hv; [by exists k|].
  cbn [console_run EventLoop.handle_all for_each]. pose proof (console_step_run m k v Hv) as Hm.
  destruct (console_step m v) as [[v'|p]|]; [|by rewrite Hm|done].
  destruct Hm as (k' & -> & Hv'). mred. apply (IH _ _ Hv').
Qed.

Lemma session_run k v l0 arrived taken st r :
  viewed k v → q_holds (EventLoop.queue k) l0 →
  Schedule.exec keyboard_handler serve_line (EventLoop.Top, k) arrived taken st →
  console_run (l0 ++ taken) v = Some r →
  ∃ n, match r with
       | Ok v' => ∃ k', EventLoop.iter_main keyboard_handler serve_line n st = Ok (EventLoop.Halted, k') ∧
           q_holds (EventLoop.queue k') [] ∧ viewed k' v'
       | Panic p => EventLoop.iter_main keyboard_handler serve_line n st = Panic p
       end.
Proof.
  intros Hv Hq He Hr. destruct (Schedule.schedule_run _ _ k l0 arrived taken st Hq He) as (n & Hn). exists n.
  pose proof (console_run_run (l0 ++ taken) k v Hv) as Hc. rewrite Hr in Hc. destruct r as [v'|p].
  - destruct Hc as (k1 & Hc & Hv'). rewrite Hc in Hn. destruct Hn as (k' & Hit & Hq' & Hs). exists k'.
    split_and!; [done|done|by eapply viewed_rest].
  - by rewrite Hc in Hn.
Qed.
(** C14: the kernel at its console is the abstract machine [console_step], under
    every schedule of interrupts and for messages whose keys leave the edited
    line, of one row or several, as many rows as it needs ([tidy]), which are
    those for which [console_run] has an outcome: however the messages come in,
    the main loop ends up halted, with the line edited by the keys, each line
    that Enter ended run by the shell at its tick, the output shown below the
    line and sent to the serial port, and prompt and line on the screen; or,
    when the shell panics at one of the lines, with that panic.  Of keys that
    are not tidy nothing is said here: they may panic the terminal. *)
Theorem console_refines k v l0 arrived taken st r :
  viewed k v → q_holds (EventLoop.queue k) l0 →
  Schedule.exec keyboard_handler serve_line (EventLoop.Top, k) arrived taken st →
  console_run (l0 ++ taken) v = Some r →
  ∃ n, match r with
       | Ok v' => ∃ k', EventLoop.iter_main keyboard_handler serve_line n st = Ok (EventLoop.Halted, k') ∧
           q_holds (EventLoop.queue k') [] ∧ viewed k' v'
       | Panic p => EventLoop.iter_main keyboard_handler serve_line n st = Panic p
       end.
Proof. apply session_run. Qed.
End console.

(** ** An example *)
Import Pic MemoryMapSpec PageTableSpec ShellSpec.

(** A keyboard whose codes are the characters. *)
#[export] Instance pc_keyboard_example : PcKeyboard unit N := {
  keyboard_new := tt;
  add_byte data kb := (Some (Some data), kb);
  process_keyevent evt kb := (Some (Unicode evt), kb);
}.

Lemma queue_of (l : list InterruptMessage) : vlen l ≤ BUFFER_SIZE → ∃ q : RingBuffer.RingBuffer InterruptMessage, RingBuffer.repr BUFFER_SIZE q l.
Proof.
  induction l as [|m l IH] using rev_ind; [intros _; exists QUEUE; apply QUEUE_repr|]. rewrite vlen_app. intros Hl.
  change (vlen [m]) with 1 in Hl. destruct IH as (q & Hq); [lia|].
  destruct (intmsg_push_holds q l m Hq) as (q' & _ & Hq'). exists q'.
  by rewrite (proj2 (N.ltb_lt _ _)) in Hq' by lia.
Qed.

Definition demo_kernel (q : RingBuffer.RingBuffer InterruptMessage) (t : Terminal bounded_vec) :=
  EventLoop.mkKernel q 7 EventLoop.demo_pics (mkConsole (S := list N) tt t [] (replicate 512 0) Task.demo_world).

(** Two commands, "tick" and "help" with a correction, and three ticks. *)
Definition demo_msgs : list InterruptMessage :=
  [Keyboard 116; Keyboard 105; Timer; Keyboard 99; Keyboard 107; Keyboard 10; Timer;
   Keyboard 104; Keyboard 101; Keyboard 108; Keyboard 108; Keyboard 8; Keyboard 112; Timer; Keyboard 10].

Definition demo_view : view (K := unit) (S := list N) :=
  mkView tt 7 [] ([], []) [] Task.demo_world [] true.

Local Abbreviation demo_run := (console_run (A := list (list N)) [] [] 0x5f0000 boot_tables (λ _, []) 0x400000 518 8584
  Task.demo_regs Context.context_new demo_msgs demo_view).

(** The ticks are counted, and the screen starts with the first line and its answer. *)
Lemma demo_run_ok : ∃ v, demo_run = Some (Ok v) ∧ v_tick v = 10 ∧ v_history v = bytes "help" ∧
  take 2 (v_above v) = line_rows (bytes "tick", []) ++ [seen_char <$> resize 80 EMPTY_CHAR (cells (bytes "tick: 8"))].
Proof.
  assert (match demo_run with
    | Some (Ok v) => v_tick v = 10 ∧ v_history v = bytes "help" ∧
        take 2 (v_above v) = line_rows (bytes "tick", []) ++ [seen_char <$> resize 80 EMPTY_CHAR (cells (bytes "tick: 8"))]
    | _ => False end) as Hd by (vm_compute; repeat split).
  destruct demo_run as [[v|]|]; [|done..]. by exists v.
Qed.

Lemma console_refines_witness :
  ∃ q t n k', EventLoop.iter_main (keyboard_handler (S := list N)) (serve_line (A := list (list N)) [] [] 0x5f0000 boot_tables (λ _, [])
      0x400000 518 8584 Task.demo_regs Context.context_new) n (EventLoop.Top, demo_kernel q t) = Ok (EventLoop.Halted, k') ∧
    EventLoop.TICK_COUNTER k' = 10.
Proof.
  destruct boot_ready as (t0 & _ & HR & _). destruct (prompt_run t0 [] _ HR) as (t & _ & HE & Hset).
  destruct (queue_of demo_msgs ltac:(vm_compute; discriminate)) as (q & Hq).
  destruct demo_run_ok as (v & Hrun & Ht & _).
  destruct (console_refines (S := list N) (A := list (list N)) [] [] 0x5f0000 boot_tables (λ _, []) 0x400000 518 8584 Task.demo_regs
    Context.context_new (demo_kernel q t) demo_view demo_msgs [] [] (EventLoop.Top, demo_kernel q t) (Ok v)) as (n & k' & Hn & _ & Hv).
  - split; try reflexivity. exists [], [prompt_line]. split; [reflexivity|]. split; [exact HE|]. intros _. exact Hset.
  - exact Hq.
  - apply Schedule.exec_nil.
  - rewrite app_nil_r. exact Hrun.
  - exists q, t, n, k'. split; [exact Hn|]. rewrite (vd_tick _ _ Hv). exact Ht.
Defined.

End Console.
