(* ===== verification/Boot.v ===== *)
(** * The start of the kernel: [kmain] of [kernel/src/lib.rs]

    The parts are initialised one after the other, each with a line of log,
    until interrupts are enabled and the first prompt stands on the screen;
    then the main loop begins.  Interrupts that arrive behind [enable] put
    messages into the queue and acknowledge, and touch nothing that the
    remaining statements use: the model takes them before the loop. *)
From stdpp Require Import gmap pretty.
From S2P Require Import Prelude RingBuffer InterruptQueue Pic EventLoop Schedule Interrupts.
From S2P Require Import Terminal TerminalScreen TerminalStatus TerminalGrid TerminalEdit TerminalSpec Output.
From S2P Require Import Buddy BuddyNew MemoryMap MemoryMapSpec KernelMemory KernelMemorySpec PageTable PageTableSpec E820 MemoryInit.
From S2P Require Import Context Task Shell ShellSpec Console.
Import InterruptQueue Pic Interrupts Terminal TerminalScreen TerminalStatus TerminalGrid TerminalEdit TerminalSpec Output Console.
Local Open Scope N_scope.

Module Boot.

Section boot.
Context `{AV : ArrayVec V INPUT_MAXSIZE} {S : Type} `{SerialPort S} `{PcKeyboard K E}.
Context `{NumInteger, MemoryMap.NumEnum, MemoryMap.SortUnstable, PageTable.X86Paging, PageTable.NumIter, MemoryMap.X86Addr}.
Context `{ChainedPics P, GlobalDescriptorTable G}.

(** What the boot code and the hardware provide: the ports and memory of the
    video controller, the memory with the BIOS map, the page tables and their root, the
    address of the table on the stack and of the static stack, and the memory of
    the kernel. *)
Context (port_read : list (N * N) → N → N) (video_memory : list VideoRow) (bios : N → N)
  (cr3 tmptable stack : N) (m0 : PageTable.phys_mem) (memory : N → N).

(** The machine when the main loop begins. *)
Record started := mkStarted {
  kernel_start : EventLoop.kernel (Q := RingBuffer.RingBuffer InterruptMessage) (P := P) (App := console (V := V) (S := S) (K := K));
  idt : idt_table; segs : segments; pit_writes : list (N * N); page_tables : PageTable.phys_mem;
}.

Definition log_line (s : string) : call := Log None true [bytes s].

(** The world of the shell before the first command. *)
Definition no_context : Task.CtxData := Task.mkCtxData 0 Context.context_new Context.context_new.

(** [start] is [init_term] and [set_status_lines_back(1)]; [early] are the
    interrupts between [enable] and the loop. *)
Definition kmain (early : list InterruptMessage) : result started :=
  let s : S := init_serial COM1 in
  t ← start port_read video_memory;
  '(t, s) ← run_call (log_line "terminal initialized") (t, s);
  let segs := init_gdt (GDT (G := G) stack).2 in
  '(t, s) ← run_call (log_line "gdt initialized") (t, s);
  idt ← IDT;
  '(t, s) ← run_call (log_line "idt initialized") (t, s);
  '(d, m) ← PageTable.init_memory cr3 (E820.get_e820_map bios) tmptable KernelMemory.MEMORY_DATA m0;
  '(t, s) ← run_call (log_line "page initialized") (t, s);
  let p := init_pic PIC in
  '(t, s) ← run_call (log_line "pic initialized") (t, s);
  let pit := init_pit in
  '(t, s) ← run_call (log_line "pit initialized") (t, s);
  '(t, s) ← run_call (log_line "keyboard initialized") (t, s);
  let p := set_mask (mask_or (mask_or (mask_bit TIMER) (mask_bit Pic.KEYBOARD)) (mask_bit SLAVE)) p in
  '(t, s) ← run_call (log_line "interrupt enabled") (t, s);
  '(t, s) ← run_call (log_line "done") (t, s);
  let buffer := replicate (N.to_nat INPUT_MAXSIZE) 0 in
  t ← prompt t;
  let w := Task.mkWorld 0 no_context Task.AtStart (KernelMemory.mkKernel d memory) in
  k ← for_each early EventLoop.int_handler (EventLoop.mkKernel QUEUE 0 p (mkConsole (KEYBOARD (E := E)) t s buffer w));
  Ok (mkStarted k idt segs pit m).

(** The log of the start. *)
Definition boot_log : list call :=
  log_line <$> ["terminal initialized"; "gdt initialized"; "idt initialized"; "page initialized"; "pic initialized";
    "pit initialized"; "keyboard initialized"; "interrupt enabled"; "done"].

(** After the calls [cs]: they are shown in whole lines and sent, and there is no input. *)
Record logged (cs : list call) (s0 : S) (t : Terminal V) (s : S) : Prop := {
  lg_shown : ∃ L, show_calls cs ([EMPTY_ROW], 0) = (L ++ [EMPTY_ROW], 0) ∧ ready t (L ++ [EMPTY_ROW]) [];
  lg_sent : s = serial_print (List.concat (call_serial <$> cs)) s0;
}.

Lemma fresh_ready t :
  holds t [EMPTY_ROW] → cur_col t = 0 → same_input (TERM video_memory) t → ready t ([] ++ [EMPTY_ROW]) [].
Proof.
  intros HL Hc (Hb & Hi & _ & Hin & Hh). split; [exact HL|reflexivity|exact Hc| |exact Hb|exact Hi|].
  - rewrite Hin. apply av_slice_new.
  - rewrite Hh. split; [apply av_slice_new|]. split; [constructor|done].
Qed.

Lemma logged_start s :
  vlen video_memory = VIDEO_HEIGHT → Forall wide video_memory →
  ∃ t, start port_read video_memory = Ok t ∧ logged [] s t s.
Proof.
  intros Hvl Hvw. destruct (start_run port_read video_memory Hvl Hvw) as (t & Hstart & HL & _ & Hc & _ & _ & Hsame).
  exists t. split; [exact Hstart|].
  split; [|reflexivity]. exists []. split; [reflexivity|]. by apply fresh_ready.
Qed.

Lemma log_line_run cs msg s0 t s :
  logged cs s0 t s → ∃ t' s', run_call (log_line msg) (t, s) = Ok (t', s') ∧ logged (cs ++ [log_line msg]) s0 t' s'.
Proof.
  intros [(L & Hs & [HL Hlast Hc Hin Hb Hi [Hh Hp]]) ->].
  destruct (run_call_holds (log_line msg) t (serial_print (List.concat (call_serial <$> cs)) s0) _ HL)
    as (t' & Hr & HL' & Hc' & ((Hb' & Hi' & _ & Hin' & Hh') & _) & _).
  rewrite Hc in HL', Hc'. destruct (show_call_ends (log_line msg) (L ++ [EMPTY_ROW]) 0 (log_ends _ _)) as (L1 & Hs1).
  rewrite Hs1 in HL', Hc'. eexists t', _. split; [exact Hr|]. split.
  - exists L1. unfold show_calls in *. rewrite foldl_app, Hs. split; [exact Hs1|].
    split; [done|apply last_snoc|done|congruence|congruence|congruence|]. by rewrite Hh'.
  - rewrite fmap_app, concat_app, serial_print_app. cbn [fmap list_fmap List.concat]. by rewrite app_nil_r.
Qed.

(** What [init_memory] leaves, for the shell and the processor. *)
Lemma memory_started e820 map d m :
  PageTable.DYNMEM_MAP e820 = Ok map → PageTableSpec.boot_ok cr3 tmptable map m0 →
  PageTable.init_memory cr3 e820 tmptable KernelMemory.MEMORY_DATA m0 = Ok (d, m) →
  (∃ d1, KernelMemorySpec.booted d1 d ∧ PageTableSpec.dyn_mapped cr3 tmptable map m0 KernelMemory.MEMORY_DATA d1 m) ∧
  ShellSpec.idle d (Task.mkWorld 0 no_context Task.AtStart (KernelMemory.mkKernel d memory)) ∧
  (∀ v, MemoryMap.DYNMEM_START_VIRT ≤ v < MemoryMap.DYNMEM_START_VIRT + KernelMemory.data_total_len d →
    is_Some (PageTable.translate cr3 m v)).
Proof.
  intros Hmap HB Hinit. destruct (MemoryInit.init_memory_booted _ _ _ _ _ _ _ _ Hmap HB Hinit) as (d1 & _ & HD & Hb).
  split; [by exists d1|]. split; [done|]. intros v Hv.
  assert (KernelMemory.data_total_len d = MemoryMapSpec.total_size map) as Ht.
  { rewrite <-(PageTableSpec.dm_total _ _ _ _ _ _ _ HD). by apply KernelMemorySpec.init_dyn_alloc_keeps, Hb. }
  rewrite Ht in Hv.
  destruct (PageTableSpec.dyn_mapped_page _ _ _ _ HB _ _ _ v HD Hv) as (i & _ & _ & -> & _). by eexists.
Qed.

(** Carries out the next log line of the goal. *)
Ltac log_step HG :=
  match type of HG with
  | logged _ _ ?t ?s =>
      match goal with
      | |- context [run_call (log_line ?msg) (t, s)] =>
          let t' := fresh "t" in let s' := fresh "s" in let Hr := fresh "Hr" in let HG' := fresh "HG" in
          destruct (log_line_run _ msg _ t s HG) as (t' & s' & Hr & HG'); rewrite Hr; mred; clear Hr HG; rename HG' into HG
      end
  end.

(** Interrupts before the loop only fill the queue. *)
Lemma early_run {App} early (k : EventLoop.kernel (Q := RingBuffer.RingBuffer InterruptMessage) (P := P) (App := App)) l :
  remapped (EventLoop.pics k) → RingBuffer.repr BUFFER_SIZE (EventLoop.queue k) l →
  ∃ k', for_each early EventLoop.int_handler k = Ok k' ∧ remapped (EventLoop.pics k') ∧
    RingBuffer.repr BUFFER_SIZE (EventLoop.queue k') (take (N.to_nat BUFFER_SIZE) (l ++ early)) ∧ EventLoop.same_rest k k'.
Proof.
  revert k l. induction early as [|m early IH]; intros k l Hp Hq; cbn [for_each].
  - exists k. pose proof (RingBuffer.repr_le _ _ _ Hq) as Hl. rewrite app_nil_r, take_ge by (unfold vlen in Hl; lia). done.
  - destruct (EventLoop.int_handler_run m k l Hp Hq) as (k1 & -> & Hp1 & Ha1 & Ht1 & _ & _ & Hq1). mred.
    destruct (IH k1 _ Hp1 Hq1) as (k' & -> & Hp' & Hq' & Ht' & Ha'). exists k'. split; [done|]. split; [done|].
    split; [|by split; congruence]. destruct (N.ltb_spec (vlen l) BUFFER_SIZE) as [Hl|Hl]; [by rewrite <-app_assoc in Hq'|].
    unfold vlen in Hl. rewrite take_app_le in Hq' |- * by lia. done.
Qed.

(** What the console shows when the loop begins. *)
Definition boot_view (d : KernelMemory.MemoryData) : view (K := K) (S := S) :=
  let L := (show_calls boot_log ([EMPTY_ROW], 0)).1 in
  mkView (KEYBOARD (E := E)) 0 [] ([], []) (serial_print (List.concat (call_serial <$> boot_log)) (init_serial (COM1 (S := S))))
    (Task.mkWorld 0 no_context Task.AtStart (KernelMemory.mkKernel d memory)) (seen (take (pred (length L)) L)) true.

(** The boot code, as far as [kmain] relies on it. *)
Record booted_machine (e820 map : list MemoryMap.MemoryMapEntry) : Prop := {
  bm_video : vlen video_memory = VIDEO_HEIGHT ∧ Forall wide video_memory;
  bm_count : vlen e820 < W16;
  bm_typed : Forall E820.entry_typed e820;
  bm_bios : E820.in_memory e820 bios;
  bm_map : PageTable.DYNMEM_MAP e820 = Ok map;
  bm_tables : PageTableSpec.boot_ok cr3 tmptable map m0;
}.

(** The state in which the main loop begins. *)
Record begins early (map : list MemoryMap.MemoryMapEntry) (i : Buddy.BuddyBlockInfo) (st : started) (d : KernelMemory.MemoryData) : Prop := {
  be_view : viewed (kernel_start st) (boot_view d);
  be_queue : RingBuffer.repr BUFFER_SIZE (EventLoop.queue (kernel_start st)) (take (N.to_nat BUFFER_SIZE) early);
  be_loop : EventLoop.inv (holds := RingBuffer.repr BUFFER_SIZE) (EventLoop.Top, kernel_start st);
  be_idt : IDT = Ok (idt st);
  be_buddy : KernelMemory.buddyblock d = BuddyNew.initial i;
  be_total : KernelMemory.data_total_len d = MemoryMapSpec.total_size map;
  be_booted : ∃ d1, KernelMemorySpec.booted d1 d ∧
    PageTableSpec.dyn_mapped cr3 tmptable map m0 KernelMemory.MEMORY_DATA d1 (page_tables st);
  be_idle : ShellSpec.idle d (v_world (boot_view d));
  be_mapped v : MemoryMap.DYNMEM_START_VIRT ≤ v < MemoryMap.DYNMEM_START_VIRT + MemoryMapSpec.total_size map →
    is_Some (PageTable.translate cr3 (page_tables st) v);
}.

Lemma kmain_run early e820 map :
  booted_machine e820 map →
  match MemoryInit.dyn_layout map with
  | Ok i => ∃ st d, kmain early = Ok st ∧ begins early map i st d
  | Panic p => kmain early = Panic p
  end.
Proof.
  intros [[Hvl Hvw] Hel Het Hbios Hmap HB]. unfold kmain.
  rewrite (E820.get_e820_map_run e820) by done.
  destruct (logged_start (init_serial (COM1 (S := S))) Hvl Hvw) as (t & Hst & HG). rewrite Hst. mred.
  do 2 log_step HG. destruct IDT_run as (idt0 & Hidt & _). rewrite Hidt. mred. log_step HG.
  destruct (MemoryInit.init_memory_run cr3 e820 map tmptable m0 KernelMemory.MEMORY_DATA Hmap HB) as (m & Hinit).
  rewrite Hinit. destruct (MemoryInit.dyn_layout map) as [i|]; revert Hinit; mred; intros Hinit; [|reflexivity].
  do 6 log_step HG. match type of HG with logged ?cs _ _ _ => change cs with boot_log in HG end.
  destruct HG as [(L & Hsh & HR) Hsent].
  destruct (prompt_run _ L [] HR) as (tp & Hp & HE & Hset). rewrite Hp. mred.
  match goal with |- context [for_each early _ ?k] => destruct (early_run early k []) as (k' & Hk' & Hpic & Hq & Ht & Ha) end;
    [apply set_mask_remapped, init_pic_remapped|apply QUEUE_repr|].
  rewrite Hk'. mred.
  match type of Hinit with _ = Ok (?x, _) => set (d := x) in * end. eexists _, d. split; [reflexivity|]. cbn [EventLoop.app EventLoop.TICK_COUNTER] in Ht, Ha.
  destruct (memory_started e820 map _ m Hmap HB Hinit) as (Hbt & Hid & Htr).
  constructor; [|exact Hq|split; [exact Hpic|eexists; split; [exact Hq|intros [=]]]|exact Hidt|reflexivity|reflexivity|exact Hbt|exact Hid|exact Htr].
  assert (seen L = v_above (boot_view d)) as Habove.
  { unfold boot_view. rewrite Hsh. cbn [v_above fst]. rewrite length_app, Nat.add_1_r. cbn [pred]. by rewrite take_app_length. }
  split; cbn [kernel_start]; rewrite ?Ha, ?Ht; cbn [keyboard serial buffer sys term].
  - exists L, [prompt_line]. split; [exact Habove|]. split; [exact HE|intros _; exact Hset].
  - reflexivity.
  - reflexivity.
  - exact Hsent.
  - reflexivity.
  - reflexivity.
Qed.

(** ** The kernel from its start on *)
Section session.
Context `{Shell.ArgVec A}.
Context (flags_text : PageTable.PageTableFlags → list N).
Context (task_main_addr rflags_now stack_end : N) (task_regs : N → Context.Context) (main_regs : Context.Context).

(** C17: the kernel from its start on.  On a machine whose page tables and memory
    are as the boot code leaves them ([booted_machine]: the dynamic memory of the
    map starts at [DYNMEM_START_PHYS] with three pages), and whose dynamic
    memory has a layout for the allocator, [kmain] reaches its main loop, whatever interrupts come
    meanwhile: the log is on the screen and on the serial port, below it an
    empty prompt; the dynamic memory of the map that the BIOS wrote is mapped,
    the allocator owns what the page tables left, and the main loop starts in
    its invariant.  From then on the kernel is the console: under every
    schedule of interrupts, those before the loop included, and for keys that
    leave the rows of the line [tidy], so that [console_run] has an outcome, the
    loop takes the view of the start to the one that [console_step] computes
    from the messages, and halts, or panics as the shell does at one of the
    lines.  Without such a layout
    [kmain] panics by the assertion of the allocator. *)
Theorem kernel_session early e820 map :
  booted_machine e820 map →
  match MemoryInit.dyn_layout map with
  | Panic p => kmain early = Panic p
  | Ok i =>
      ∃ st d, kmain early = Ok st ∧ begins early map i st d ∧
        let serve := serve_line (A := A) e820 map cr3 (page_tables st) flags_text task_main_addr rflags_now stack_end task_regs main_regs in
        ∀ arrived taken now r,
          Schedule.exec keyboard_handler serve (EventLoop.Top, kernel_start st) arrived taken now →
          console_run (A := A) e820 map cr3 (page_tables st) flags_text task_main_addr rflags_now stack_end task_regs main_regs
            (take (N.to_nat BUFFER_SIZE) early ++ taken) (boot_view d) = Some r →
          ∃ n, match r with
               | Ok v => ∃ k, EventLoop.iter_main keyboard_handler serve n now = Ok (EventLoop.Halted, k) ∧
                   RingBuffer.repr BUFFER_SIZE (EventLoop.queue k) [] ∧ viewed k v
               | Panic p => EventLoop.iter_main keyboard_handler serve n now = Panic p
               end
  end.
Proof.
  intros HM. pose proof (kmain_run early e820 map HM) as Hk. destruct (MemoryInit.dyn_layout map) as [i|]; [|exact Hk].
  destruct Hk as (st & d & Hk & HB). exists st, d. split; [exact Hk|]. split; [exact HB|]. intros serve arrived taken now r He Hr.
  exact (session_run e820 map cr3 (page_tables st) flags_text task_main_addr rflags_now stack_end task_regs main_regs
    (kernel_start st) (boot_view d) _ arrived taken now r (be_view _ _ _ _ _ HB) (be_queue _ _ _ _ _ HB) He Hr).
Qed.
End session.
End boot.

(** ** An example: a machine with twenty pages of dynamic memory *)
Import MemoryMapSpec PageTableSpec MemoryInit ShellSpec.

Lemma demo_booted : booted_machine blank_video (E820.map_memory demo_e820) 0x5f0000 demo_tmptable boot_tables demo_e820 demo_map.
Proof.
  split; [split; [reflexivity|by apply Forall_replicate]|reflexivity|repeat constructor|apply E820.map_memory_holds|
    exact demo_dynmem_map|exact demo_boot].
Qed.

Local Abbreviation pics_type := (option (N * N) * (N * N) * list N * (N * N))%type.
Local Abbreviation demo_kmain := (kmain (V := bounded_vec) (S := list N) (G := N) (K := unit) (E := N) (P := pics_type) (λ _ _, 0) blank_video (E820.map_memory demo_e820)
  0x5f0000 demo_tmptable 0x300000 boot_tables (λ _, 0)).

(** "tick" and Enter, typed before the loop began. *)
Definition early_keys : list InterruptMessage :=
  [Keyboard 116; Keyboard 105; Timer; Keyboard 99; Keyboard 107; Timer; Keyboard 10].

Lemma kernel_session_witness :
  ∃ st n k, demo_kmain early_keys = Ok st ∧
    EventLoop.iter_main (keyboard_handler (E := N)) (serve_line (A := list (list N)) demo_e820 demo_map 0x5f0000 (page_tables st) (λ _, [])
      0x400000 518 8584 Task.demo_regs Context.context_new) n (EventLoop.Top, kernel_start st) = Ok (EventLoop.Halted, k) ∧
    EventLoop.TICK_COUNTER k = 2 ∧ is_Some (PageTable.translate 0x5f0000 (page_tables st) 0x200000).
Proof.
  assert (∃ i, dyn_layout demo_map = Ok i) as (i & Hi) by (eexists; vm_compute; reflexivity).
  pose proof (kernel_session (V := bounded_vec) (S := list N) (G := N) (K := unit) (E := N) (P := pics_type) (A := list (list N)) (λ _ _, 0) blank_video (E820.map_memory demo_e820)
    0x5f0000 demo_tmptable 0x300000 boot_tables (λ _, 0) (λ _, []) 0x400000 518 8584 Task.demo_regs Context.context_new
    early_keys demo_e820 demo_map demo_booted) as Hses. rewrite Hi in Hses. destruct Hses as (st & d & Hk & HB & Hrun). exists st.
  match type of Hrun with context [console_run ?a ?b ?c ?d ?e ?f ?g ?h ?x ?y _ ?z] =>
    assert (match console_run (A := list (list N)) a b c d e f g h x y (take (N.to_nat BUFFER_SIZE) early_keys ++ []) z with
      | Some (Ok v) => v_tick v = 2 | _ => False end) as Hv by (vm_compute; reflexivity);
    destruct (console_run (A := list (list N)) a b c d e f g h x y (take (N.to_nat BUFFER_SIZE) early_keys ++ []) z)
      as [[v|]|] eqn:Hc; [|done..] end.
  destruct (Hrun [] [] (EventLoop.Top, kernel_start st) (Ok v) (Schedule.exec_nil _ _ _) Hc) as (n & k & Hn & _ & HV).
  exists n, k. split; [exact Hk|]. split; [exact Hn|]. split; [rewrite (vd_tick _ _ HV); exact Hv|].
  apply (be_mapped _ _ _ _ _ _ _ _ _ HB). vm_compute. split; [discriminate|reflexivity].
Defined.

End Boot.
