(* ===== verification/Session.v ===== *)
(** * From power-on to the halt

    The boot sector ([Bootloader]), the boot code ([Detect], [LongMode]), the start of the kernel ([Boot]),
    the console ([Console]) and the shell ([ShellSpec]) together: the kernel
    survives every schedule of interrupts, and every line that is typed with
    tidy keys and is not one of the shell's panicking commands. *)
From stdpp Require Import gmap pretty.
From S2P Require Import Prelude RingBuffer InterruptQueue Pic EventLoop Schedule Interrupts.
From S2P Require Import Terminal TerminalScreen TerminalStatus TerminalGrid TerminalEdit TerminalSpec Output.
From S2P Require Import Buddy BuddyNew MemoryMap MemoryMapSpec KernelMemory KernelMemorySpec PageTable PageTableSpec PagePrintSpec E820 Detect Bootloader BootTables Startup LongMode MemoryInit.
From S2P Require Import Context Task Shell ShellSpec Console Boot.
Import InterruptQueue Pic Interrupts Terminal TerminalScreen TerminalGrid TerminalEdit TerminalSpec Output Console Boot.
Local Open Scope N_scope.

Module Session.

(** ** The shell behind the console *)
Section console.
Context {S : Type} `{SerialPort S} `{PcKeyboard K E}.
Context `{NumInteger, MemoryMap.NumEnum, PageTable.X86Paging, MemoryMap.X86Addr, Shell.ArgVec A}.
Context (e820 map : list MemoryMap.MemoryMapEntry) (cr3 : N) (tables : PageTable.phys_mem)
  (flags_text : PageTable.PageTableFlags → list N).
Context (task_main_addr rflags_now stack_end : N) (task_regs : N → Context.Context) (main_regs : Context.Context).
Context (d d' : KernelMemory.MemoryData) (HM : ShellSpec.machine_ok e820 map cr3 tables d d').

Abbreviation step := (console_step (A := A) (S := S) (E := E) e820 map cr3 tables flags_text task_main_addr rflags_now stack_end task_regs main_regs).
Abbreviation run := (console_run (A := A) (S := S) (E := E) e820 map cr3 tables flags_text task_main_addr rflags_now stack_end task_regs main_regs).
Implicit Types (v : view (K := K) (S := S)).

(** The message completes the line. *)
Definition entered (m : InterruptMessage) v : Prop :=
  match m with Keyboard data => (decode data (v_keyboard v)).1 = Some (Unicode 10) | Timer => False end.

(** No line that is entered is one of the panicking commands. *)
Fixpoint harmless (msgs : list InterruptMessage) v : Prop :=
  match msgs with
  | [] => True
  | m :: msgs =>
      (entered m v → ¬ ShellSpec.fails d' (Shell.split_whitespace (text (v_line v))) (v_world v)) ∧
      ∀ v', step m v = Some (Ok v') → harmless msgs v'
  end.

(** The line and the history fit in the input, and the shell's world is in order. *)
Record sane v : Prop := {
  sn_line : vlen (text (v_line v)) < INPUT_MAXSIZE;
  sn_history : vlen (v_history v) < INPUT_MAXSIZE;
  sn_world : ShellSpec.world_ok task_regs d' (v_world v);
}.

Lemma edit_room h z key :
  tidy (vlen prompt_cells) h z key = true → vlen (text z) < INPUT_MAXSIZE → vlen h < INPUT_MAXSIZE →
  vlen (text (edit h z key)) < INPUT_MAXSIZE.
Proof.
  intros Ht Hz Hh. destruct z as [b a]. rewrite vlen_text in Hz. destruct key as [k|ch]; cbn [edit tidy fst snd] in *.
  - destruct k; rewrite ?vlen_text; try done.
    + destruct b as [|x b _] using rev_ind; [exact Hz|].
      rewrite last_snoc, take_pred_snoc, vlen_text, vlen_cons. rewrite vlen_app in Hz. change (vlen [x]) with 1 in Hz. lia.
    + destruct a as [|x a]; rewrite vlen_text; [done|]. rewrite vlen_app. rewrite vlen_cons in Hz. change (vlen [x]) with 1. lia.
    + change (vlen []) with 0. lia.
  - destruct (ch =? 127); [rewrite vlen_text; destruct a; [done|]; rewrite vlen_cons in Hz; cbn; lia|].
    destruct (ch =? 8); [rewrite vlen_text; unfold vlen in *; rewrite length_take; lia|].
    destruct (printable ch); cbn [andb] in *; [|by rewrite vlen_text].
    destruct (N.leb_spec (vlen b) (INPUT_MAXSIZE - 2)); rewrite vlen_text; [|done]. rewrite vlen_app. change (vlen [ch]) with 1.
    destruct a as [|x a]; [change (vlen []) with 0; unfold INPUT_MAXSIZE in *; lia|].
    apply andb_true_iff in Ht as [_ Ht%N.ltb_lt]. rewrite vlen_text in Ht. lia.
Qed.

Lemma step_safe m v r :
  sane v → (entered m v → ¬ ShellSpec.fails d' (Shell.split_whitespace (text (v_line v))) (v_world v)) →
  step m v = Some r → ∃ v', r = Ok v' ∧ sane v'.
Proof.
  intros [Hl Hhi Hw] Hh. destruct m as [|data]; cbn [console_step entered] in *; [intros [= <-]; by eexists|].
  destruct (decode data (v_keyboard v)) as [[key|] kb]; cbn [fst] in Hh; [|intros [= <-]; by eexists].
  destruct (decide (key = Unicode 10)) as [->|].
  - intros [= <-]. unfold enter.
    destruct (ShellSpec.shell_lines_run (A := A) e820 map cr3 tables flags_text task_main_addr rflags_now stack_end task_regs main_regs
      d d' (text (v_line v)) (v_tick v) (v_world v) HM Hw) as [_ Hok]; [lia|].
    destruct (Hok (Hh eq_refl)) as (out & w' & -> & Hw' & _). mred. eexists. split; [done|]. by split.
  - destruct (tidy (vlen prompt_cells) (v_history v) (v_line v) key) eqn:Ht; [|done].
    intros [= <-]. eexists. split; [done|]. split; [by apply edit_room|done|done].
Qed.

Lemma run_safe msgs v r :
  sane v → harmless msgs v → run msgs v = Some r → ∃ v', r = Ok v' ∧ sane v'.
Proof.
  revert v. induction msgs as [|m msgs IH]; intros v Hs Hh; cbn [console_run]; [intros [= <-]; by exists v|].
  destruct Hh as [Hh Hrest]. destruct (step m v) as [r'|] eqn:Hst; [|done].
  destruct (step_safe m v r' Hs Hh Hst) as (v' & -> & Hs'). apply (IH v' Hs'). by apply Hrest.
Qed.
End console.

(** ** From power-on *)
Section session.
Context `{AV : ArrayVec V INPUT_MAXSIZE} {S : Type} `{SerialPort S} `{PcKeyboard K E}.
Context `{NumInteger, MemoryMap.NumEnum, MemoryMap.SortUnstable, XP : PageTable.X86Paging, PageTable.NumIter, MemoryMap.X86Addr, RE : !Startup.RawEntry}.
Context `{ChainedPics P, GlobalDescriptorTable G, Shell.ArgVec A}.
Context `{Detect.Bios B} (b b' : B) `{LongMode.Processor} (gate : bool) (img : LongMode.image) (eflags : N) (c : LongMode.cpu).
Context `{Bootloader.Disk D} (disk : N → N) (stage_sectors drive : N) (d0 : D).
Context (port_read : list (N * N) → N → N) (video_memory : list VideoRow) (tmptable stack : N) (memory : N → N).
Context (flags_text : PageTable.PageTableFlags → list N).
Context (task_main_addr rflags_now stack_end : N) (task_regs : N → Context.Context) (main_regs : Context.Context).

(** The machine that is switched on: what the BIOS, the diskette and the processor
    answer and what memory and devices are like.  [b'] is the BIOS's state when the
    gate is open. *)
Record powered (rs : list (MemoryMap.MemoryMapEntry * N)) (mem : Detect.bytes_mem) (map : list MemoryMap.MemoryMapEntry) : Prop := {
  pw_bytes : Detect.bytes mem ∧ Detect.bytes disk;
  pw_disk : ∃ failing k, Bootloader.holds_disk drive disk failing ∧ failing k d0;
  pw_stage : 0 < stage_sectors ≤ 1216 ∧ LongMode.lma_start img + LongMode.kernel_size img ≤ Bootloader.stage_start + 512 * stage_sectors;
  pw_gate : Detect.opens gate b b';
  pw_lists : Detect.lists b' 0 rs;
  pw_typed : Forall (λ r, E820.entry_typed r.1) rs;
  pw_room : Detect.MEMORY_MAP + 8 + 24 * vlen (Detect.detected rs) + 24 ≤ 0x7000;
  pw_ends : Forall (λ e, MemoryMap.base e + MemoryMap.size e < W64) (Detect.detected rs);
  pw_capable : LongMode.capable eflags;
  pw_image : LongMode.image_fits img;
  pw_zero a : MemoryMap.DYNMEM_START_PHYS ≤ a < MemoryMap.DYNMEM_START_PHYS + 12288 → mem a = 0;
  pw_tmp a : 0x1004 ≤ a < 0x1008 → mem a = 0;
  pw_stack : Startup.on_stack tmptable;
  pw_video : vlen video_memory = VIDEO_HEIGHT ∧ Forall wide video_memory;
  pw_dynmem : PageTable.DYNMEM_MAP (Detect.detected rs) = Ok map;
  pw_map : Startup.map_fits map;
}.

Lemma regions_end lo map : MemoryMapSpec.regions lo map → Forall (λ e, MemoryMap.base e + MemoryMap.size e < W64) map.
Proof. revert lo. induction map as [|e map IH]; intros lo; [constructor|]. intros (Hok & _ & Hr). constructor; [apply Hok|by eapply IH]. Qed.

(** [kmain] on the memory that the boot code leaves. *)
Abbreviation kmain m := (kmain (V := V) (S := S) (K := K) (E := E) (P := P) (G := G) port_read video_memory
  (Detect.mapped_low (Startup.bytes_of m)) Startup.PAGE_TABLE tmptable stack (Startup.tables_in m) memory).

(** The boot sector and the stage that it loads. *)
Definition power_on (fuel : nat) (mem : Detect.bytes_mem) : result (LongMode.cpu * Startup.dwords) :=
  '(_, mem) ← Bootloader.boot_sector stage_sectors drive fuel d0 mem;
  LongMode.boot_code fuel gate b img eflags c mem.

(** The kernel is in its place, as it is on the disk, and the map where the kernel
    looks for it. *)
Record boots (rs : list (MemoryMap.MemoryMapEntry * N)) (map : list MemoryMap.MemoryMapEntry)
    (c' : LongMode.cpu) (m : Startup.dwords) : Prop := {
  bs_mode : LongMode.code c' = LongMode.Bits64 ∧ LongMode.long_active c' = true ∧ LongMode.cr3 c' = Startup.PAGE_TABLE;
  bs_image k : k < LongMode.kernel_size img →
    Startup.bytes_of m (MemoryMap.KERNEL_START_PHYS + k) =
      disk (512 * Bootloader.stage_lba + (LongMode.lma_start img - Bootloader.stage_start) + k);
  bs_bss k : k < LongMode.bss_size img → Startup.bytes_of m (MemoryMap.KERNEL_START_PHYS + 0x100000 + k) = 0;
  bs_bios : E820.in_memory (Detect.detected rs) (Detect.mapped_low (Startup.bytes_of m));
  bs_tables : BootTables.boot_complete Startup.PAGE_TABLE tmptable map (Startup.tables_in m);
}.

Lemma powered_boots rs mem map : powered rs mem map → ∃ c' m, power_on (length rs) mem = Ok (c', m) ∧ boots rs map c' m.
Proof.
  intros []. unfold Detect.MEMORY_MAP in *. unfold power_on, LongMode.boot_code. destruct pw_bytes0 as [Hbm Hbd], pw_stage0 as [Hn Hst].
  destruct pw_disk0 as (failing & k0 & HD & Hk0).
  destruct (Bootloader.boot_sector_run stage_sectors drive disk failing HD (length rs) k0 d0 mem Hk0 Hn) as (d1 & mem1 & -> & Hload). mred.
  assert (Detect.bytes mem1) as Hb1 by (intros a; rewrite Hload; by destruct (_ && _)).
  destruct (Detect.real_mode_run gate rs b b' mem1 (length rs)) as (low & -> & Hmem & Hlow); [done..| |done|unfold Detect.MEMORY_MAP; lia|].
  { eapply Forall_impl; [|exact pw_typed0]. by intros r []. }
  mred. unfold Bootloader.stage_loaded, Bootloader.stage_start, Bootloader.stage_lba in *.
  assert (∀ a, a < 0x8000 ∨ 0xa0000 ≤ a → mem1 a = mem a) as Hout.
  { intros a Ha. rewrite Hload. destruct (N.leb_spec 0x8000 a), (N.ltb_spec a (0x8000 + 512 * stage_sectors)); cbn [andb]; done || lia. } unfold Detect.elsewhere, Detect.MEMORY_MAP in Hlow.
  destruct (LongMode.startup_run img tmptable map eflags c (LongMode.dwords_of low)) as (c' & m & -> & [Hc HC _ [L1 L2 L3]]); [done..| | |].
  - intros a Ha Ha4. pose proof Ha as Ha'. unfold MemoryMap.DYNMEM_START_PHYS in Ha'.
    apply LongMode.dwords_of_zero; rewrite Hlow, Hout by lia; apply pw_zero0; unfold MemoryMap.DYNMEM_START_PHYS; lia.
  - apply LongMode.dwords_of_zero; rewrite Hlow, Hout by lia; apply pw_tmp0; lia.
  - exists c', m. split; [done|]. destruct pw_image0 as [[Hlo Hhi] _]. split; [done| |done| |done].
    + intros k Hk. rewrite L1, LongMode.bytes_of_dwords_of, Hlow by lia. rewrite N.mod_small by done.
      rewrite Hload, (proj2 (N.leb_le _ _)), (proj2 (N.ltb_lt _ _)) by lia. cbn [andb]. unfold Bootloader.stage_start, Bootloader.stage_lba. f_equal. lia.
    + destruct Hmem as [Hl He]. unfold E820.ENTRY_SIZE, Detect.mapped_low, Detect.MEMORY_MAP in *.
      split; [intros k Hk|intros i e k Hi Hk]; unfold Detect.mapped_low, Detect.MEMORY_MAP, E820.ENTRY_SIZE in *.
      * rewrite L3, LongMode.bytes_of_dwords_of, Hl by lia. apply N.mod_small, E820.le_byte_lt.
      * pose proof (lookup_lt_Some _ _ _ Hi) as Hlt. unfold vlen in *. rewrite L3, LongMode.bytes_of_dwords_of, (He i e k Hi Hk) by lia.
        apply N.mod_small, E820.entry_byte_lt.
Qed.

Lemma powered_run rs mem map early i :
  powered rs mem map → MemoryInit.dyn_layout map = Ok i →
  ∃ c' m st d d1, power_on (length rs) mem = Ok (c', m) ∧ boots rs map c' m ∧ kmain m early = Ok st ∧
    begins Startup.PAGE_TABLE tmptable (Startup.tables_in m) memory early map i st d ∧
    ShellSpec.machine_ok (Detect.detected rs) map Startup.PAGE_TABLE (page_tables st) d1 d.
Proof.
  intros HP Hi. destruct (powered_boots rs mem map HP) as (c' & m & Hst & HB). pose proof HB as HBo. destruct HP, HB as [_ _ _ Hbios HC].
  pose proof (BootTables.bc_ok _ _ _ _ HC) as HB. unfold Detect.MEMORY_MAP in *.
  pose proof (kmain_run (V := V) (S := S) (K := K) (E := E) (P := P) (G := G) port_read video_memory
    (Detect.mapped_low (Startup.bytes_of m)) Startup.PAGE_TABLE tmptable stack (Startup.tables_in m) memory early (Detect.detected rs) map) as Hk.
  rewrite Hi in Hk. destruct Hk as (st & d & Hk & HG).
  { split; [exact pw_video0|lia|exact (Detect.detected_typed rs pw_typed0)|exact Hbios|exact pw_dynmem0|exact HB]. }
  destruct (be_booted _ _ _ _ _ _ _ _ _ HG) as (d1 & Hb & HD). exists c', m, st, d, d1. split; [exact Hst|].
  split; [exact HBo|]. split; [exact Hk|]. split; [exact HG|].
  destruct (BootTables.dyn_mapped_space _ _ _ _ HC _ _ _ HD) as [Htop Hread _ _ _].
  split; [exact Hb|exact pw_ends0| |exact Htop|exact Hread]. by eapply regions_end, pw_map0.
Qed.

(** C16: from power-on to the halt.  The machine ([powered]) has a processor with
    long mode, a diskette that holds the image and fails at most four reads in a row
    ([holds_disk]), and a gate that opens; its memory map fits below [0x7000],
    no entry reaches the end of the address space, its usable memory from
    [DYNMEM_START_PHYS] on starts there with three pages, and has a layout for
    the allocator; these pages, and memory from [0x1004] to [0x1007], which the
    boot code uses without writing them, hold zeroes.  Then the boot sector loads the sectors of the kernel from the
    diskette, although single reads may fail, the code of [startup.S] opens the A20 gate, detects
    memory, sets up its page tables, enters 64-bit mode and copies the kernel to
    its place, and [kmain] reaches the main loop; then, under every schedule of
    interrupts, as long as the keys are tidy, so that [console_run] has an
    outcome, and none of the lines
    entered is one of the shell's panicking commands, the kernel does not panic:
    it handles all messages, halts with an empty queue, shows what
    [console_step] computes from them, and its allocator and test task are in
    order. *)
Theorem kernel_survives rs mem map early i :
  powered rs mem map → MemoryInit.dyn_layout map = Ok i →
  ∃ c' m st d, power_on (length rs) mem = Ok (c', m) ∧ boots rs map c' m ∧ kmain m early = Ok st ∧
    let serve := serve_line (A := A) (Detect.detected rs) map Startup.PAGE_TABLE (page_tables st) flags_text task_main_addr rflags_now stack_end task_regs main_regs in
    let run := console_run (A := A) (Detect.detected rs) map Startup.PAGE_TABLE (page_tables st) flags_text task_main_addr rflags_now stack_end task_regs main_regs in
    ∀ arrived taken now,
      Schedule.exec keyboard_handler serve (EventLoop.Top, kernel_start st) arrived taken now →
      let msgs := take (N.to_nat BUFFER_SIZE) early ++ taken in
      harmless (A := A) (E := E) (Detect.detected rs) map Startup.PAGE_TABLE (page_tables st) flags_text task_main_addr rflags_now stack_end task_regs main_regs
        d msgs (boot_view (E := E) memory d) →
      is_Some (run msgs (boot_view (E := E) memory d)) →
      ∃ n k v, EventLoop.iter_main keyboard_handler serve n now = Ok (EventLoop.Halted, k) ∧
        RingBuffer.repr BUFFER_SIZE (EventLoop.queue k) [] ∧
        run msgs (boot_view (E := E) memory d) = Some (Ok v) ∧ viewed k v ∧ ShellSpec.world_ok task_regs d (v_world v).
Proof.
  intros HP Hi. destruct (powered_run rs mem map early i HP Hi) as (c' & m & st & d & d1 & Hst & Hbo & Hk & HB & HM).
  exists c', m, st, d. split; [exact Hst|]. split; [exact Hbo|]. split; [exact Hk|]. intros serve run arrived taken now He msgs Hh [r Hr].
  destruct (run_safe (A := A) (E := E) (Detect.detected rs) map Startup.PAGE_TABLE (page_tables st) flags_text task_main_addr rflags_now stack_end task_regs main_regs
    d1 d HM msgs (boot_view (E := E) memory d) r) as (v & -> & Hs); [split; [done|done|left; apply HB]|exact Hh|exact Hr|].
  destruct (session_run (Detect.detected rs) map Startup.PAGE_TABLE (page_tables st) flags_text task_main_addr rflags_now stack_end task_regs main_regs
    (kernel_start st) (boot_view (E := E) memory d) _ arrived taken now (Ok v) (be_view _ _ _ _ _ _ _ _ _ HB) (be_queue _ _ _ _ _ _ _ _ _ HB) He Hr)
    as (n & k & Hn & Hq & HV).
  exists n, k, v. split; [exact Hn|]. split; [exact Hq|]. split; [exact Hr|]. split; [exact HV|]. apply Hs.
Qed.
End session.

(** ** An example

    Three regions and one that is ignored, memory full of zeroes, a diskette on
    which two reads fail, a gate that the BIOS opens, and "tick" typed while the kernel starts. *)
Import MemoryMapSpec PageTableSpec MemoryInit ShellSpec Startup LongMode.

#[local] Existing Instance Detect.list_bios.
#[local] Existing Instance Bootloader.demo_drive.

Definition demo_list : list (MemoryMap.MemoryMapEntry * N) :=
  ((λ e, (e, 20)) <$> demo_e820) ++ [(MemoryMap.mkEntry 0x100 0 1 1, 24)].
Definition demo_found : list MemoryMap.MemoryMapEntry :=
  [MemoryMap.mkEntry 0x800000 0x8000 1 1; MemoryMap.mkEntry 0x900000 0xc000 1 1].

Lemma demo_powered : powered demo_list demo_list false demo_image 2 Bootloader.demo_disk 300 0 2%nat blank_video demo_tmptable demo_list (λ _, 0) demo_found.
Proof.
  split.
  - split; [done|]. intros x. by apply N.mod_lt.
  - eexists _, 2%nat. split; [exact Bootloader.demo_holds|]. split; [reflexivity|lia].
  - vm_compute. split; [split; [reflexivity|discriminate]|discriminate].
  - by exists 0.
  - apply Detect.list_bios_lists. unfold Detect.sizes. repeat constructor; cbn; rewrite !elem_of_cons; tauto.
  - repeat constructor.
  - vm_compute. discriminate.
  - repeat constructor.
  - exact demo_capable.
  - exact demo_image_fits.
  - done.
  - done.
  - split; [split; [vm_compute; discriminate|vm_compute; reflexivity]|vm_compute; reflexivity].
  - split; [reflexivity|by apply Forall_replicate].
  - vm_compute. reflexivity.
  - split; [split_and!; try done; split; done|repeat constructor; done|vm_compute; reflexivity|].
    eexists _, _. split; [reflexivity|]. split; [reflexivity|]. vm_compute. discriminate.
Qed.

(** A message that enters no panicking command, and the rest. *)
Ltac calm :=
  split; [vm_compute; first [by intros [] | by intros [=] | by intros _ []]|];
  let v := fresh "v" in let Hv := fresh "Hv" in intros v Hv; vm_compute in Hv; injection Hv as <-.

Local Abbreviation pics_type := (option (N * N) * (N * N) * list N * (N * N))%type.

Lemma kernel_survives_witness :
  ∃ c m st n k, power_on demo_list false demo_image 2 demo_cpu 300 0 2%nat (length demo_list) (λ _, 0) = Ok (c, m) ∧ code c = Bits64 ∧ bytes_of m 0x200000 = 35 ∧
    kmain (V := bounded_vec) (S := list N) (G := N) (K := unit) (E := N) (P := pics_type) (λ _ _, 0) blank_video
      (Detect.mapped_low (bytes_of m)) PAGE_TABLE demo_tmptable 0x300000 (tables_in m) (λ _, 0) early_keys = Ok st ∧
    EventLoop.iter_main (keyboard_handler (E := N)) (serve_line (A := list (list N)) (Detect.detected demo_list) demo_found PAGE_TABLE (page_tables st) (λ _, [])
      0x400000 518 8584 Task.demo_regs Context.context_new) n (EventLoop.Top, kernel_start st) = Ok (EventLoop.Halted, k).
Proof.
  assert (∃ i, dyn_layout demo_found = Ok i) as (i & Hi) by (eexists; vm_compute; reflexivity).
  destruct (kernel_survives (V := bounded_vec) (S := list N) (G := N) (K := unit) (E := N) (P := pics_type) (A := list (list N)) demo_list demo_list
    false demo_image 2 demo_cpu Bootloader.demo_disk 300 0 2%nat (λ _ _, 0) blank_video demo_tmptable 0x300000 (λ _, 0) (λ _, []) 0x400000 518 8584 Task.demo_regs Context.context_new
    demo_list (λ _, 0) demo_found early_keys i demo_powered Hi) as (c & m & st & d & Hst & Hbo & Hk & Hrun).
  destruct (Hrun [] [] (EventLoop.Top, kernel_start st) (Schedule.exec_nil _ _ _)) as (n & k & v & Hn & _).
  - change (take (N.to_nat BUFFER_SIZE) early_keys ++ []) with early_keys. unfold early_keys. cbn [harmless].
    do 7 calm. exact I.
  - vm_compute. by eexists.
  - exists c, m, st, n, k. split; [exact Hst|]. split; [apply Hbo|].
    split; [exact (bs_image _ _ _ _ _ _ _ Hbo 0 eq_refl)|]. split; [exact Hk|]. exact Hn.
Defined.

End Session.
