(* ===== verification/Tests.v ===== *)
(** * The repository's unit tests, run in the model

    [buddyblock/tests/tests.rs], the tests of [kernel/src/memory.rs], and a
    selection of [slab_alloc/src/test_pagelist.rs] and [test_slab.rs] (one of
    each kind, none with random numbers), as programs over the definitions of
    the development: the model passes the tests that the program passes.  What
    a test only prints or writes into its own objects is left out. *)
From stdpp Require Import gmap.
From S2P Require Import Prelude Buddy BuddySpec Slab SlabPage SlabSpec MemoryMap MemoryMapSpec PageTable PageTableWalk.
Local Open Scope N_scope.

Module Tests.

(** ** [buddyblock/tests/tests.rs]: a chunk of 2 MB *)
Section buddy.
Import Buddy.

Definition create_buddy : result BuddyBlock := buddy_new 0x200000 0x200000.

Fixpoint calc_lev_bitlen (fuel : nat) (blocks level bitlen : N) : N * N :=
  match fuel with
  | O => (level, bitlen)
  | S fuel =>
      if N.shiftr blocks level =? 0 then (level, bitlen)
      else calc_lev_bitlen fuel blocks (level + 1) (bitlen + (N.shiftr blocks level + 7) / 8)
  end.

Definition test_new : result bool :=
  buddy ← create_buddy;
  let units' := 0x1ff000 / UNIT_SIZE in
  let '(level, bitlen) := calc_lev_bitlen 64 units' 0 0 in
  let i := info buddy in
  a ← data_addr i;
  Ok ((raw_addr i =? 0x200000) && (total_len i =? 0x200000) && (metadata_len i =? level * 16 + bitlen) &&
      (data_offset i =? UNIT_SIZE) && (units i =? units') && (levels i =? level) && (a =? 0x200000 + UNIT_SIZE)).

(** The requests of a level, one byte short of a block and freed from their
    second byte on. *)
Definition test_seq_level (level : N) (buddy : BuddyBlock) : result BuddyBlock :=
  let block_count := N.shiftr (units (info buddy)) level in
  let size := N.shiftl UNIT_SIZE level in
  assert (used buddy =? 0);;
  buddy ← for_each (range 0 block_count) (λ _ buddy, '(r, buddy) ← alloc buddy (size - 1); expect r;; Ok buddy) buddy;
  len ← data_len (info buddy);
  assert (used buddy =? len / size * size);;
  buddy ← for_each (range 0 block_count) (λ index buddy,
    a ← data_addr (info buddy); dealloc buddy (a + size * index + 1) (size - 1)) buddy;
  assert (used buddy =? 0);;
  Ok buddy.

Definition test_seq : result BuddyBlock :=
  buddy ← create_buddy;
  for_each (range 0 (levels (info buddy))) test_seq_level buddy.

Example test_new_passes : test_new = Ok true.
Proof. vm_compute. reflexivity. Qed.

(** The chunk is left as it was created. *)
Example test_seq_passes : test_seq = create_buddy ∧ is_Some (match create_buddy with Ok b => Some b | Panic _ => None end).
Proof. split; vm_compute; [reflexivity|by eexists]. Qed.
End buddy.

(** ** The tests of [kernel/src/memory.rs] *)
Section memory.
Import MemoryMap MemoryMapSpec.

Definition test_map : list MemoryMapEntry :=
  [mkEntry 0x03000000 0x01000000 1 0; mkEntry 0x00000000 0x01040000 1 0;
   mkEntry 0x02000000 0x01000000 1 0; mkEntry 0x01000000 0x01000000 1 0].
Definition expected_map : list MemoryMapEntry :=
  [mkEntry 0x00800000 0x00840000 1 0; mkEntry 0x01040000 0x00fc0000 1 0;
   mkEntry 0x02000000 0x01000000 1 0; mkEntry 0x03000000 0x01000000 1 0].

Definition test_create_dynmem_map : result (list MemoryMapEntry) :=
  '(len, buffer) ← create_dynmem_map test_map (replicate 16 entry_zero);
  Ok (take (N.to_nat len) buffer).

Example test_create_dynmem_map_passes : test_create_dynmem_map = Ok expected_map.
Proof. vm_compute. reflexivity. Qed.

(** The length of the page tables that [test_create_dyn_page] expects. *)
Definition test_expected_len (dyn_size : N) : N :=
  let pages := div_ceil dyn_size 4096 in
  let pts := div_ceil pages 512 in
  let directories := div_ceil pts 512 in
  let pdts := div_ceil directories 512 in
  let pointers := div_ceil pts 512 in
  let pdpts := div_ceil pointers 512 in
  pts * 4096 + pdts * 4096 + pdpts * 4096.

(** It is what the tables take, for the two sizes tested; see
    [PageTableSpec.init_dyn_page_maps]. *)
Example test_create_dyn_page_passes :
  ∀ size, size ∈ [0x01000000; 0x03800000] → PageTableWalk.tables_needed (size / 4096) * 4096 = test_expected_len size.
Proof. intros size [->|[->|[]%not_elem_of_nil]%elem_of_cons]%elem_of_cons; vm_compute; reflexivity. Qed.

(** With a second page directory the expectation is too low: it counts one
    directory for 512 times as much memory as one covers. *)
Example test_expected_len_low :
  PageTableWalk.tables_needed (0x40000000 / 4096) * 4096 = test_expected_len 0x40000000 + 4096.
Proof. vm_compute. reflexivity. Qed.
End memory.

(** ** [slab_alloc/src/test_pagelist.rs] *)
Section pagelist.
Import Slab.

#[local] Instance link_eq_dec : EqDecision PageLink.
Proof. solve_decision. Defined.

(** Links at the addresses of [ps], all null. *)
Definition fresh_links (ps : list N) : mem := mkMem (list_to_map ((λ p, (p, link_null)) <$> ps)) ∅.
Definition pushed (ps : list N) : result (PageList * mem) :=
  for_each ps (λ p '(l, m), push_back l p m) (list_new, fresh_links ps).

(** Head, tail and links after an operation. *)
Definition ends_with (r : result (PageList * mem)) (h t : N) (ks : list (N * N * N)) : bool :=
  match r with
  | Ok (l, m) =>
      (head l =? h) && (tail l =? t) &&
      forallb (λ '(p, n, q), bool_decide (links m !! p = Some (mkLink n q))) ks
  | Panic _ => false
  end.

Example test_pagelist_assign_singleton : ends_with (assign_singleton list_new 8 (fresh_links [8])) 8 8 [(8, 0, 0)] = true.
Proof. reflexivity. Qed.
Example test_pagelist_push_back_single : ends_with (pushed [8]) 8 8 [(8, 0, 0)] = true.
Proof. reflexivity. Qed.
Example test_pagelist_push_back_multiple : ends_with (pushed [8; 16]) 8 16 [(8, 16, 0); (16, 0, 8)] = true.
Proof. reflexivity. Qed.
Example test_pagelist_remove_only_element :
  ends_with ('(l, m) ← pushed [8]; remove l 8 m) 0 0 [(8, 0, 0)] = true.
Proof. reflexivity. Qed.
Example test_pagelist_remove_head :
  ends_with ('(l, m) ← pushed [8; 16]; remove l 8 m) 16 16 [(16, 0, 0); (8, 0, 0)] = true.
Proof. reflexivity. Qed.
Example test_pagelist_remove_tail :
  ends_with ('(l, m) ← pushed [8; 16]; remove l 16 m) 8 8 [(16, 0, 0); (8, 0, 0)] = true.
Proof. reflexivity. Qed.
Example test_pagelist_remove_middle :
  ends_with ('(l, m) ← pushed [8; 16; 24]; remove l 16 m) 8 24 [(8, 24, 0); (24, 0, 8); (16, 0, 0)] = true.
Proof. reflexivity. Qed.
End pagelist.

(** ** [slab_alloc/src/test_slab.rs] *)
Section slab.
Import Slab SlabPage SlabSpec.

(** Pages are taken one after the other and never again. *)
Record MockPageAllocator := mkMock { mock_pages : list N; mock_next : N }.
Definition mock_new : MockPageAllocator := mkMock [] 0x10000.

#[local] Instance mock_page_allocator : PageAllocator MockPageAllocator := {
  allocate pa := Ok (Some (mock_next pa), mkMock (mock_pages pa ++ [mock_next pa]) (mock_next pa + PAGE_SIZE));
  deallocate pa p :=
    if bool_decide (p ∈ mock_pages pa) then Ok (mkMock (filter (λ q, q ≠ p) (mock_pages pa)) (mock_next pa))
    else Panic Expect;
}.

Local Abbreviation state := (SlabAllocator MockPageAllocator * mem)%type.
Definition fresh : state := (slab_new mock_new, mkMem ∅ ∅).

Definition get (T : TypeLayout) (st : state) : result (N * state) :=
  '(r, s, m) ← alloc T st.1 st.2; p ← expect r; Ok (p, (s, m)).
Definition give (T : TypeLayout) (p : N) (st : state) : result state := dealloc T st.1 st.2 p.

(** [n] objects, in the order of their allocation. *)
Definition get_many (T : TypeLayout) (n : N) (st : state) : result (list N * state) :=
  for_each (range 0 n) (λ _ '(ps, st), '(p, st) ← get T st; Ok (ps ++ [p], st)) ([], st).

(** [n] objects are aligned and can be freed in order; then no page is kept. *)
Definition test_alignment (size align n : N) : result bool :=
  let T := mkT size align in
  '(ps, st) ← get_many T n fresh;
  st ← for_each ps (give T) st;
  Ok (forallb (λ p, p mod align =? 0) ps && bool_decide (mock_pages (page_allocator st.1) = [])).

Example test_slab_alignment :
  ∀ sa n, (sa, n) ∈ [(64, 8, 1); (24, 8, 1); (32, 16, 1); (128, 64, 1); (64, 32, 10); (256, 128, 5); (256, 256, 1); (1, 1, 1); (1024, 1024, 1)] →
    test_alignment sa.1 sa.2 n = Ok true.
Proof.
  intros sa n Hin. repeat (apply elem_of_cons in Hin as [[= -> ->]|Hin]; [vm_compute; reflexivity|]).
  by apply not_elem_of_nil in Hin.
Qed.

(** [test_slab_exhaustion_and_reuse], with 4096 / 32 objects and one more. *)
Definition test_exhaustion_and_reuse : result bool :=
  let T := mkT 32 16 in
  '(ps, st) ← get_many T (PAGE_SIZE / 32) fresh;
  '(extra, st) ← get T st;
  st ← for_each (ps ++ [extra]) (give T) st;
  '(p, st) ← get T st;
  st ← give T p st;
  Ok (bool_decide (NoDup (extra :: ps)) && bool_decide (mock_pages (page_allocator st.1) = [])).

Example test_slab_exhaustion_and_reuse : test_exhaustion_and_reuse = Ok true.
Proof. vm_compute. reflexivity. Qed.

(** [test_slab_alloc_dealloc_full_page_cycle]: one page is enough for the objects of a page. *)
Definition test_full_page_cycle : result bool :=
  let T := mkT 32 8 in
  let chunks_per_page := (PAGE_SIZE - object_offset T) / object_size_of T in
  '(ps, st) ← get_many T chunks_per_page fresh;
  let one := bool_decide (length (mock_pages (page_allocator st.1)) = 1%nat) in
  st ← for_each ps (give T) st;
  '(_, st) ← get_many T chunks_per_page st;
  Ok (one && bool_decide (length (mock_pages (page_allocator st.1)) = 1%nat)).

Example test_slab_full_page_cycle : test_full_page_cycle = Ok true.
Proof. vm_compute. reflexivity. Qed.

(** [test_slab_null_alloc_returns_none] *)
#[local] Instance failing_allocator : PageAllocator unit := { allocate pa := Ok (None, pa); deallocate pa _ := Ok pa }.

Example test_slab_null_alloc_returns_none :
  alloc (mkT 64 8) (slab_new tt) (mkMem ∅ ∅) = Ok (None, slab_new tt, mkMem ∅ ∅).
Proof. reflexivity. Qed.

(** [test_slab_large_chunk]: the test's comment says that two objects of half a
    page fit in a page; with the red zones each takes a page of its own. *)
Definition test_large_chunk : result N :=
  '(_, st) ← get_many (mkT (PAGE_SIZE / 2) 8) 3 fresh;
  Ok (vlen (mock_pages (page_allocator st.1))).

Example test_slab_large_chunk : test_large_chunk = Ok 3.
Proof. vm_compute. reflexivity. Qed.

(** [test_slab_double_free_panics] *)
Definition test_double_free : result (result state) :=
  let T := mkT 32 8 in
  '(p, st) ← get T fresh;
  st ← give T p st;
  Ok (give T p st).

Example test_slab_double_free_panics : match test_double_free with Ok (Panic _) => true | _ => false end = true.
Proof. vm_compute. reflexivity. Qed.

(** [test_slab_redzone_detection_on_overflow] and [_on_underflow]: a byte behind
    the payload, and one before it. *)
Definition poke (rz1 rz2 : list N → list N) : result (result (SlabAllocator MockPageAllocator * mem)) :=
  let T := mkT 32 8 in
  '(p, st) ← get T fresh;
  o ← load_obj st.2 (p - payload_offset T);
  m ← store_obj (p - payload_offset T) (mkObj (magic o) (next o) (rz1 (redzone1 o)) (payload o) (rz2 (redzone2 o))) st.2;
  Ok (give T p (st.1, m)).

Example test_slab_redzone_detection :
  poke id (<[0%nat := 0xaa]>) = Ok (Panic Assertion) ∧
  poke (λ r, <[pred (length r) := 0xbb]> r) id = Ok (Panic Assertion).
Proof. split; vm_compute; reflexivity. Qed.

(** [test_slab_redzone_integrity_on_normal_use] *)
Definition test_normal_use : result bool :=
  let T := mkT 32 8 in
  '(p, st) ← get T fresh;
  m ← write_payload T st.2 p (range 0 32);
  st ← give T p (st.1, m);
  Ok (bool_decide (mock_pages (page_allocator st.1) = [])).

Example test_slab_normal_use : test_normal_use = Ok true.
Proof. vm_compute. reflexivity. Qed.

(** [test_slab_alloc_dealloc_zero_sized_type] *)
Definition test_zero_sized : result bool :=
  let T := mkT 0 8 in
  '(ps, st) ← get_many T 2 fresh;
  st ← for_each ps (give T) st;
  Ok (bool_decide (NoDup ps)).

Example test_slab_zero_sized : test_zero_sized = Ok true.
Proof. vm_compute. reflexivity. Qed.
End slab.

End Tests.
